(* ===== verification/_CoqProject ===== *)
-Q . S2P
Prelude.v
Mem.v
Pmm.v
Vmm.v
VmmTree.v
VmmSpec.v
VmmThms.v
VmmAlloc.v
VmmInit.v
Heap.v
Allocator.v
AllocInit.v
Util.v
Str.v
StrLib.v
HeapStatus.v
Ata.v
Fs.v
FsThms.v
FsEdit.v
FsPath.v
FsWrite.v
FsDelete.v
FsOps.v
FsList.v
FsMove.v
FsRmdir.v
FsInit.v
Gdt.v
Scheduler.v
SchedSpec.v
SchedThms.v
Keyboard.v
Shell.v
ShellPath.v
ShellThms.v
ShellLine.v
Screen.v
ScreenThms.v
Kernel.v
Interrupts.v
Syscall.v
Stubs.v
Entry.v
Loader.v
LoaderThms.v
UserMem.v
System.v
SystemHeap.v
