(* ===== verification/Prelude.v ===== *)
(** * EitanOS verification library

    EitanOS is a small 64-bit x86 kernel in C with one user program, a shell.
    The boot loader starts [kernel_main] (src/kernel.c), which brings up the
    screen, the segment descriptors, the physical and virtual memory managers,
    the process scheduler, the interrupts and the filesystem, loads the shell
    and then polls the keyboard for ever.  The shell runs in its own address
    space; it reaches the kernel through [int 0x80], which src/process/interrupts.c
    dispatches to the screen, the heap, the filesystem, the program loader and
    the scheduler.  Every other part of the kernel takes memory from the heap
    (memory/allocator.c), the heap takes pages from the virtual memory manager
    (memory/vmm.c), and that takes frames from the physical one (memory/pmm.c).
    File names below are those under src/src/ of the repository, and
    src/programs/ for the shell.

    ** How C is represented

    A function is a computation in the monad [M S] of this file: from a state
    [S] it gives [OK] with a result and a state, [Panic msg] where the code
    calls [panic] (util/panic.c: print, then halt), [UB] where C or the machine
    leaves the behaviour open (an access out of a buffer or to an unmapped
    page, a signed overflow, a conversion out of range) or [NoFuel].  The state
    of a component is a record of its static variables with the memory or
    devices it drives; [zoom] runs a component inside a larger one.  Integers
    are [Z] kept at their width by [wrap] and [swrap] where the code can leave
    it.  [wp m Q s] says that [m] run from [s] returns and ends in [Q]: it is
    total correctness, excluding panic, undefined behaviour and a lack of fuel,
    so every theorem of the form [wp ... ] is also one of termination.

    ** Files

    - [Prelude]: machine integers, the monad, [wp] and its rules, tactics.
      [Mem]: physical memory as bytes with 8-, 16-, 32- and 64-bit accesses.
    - [Pmm] (memory/pmm.c): the bitmap allocator of frames.  It refines a set
      of free frames, never hands out a frame twice, and is set up from the
      memory map; the page after each usable region is freed too.
    - [Vmm] (memory/vmm.c): the four-level page tables, every function.
      [VmmTree] is the tables as a tree of paths, [VmmSpec] the invariant and
      the translation of an address, [VmmThms] mapping and unmapping one page,
      [VmmAlloc] ranges of pages with the roll-back on failure, [VmmInit] the
      start of both managers, which establishes the invariant.
    - [Heap] (memory/allocator.c): first fit with coalescing, over the class
      [WordOps] of word memories; a heap is a tiling of its range, on which
      malloc and free are functions.  [Allocator] is the file's entry points
      over memory accessed through the page tables, [AllocInit] the creation
      of the kernel's and the processes' heaps and the two operations on them,
      [HeapStatus] the listing of the free blocks.
    - [Util], [Str], [StrLib] (util/util.c, util/string.c): numbers, memcpy,
      strings in bounded buffers; malloc there is an oracle that may fail.
    - [Ata], [Fs] (filesystem.c): the polled transfers of the ATA driver and
      the filesystem over them.  [FsThms], [FsEdit], [FsPath], [FsWrite],
      [FsDelete] hold the lemmas on the table, on files that move, on paths and
      on the two state-changing operations; [FsOps] has the theorems: writing
      keeps the filesystem well formed and changes one file, reading gives back
      what was written, deleting removes one file, and the requests that are
      mishandled.  [FsList] and [FsMove] are listing and moving, [FsRmdir] the
      recursive removal of directories, [FsInit] the identification of the
      drive and the start.
    - [Gdt] (gdt.c): the descriptor table, the task state segment, the loads.
    - [Scheduler] (process/process_scheduler.c): the ring of processes and the
      signals; [SchedSpec] is the abstract ring, [SchedThms] the refinement,
      the invariant and round robin.  The memory operations it calls are the
      class [Services], implemented by the components above in
      [kernel_services].
    - [Keyboard] (util/io.c), [Screen] and [ScreenThms] (screen.c): polling for
      scancodes; drawing characters into the frame buffer, the text buffer and
      scrolling.  [Kernel] (kernel.c): the start-up calls and the main loop.
    - [Interrupts], [Syscall] (process/interrupts.c): the interrupt table and
      controllers, the handlers, and the dispatch of the system calls over the
      class [SysOps].
    - [Stubs] (main_asm.S): the entry stubs as instruction lists on a machine
      with registers and a stack, and the feature bits; every stub is
      transparent.  [Entry] composes the processor's entry, a stub and its
      handler: the contract of the shell's [syscall], and that a preempted
      process resumes as it was.
    - [UserMem]: bytes, strings and buffers in the memory of the running
      program, reached through its page tables.  [System] implements [SysOps]
      with all the components over one state; its theorems take a call on a
      file from the program's memory through the gate, the dispatch, the
      filesystem and the drive, and back.  [SystemHeap] does the same for the
      shell's malloc and free.
    - [Loader], [LoaderThms] (process/program_loader.c): ELF checks, segments,
      the new process.
    - [Shell] (programs/shell/c.c): the shell; [ShellPath] normal forms of
      paths, [ShellThms] the commands, [ShellLine] reading and parsing a line.

    ** What the theorems show

    Memory: frames, page tables and heaps keep their invariants under every
    operation; a mapped page translates to its frame and no other translation
    changes; heap blocks never overlap and live data is never touched; the
    failure paths give back what they took.  Storage: transfers move exactly
    the sectors asked for against any drive that follows the protocol; the
    filesystem invariant (disjoint extents, a tree of directories with unique
    names, table and disk in agreement) is kept, and files other than the one
    named keep their contents.  Processes: the scheduler refines a ring, every
    process gets its turn and finds its registers as it left them, a system
    call changes RAX alone, a program file becomes one process or leaves no
    trace; a program's calls on files are the filesystem's operations on the
    bytes in its memory, and what it writes it reads back; its malloc and free
    reach the heap of its process.  Input and output: key presses, lines, paths and commands are read
    as typed, text reaches the screen's buffer and pixels.  Where the code does
    something it does not mean to do, a theorem states what it does.

    ** Devices, parameters and fuel

    Devices are classes of ports ([Ports]) with the documented protocol as
    laws ([AtaSpec], [IdentifySpec], [KeyboardSpec]); each class has a
    simulated device as an instance, which the examples run on.  The font and
    the program images are byte lists given as arguments.  A loop on counters
    or data recurses on a bound computed from them; a loop that polls or
    follows pointers takes fuel, and its theorem asks for more fuel than a
    measure of the state: the longest wait the device's laws allow, the number
    of free blocks, of processes, of queued key codes, of entries of the file
    table.  Path resolution and
    number printing use the bounds of their buffers.

    ** Not modelled

    The processor beyond memory, ports, model-specific registers and the
    loaded tables: the TLB ([invlpg]), caches, the address of the kernel stack,
    instruction execution in user mode, faults on loading a selector.
    The temporary buffers that strings, the filesystem and the loader allocate
    come from an oracle that may fail, not from the heap of [Allocator], also
    in [System].  Preemption inside a kernel function: interrupts are steps between
    operations; cli and sti in the loader are left out.  util.c works on
    [double]; the model takes exact rationals, which agree on the integers
    below 2^53 the callers pass.  VGA_screen.c,
    whose bodies are commented out; the generated arrays in compiled_fonts and
    compiled_programs; the third-party boot loader in limine-binary and its
    header apart from the memory map entries; the build files.  The copies of
    util.c and string.c in the shell are the same text as those modelled. *)
From Stdlib Require Export ZArith Lia.
From stdpp Require Export base gmap strings numbers list.

#[global] Open Scope Z_scope.
#[global] Set Default Goal Selector "!".

(** ** Machine integers

    A [w]-bit unsigned integer is a [Z] in [0, 2^w); the wrap-around of C's
    unsigned arithmetic is written out where the source may wrap. *)

Definition wrap (w x : Z) : Z := x mod 2 ^ w.
Abbreviation u8 := (wrap 8).
Abbreviation u16 := (wrap 16).
Abbreviation u32 := (wrap 32).
Abbreviation u64 := (wrap 64).

(** Two's complement reading of the low [w] bits (C's [int], [long], [char]). *)
Definition swrap (w x : Z) : Z := (x + 2 ^ (w - 1)) mod 2 ^ w - 2 ^ (w - 1).
Abbreviation s8 := (swrap 8).
Abbreviation s32 := (swrap 32).
Abbreviation s64 := (swrap 64).

Definition in_range (w x : Z) : Prop := 0 <= x < 2 ^ w.

#[global] Instance in_range_dec w x : Decision (in_range w x).
Proof. unfold in_range. apply _. Defined.

Lemma wrap_range w x : 0 <= w -> in_range w (wrap w x).
Proof. intros Hw. unfold in_range, wrap. apply Z.mod_pos_bound. lia. Qed.

Lemma wrap_id w x : in_range w x -> wrap w x = x.
Proof. unfold in_range, wrap. apply Z.mod_small. Qed.

Lemma wrap_wrap w x : wrap w (wrap w x) = wrap w x.
Proof. apply Zmod_mod. Qed.

Lemma wrap_testbit w x i : 0 <= w -> 0 <= i ->
  Z.testbit (wrap w x) i = (i <? w) && Z.testbit x i.
Proof.
  intros Hw Hi. unfold wrap. destruct (Z.ltb_spec i w).
  - by rewrite Z.mod_pow2_bits_low by lia.
  - by rewrite Z.mod_pow2_bits_high by lia.
Qed.

(** ** Outcomes

    A C computation returns a value, halts in [panic], performs an access the
    language leaves undefined (out of bounds, null or unmapped pointer), or
    runs longer than the fuel given to one of its unbounded loops. *)

Inductive outcome (A : Type) : Type :=
| OK (a : A)
| Panic (msg : string)
| UB
| NoFuel.
Arguments OK {A} a.
Arguments Panic {A} msg.
Arguments UB {A}.
Arguments NoFuel {A}.

Definition obind {A B} (m : outcome A) (k : A -> outcome B) : outcome B :=
  match m with
  | OK a => k a
  | Panic s => Panic s
  | UB => UB
  | NoFuel => NoFuel
  end.

Definition of_option {A} (o : option A) : outcome A :=
  match o with Some a => OK a | None => UB end.

(** A stateful C function over the state [S]. *)
Definition M (S A : Type) : Type := S -> outcome (A * S).

Definition ret {S A} (a : A) : M S A := fun s => OK (a, s).
Definition bind {S A B} (m : M S A) (k : A -> M S B) : M S B :=
  fun s => obind (m s) (fun '(a, s') => k a s').
Definition get {S} : M S S := fun s => OK (s, s).
Definition gets {S A} (f : S -> A) : M S A := fun s => OK (f s, s).
Definition modify {S} (f : S -> S) : M S unit := fun s => OK (tt, f s).
Definition undefined {S A} : M S A := fun _ => UB.
Definition panic {S A} (msg : string) : M S A := fun _ => Panic msg.
Definition out_of_fuel {S A} : M S A := fun _ => NoFuel.
Definition lift {S A} (o : outcome A) : M S A := fun s => obind o (fun a => OK (a, s)).

(** Run a computation on a component [T] of the state. *)
Definition zoom {S T A} (g : S -> T) (p : T -> S -> S) (m : M T A) : M S A :=
  fun s => obind (m (g s)) (fun '(a, t) => OK (a, p t s)).

Declare Scope c_scope.
Delimit Scope c_scope with c.
Notation "'let*' x ':=' m 'in' k" := (bind m (fun x => k))
  (at level 10, x pattern, m at level 100, k at level 200,
   format "'[v' 'let*'  x  ':='  m  'in' '/' k ']'") : c_scope.
Notation "m1 ;;; m2" := (bind m1 (fun _ => m2))
  (at level 100, m2 at level 200, right associativity) : c_scope.
#[global] Open Scope c_scope.

(** Counting loop: [n] iterations of [body] from index [i] upwards. *)
Fixpoint for_loop {S} (n : nat) (i : Z) (body : Z -> M S unit) : M S unit :=
  match n with
  | O => ret tt
  | S n' => body i ;;; for_loop n' (i + 1) body
  end.

(** ** The console

    [screen_print] is called by every component for its log; a component's
    state says how a message is recorded. *)

Class Console (S : Type) := emit : string -> S -> S.
Definition screen_print {S} `{Console S} (msg : string) : M S unit := modify (emit msg).

(** ** Automation *)

Create HintDb eos.

Ltac unfold_m :=
  unfold bind, obind, ret, get, gets, modify, undefined, panic, lift, zoom in *.
Ltac case_bool :=
  match goal with
  | H : context [if ?b then _ else _] |- _ => destruct b eqn:?
  | |- context [if ?b then _ else _] => destruct b eqn:?
  end.
Ltac reflect_Z :=
  repeat match goal with
  | H : (_ =? _) = true |- _ => apply Z.eqb_eq in H
  | H : (_ =? _) = false |- _ => apply Z.eqb_neq in H
  | H : (_ <=? _) = true |- _ => apply Z.leb_le in H
  | H : (_ <=? _) = false |- _ => apply Z.leb_gt in H
  | H : (_ <? _) = true |- _ => apply Z.ltb_lt in H
  | H : (_ <? _) = false |- _ => apply Z.ltb_ge in H
  | H : negb _ = true |- _ => apply negb_true_iff in H
  | H : negb _ = false |- _ => apply negb_false_iff in H
  | H : _ && _ = true |- _ => apply andb_true_iff in H as [? ?]
  | H : _ || _ = false |- _ => apply orb_false_iff in H as [? ?]
  end.

(** [lia] with division and remainder by constants. *)
Ltac divlia := Z.to_euclidean_division_equations; lia.

(** ** Generic lemmas *)

Lemma obind_OK {A B} (m : outcome A) (k : A -> outcome B) b :
  obind m k = OK b -> exists a, m = OK a /\ k a = OK b.
Proof. destruct m; simpl; try discriminate. eauto. Qed.

Lemma bind_OK {S A B} (m : M S A) (k : A -> M S B) s b s' :
  bind m k s = OK (b, s') -> exists a s1, m s = OK (a, s1) /\ k a s1 = OK (b, s').
Proof. intros ([a s1] & H1 & H2)%obind_OK. eauto. Qed.

Lemma bind_step {S A B} (m : M S A) (k : A -> M S B) s a s1 :
  m s = OK (a, s1) -> bind m k s = k a s1.
Proof. intros H. unfold bind. by rewrite H. Qed.

Lemma bind_assoc {S A B C} (m : M S A) (f : A -> M S B) (g : B -> M S C) s :
  bind (bind m f) g s = bind m (fun a => bind (f a) g) s.
Proof. unfold bind. by destruct (m s) as [[]| | |]. Qed.

Lemma zoom_OK {S T A} (g : S -> T) p (m : M T A) s a s' :
  zoom g p m s = OK (a, s') -> exists t, m (g s) = OK (a, t) /\ s' = p t s.
Proof. intros ([? t] & H1 & H2)%obind_OK. simplify_eq. eauto. Qed.

(** Rule for counting loops: an invariant of the index that every iteration
    preserves holds at the end, and the loop terminates normally. *)
Lemma for_loop_ind {S} (I : Z -> S -> Prop) (body : Z -> M S unit) n i s :
  I i s ->
  (forall j s1, i <= j < i + Z.of_nat n -> I j s1 ->
     exists s2, body j s1 = OK (tt, s2) /\ I (j + 1) s2) ->
  exists s', for_loop n i body s = OK (tt, s') /\ I (i + Z.of_nat n) s'.
Proof.
  revert i s. induction n as [|n IH]; intros i s HI Hstep; simpl.
  - exists s. split; [done|]. by rewrite Z.add_0_r.
  - destruct (Hstep i s) as (s2 & Hb & HI2); [lia|done|].
    rewrite (bind_step _ _ _ _ _ Hb).
    destruct (IH (i + 1) s2 HI2) as (s' & Hl & HI').
    { intros j s1 Hj. apply Hstep. lia. }
    exists s'. split; [done|]. by replace (i + Z.of_nat (Datatypes.S n)) with (i + 1 + Z.of_nat n) by lia.
Qed.

Lemma lookup_Z_lt {A} (l : list A) (i : Z) :
  0 <= i < Z.of_nat (length l) -> is_Some (l !! Z.to_nat i).
Proof. intros Hi. apply lookup_lt_is_Some. lia. Qed.

Lemma bit_shiftr_land1 b k : 0 <= k -> Z.land (Z.shiftr b k) 1 = Z.b2z (Z.testbit b k).
Proof.
  intros Hk. change 1 with (Z.ones 1). rewrite Z.land_ones by lia.
  change (2 ^ 1) with 2. rewrite <- Z.bit0_mod, Z.shiftr_spec by lia. done.
Qed.

Lemma testbit_one i : Z.testbit 1 i = (i =? 0).
Proof.
  destruct (Z.ltb_spec i 0).
  - rewrite Z.testbit_neg_r by lia. symmetry. apply Z.eqb_neq. lia.
  - change 1 with (2 ^ 0). rewrite Z.pow2_bits_eqb by lia. apply Z.eqb_sym.
Qed.

(** Bit fields put side by side. *)
Lemma lor_shiftl_add a f n : 0 <= n -> 0 <= a < 2 ^ n -> Z.lor a (Z.shiftl f n) = a + f * 2 ^ n.
Proof.
  intros Hn Ha. rewrite <- Z.shiftl_mul_pow2, <- Z.add_lor_land by lia.
  replace (Z.land a (Z.shiftl f n)) with 0; [lia|]. symmetry. apply Z.bits_inj'. intros i Hi.
  rewrite Z.land_spec, Z.bits_0. destruct (Z.ltb_spec i n).
  - by rewrite Z.shiftl_spec_low, andb_false_r by lia.
  - rewrite <- (Z.mod_small a (2 ^ n)) by lia.
    by rewrite Z.mod_pow2_bits_high by lia.
Qed.

Lemma land_ones_mod x k n : 0 <= k -> 0 <= n -> Z.land (Z.shiftr x k) (Z.ones n) = x / 2 ^ k mod 2 ^ n.
Proof. intros. by rewrite Z.land_ones, Z.shiftr_div_pow2. Qed.

(** ** Total correctness

    [wp m Q s]: run from [s], [m] terminates normally and [Q] holds of its
    result and final state. *)

Definition wp {S A} (m : M S A) (Q : A -> S -> Prop) (s : S) : Prop :=
  match m s with OK (a, s') => Q a s' | _ => False end.

Section Wp.
Context {St A B : Type}.
Implicit Types (Q : A -> St -> Prop) (s : St).

Lemma wp_OK (m : M St A) Q s : wp m Q s <-> exists a s', m s = OK (a, s') /\ Q a s'.
Proof.
  unfold wp. split.
  - destruct (m s) as [[a s']| | |]; [eauto|done..].
  - by intros (a & s' & -> & ?).
Qed.
Lemma wp_step (m : M St A) Q s a s' : m s = OK (a, s') -> Q a s' -> wp m Q s.
Proof. intros. apply wp_OK. eauto. Qed.
Lemma wp_ret (a : A) Q s : Q a s -> wp (ret a) Q s.
Proof. done. Qed.
Lemma wp_get (Q : St -> St -> Prop) s : Q s s -> wp get Q s.
Proof. done. Qed.
Lemma wp_gets (f : St -> A) Q s : Q (f s) s -> wp (gets f) Q s.
Proof. done. Qed.
Lemma wp_modify f (Q : unit -> St -> Prop) s : Q tt (f s) -> wp (modify f) Q s.
Proof. done. Qed.
Lemma wp_bind (m : M St B) (k : B -> M St A) Q s : wp m (fun b => wp (k b) Q) s -> wp (bind m k) Q s.
Proof. unfold wp, bind. by destruct (m s) as [[]| | |]. Qed.
Lemma wp_mono (m : M St A) (Q Q' : A -> St -> Prop) s :
  wp m Q s -> (forall a s', Q a s' -> Q' a s') -> wp m Q' s.
Proof. unfold wp. destruct (m s) as [[]| | |]; auto. Qed.
Lemma wp_zoom {T} (g : St -> T) p (m : M T A) Q s :
  wp m (fun a t => Q a (p t s)) (g s) -> wp (zoom g p m) Q s.
Proof. unfold wp, zoom. by destruct (m (g s)) as [[]| | |]. Qed.
Lemma wp_ext (m m' : M St A) Q s : m s = m' s -> wp m' Q s -> wp m Q s.
Proof. unfold wp. by intros ->. Qed.
Lemma wp_det (m : M St A) Q s a s' : wp m Q s -> m s = OK (a, s') -> Q a s'.
Proof. unfold wp. intros HQ E. by rewrite E in HQ. Qed.
End Wp.

Lemma wp_for_loop {St} (I : Z -> St -> Prop) (body : Z -> M St unit) n i s :
  I i s ->
  (forall j s1, i <= j < i + Z.of_nat n -> I j s1 -> wp (body j) (fun _ => I (j + 1)) s1) ->
  wp (for_loop n i body) (fun _ => I (i + Z.of_nat n)) s.
Proof.
  intros HI Hb. apply wp_OK. destruct (for_loop_ind I body n i s HI) as (s' & ? & ?); [|eauto].
  intros j s1 Hj Hj1. specialize (Hb j s1 Hj Hj1). apply wp_OK in Hb as ([] & s2 & ? & ?). eauto.
Qed.

#[global] Arguments wp : simpl never.

(** One step of a straight-line program. *)
Ltac wp_seq := apply wp_bind.
