(* ===== verification/Mem.v ===== *)
(** * Physical memory

    The machine's RAM as a finite map from physical byte addresses to bytes,
    with the little-endian reads and writes the C code performs through its
    pointers, and the lemmas that say which bytes each access touches. *)
From S2P Require Import Prelude.

Abbreviation mem := (gmap Z Z).

Definition rd8 (m : mem) (a : Z) : Z := u8 (default 0 (m !! a)).
Definition wr8 (m : mem) (a v : Z) : mem := <[a := u8 v]> m.

(** [n]-byte little-endian accesses. *)
Fixpoint rdn (n : nat) (m : mem) (a : Z) : Z :=
  match n with
  | O => 0
  | S n' => rd8 m a + 256 * rdn n' m (a + 1)
  end.
Fixpoint wrn (n : nat) (m : mem) (a v : Z) : mem :=
  match n with
  | O => m
  | S n' => wrn n' (wr8 m a v) (a + 1) (v / 256)
  end.
Abbreviation rd16 := (rdn 2).
Abbreviation rd32 := (rdn 4).
Abbreviation rd64 := (rdn 8).
Abbreviation wr16 := (wrn 2).
Abbreviation wr32 := (wrn 4).
Abbreviation wr64 := (wrn 8).

(** [memset] and [memcpy] on raw memory. *)
Fixpoint fill (n : nat) (m : mem) (a v : Z) : mem :=
  match n with
  | O => m
  | S n' => fill n' (wr8 m a v) (a + 1) v
  end.
Fixpoint blit (m : mem) (a : Z) (bs : list Z) : mem :=
  match bs with
  | [] => m
  | b :: bs' => blit (wr8 m a b) (a + 1) bs'
  end.
Fixpoint rd_bytes (n : nat) (m : mem) (a : Z) : list Z :=
  match n with
  | O => []
  | S n' => rd8 m a :: rd_bytes n' m (a + 1)
  end.

(** ** Lemmas *)

Lemma rd8_range m a : 0 <= rd8 m a < 256.
Proof. apply (wrap_range 8); lia. Qed.

Lemma rd8_wr8 m a v b : rd8 (wr8 m a v) b = if decide (a = b) then u8 v else rd8 m b.
Proof.
  unfold rd8, wr8. case_decide as H.
  - subst. rewrite lookup_insert_eq. apply wrap_wrap.
  - by rewrite lookup_insert_ne.
Qed.

Lemma rd8_wr8_eq m a v : rd8 (wr8 m a v) a = u8 v.
Proof. rewrite rd8_wr8. by rewrite decide_True. Qed.

Lemma rd8_wr8_ne m a v b : a <> b -> rd8 (wr8 m a v) b = rd8 m b.
Proof. intros. rewrite rd8_wr8. by rewrite decide_False. Qed.

Lemma rd8_wrn_out n m a v b :
  b < a \/ a + Z.of_nat n <= b -> rd8 (wrn n m a v) b = rd8 m b.
Proof.
  revert m a v. induction n as [|n IH]; intros m a v Hb; simpl; [done|].
  rewrite IH by lia. apply rd8_wr8_ne. lia.
Qed.

Lemma rdn_ext n m m' a :
  (forall b, a <= b < a + Z.of_nat n -> rd8 m b = rd8 m' b) -> rdn n m a = rdn n m' a.
Proof.
  revert a. induction n as [|n IH]; intros a H; simpl; [done|].
  rewrite (H a) by lia. rewrite (IH (a + 1)); [done|]. intros b Hb. apply H. lia.
Qed.

Lemma rdn_range n m a : 0 <= rdn n m a < 2 ^ (8 * Z.of_nat n).
Proof.
  revert a. induction n as [|n IH]; intros a; [simpl; lia|]. cbn [rdn].
  pose proof (rd8_range m a). specialize (IH (a + 1)).
  replace (8 * Z.of_nat (S n)) with (8 + 8 * Z.of_nat n) by lia.
  rewrite Z.pow_add_r by lia. change (2 ^ 8) with 256. lia.
Qed.

Lemma rdn_wrn_eq n m a v : rdn n (wrn n m a v) a = v mod 2 ^ (8 * Z.of_nat n).
Proof.
  revert m a v. induction n as [|n IH]; intros m a v.
  - cbn [rdn wrn]. change (2 ^ (8 * Z.of_nat 0)) with 1. by rewrite Z.mod_1_r.
  - cbn [rdn wrn]. rewrite rd8_wrn_out by lia. rewrite rd8_wr8_eq, IH.
    replace (8 * Z.of_nat (S n)) with (8 + 8 * Z.of_nat n) by lia.
    rewrite Z.pow_add_r by lia. unfold wrap. change (2 ^ 8) with 256.
    rewrite Z.rem_mul_r by lia. lia.
Qed.

Lemma rdn_wrn_out n n' m a v b :
  b + Z.of_nat n' <= a \/ a + Z.of_nat n <= b -> rdn n' (wrn n m a v) b = rdn n' m b.
Proof. intros H. apply rdn_ext. intros c Hc. apply rd8_wrn_out. lia. Qed.

Lemma rdn_wr8_out n' m a v b :
  b + Z.of_nat n' <= a \/ a < b -> rdn n' (wr8 m a v) b = rdn n' m b.
Proof. intros H. apply rdn_ext. intros c Hc. apply rd8_wr8_ne. lia. Qed.

Lemma rd8_fill n m a v b :
  rd8 (fill n m a v) b = if decide (a <= b < a + Z.of_nat n) then u8 v else rd8 m b.
Proof.
  revert m a. induction n as [|n IH]; intros m a; simpl.
  - rewrite decide_False by lia. done.
  - rewrite IH. destruct (decide (a = b)) as [->|Hne].
    + rewrite (decide_True (P := b <= b < _)) by lia. rewrite decide_False by lia. apply rd8_wr8_eq.
    + rewrite rd8_wr8_ne by done.
      destruct (decide (a + 1 <= b < a + 1 + Z.of_nat n)), (decide (a <= b < a + Z.of_nat (S n))); done || lia.
Qed.

Lemma rdn_fill_in k n m a v b : u8 v = 0 ->
  a <= b -> b + Z.of_nat k <= a + Z.of_nat n -> rdn k (fill n m a v) b = 0.
Proof.
  intros Hv. revert b. induction k as [|k IH]; intros b H1 H2; cbn [rdn]; [done|].
  rewrite rd8_fill, decide_True by lia. rewrite IH by lia. lia.
Qed.

Lemma rdn_fill_out k n m a v b :
  b + Z.of_nat k <= a \/ a + Z.of_nat n <= b -> rdn k (fill n m a v) b = rdn k m b.
Proof.
  intros H. apply rdn_ext. intros c Hc. rewrite rd8_fill. by rewrite decide_False by lia.
Qed.

Lemma rd8_blit m a bs b :
  rd8 (blit m a bs) b =
  if decide (a <= b < a + Z.of_nat (length bs))
  then u8 (default 0 (bs !! Z.to_nat (b - a))) else rd8 m b.
Proof.
  revert m a. induction bs as [|x bs IH]; intros m a; cbn [blit length].
  - rewrite decide_False by lia. done.
  - rewrite IH. destruct (decide (a = b)) as [->|Hne].
    + rewrite (decide_True (P := b <= b < _)) by lia. rewrite decide_False by lia.
      rewrite Z.sub_diag. apply rd8_wr8_eq.
    + rewrite rd8_wr8_ne by done.
      destruct (decide (a + 1 <= b < _)), (decide (a <= b < _)); try done; try lia.
      by replace (Z.to_nat (b - a)) with (S (Z.to_nat (b - (a + 1)))) by lia.
Qed.

Lemma length_rd_bytes n m a : length (rd_bytes n m a) = n.
Proof. revert a. induction n; intros; simpl; auto. Qed.

Lemma rd_bytes_ext n m m' a :
  (forall b, a <= b < a + Z.of_nat n -> rd8 m b = rd8 m' b) -> rd_bytes n m a = rd_bytes n m' a.
Proof.
  revert a. induction n as [|n IH]; intros a H; simpl; [done|].
  rewrite (H a) by lia. f_equal. apply IH. intros b Hb. apply H. lia.
Qed.

(** Reading back what [memcpy] stored. *)
Lemma rd_bytes_blit m a bs : Forall (in_range 8) bs -> rd_bytes (length bs) (blit m a bs) a = bs.
Proof.
  revert m a. induction bs as [|x bs IH]; intros m a Hf; [done|]. inversion_clear Hf.
  cbn [length rd_bytes blit]. f_equal; [|by apply IH].
  rewrite rd8_blit, decide_False by lia. rewrite rd8_wr8_eq. by apply wrap_id.
Qed.

Lemma wr8_wrn_comm n m a v b w : a < b -> wrn n (wr8 m a v) b w = wr8 (wrn n m b w) a v.
Proof.
  revert m b w. induction n as [|n IH]; intros m b w Hab; cbn [wrn]; [done|].
  rewrite <- IH by lia. f_equal. unfold wr8. apply insert_insert_ne. lia.
Qed.

(** A second store to the same place hides the first. *)
Lemma wrn_wrn n m a v w : wrn n (wrn n m a v) a w = wrn n m a w.
Proof.
  revert m a v w. induction n as [|n IH]; intros m a v w; cbn [wrn]; [done|].
  rewrite <- wr8_wrn_comm by lia. rewrite IH. f_equal. unfold wr8. by rewrite insert_insert_eq.
Qed.

Lemma rdn_zero n m a : (forall b, a <= b < a + Z.of_nat n -> rd8 m b = 0) -> rdn n m a = 0.
Proof.
  revert a. induction n as [|n IH]; intros a H; cbn [rdn]; [done|].
  rewrite (H a), (IH (a + 1)) by (intros; try apply H; lia). done.
Qed.

#[global] Arguments rdn : simpl never.
#[global] Arguments wrn : simpl never.
#[global] Arguments fill : simpl never.
#[global] Arguments blit : simpl never.
