(* ===== verification/Pmm.v ===== *)
(** * Physical memory manager (src/memory/pmm.c)

    The frame bitmap lives in RAM, at the address [pmm_bitmap] inside Limine's
    direct map; bit [f mod 8] of its byte [f / 8] is set when frame [f] is in
    use.  The operations are the C functions, over a state that holds RAM and
    the file's static variables. *)
From S2P Require Import Prelude Mem.

Definition FRAME_SIZE : Z := 4096.

Record pmm_state := mk_pmm {
  ram : mem;                (* physical memory *)
  hhdm : Z;                 (* offset of the direct map, as Limine reports it *)
  pmm_bitmap : Z;           (* pointer into the direct map, 0 before init *)
  pmm_bitmap_size : Z;
  total_frames : Z;
  console : list string     (* messages printed, oldest first *)
}.

Definition set_ram (f : mem -> mem) (st : pmm_state) : pmm_state :=
  mk_pmm (f (ram st)) (hhdm st) (pmm_bitmap st) (pmm_bitmap_size st) (total_frames st) (console st).

#[global] Instance pmm_console : Console pmm_state := fun msg st =>
  mk_pmm (ram st) (hhdm st) (pmm_bitmap st) (pmm_bitmap_size st) (total_frames st) (console st ++ [msg]).

(** Byte access through a direct-map pointer; below the map nothing is mapped. *)
Definition hload8 (p : Z) : M pmm_state Z := fun st =>
  if p <? hhdm st then UB else OK (rd8 (ram st) (p - hhdm st), st).
Definition hstore8 (p v : Z) : M pmm_state unit := fun st =>
  if p <? hhdm st then UB else OK (tt, set_ram (fun m => wr8 m (p - hhdm st) v) st).

Definition pmm_get_bitmap : M pmm_state Z := gets pmm_bitmap.
Definition pmm_get_bitmap_size : M pmm_state Z := gets pmm_bitmap_size.

Definition pmm_set_frame (frame : Z) (used : bool) : M pmm_state unit :=
  let* st := get in
  let p := u64 (pmm_bitmap st + frame / 8) in
  let* b := hload8 p in
  if used
  then hstore8 p (Z.lor b (Z.shiftl 1 (frame mod 8)))
  else hstore8 p (Z.land b (Z.lnot (Z.shiftl 1 (frame mod 8)))).

Definition pmm_get_frame (frame : Z) : M pmm_state bool :=
  let* st := get in
  let* b := hload8 (u64 (pmm_bitmap st + frame / 8)) in
  ret (Z.land (Z.shiftr b (frame mod 8)) 1 =? 1).

(** First loop of [pmm_reserve_region]: is every frame of the range free? *)
Fixpoint region_is_free (n : nat) (i : Z) : M pmm_state bool :=
  match n with
  | O => ret true
  | S n' =>
      let* u := pmm_get_frame i in
      if u then ret false else region_is_free n' (i + 1)
  end.

(** Iterations of [for (i = frame_start; i <= frame_end; i++)]. *)
Definition span (frame_start frame_end : Z) : nat := Z.to_nat (frame_end - frame_start + 1).

Definition pmm_reserve_region (start end_ : Z) : M pmm_state bool :=
  let frame_start := start / FRAME_SIZE in
  let frame_end := end_ / FRAME_SIZE in
  let* free := region_is_free (span frame_start frame_end) frame_start in
  if negb free then ret false
  else for_loop (span frame_start frame_end) frame_start (fun i => pmm_set_frame i true) ;;;
       ret true.

Definition pmm_free_region (start end_ : Z) : M pmm_state unit :=
  let frame_start := start / FRAME_SIZE in
  let frame_end := end_ / FRAME_SIZE in
  for_loop (span frame_start frame_end) frame_start (fun i => pmm_set_frame i false).

Fixpoint alloc_scan (n : nat) (i : Z) : M pmm_state Z :=
  match n with
  | O => ret 0
  | S n' =>
      let* u := pmm_get_frame i in
      if negb u
      then pmm_set_frame i true ;;; ret (u64 (i * FRAME_SIZE))
      else alloc_scan n' (i + 1)
  end.
Definition pmm_alloc_frame : M pmm_state Z :=
  let* st := get in alloc_scan (Z.to_nat (total_frames st)) 0.

Definition pmm_reserve_frame (addr : Z) : M pmm_state bool :=
  let frame := addr / FRAME_SIZE in
  let* u := pmm_get_frame frame in
  if u then ret false else pmm_set_frame frame true ;;; ret true.

Definition pmm_free_frame (addr : Z) : M pmm_state unit := pmm_set_frame (addr / FRAME_SIZE) false.

Definition pmm_is_reserved (addr : Z) : M pmm_state bool := pmm_get_frame (addr / FRAME_SIZE).

(** ** Boot: the Limine memory map *)

Definition LIMINE_MEMMAP_USABLE : Z := 0.
Record memmap_entry := mk_entry { e_base : Z; e_length : Z; e_type : Z }.
Definition usable (e : memmap_entry) : bool := e_type e =? LIMINE_MEMMAP_USABLE.

(** Step 1 of [pmm_init]: the highest end of a usable entry. *)
Definition top_of_ram (entries : list memmap_entry) : Z :=
  fold_left (fun top e =>
    if usable e then let limit := u64 (e_base e + e_length e) in
                     if top <? limit then limit else top
    else top) entries 0.

(** Step 2: take the bitmap from the first usable entry that is long enough;
    the entry is shortened in place. *)
Fixpoint place_bitmap (size : Z) (entries : list memmap_entry) : option (Z * list memmap_entry) :=
  match entries with
  | [] => None
  | e :: rest =>
      if usable e && (size <=? e_length e)
      then Some (e_base e, mk_entry (u64 (e_base e + size)) (u64 (e_length e - size)) (e_type e) :: rest)
      else '(b, rest') ← place_bitmap size rest; Some (b, e :: rest')
  end.

Fixpoint free_usable (entries : list memmap_entry) : M pmm_state unit :=
  match entries with
  | [] => ret tt
  | e :: rest =>
      (if usable e then pmm_free_region (e_base e) (u64 (e_base e + e_length e)) else ret tt) ;;;
      free_usable rest
  end.

Definition set_pmm_layout (bitmap size total : Z) (st : pmm_state) : pmm_state :=
  mk_pmm (ram st) (hhdm st) bitmap size total (console st).

Definition pmm_init (entries : list memmap_entry) : M pmm_state (list memmap_entry) :=
  let* st := get in
  let total := top_of_ram entries / 4096 in
  let size := (total + 7) / 8 in
  screen_print "[pmm] found top of ram: <Can't display numbers yet>\n" ;;;
  screen_print "[pmm] calculated total physical frames: <Can't display numbers yet>\n" ;;;
  screen_print "[pmm] calculated pmm bitmap size: <Can't display numbers yet>\n" ;;;
  let '(bitmap, entries') :=
    match place_bitmap size entries with
    | Some (bitmap_phys, entries') => (u64 (bitmap_phys + hhdm st), entries')
    | None => (pmm_bitmap st, entries)
    end in
  modify (set_pmm_layout bitmap size total) ;;;
  screen_print "[pmm] found place for pmm bitmap: <Can't display numbers yet>\n" ;;;
  for_loop (Z.to_nat size) 0 (fun i => hstore8 (u64 (bitmap + i)) 255) ;;;
  free_usable entries' ;;;
  let bitmap_phys := u64 (bitmap - hhdm st) in
  let frame_start := bitmap_phys / FRAME_SIZE in
  let frame_end := u64 (bitmap_phys + size) / FRAME_SIZE in
  for_loop (span frame_start frame_end) frame_start (fun i => pmm_set_frame i true) ;;;
  screen_print "[pmm] reserved memory regions\n" ;;;
  screen_print "[pmm] pmm init\n" ;;;
  ret entries'.

(** ** The bitmap as a set of frames *)

Definition MAX_FRAMES : Z := 2 ^ 43.
Definition bm_phys (st : pmm_state) : Z := pmm_bitmap st - hhdm st.

Definition frame_used (st : pmm_state) (f : Z) : bool :=
  Z.testbit (rd8 (ram st) (bm_phys st + f / 8)) (f mod 8).

(** Well-formedness: the bitmap is inside the direct map, with room for the
    largest frame number the model considers, and covers [total_frames]. *)
Record pmm_wf (st : pmm_state) : Prop := {
  wf_hhdm : 0 <= hhdm st <= pmm_bitmap st;
  wf_room : pmm_bitmap st + 2 ^ 40 <= 2 ^ 64;
  wf_total : 0 <= total_frames st <= MAX_FRAMES;
  wf_size : pmm_bitmap_size st = (total_frames st + 7) / 8
}.
#[export] Hint Resolve wf_hhdm wf_room wf_total : eos.

Definition set_bit (b k : Z) (used : bool) : Z :=
  if used then Z.lor b (Z.shiftl 1 k) else Z.land b (Z.lnot (Z.shiftl 1 k)).

Definition set_used (f : Z) (used : bool) (st : pmm_state) : pmm_state :=
  set_ram (fun m => wr8 m (bm_phys st + f / 8)
                      (set_bit (rd8 m (bm_phys st + f / 8)) (f mod 8) used)) st.

Lemma set_bit_testbit b k used i : 0 <= k < 8 -> 0 <= i < 8 ->
  Z.testbit (u8 (set_bit b k used)) i = if decide (k = i) then used else Z.testbit b i.
Proof.
  intros Hk Hi. rewrite wrap_testbit by lia. rewrite (proj2 (Z.ltb_lt i 8)) by lia.
  unfold set_bit. destruct used; cbn [andb].
  - rewrite Z.lor_spec, Z.shiftl_spec, testbit_one by lia. case_decide as E.
    + subst. rewrite Z.sub_diag. apply orb_true_r.
    + destruct (Z.eqb_spec (i - k) 0); [lia|]. apply orb_false_r.
  - rewrite Z.land_spec, Z.lnot_spec, Z.shiftl_spec, testbit_one by lia. case_decide as E.
    + subst. rewrite Z.sub_diag. apply andb_false_r.
    + destruct (Z.eqb_spec (i - k) 0); [lia|]. apply andb_true_r.
Qed.

Lemma frame_used_set f g used st : 0 <= f -> 0 <= g ->
  frame_used (set_used f used st) g = if decide (f = g) then used else frame_used st g.
Proof.
  intros Hf Hg. unfold frame_used, set_used. cbn. rewrite rd8_wr8.
  change (bm_phys (set_ram _ st)) with (bm_phys st).
  pose proof (Z.mod_pos_bound f 8 ltac:(lia)). pose proof (Z.mod_pos_bound g 8 ltac:(lia)).
  destruct (decide (bm_phys st + f / 8 = bm_phys st + g / 8)) as [E|E].
  - rewrite set_bit_testbit by lia. replace (g / 8) with (f / 8) by lia.
    destruct (decide (f mod 8 = g mod 8)), (decide (f = g)); try done; divlia.
  - rewrite decide_False; [done|]. intros ->. done.
Qed.

Lemma set_used_ram f used st a : a <> bm_phys st + f / 8 ->
  rd8 (ram (set_used f used st)) a = rd8 (ram st) a.
Proof. intros Ha. unfold set_used. cbn. apply rd8_wr8_ne. done. Qed.

Lemma set_used_wf f used st : pmm_wf st -> pmm_wf (set_used f used st).
Proof. by intros []. Qed.
#[export] Hint Resolve set_used_wf : eos.

Section Operations.
Context (st : pmm_state) (Hwf : pmm_wf st).

Lemma hload8_bitmap f : 0 <= f < MAX_FRAMES ->
    hload8 (u64 (pmm_bitmap st + f / 8)) st = OK (rd8 (ram st) (bm_phys st + f / 8), st).
  Proof using Hwf.
    intros Hf. destruct Hwf. unfold MAX_FRAMES in *.
    rewrite wrap_id by (unfold in_range; divlia).
    unfold hload8, bm_phys. case_bool; reflect_Z; [divlia|]. do 3 f_equal. lia.
  Qed.

Lemma pmm_get_frame_eq f : 0 <= f < MAX_FRAMES ->
    pmm_get_frame f st = OK (frame_used st f, st).
  Proof using Hwf.
    intros Hf. unfold pmm_get_frame. rewrite (bind_step get _ st st st) by done.
    erewrite bind_step by (by apply hload8_bitmap).
    rewrite bit_shiftr_land1 by (apply Z.mod_pos_bound; lia).
    unfold frame_used, ret. by destruct (Z.testbit _ _).
  Qed.

Lemma pmm_set_frame_eq f used : 0 <= f < MAX_FRAMES ->
    pmm_set_frame f used st = OK (tt, set_used f used st).
  Proof using Hwf.
    intros Hf. unfold pmm_set_frame. rewrite (bind_step get _ st st st) by done.
    erewrite bind_step by (by apply hload8_bitmap). destruct Hwf. unfold MAX_FRAMES in *.
    rewrite wrap_id by (unfold in_range; divlia).
    unfold hstore8, set_used, set_bit, bm_phys.
    destruct used; case_bool; reflect_Z; try divlia;
      by replace (pmm_bitmap st + f / 8 - hhdm st) with (pmm_bitmap st - hhdm st + f / 8) by lia.
  Qed.
End Operations.

(** Effect of marking the [n] frames from [i] on. *)
Fixpoint set_frames (n : nat) (i : Z) (used : bool) (st : pmm_state) : pmm_state :=
  match n with
  | O => st
  | S n' => set_frames n' (i + 1) used (set_used i used st)
  end.

Lemma set_frames_wf n i used st : pmm_wf st -> pmm_wf (set_frames n i used st).
Proof. revert i st. induction n; intros; simpl; auto with eos. Qed.
#[export] Hint Resolve set_frames_wf : eos.

Lemma frame_used_set_frames n i used st g : 0 <= i -> 0 <= g ->
  frame_used (set_frames n i used st) g =
  if decide (i <= g < i + Z.of_nat n) then used else frame_used st g.
Proof.
  intros Hi Hg. revert i st Hi. induction n as [|n IH]; intros i st Hi; cbn [set_frames].
  - by rewrite decide_False by lia.
  - rewrite IH, frame_used_set by lia.
    destruct (decide (i = g)), (decide (i + 1 <= g < _)), (decide (i <= g < _)); done || lia.
Qed.

Lemma set_loop_eq n i used st : pmm_wf st -> 0 <= i -> i + Z.of_nat n <= MAX_FRAMES ->
  for_loop n i (fun j => pmm_set_frame j used) st = OK (tt, set_frames n i used st).
Proof.
  revert i st. induction n as [|n IH]; intros i st Hwf Hi Hn; cbn [for_loop set_frames]; [done|].
  erewrite bind_step by (apply pmm_set_frame_eq; [done|lia]).
  apply IH; auto with eos; lia.
Qed.

Lemma region_is_free_eq n i st : pmm_wf st -> 0 <= i -> i + Z.of_nat n <= MAX_FRAMES ->
  exists b : bool, region_is_free n i st = OK (b, st) /\
    if b then forall g, i <= g < i + Z.of_nat n -> frame_used st g = false
    else exists g, i <= g < i + Z.of_nat n /\ frame_used st g = true.
Proof.
  revert i. induction n as [|n IH]; intros i Hwf Hi Hn; cbn [region_is_free].
  - exists true. split; [done|]. lia.
  - erewrite bind_step by (apply pmm_get_frame_eq; [done|lia]).
    destruct (frame_used st i) eqn:E.
    + exists false. split; [done|]. exists i. split; [lia|done].
    + destruct (IH (i + 1)) as (b & Hb & Hp); [done|lia|lia|]. exists b. split; [done|].
      destruct b.
      * intros g Hg. destruct (decide (g = i)) as [->|]; [done|]. apply Hp. lia.
      * destruct Hp as (g & ? & ?). exists g. split; [lia|done].
Qed.

Lemma alloc_scan_eq n i st : pmm_wf st -> 0 <= i -> i + Z.of_nat n <= MAX_FRAMES ->
  (exists f, i <= f < i + Z.of_nat n /\ frame_used st f = false /\
     (forall g, i <= g < f -> frame_used st g = true) /\
     alloc_scan n i st = OK (f * FRAME_SIZE, set_used f true st)) \/
  ((forall g, i <= g < i + Z.of_nat n -> frame_used st g = true) /\ alloc_scan n i st = OK (0, st)).
Proof.
  revert i. induction n as [|n IH]; intros i Hwf Hi Hn; cbn [alloc_scan].
  - right. split; [lia|done].
  - erewrite bind_step by (apply pmm_get_frame_eq; [done|lia]).
    destruct (frame_used st i) eqn:E; cbn [negb].
    + destruct (IH (i + 1)) as [(f & H1 & H2 & H3 & H4)|[H1 H2]]; [done|lia|lia| |].
      * left. exists f. split_and!; [lia|lia|done| |done].
        intros g Hg. destruct (decide (g = i)) as [->|]; [done|]. apply H3. lia.
      * right. split; [|done]. intros g Hg. destruct (decide (g = i)) as [->|]; [done|]. apply H1. lia.
    + left. exists i. split_and!; [lia|lia|done|lia|].
      erewrite bind_step by (apply pmm_set_frame_eq; [done|lia]).
      unfold ret. rewrite wrap_id; [done|]. unfold in_range, FRAME_SIZE, MAX_FRAMES in *. lia.
Qed.

(** ** Abstract specification: a set of used frames *)

Inductive pmm_op :=
| OpAlloc
| OpReserve (addr : Z)
| OpFree (addr : Z)
| OpIsReserved (addr : Z)
| OpReserveRegion (start end_ : Z)
| OpFreeRegion (start end_ : Z).

Inductive pmm_res := RAddr (a : Z) | RBool (b : bool) | RUnit.

Definition run_op (o : pmm_op) : M pmm_state pmm_res :=
  match o with
  | OpAlloc => let* a := pmm_alloc_frame in ret (RAddr a)
  | OpReserve a => let* b := pmm_reserve_frame a in ret (RBool b)
  | OpFree a => pmm_free_frame a ;;; ret RUnit
  | OpIsReserved a => let* b := pmm_is_reserved a in ret (RBool b)
  | OpReserveRegion s e => let* b := pmm_reserve_region s e in ret (RBool b)
  | OpFreeRegion s e => pmm_free_region s e ;;; ret RUnit
  end.

Definition fr (addr : Z) : Z := addr / FRAME_SIZE.

(** [U'] is [U] with the frames [lo..hi] set to [b]. *)
Definition updated (U U' : Z -> bool) (lo hi : Z) (b : bool) : Prop :=
  forall g, 0 <= g -> U' g = if decide (lo <= g <= hi) then b else U g.

Inductive spec_step (total : Z) (U : Z -> bool) : pmm_op -> pmm_res -> (Z -> bool) -> Prop :=
| spec_alloc f U' :
    0 <= f < total -> U f = false -> (forall g, 0 <= g < f -> U g = true) ->
    updated U U' f f true -> spec_step total U OpAlloc (RAddr (f * FRAME_SIZE)) U'
| spec_alloc_none : (forall g, 0 <= g < total -> U g = true) -> spec_step total U OpAlloc (RAddr 0) U
| spec_reserve a U' : U (fr a) = false -> updated U U' (fr a) (fr a) true ->
    spec_step total U (OpReserve a) (RBool true) U'
| spec_reserve_taken a : U (fr a) = true -> spec_step total U (OpReserve a) (RBool false) U
| spec_free a U' : updated U U' (fr a) (fr a) false -> spec_step total U (OpFree a) RUnit U'
| spec_is_reserved a : spec_step total U (OpIsReserved a) (RBool (U (fr a))) U
| spec_reserve_region s e U' : (forall g, fr s <= g <= fr e -> U g = false) ->
    updated U U' (fr s) (fr e) true -> spec_step total U (OpReserveRegion s e) (RBool true) U'
| spec_reserve_region_taken s e g : fr s <= g <= fr e -> U g = true ->
    spec_step total U (OpReserveRegion s e) (RBool false) U
| spec_free_region s e U' : updated U U' (fr s) (fr e) false ->
    spec_step total U (OpFreeRegion s e) RUnit U'.

(** The operation names only frames the bitmap covers. *)
Definition op_in_range (total : Z) (o : pmm_op) : Prop :=
  match o with
  | OpAlloc => True
  | OpReserve a | OpFree a | OpIsReserved a => 0 <= fr a < total
  | OpReserveRegion s e | OpFreeRegion s e => 0 <= fr s /\ fr e < total
  end.

(** Only bytes of the bitmap may differ between two memories. *)
Definition only_bitmap (st : pmm_state) (m m' : mem) : Prop :=
  forall a, ~ (bm_phys st <= a < bm_phys st + pmm_bitmap_size st) -> rd8 m' a = rd8 m a.

Lemma set_frames_only_bitmap n i used st : pmm_wf st -> 0 <= i -> i + Z.of_nat n <= total_frames st ->
  only_bitmap st (ram st) (ram (set_frames n i used st)).
Proof.
  intros Hwf. revert i st Hwf. induction n as [|n IH]; intros i st Hwf Hi Hn a Ha; cbn [set_frames]; [done|].
  rewrite (IH (i + 1) (set_used i used st)); [|by auto with eos|lia|cbn; lia|done].
  apply set_used_ram. rewrite (wf_size st Hwf) in Ha. divlia.
Qed.

Lemma total_set_frames n i used st : total_frames (set_frames n i used st) = total_frames st.
Proof. revert i st. induction n as [|n IH]; intros; cbn [set_frames]; [done|]. by rewrite IH. Qed.

Lemma set_used_frames f used st : set_used f used st = set_frames 1 f used st.
Proof. done. Qed.

Lemma set_frames_updated n i used st : 0 <= i ->
  updated (frame_used st) (frame_used (set_frames n i used st)) i (i + Z.of_nat n - 1) used.
Proof.
  intros Hi g Hg. rewrite frame_used_set_frames by lia.
  destruct (decide (i <= g < _)), (decide (i <= g <= _)); done || lia.
Qed.

Lemma set_span_updated s e used st : 0 <= s ->
  updated (frame_used st) (frame_used (set_frames (span s e) s used st)) s e used.
Proof.
  intros Hs g Hg. rewrite set_frames_updated by lia. unfold span.
  destruct (decide (s <= g <= _)), (decide (s <= g <= e)); done || lia.
Qed.

Section Refinement.
Context (st : pmm_state) (Hwf : pmm_wf st).

Definition op_refined (o : pmm_op) : Prop :=
    exists r st', run_op o st = OK (r, st') /\ pmm_wf st' /\ total_frames st' = total_frames st /\
      spec_step (total_frames st) (frame_used st) o r (frame_used st') /\
      only_bitmap st (ram st) (ram st').

Lemma refined_alloc : op_refined OpAlloc.
  Proof using Hwf.
    pose proof (wf_total st Hwf).
    destruct (alloc_scan_eq (Z.to_nat (total_frames st)) 0 st Hwf) as [(f & H1 & H2 & H3 & H4)|[H1 H2]];
      [lia|lia| |].
    - exists (RAddr (f * FRAME_SIZE)), (set_used f true st). split_and!; auto with eos.
      + cbn [run_op]. unfold pmm_alloc_frame. unfold bind at 1. rewrite (bind_step get _ st st st) by done.
        by rewrite H4.
      + constructor; [lia|done|done|]. rewrite set_used_frames. intros g Hg.
        rewrite set_frames_updated by lia. destruct (decide (f <= g <= f + Z.of_nat 1 - 1)), (decide (f <= g <= f)); done || lia.
      + rewrite set_used_frames. apply set_frames_only_bitmap; [done|lia|lia].
    - exists (RAddr 0), st. split_and!; try done.
      + cbn [run_op]. unfold pmm_alloc_frame. unfold bind at 1. rewrite (bind_step get _ st st st) by done.
        by rewrite H2.
      + constructor. intros g Hg. apply H1. lia.
  Qed.

Lemma refined_reserve_region s e : op_in_range (total_frames st) (OpReserveRegion s e) ->
    op_refined (OpReserveRegion s e).
  Proof using Hwf.
    intros [Hs He]. pose proof (wf_total st Hwf). unfold fr in *.
    set (fs := s / FRAME_SIZE) in *. set (fe := e / FRAME_SIZE) in *.
    destruct (decide (fs <= fe + 1)) as [Hle|Hle].
    2: { exists (RBool true), st. assert (span fs fe = O) as E by (unfold span; lia). split_and!; try done.
         - cbn. unfold pmm_reserve_region. fold fs fe. by rewrite E.
         - constructor; unfold fr; fold fs fe; [lia|]. intros g Hg. by rewrite decide_False by lia. }
    destruct (region_is_free_eq (span fs fe) fs st Hwf) as ([] & Hb & Hp);
      [lia|unfold span; lia| |]; unfold span in Hp.
    - exists (RBool true), (set_frames (span fs fe) fs true st). split_and!; auto with eos.
      + cbn [run_op]. unfold pmm_reserve_region. fold fs fe. unfold bind at 1.
        rewrite (bind_step _ _ _ _ _ Hb). cbn [negb].
        erewrite bind_step by (apply set_loop_eq; [done|lia|unfold span; lia]). done.
      + apply total_set_frames.
      + constructor; unfold fr; fold fs fe; [|by apply set_span_updated].
        intros g Hg. apply Hp. lia.
      + apply set_frames_only_bitmap; [done|lia|unfold span; lia].
    - destruct Hp as (g & Hg & Hu). exists (RBool false), st. split_and!; try done.
      + cbn [run_op]. unfold pmm_reserve_region. fold fs fe. unfold bind at 1.
        by rewrite (bind_step _ _ _ _ _ Hb).
      + apply (spec_reserve_region_taken _ _ _ _ g); [|done]. unfold fr. fold fs fe. lia.
  Qed.
End Refinement.

Lemma set_used_updated f used st : 0 <= f ->
  updated (frame_used st) (frame_used (set_used f used st)) f f used.
Proof.
  intros Hf g Hg. rewrite frame_used_set by lia.
  destruct (decide (f = g)), (decide (f <= g <= f)); done || lia.
Qed.

Lemma refined_frame_ops st a : pmm_wf st -> 0 <= fr a < total_frames st ->
  op_refined st (OpReserve a) /\ op_refined st (OpFree a) /\ op_refined st (OpIsReserved a).
Proof.
  intros Hwf Ha. pose proof (wf_total st Hwf). unfold fr in Ha.
  assert (forall b, only_bitmap st (ram st) (ram (set_used (a / FRAME_SIZE) b st))) as Hob.
  { intros b. rewrite set_used_frames. apply set_frames_only_bitmap; [done|lia|lia]. }
  assert (pmm_get_frame (a / FRAME_SIZE) st = OK (frame_used st (a / FRAME_SIZE), st)) as Hget.
  { apply pmm_get_frame_eq; [done|lia]. }
  assert (forall b, pmm_set_frame (a / FRAME_SIZE) b st = OK (tt, set_used (a / FRAME_SIZE) b st)) as Hset.
  { intros b. apply pmm_set_frame_eq; [done|lia]. }
  split_and!.
  - destruct (frame_used st (a / FRAME_SIZE)) eqn:E.
    + exists (RBool false), st. split_and!; try done.
      * cbn [run_op]. unfold pmm_reserve_frame. unfold bind at 1. by rewrite (bind_step _ _ _ _ _ Hget).
      * by constructor.
    + exists (RBool true), (set_used (a / FRAME_SIZE) true st). split_and!; auto with eos.
      * cbn [run_op]. unfold pmm_reserve_frame. unfold bind at 1. rewrite (bind_step _ _ _ _ _ Hget).
        by rewrite (bind_step _ _ _ _ _ (Hset true)).
      * constructor; [done|]. apply set_used_updated. unfold fr; lia.
  - exists RUnit, (set_used (a / FRAME_SIZE) false st). split_and!; auto with eos.
    + cbn [run_op]. unfold pmm_free_frame. by rewrite (bind_step _ _ _ _ _ (Hset false)).
    + constructor. apply set_used_updated. unfold fr; lia.
  - exists (RBool (frame_used st (fr a))), st. split_and!; try done.
    + cbn [run_op]. unfold pmm_is_reserved. by rewrite (bind_step _ _ _ _ _ Hget).
    + constructor.
Qed.

Lemma refined_free_region st s e : pmm_wf st -> 0 <= fr s -> fr e < total_frames st ->
  op_refined st (OpFreeRegion s e).
Proof.
  intros Hwf Hs He. pose proof (wf_total st Hwf). unfold fr in *.
  set (fs := s / FRAME_SIZE) in *. set (fe := e / FRAME_SIZE) in *.
  destruct (decide (fs <= fe + 1)) as [Hle|Hle].
  - exists RUnit, (set_frames (span fs fe) fs false st). split_and!; auto using total_set_frames with eos.
    + cbn [run_op]. unfold pmm_free_region. fold fs fe.
      erewrite bind_step by (apply set_loop_eq; [done|lia|unfold span; lia]). done.
    + constructor. unfold fr. fold fs fe. by apply set_span_updated.
    + apply set_frames_only_bitmap; [done|lia|unfold span; lia].
  - assert (span fs fe = O) as E by (unfold span; lia).
    exists RUnit, st. split_and!; try done.
    + cbn [run_op]. unfold pmm_free_region. fold fs fe. by rewrite E.
    + constructor. unfold fr. fold fs fe. intros g Hg. by rewrite decide_False by lia.
Qed.

(** C19: Refinement.  On every well-formed state each PMM operation on frames
    the bitmap covers returns, does exactly what the abstract set of used
    frames prescribes (lowest free frame allocated; region reservation all or
    nothing), keeps the state well formed and changes no byte of RAM outside
    the bitmap. *)
Theorem pmm_refines_frame_set st o :
  pmm_wf st -> op_in_range (total_frames st) o -> op_refined st o.
Proof.
  intros Hwf Ho. destruct o; simpl in Ho.
  - by apply refined_alloc.
  - by apply refined_frame_ops.
  - by apply refined_frame_ops.
  - by apply refined_frame_ops.
  - by apply refined_reserve_region.
  - destruct Ho. by apply refined_free_region.
Qed.

Definition demo_pmm : pmm_state := mk_pmm ∅ 4096 8192 1 5 [].

Lemma demo_pmm_wf : pmm_wf demo_pmm.
Proof. by constructor. Qed.

Lemma pmm_refines_frame_set_witness : op_refined demo_pmm OpAlloc /\ op_refined demo_pmm (OpReserveRegion 4096 8192).
Proof.
  split; apply (pmm_refines_frame_set demo_pmm); try apply demo_pmm_wf; vm_compute; repeat split; done.
Defined.

(** *** Sequences of operations *)

Fixpoint run_ops (os : list pmm_op) : M pmm_state (list pmm_res) :=
  match os with
  | [] => ret []
  | o :: os' => let* r := run_op o in let* rs := run_ops os' in ret (r :: rs)
  end.

Definition frees (f : Z) (o : pmm_op) : Prop :=
  match o with
  | OpFree a => fr a = f
  | OpFreeRegion s e => fr s <= f <= fr e
  | _ => False
  end.

(** One abstract step keeps a used frame used, and does not hand it out. *)
Lemma spec_step_keeps total U o r U' f : 0 <= f -> spec_step total U o r U' ->
  U f = true -> ~ frees f o -> U' f = true /\ (r = RAddr (f * FRAME_SIZE) -> f = 0).
Proof.
  intros Hf Hstep HU Hnf. unfold FRAME_SIZE.
  inversion Hstep; subst; cbn [frees] in Hnf; split; try done; try (intros [=]; lia);
    try match goal with H : updated _ _ _ _ _ |- _ => rewrite (H f) by lia; case_decide; try done; lia end.
  all: intros [= ?]; unfold FRAME_SIZE in *; assert (f0 = f) as -> by lia; congruence.
Qed.

(** C29: No double allocation.  Along any sequence of PMM operations none of
    which frees frame [f], a frame [f] in use at the start stays in use and is
    never returned by [pmm_alloc_frame] (address 0 being its failure value). *)
Theorem pmm_no_double_alloc os f st :
  pmm_wf st -> Forall (op_in_range (total_frames st)) os -> 0 <= f ->
  frame_used st f = true -> Forall (fun o => ~ frees f o) os ->
  exists rs st', run_ops os st = OK (rs, st') /\ pmm_wf st' /\ frame_used st' f = true /\
    (f <> 0 -> Forall (fun r => r <> RAddr (f * FRAME_SIZE)) rs).
Proof.
  intros Hwf Hr Hf HU Hnf. induction os as [|o os IH] in st, Hwf, Hr, HU, Hnf |- *; cbn [run_ops].
  - exists [], st. split_and!; done.
  - inversion_clear Hr as [|?? Ho Hr']. inversion_clear Hnf as [|?? Hn Hn'].
    assert (op_refined st o) as (r & st1 & Hrun & Hwf1 & Ht & Hstep & _).
    { destruct o; simpl in Ho;
        [by apply refined_alloc|by apply refined_frame_ops..
        |by apply refined_reserve_region|destruct Ho; by apply refined_free_region]. }
    destruct (spec_step_keeps _ _ _ _ _ f Hf Hstep HU Hn) as [HU1 Hne].
    rewrite (bind_step _ _ _ _ _ Hrun). rewrite <- Ht in Hr'.
    destruct (IH st1 Hwf1 Hr' HU1 Hn') as (rs & st' & Hrs & Hwf' & HU' & Hall).
    rewrite (bind_step _ _ _ _ _ Hrs). exists (r :: rs), st'. split_and!; [done..|].
    intros Hf0. constructor; [|by apply Hall]. intros E. by apply Hf0, Hne.
Qed.

Definition demo_pmm2 : pmm_state := set_used 2 true demo_pmm.

Lemma pmm_no_double_alloc_witness :
  exists rs st', run_ops [OpAlloc; OpAlloc; OpAlloc] demo_pmm2 = OK (rs, st') /\ pmm_wf st' /\
    frame_used st' 2 = true /\ (2 <> 0 -> Forall (fun r => r <> RAddr (2 * FRAME_SIZE)) rs).
Proof.
  apply (pmm_no_double_alloc [OpAlloc; OpAlloc; OpAlloc] 2 demo_pmm2).
  - apply set_used_wf, demo_pmm_wf.
  - repeat constructor.
  - lia.
  - vm_compute. reflexivity.
  - repeat constructor; intros [].
Defined.

(** ** Boot *)

(** A usable entry of a memory map Limine may report: inside 2^46 bytes. *)
Definition entry_ok (e : memmap_entry) : Prop :=
  0 <= e_base e /\ 0 <= e_length e /\ e_base e + e_length e <= 2 ^ 46.

(** Frames [pmm_init] frees for a list of entries: from the first frame of a
    usable entry to the frame of its end address, inclusive. *)
Definition covered (entries : list memmap_entry) (f : Z) : bool :=
  existsb (fun e => usable e && (e_base e / FRAME_SIZE <=? f) &&
                    (f <=? u64 (e_base e + e_length e) / FRAME_SIZE)) entries.

Fixpoint free_entries (entries : list memmap_entry) (st : pmm_state) : pmm_state :=
  match entries with
  | [] => st
  | e :: rest =>
      free_entries rest
        (if usable e then
           set_frames (span (e_base e / FRAME_SIZE) (u64 (e_base e + e_length e) / FRAME_SIZE))
                      (e_base e / FRAME_SIZE) false st
         else st)
  end.

Lemma entry_ok_u64 e : entry_ok e -> u64 (e_base e + e_length e) = e_base e + e_length e.
Proof. intros (?&?&?). apply wrap_id. unfold in_range. lia. Qed.

Lemma free_usable_eq entries st : pmm_wf st -> Forall entry_ok entries ->
  free_usable entries st = OK (tt, free_entries entries st).
Proof.
  intros Hwf Hok. induction entries as [|e entries IH] in st, Hwf, Hok |- *; cbn [free_usable free_entries]; [done|].
  inversion_clear Hok as [|?? He Hes]. destruct (usable e).
  - unfold pmm_free_region. erewrite bind_step; [apply IH; auto with eos|].
    rewrite (entry_ok_u64 e He). destruct He as (?&?&?). unfold MAX_FRAMES, FRAME_SIZE, span in *.
    apply set_loop_eq; [done|divlia|unfold MAX_FRAMES; divlia].
  - erewrite bind_step by done. by apply IH.
Qed.

Lemma free_entries_wf entries st : pmm_wf st -> pmm_wf (free_entries entries st).
Proof.
  induction entries as [|e entries IH] in st |- *; intros Hwf; cbn [free_entries]; [done|].
  apply IH. destruct (usable e); auto with eos.
Qed.

Lemma frame_used_free_entries entries st f : Forall entry_ok entries -> 0 <= f ->
  frame_used (free_entries entries st) f = negb (covered entries f) && frame_used st f.
Proof.
  intros Hok Hf. induction entries as [|e entries IH] in st, Hok |- *; cbn [free_entries covered existsb]; [done|].
  inversion_clear Hok as [|?? He Hes]. rewrite IH by done. fold (covered entries f).
  rewrite negb_orb. destruct (usable e); cbn [andb negb]; [|done].
  rewrite set_span_updated by (destruct He as (?&?&?); unfold FRAME_SIZE; divlia || lia).
  destruct (Z.leb_spec (e_base e / FRAME_SIZE) f),
           (Z.leb_spec f (u64 (e_base e + e_length e) / FRAME_SIZE)); cbn [andb negb];
    case_decide; try lia; by rewrite ?andb_false_r.
Qed.

Lemma place_bitmap_ok size entries b entries' : 0 <= size -> Forall entry_ok entries ->
  place_bitmap size entries = Some (b, entries') ->
  Forall entry_ok entries' /\ 0 <= b /\ b + size <= 2 ^ 46.
Proof.
  intros Hs Hok. induction entries as [|e entries IH] in entries', Hok |- *; cbn [place_bitmap]; [done|].
  inversion_clear Hok as [|?? He Hes]. destruct (usable e && (size <=? e_length e)) eqn:E.
  - intros [= <- <-]. reflect_Z. destruct He as (?&?&?). split; [|lia].
    constructor; [|done]. unfold entry_ok. cbn.
    rewrite !wrap_id by (unfold in_range; lia). lia.
  - destruct (place_bitmap size entries) as [[b' es']|] eqn:E2; [|done]. intros [= <- <-].
    destruct (IH es') as (?&?&?); auto.
Qed.

Lemma fill_loop_eq p v st n i :
  0 <= hhdm st <= p -> 0 <= i -> p + i + Z.of_nat n <= 2 ^ 64 ->
  for_loop n i (fun j => hstore8 (u64 (p + j)) v) st =
  OK (tt, set_ram (fun m => fill n m (p - hhdm st + i) v) st).
Proof.
  revert i st. induction n as [|n IH]; intros i st Hp Hi Hn; cbn [for_loop fill]; [by destruct st|].
  assert (hstore8 (u64 (p + i)) v st = OK (tt, set_ram (fun m => wr8 m (p - hhdm st + i) v) st)) as E.
  { rewrite wrap_id by (unfold in_range; lia). unfold hstore8. case_bool; reflect_Z; [lia|].
    by replace (p + i - hhdm st) with (p - hhdm st + i) by lia. }
  rewrite (bind_step _ _ _ _ _ E), IH by (cbn; lia).
  unfold set_ram. cbn. by replace (p - hhdm st + (i + 1)) with (p - hhdm st + i + 1) by lia.
Qed.

Lemma top_of_ram_range entries : Forall entry_ok entries -> 0 <= top_of_ram entries <= 2 ^ 46.
Proof.
  unfold top_of_ram. enough (forall t, 0 <= t <= 2 ^ 46 -> Forall entry_ok entries ->
    0 <= fold_left (fun top e => if usable e then let limit := u64 (e_base e + e_length e) in
                     if top <? limit then limit else top else top) entries t <= 2 ^ 46) by (intros; apply H; auto; lia).
  induction entries as [|e entries IH]; intros t Ht Hok; cbn [fold_left]; [done|].
  inversion_clear Hok as [|?? He Hes]. apply IH; [|done]. destruct (usable e); [|done].
  rewrite (entry_ok_u64 e He). destruct He as (?&?&?). cbv zeta. case_bool; lia.
Qed.

Lemma bm_phys_set_frames n i u st : bm_phys (set_frames n i u st) = bm_phys st.
Proof. revert i st. induction n as [|n IH]; intros; cbn [set_frames]; [done|]. by rewrite IH. Qed.

Lemma free_entries_layout entries st :
  bm_phys (free_entries entries st) = bm_phys st /\
  total_frames (free_entries entries st) = total_frames st.
Proof.
  induction entries as [|e es IH] in st |- *; cbn [free_entries]; [done|].
  destruct (IH (if usable e then
           set_frames (span (e_base e / FRAME_SIZE) (u64 (e_base e + e_length e) / FRAME_SIZE))
                      (e_base e / FRAME_SIZE) false st
         else st)) as [-> ->].
  destruct (usable e); [|done]. by rewrite bm_phys_set_frames, total_set_frames.
Qed.

Section Init.
Context (entries entries' : list memmap_entry) (st : pmm_state) (b : Z).
Let total := top_of_ram entries / 4096.
Let size := (total + 7) / 8.
Context (Hok : Forall entry_ok entries) (Hh : 0 <= hhdm st <= 2 ^ 64 - 2 ^ 47).
Context (Hplace : place_bitmap size entries = Some (b, entries')).

  (** The state in which [pmm_init] starts freeing regions: every bit set. *)
Definition init_filled : pmm_state :=
    set_ram (fun m => fill (Z.to_nat size) m (b + hhdm st - hhdm st + 0) 255)
    (emit "[pmm] found place for pmm bitmap: <Can't display numbers yet>\n"
    (set_pmm_layout (b + hhdm st) size total
    (emit "[pmm] calculated pmm bitmap size: <Can't display numbers yet>\n"
    (emit "[pmm] calculated total physical frames: <Can't display numbers yet>\n"
    (emit "[pmm] found top of ram: <Can't display numbers yet>\n" st))))).

Definition init_reserved : pmm_state :=
    set_frames (span (b / FRAME_SIZE) ((b + size) / FRAME_SIZE)) (b / FRAME_SIZE) true
      (free_entries entries' init_filled).

Lemma init_ranges : 0 <= total <= 2 ^ 34 /\ 0 <= size <= 2 ^ 31 /\
    Forall entry_ok entries' /\ 0 <= b /\ b + size <= 2 ^ 46.
  Proof using Hok Hplace.
    pose proof (top_of_ram_range entries Hok) as Htop.
    assert (0 <= total <= 2 ^ 34) as Ht by (unfold total; divlia).
    assert (0 <= size <= 2 ^ 31) as Hs by (unfold size; divlia).
    destruct (place_bitmap_ok size entries b entries' (proj1 Hs) Hok Hplace) as (?&?&?). done.
  Qed.

Lemma init_filled_wf : pmm_wf init_filled.
  Proof using Hok Hh Hplace.
    destruct init_ranges as (?&?&?&?&?). constructor; cbn; unfold MAX_FRAMES; try done; lia.
  Qed.

Lemma pmm_init_eq : pmm_init entries st =
    OK (entries', emit "[pmm] pmm init\n" (emit "[pmm] reserved memory regions\n" init_reserved)).
  Proof using Hok Hh Hplace.
    destruct init_ranges as (?&?&Hok'&?&?).
    unfold pmm_init. rewrite (bind_step get _ st st st) by done. cbv zeta. fold total size.
    rewrite Hplace. rewrite wrap_id by (unfold in_range; lia).
    do 5 (erewrite bind_step by done).
    erewrite bind_step by (apply fill_loop_eq; cbn; lia). fold init_filled.
    erewrite bind_step by (apply free_usable_eq; [apply init_filled_wf|done]).
    replace (u64 (b + hhdm st - hhdm st)) with b by (rewrite wrap_id; [lia|unfold in_range; lia]).
    rewrite wrap_id by (unfold in_range; lia).
    erewrite bind_step; [done|]. apply set_loop_eq; [apply free_entries_wf, init_filled_wf|..];
      unfold span, MAX_FRAMES, FRAME_SIZE; divlia.
  Qed.

Lemma init_reserved_frames f : 0 <= f < 8 * size ->
    frame_used init_reserved f =
      (b / FRAME_SIZE <=? f) && (f <=? (b + size) / FRAME_SIZE) || negb (covered entries' f).
  Proof using Hok Hh Hplace.
    destruct init_ranges as (?&?&Hok'&?&?). intros Hf. unfold init_reserved.
    rewrite set_span_updated by (unfold FRAME_SIZE; divlia).
    assert (frame_used init_filled f = true) as Hfill.
    { unfold frame_used. cbn [ram init_filled set_ram]. rewrite rd8_fill. unfold bm_phys. cbn.
      rewrite decide_True by divlia. change (u8 255) with (Z.ones 8). rewrite Z.ones_spec_low; [done|divlia]. }
    rewrite frame_used_free_entries, Hfill, andb_true_r by (done || lia).
    destruct (Z.leb_spec (b / FRAME_SIZE) f), (Z.leb_spec f ((b + size) / FRAME_SIZE)); cbn [andb orb];
      case_decide; done || lia.
  Qed.

Lemma init_reserved_layout :
    pmm_wf init_reserved /\ total_frames init_reserved = total /\ bm_phys init_reserved = b.
  Proof using Hok Hh Hplace.
    unfold init_reserved. split_and!.
    - apply set_frames_wf, free_entries_wf, init_filled_wf.
    - rewrite total_set_frames. by destruct (free_entries_layout entries' init_filled) as [_ ->].
    - rewrite bm_phys_set_frames. destruct (free_entries_layout entries' init_filled) as [-> _].
      unfold bm_phys. cbn. lia.
  Qed.
End Init.

(** After boot the bitmap is exact.  For a memory map below 2^46 in which a
    usable entry can hold the bitmap, [pmm_init] returns, the PMM is well formed,
    and a frame the bitmap covers is marked used exactly when it holds part of
    the bitmap (or its end address), or lies in no usable region as the code
    delimits regions. *)
Theorem pmm_init_frames entries st b entries' :
  Forall entry_ok entries -> 0 <= hhdm st <= 2 ^ 64 - 2 ^ 47 ->
  let total := top_of_ram entries / 4096 in
  let size := (total + 7) / 8 in
  place_bitmap size entries = Some (b, entries') ->
  exists st', pmm_init entries st = OK (entries', st') /\ pmm_wf st' /\
    total_frames st' = total /\ bm_phys st' = b /\
    forall f, 0 <= f < 8 * size ->
      frame_used st' f =
        (b / FRAME_SIZE <=? f) && (f <=? (b + size) / FRAME_SIZE) || negb (covered entries' f).
Proof.
  intros Hok Hh total size Hplace. eexists. split; [by apply pmm_init_eq|].
  destruct (init_reserved_layout entries entries' st b Hok Hh Hplace) as ([] & Ht & Hb).
  split_and!; [by constructor|done|done|]. intros f Hf.
  by apply (init_reserved_frames entries entries' st b Hok Hh Hplace).
Qed.

Definition demo_map : list memmap_entry :=
  [mk_entry 0 4096 1; mk_entry 4096 16384 0; mk_entry 20480 8192 1; mk_entry 28672 8192 0].
Definition demo_boot : pmm_state := mk_pmm ∅ (2 ^ 64 - 2 ^ 47) 0 0 0 [].

Lemma pmm_init_frames_witness :
  exists st', pmm_init demo_map demo_boot =
      OK ([mk_entry 0 4096 1; mk_entry 4098 16382 0; mk_entry 20480 8192 1; mk_entry 28672 8192 0], st') /\
    pmm_wf st' /\ total_frames st' = top_of_ram demo_map / 4096 /\ bm_phys st' = 4096 /\
    forall f, 0 <= f < 8 * ((top_of_ram demo_map / 4096 + 7) / 8) ->
      frame_used st' f = (4096 / FRAME_SIZE <=? f) && (f <=? (4096 + (top_of_ram demo_map / 4096 + 7) / 8) / FRAME_SIZE)
        || negb (covered [mk_entry 0 4096 1; mk_entry 4098 16382 0; mk_entry 20480 8192 1; mk_entry 28672 8192 0] f).
Proof.
  apply (pmm_init_frames demo_map demo_boot).
  - repeat constructor; vm_compute; done.
  - vm_compute; done.
  - vm_compute; reflexivity.
Defined.

(** The region bound is inclusive: after boot on the sample map (reserved
    page at 0x5000, directly after a usable entry) that reserved page is marked
    free and the fourth allocation returns it. *)
Theorem pmm_init_frees_page_past_region :
  obind ((pmm_init demo_map ;;; pmm_alloc_frame ;;; pmm_alloc_frame ;;; pmm_alloc_frame ;;;
          pmm_alloc_frame) demo_boot) (fun '(a, _) => OK a) = OK 20480.
Proof. vm_compute. reflexivity. Qed.

(** ** Available frames *)

(** At least [n] distinct frames are free. *)
Definition free_frames (st : pmm_state) (n : nat) : Prop :=
  exists l : list Z, NoDup l /\ (n <= length l)%nat /\
    Forall (fun f => 0 <= f < total_frames st /\ frame_used st f = false) l.

Lemma length_filter_ne (f : Z) (l : list Z) : NoDup l ->
  (length l <= S (length (filter (fun g => g <> f) l)))%nat.
Proof.
  induction l as [|x l IH]; intros Hnd; [cbn; lia|]. inversion_clear Hnd as [|?? Hx Hnd'].
  rewrite filter_cons. case_decide as E.
  - cbn. specialize (IH Hnd'). lia.
  - assert (x = f) as -> by (destruct (decide (x = f)); [done|tauto]). cbn.
    enough (filter (fun g => g <> f) l = l) as -> by lia.
    clear -Hx. induction l as [|y l IH]; [done|]. rewrite filter_cons.
    apply not_elem_of_cons in Hx as [Hy Hx]. rewrite decide_True by done. by rewrite IH.
Qed.

Lemma free_frames_set st f n : 0 <= f -> free_frames st (S n) -> free_frames (set_used f true st) n.
Proof.
  intros Hf (l & Hnd & Hl & Hfree). exists (filter (fun g => g <> f) l). split_and!.
  - by apply NoDup_filter.
  - pose proof (length_filter_ne f l Hnd). lia.
  - apply Forall_forall. intros g [Hg Hin]%list_elem_of_filter.
    rewrite Forall_forall in Hfree. destruct (Hfree g Hin) as [Hr Hu]. split; [done|].
    rewrite frame_used_set by lia. by rewrite decide_False.
Qed.

Lemma free_frames_le st n k : (k <= n)%nat -> free_frames st n -> free_frames st k.
Proof. intros Hk (l & ? & ? & ?). exists l. split_and!; [done|lia|done]. Qed.

Lemma alloc_frame_ok st n : pmm_wf st -> free_frames st (S n) ->
  exists f, pmm_alloc_frame st = OK (f * FRAME_SIZE, set_used f true st) /\
    0 <= f < total_frames st /\ frame_used st f = false /\
    free_frames (set_used f true st) n.
Proof.
  intros Hwf Hfree. pose proof (wf_total st Hwf).
  destruct (alloc_scan_eq (Z.to_nat (total_frames st)) 0 st Hwf) as [(f & H1 & H2 & H3 & H4)|[H1 H2]];
    [lia|lia| |].
  - exists f. split_and!; [by apply H4|lia|lia|done|]. apply free_frames_set; [lia|done].
  - exfalso. destruct Hfree as ([|g l] & _ & Hl & Hf); [cbn in Hl; lia|].
    inversion_clear Hf as [|?? [Hg Hu] _]. rewrite H1 in Hu by lia. done.
Qed.
