(* ===== verification/Vmm.v ===== *)
(** * Virtual memory manager (src/memory/vmm.c, vmm.h)

    Four-level page tables stored in RAM and reached through the direct map.
    The operations are the C functions over the PMM's state and the file's
    statics; the page-table tree they maintain is described by the partial
    function [node] from index paths to frames. *)
From S2P Require Import Prelude Mem Pmm.

Definition PAGE_SIZE : Z := 4096.

(** ** Page-table entries: the bit-fields of [page_entry_t] *)

Definition pe_present (e : Z) : bool := Z.testbit e 0.
Definition pe_writeable (e : Z) : bool := Z.testbit e 1.
Definition pe_user_accessible (e : Z) : bool := Z.testbit e 2.
Definition pe_no_execute (e : Z) : bool := Z.testbit e 63.
Definition PA_MASK : Z := Z.ones 40.
Definition pe_physical_addr (e : Z) : Z := Z.land (Z.shiftr e 12) PA_MASK.
Definition pe_set_physical_addr (e pa : Z) : Z :=
  Z.lor (Z.land e (Z.lnot (Z.shiftl PA_MASK 12))) (Z.shiftl (Z.land pa PA_MASK) 12).
Definition pe_clear_present (e : Z) : Z := Z.land e (Z.lnot 1).

Definition bit (n : Z) : Z := Z.shiftl 1 n.
Definition VMM_FLAGS_TABLE : Z := Z.lor (Z.lor (bit 0) (bit 1)) (bit 2).
Definition VMM_FLAGS_KERNEL_RW : Z := Z.lor (Z.lor (bit 0) (bit 1)) (bit 63).
Definition VMM_FLAGS_KERNEL_CODE : Z := bit 0.
Definition VMM_FLAGS_KERNEL_ALL : Z := Z.lor (bit 0) (bit 1).
Definition VMM_FLAGS_USER_RW : Z := Z.lor (Z.lor (Z.lor (bit 0) (bit 1)) (bit 2)) (bit 63).
Definition VMM_FLAGS_USER_CODE : Z := Z.lor (bit 0) (bit 2).
Definition VMM_FLAGS_MMIO : Z := Z.lor (Z.lor (Z.lor (bit 0) (bit 1)) (bit 4)) (bit 63).

Definition PML4_INDEX (virt : Z) : Z := Z.land (Z.shiftr virt 39) 511.
Definition PDPT_INDEX (virt : Z) : Z := Z.land (Z.shiftr virt 30) 511.
Definition PD_INDEX (virt : Z) : Z := Z.land (Z.shiftr virt 21) 511.
Definition PT_INDEX (virt : Z) : Z := Z.land (Z.shiftr virt 12) 511.

Definition KERNEL_START : Z := 0xffffffff80000000.

(** ** State *)

Record vmm_state := mk_vmm {
  pmm : pmm_state;
  current_PML4 : Z;         (* direct-map pointer *)
  hhdm_offset : Z;
  kernel_start_phys : Z;
  kernel_end_phys : Z;
  cr3 : Z                   (* the CPU's page-table base *)
}.

Definition set_pmm (p : pmm_state) (st : vmm_state) : vmm_state :=
  mk_vmm p (current_PML4 st) (hhdm_offset st) (kernel_start_phys st) (kernel_end_phys st) (cr3 st).
Definition in_pmm {A} (m : M pmm_state A) : M vmm_state A := zoom pmm set_pmm m.

#[global] Instance vmm_console : Console vmm_state := fun msg st => set_pmm (emit msg (pmm st)) st.

(** Accesses through a direct-map pointer. *)
Definition hload64 (p : Z) : M pmm_state Z := fun st =>
  if p <? hhdm st then UB else OK (rd64 (ram st) (p - hhdm st), st).
Definition hstore64 (p v : Z) : M pmm_state unit := fun st =>
  if p <? hhdm st then UB else OK (tt, set_ram (fun m => wr64 m (p - hhdm st) v) st).
Definition hmemset (p v n : Z) : M pmm_state unit := fun st =>
  if p <? hhdm st then UB else OK (tt, set_ram (fun m => fill (Z.to_nat n) m (p - hhdm st) v) st).

Definition load_entry (tbl i : Z) : M vmm_state Z := in_pmm (hload64 (u64 (tbl + 8 * i))).
Definition store_entry (tbl i e : Z) : M vmm_state unit := in_pmm (hstore64 (u64 (tbl + 8 * i)) e).

(** Pointer to the table (or page) an entry refers to. *)
Definition entry_ptr (e : Z) : M vmm_state Z :=
  gets (fun st => u64 (Z.shiftl (pe_physical_addr e) 12 + hhdm_offset st)).

(** ** Operations *)

Definition vmm_create_PML4 : M vmm_state (option Z) :=
  let* frame := in_pmm pmm_alloc_frame in
  let* off := gets hhdm_offset in
  let addr := u64 (frame + off) in
  if addr =? 0 then ret None
  else in_pmm (hmemset addr 0 PAGE_SIZE) ;;; ret (Some addr).

Definition vmm_set_PML4 (PML4 : Z) : M vmm_state unit :=
  modify (fun st => mk_vmm (pmm st) PML4 (hhdm_offset st) (kernel_start_phys st) (kernel_end_phys st) (cr3 st)).

Definition vmm_load_cpu : M vmm_state unit :=
  modify (fun st => mk_vmm (pmm st) (current_PML4 st) (hhdm_offset st) (kernel_start_phys st)
                      (kernel_end_phys st) (u64 (current_PML4 st - hhdm_offset st))).

(** The entry copy of [vmm_copy_kernel_PML4]: indices 256 to 511. *)
Definition vmm_copy_kernel_PML4 (to from : Z) : M vmm_state unit :=
  for_loop 256 256 (fun i => let* e := load_entry from i in store_entry to i e).

(** One level of [vmm_map_page]: the table an entry of [tbl] points to, created
    and linked when the entry is not present; [None] is the code's
    [return false]. *)
Definition ensure_table (tbl i : Z) : M vmm_state (option Z) :=
  let* e := load_entry tbl i in
  if negb (pe_present e) then
    let* frame := in_pmm pmm_alloc_frame in
    let* off := gets hhdm_offset in
    let next := u64 (frame + off) in
    if next =? 0 then ret None
    else
      in_pmm (hmemset next 0 PAGE_SIZE) ;;;
      store_entry tbl i VMM_FLAGS_TABLE ;;;
      let* e' := load_entry tbl i in
      store_entry tbl i (pe_set_physical_addr e' (Z.shiftr (u64 (next - off)) 12)) ;;;
      ret (Some next)
  else let* p := entry_ptr e in ret (Some p).

(** The last level of [vmm_map_page], once the page table [pt_addr] exists. *)
Definition map_leaf (pt_addr virt phys flags : Z) : M vmm_state bool :=
  let* e := load_entry pt_addr (PT_INDEX virt) in
  if pe_present e then ret false else
  let* reserved := in_pmm (pmm_is_reserved phys) in
  let* ok := (if negb reserved then in_pmm (pmm_reserve_frame phys) else ret true) in
  if negb ok then ret false else
  store_entry pt_addr (PT_INDEX virt) flags ;;;
  let* e' := load_entry pt_addr (PT_INDEX virt) in
  store_entry pt_addr (PT_INDEX virt) (pe_set_physical_addr e' (Z.shiftr phys 12)) ;;;
  ret true.

Definition vmm_map_page (virt phys flags : Z) : M vmm_state bool :=
  let* root := gets current_PML4 in
  let* pdpt := ensure_table root (PML4_INDEX virt) in
  match pdpt with None => ret false | Some pdpt_addr =>
  let* pd := ensure_table pdpt_addr (PDPT_INDEX virt) in
  match pd with None => ret false | Some pd_addr =>
  let* pt := ensure_table pd_addr (PD_INDEX virt) in
  match pt with None => ret false | Some pt_addr =>
  map_leaf pt_addr virt phys flags
  end end end.

(** The three-level descent that [vmm_edit_page], [vmm_unmap_page],
    [vmm_is_mapped] and [vmm_virt_to_phys] share: the page table of [virt]. *)
Definition walk (virt : Z) : M vmm_state (option Z) :=
  let* root := gets current_PML4 in
  let* e4 := load_entry root (PML4_INDEX virt) in
  if negb (pe_present e4) then ret None else
  let* pdpt_addr := entry_ptr e4 in
  let* e3 := load_entry pdpt_addr (PDPT_INDEX virt) in
  if negb (pe_present e3) then ret None else
  let* pd_addr := entry_ptr e3 in
  let* e2 := load_entry pd_addr (PD_INDEX virt) in
  if negb (pe_present e2) then ret None else
  let* pt_addr := entry_ptr e2 in ret (Some pt_addr).

Definition vmm_edit_page (virt phys flags : Z) : M vmm_state bool :=
  let* w := walk virt in
  match w with None => ret false | Some pt_addr =>
  let* e := load_entry pt_addr (PT_INDEX virt) in
  if negb (pe_present e) then ret false else
  let current_phys := Z.shiftl (pe_physical_addr e) 12 in
  (if negb (flags =? 0) then
     store_entry pt_addr (PT_INDEX virt) flags ;;;
     let* e1 := load_entry pt_addr (PT_INDEX virt) in
     store_entry pt_addr (PT_INDEX virt) (pe_set_physical_addr e1 (Z.shiftr current_phys 12))
   else ret tt) ;;;
  if negb (phys =? 0) then
    let* r := in_pmm (pmm_is_reserved current_phys) in
    (if r then in_pmm (pmm_free_frame current_phys) else ret tt) ;;;
    let* r' := in_pmm (pmm_is_reserved phys) in
    let* ok := (if negb r' then in_pmm (pmm_reserve_frame phys) else ret true) in
    if negb ok then ret false else
    let* e2 := load_entry pt_addr (PT_INDEX virt) in
    store_entry pt_addr (PT_INDEX virt) (pe_set_physical_addr e2 (Z.shiftr phys 12)) ;;;
    ret true
  else ret true
  end.

(** Pages of [start_virt..end_virt], as the code counts them. *)
Definition page_amount (start_virt end_virt : Z) : Z :=
  u64 (end_virt / PAGE_SIZE - start_virt / PAGE_SIZE + 1).

Fixpoint edit_pages_loop (n : nat) (i start_virt flags : Z) (success : bool) : M vmm_state bool :=
  match n with
  | O => ret success
  | S n' =>
      let* s := vmm_edit_page (u64 (start_virt + i * PAGE_SIZE)) 0 flags in
      edit_pages_loop n' (i + 1) start_virt flags (if negb s then false else success)
  end.
Definition vmm_edit_pages (start_virt end_virt flags : Z) : M vmm_state bool :=
  edit_pages_loop (Z.to_nat (page_amount start_virt end_virt)) 0 start_virt flags true.

Definition vmm_unmap_page (virt : Z) : M vmm_state bool :=
  let* w := walk virt in
  match w with None => ret false | Some pt_addr =>
  let* e := load_entry pt_addr (PT_INDEX virt) in
  if negb (pe_present e) then ret false else
  let phys := Z.shiftl (pe_physical_addr e) 12 in
  store_entry pt_addr (PT_INDEX virt) (pe_clear_present e) ;;;
  let* r := in_pmm (pmm_is_reserved phys) in
  (if r then in_pmm (pmm_free_frame phys) else ret tt) ;;;
  ret true
  end.

Definition vmm_is_mapped (virt : Z) : M vmm_state bool :=
  let* w := walk virt in
  match w with None => ret false | Some pt_addr =>
  let* e := load_entry pt_addr (PT_INDEX virt) in ret (pe_present e)
  end.

(** [vmm_are_mapped]'s loop [for (virt = start; virt <= end; virt += PAGE_SIZE)]
    with fuel: the 64-bit counter may wrap past [end_virt]. *)
Fixpoint vmm_are_mapped (fuel : nat) (virt end_virt : Z) : M vmm_state bool :=
  match fuel with
  | O => out_of_fuel
  | S fuel' =>
      if virt <=? end_virt then
        let* m := vmm_is_mapped virt in
        if negb m then ret false else vmm_are_mapped fuel' (u64 (virt + PAGE_SIZE)) end_virt
      else ret true
  end.

Definition vmm_virt_to_phys (virt : Z) : M vmm_state Z :=
  let* w := walk virt in
  match w with None => ret 0 | Some pt_addr =>
  let* e := load_entry pt_addr (PT_INDEX virt) in
  if negb (pe_present e) then ret 0 else
  let phys := Z.shiftl (pe_physical_addr e) 12 in
  let* r := in_pmm (pmm_is_reserved phys) in
  if negb r then ret 0 else ret phys
  end.

(** [vmm_alloc]'s mapping loop; returns the index of the failing page, or
    [amount] when every page was mapped. *)
Fixpoint alloc_loop (n : nat) (i amount start_virt flags : Z) : M vmm_state Z :=
  match n with
  | O => ret amount
  | S n' =>
      let* frame_addr := in_pmm pmm_alloc_frame in
      if frame_addr =? 0 then ret i else
      let* success := vmm_map_page (u64 (start_virt + i * PAGE_SIZE)) frame_addr flags in
      if negb success then in_pmm (pmm_free_frame frame_addr) ;;; ret i
      else alloc_loop n' (i + 1) amount start_virt flags
  end.

Definition unmap_loop (n : nat) (start_virt : Z) : M vmm_state unit :=
  for_loop n 0 (fun i => vmm_unmap_page (u64 (start_virt + i * PAGE_SIZE)) ;;; ret tt).

Definition vmm_alloc (start_virt end_virt flags : Z) : M vmm_state bool :=
  let amount := page_amount start_virt end_virt in
  let* failed_i := alloc_loop (Z.to_nat amount) 0 amount start_virt flags in
  if failed_i <? amount
  then unmap_loop (Z.to_nat failed_i) start_virt ;;; ret false
  else ret true.

Definition vmm_free (start_virt end_virt : Z) : M vmm_state unit :=
  unmap_loop (Z.to_nat (page_amount start_virt end_virt)) start_virt.

(** [vmm_unmap_PML4]: every present table below [PML4], then [PML4] itself. *)
Definition vmm_unmap_PML4 (PML4 : Z) : M vmm_state unit :=
  for_loop 512 0 (fun i_PML4 =>
    let* e4 := load_entry PML4 i_PML4 in
    if negb (pe_present e4) then ret tt else
    let* PDPT := entry_ptr e4 in
    for_loop 512 0 (fun i_PDPT =>
      let* e3 := load_entry PDPT i_PDPT in
      if negb (pe_present e3) then ret tt else
      let* PD := entry_ptr e3 in
      for_loop 512 0 (fun i_PD =>
        let* e2 := load_entry PD i_PD in
        if negb (pe_present e2) then ret tt else
        let* PT := entry_ptr e2 in
        vmm_unmap_page PT ;;; ret tt) ;;;
      vmm_unmap_page PD ;;; ret tt) ;;;
    vmm_unmap_page PDPT ;;; ret tt) ;;;
  vmm_unmap_page PML4 ;;; ret tt.

(** [vmm_init]: [kernel_end] is the linker symbol; [cr3] holds Limine's table. *)
Definition vmm_init (offset physical_base kernel_end : Z) : M vmm_state (option Z) :=
  modify (fun st => mk_vmm (pmm st) (current_PML4 st) offset (kernel_start_phys st) (kernel_end_phys st) (cr3 st)) ;;;
  let* kernel_PML4 := vmm_create_PML4 in
  match kernel_PML4 with
  | None => screen_print "[vmm] vmm init failed: can't create kernel PML4\n" ;;; ret None
  | Some kernel_PML4 =>
      screen_print "[vmm] created kernel PML4\n" ;;;
      modify (fun st => mk_vmm (pmm st) (current_PML4 st) (hhdm_offset st) physical_base
                          (u64 (kernel_end - KERNEL_START + physical_base)) (cr3 st)) ;;;
      let* limine_pml4 := gets (fun st => u64 (cr3 st + hhdm_offset st)) in
      for_loop 256 256 (fun i => let* e := load_entry limine_pml4 i in store_entry kernel_PML4 i e) ;;;
      vmm_set_PML4 kernel_PML4 ;;;
      screen_print "[vmm] mapped all limine mappings to new kernel map\n" ;;;
      vmm_load_cpu ;;;
      screen_print "[vmm] loaded new kernel PML4 to cpu\n" ;;;
      screen_print "[vmm] vmm init\n" ;;;
      ret (Some kernel_PML4)
  end.
