(* ===== verification/VmmTree.v ===== *)
(** * The page-table tree

    The tables of the current address space as a tree: [node m root p] is the
    physical address reached from [root] by following the indices [p].  Paths of
    length at most three lead to tables, paths of length four to mapped pages.
    [vmm_ok] says that the tree really is one (no frame occurs twice), that its
    frames are reserved in the PMM and that they avoid the PMM's bitmap. *)
From S2P Require Import Prelude Mem Pmm Vmm.

(** ** Entries *)

Lemma pa_range e : 0 <= pe_physical_addr e < 2 ^ 40.
Proof. unfold pe_physical_addr, PA_MASK. rewrite Z.land_ones by lia. apply Z.mod_pos_bound. lia. Qed.

Lemma set_pa_testbit e v k : 0 <= k ->
  Z.testbit (pe_set_physical_addr e v) k =
  if decide (12 <= k < 52) then Z.testbit v (k - 12) else Z.testbit e k.
Proof.
  intros Hk. unfold pe_set_physical_addr, PA_MASK.
  rewrite Z.lor_spec, Z.land_spec, Z.lnot_spec, !Z.shiftl_spec by lia.
  rewrite Z.land_spec.
  destruct (Z.ltb_spec k 12).
  - rewrite !(Z.testbit_neg_r _ (k - 12)) by lia. rewrite decide_False by lia.
    cbn. by rewrite andb_true_r, orb_false_r.
  - rewrite Z.testbit_ones by lia. destruct (Z.ltb_spec (k - 12) 40);
      destruct (Z.leb_spec 0 (k - 12)); try lia; cbn.
    + rewrite decide_True by lia. by rewrite andb_false_r, andb_true_r.
    + rewrite decide_False by lia. by rewrite andb_true_r, andb_false_r, orb_false_r.
Qed.

Lemma set_pa_present e v : pe_present (pe_set_physical_addr e v) = pe_present e.
Proof. unfold pe_present. rewrite set_pa_testbit by lia. by rewrite decide_False by lia. Qed.

Lemma set_pa_get e v : 0 <= v < 2 ^ 40 -> pe_physical_addr (pe_set_physical_addr e v) = v.
Proof.
  intros Hv. unfold pe_physical_addr, PA_MASK. rewrite Z.land_ones by lia.
  apply Z.bits_inj_iff'. intros n Hn. destruct (Z.ltb_spec n 40).
  - rewrite Z.mod_pow2_bits_low, Z.shiftr_spec, set_pa_testbit by lia.
    rewrite decide_True by lia. f_equal. lia.
  - rewrite Z.mod_pow2_bits_high by lia. symmetry.
    rewrite <- (Z.mod_small v (2 ^ 40)) by lia. apply Z.mod_pow2_bits_high. lia.
Qed.

Lemma bits_range w x : 0 <= w -> (forall k, w <= k -> Z.testbit x k = false) -> in_range w x.
Proof.
  intros Hw Hx. replace x with (x mod 2 ^ w); [apply (wrap_range w); lia|].
  apply Z.bits_inj_iff'. intros n Hn. destruct (Z.ltb_spec n w).
  - by rewrite Z.mod_pow2_bits_low by lia.
  - rewrite Z.mod_pow2_bits_high by lia. symmetry. apply Hx. lia.
Qed.

Lemma range_bits w x k : in_range w x -> 0 <= w <= k -> Z.testbit x k = false.
Proof.
  intros Hx Hk. rewrite <- (wrap_id w x Hx). unfold wrap. apply Z.mod_pow2_bits_high. lia.
Qed.

Lemma set_pa_range e v : in_range 64 e -> in_range 64 (pe_set_physical_addr e v).
Proof.
  intros He. apply bits_range; [lia|]. intros k Hk. rewrite set_pa_testbit by lia.
  rewrite decide_False by lia. apply (range_bits 64); [done|lia].
Qed.

Lemma clear_present_spec e : pe_present (pe_clear_present e) = false.
Proof. unfold pe_present, pe_clear_present. rewrite Z.land_spec, Z.lnot_spec by lia. apply andb_false_r. Qed.

Lemma clear_present_range e : in_range 64 e -> in_range 64 (pe_clear_present e).
Proof.
  intros He. apply bits_range; [lia|]. intros k Hk. unfold pe_clear_present.
  rewrite Z.land_spec, (range_bits 64 e) by (done || lia). done.
Qed.

Lemma index_range v k : 0 <= Z.land (Z.shiftr v k) 511 < 512.
Proof. change 511 with (Z.ones 9). rewrite Z.land_ones by lia. apply Z.mod_pos_bound. lia. Qed.

(** ** Nodes *)

Definition ent (m : mem) (t i : Z) : Z := rd64 m (t + 8 * i).
Definition child (m : mem) (t i : Z) : option Z :=
  if pe_present (ent m t i) then Some (pe_physical_addr (ent m t i) * 4096) else None.
Fixpoint node (m : mem) (t : Z) (p : list Z) : option Z :=
  match p with
  | [] => Some t
  | i :: p' => t' ← child m t i; node m t' p'
  end.

Definition vpath (virt : Z) : list Z := [PML4_INDEX virt; PDPT_INDEX virt; PD_INDEX virt; PT_INDEX virt].

Lemma node_snoc m t p i : node m t (p ++ [i]) = t' ← node m t p; child m t' i.
Proof.
  revert t. induction p as [|j p IH]; intros t; cbn.
  - by destruct (child m t i).
  - destruct (child m t j); cbn; [apply IH|done].
Qed.

Lemma node_ext m m' root p :
  (forall q t i, (length q < length p)%nat -> node m root q = Some t -> child m' t i = child m t i) ->
  node m' root p = node m root p.
Proof.
  induction p as [|i p IH] using rev_ind; intros H; [done|]. rewrite !node_snoc, IH.
  - destruct (node m root p) eqn:E; [|done]. cbn. apply (H p); [rewrite length_app; cbn; lia|done].
  - intros q t j Hq. apply H. rewrite length_app. cbn. lia.
Qed.

Section Paths.
Context (own : Z -> bool).

Definition path_ok (p : list Z) : Prop :=
    Forall (fun i => 0 <= i < 512) p /\ (length p <= 4)%nat /\
    match p with [] => True | i :: _ => own i = true end.

Lemma path_ok_snoc p i : path_ok (p ++ [i]) -> path_ok p /\ 0 <= i < 512 /\ (length p < 4)%nat.
  Proof.
    intros (H1 & H2 & H3). rewrite length_app in H2. cbn in H2. apply Forall_app in H1 as [H1 Hi].
    apply Forall_inv in Hi. split; [|lia].
    split_and!; [done|lia|]. destruct p; [done|exact H3].
  Qed.

Lemma path_ok_vpath virt n : own (PML4_INDEX virt) = true -> path_ok (take n (vpath virt)).
  Proof.
    intros Ho. split_and!.
    - apply Forall_take. repeat constructor; apply index_range.
    - rewrite length_take. cbn. lia.
    - by destruct n.
  Qed.

  (** Replacing the link at one slot of one table: everything else is kept.  A
      slot of an inner table must have been empty, and a table put there must
      be empty. *)
Lemma node_update m m' root p i t c :
    (forall q q' u, path_ok q -> path_ok q' -> node m root q = Some u -> node m root q' = Some u -> q = q') ->
    path_ok (p ++ [i]) -> node m root p = Some t -> child m' t i = c ->
    ((length p < 3)%nat -> child m t i = None) ->
    (forall f, c = Some f -> (length p < 3)%nat -> forall j, 0 <= j < 512 -> child m' f j = None) ->
    (forall q u j, path_ok (q ++ [j]) -> node m root q = Some u -> (q, j) <> (p, i) -> child m' u j = child m u j) ->
    forall q, path_ok q -> node m' root q = if decide (q = p ++ [i]) then c else node m root q.
  Proof.
    intros Hinj Hpi Hp Hc Hold Hzero Hsame q. induction q as [|j q IH] using rev_ind; intros Hq.
    - rewrite decide_False; [done|]. by destruct p.
    - destruct (path_ok_snoc _ _ Hq) as (Hq0 & Hj & Hl). rewrite !node_snoc, IH by done.
      destruct (path_ok_snoc _ _ Hpi) as (Hp0 & _ & _).
      destruct (decide (q = p ++ [i])) as [->|Hne].
      + rewrite length_app in Hl. cbn in Hl. rewrite decide_False.
        2: { intros E. apply (f_equal length) in E. rewrite length_app in E. cbn in E. lia. }
        rewrite node_snoc, Hp. cbn. rewrite Hold by lia. cbn. destruct c as [f|]; [|done]. cbn.
        apply (Hzero f); [done|lia|done].
      + destruct (node m root q) as [u|] eqn:Eu; cbn.
        * destruct (decide (q ++ [j] = p ++ [i])) as [E|E].
          -- apply app_inj_tail in E as [-> ->]. congruence.
          -- apply (Hsame q); [done|done|]. intros [= -> ->]. done.
        * rewrite decide_False; [done|]. intros E. apply app_inj_tail in E as [-> ->]. congruence.
  Qed.
End Paths.
