(* ===== verification/VmmSpec.v ===== *)
(** * Correctness of the virtual memory manager

    The invariant [vmm_ok], its preservation by mapping, editing and unmapping,
    and the functional behaviour of those operations on every address of the
    address space. *)
From S2P Require Import Prelude Mem Pmm Vmm VmmTree.

#[local] Opaque fill wrn rdn.

Definition page_bytes : nat := Z.to_nat PAGE_SIZE.
Lemma page_bytes_eq : Z.of_nat page_bytes = 4096.
Proof. unfold page_bytes, PAGE_SIZE. by rewrite Z2Nat.id by lia. Qed.
#[local] Opaque page_bytes.

(** ** The invariant *)

Definition root (st : vmm_state) : Z := current_PML4 st - hhdm (pmm st).
Definition nd (st : vmm_state) (p : list Z) : option Z := node (ram (pmm st)) (root st) p.

(** Bounds of the address spaces involved; physical memory is at most 2^40. *)
Record venv (st : vmm_state) : Prop := {
  ve_pmm : pmm_wf (pmm st);
  ve_off : hhdm_offset st = hhdm (pmm st);
  ve_hhdm : 0 < hhdm (pmm st) <= 2 ^ 64 - 2 ^ 47;
  ve_total : total_frames (pmm st) <= 2 ^ 28
}.

(** The page at physical address [t] is a frame in use, clear of the bitmap. *)
Definition node_ok (ps : pmm_state) (t : Z) : Prop :=
  t mod 4096 = 0 /\ 0 <= t / 4096 < total_frames ps /\ frame_used ps (t / 4096) = true /\
  (t + 4096 <= bm_phys ps \/ bm_phys ps + pmm_bitmap_size ps <= t).

Record vmm_ok (own : Z -> bool) (st : vmm_state) : Prop := {
  vok_env : venv st;
  vok_bitmap : forall a, bm_phys (pmm st) <= a < bm_phys (pmm st) + pmm_bitmap_size (pmm st) ->
    0 <= a / 4096 < total_frames (pmm st) /\ frame_used (pmm st) (a / 4096) = true;
  vok_nodes : forall p t, path_ok own p -> nd st p = Some t -> node_ok (pmm st) t;
  vok_inj : forall p q t, path_ok own p -> path_ok own q -> nd st p = Some t -> nd st q = Some t -> p = q
}.

(** Everything but the contents of RAM and the console agrees. *)
Definition same_env (st st' : vmm_state) : Prop :=
  hhdm (pmm st') = hhdm (pmm st) /\ pmm_bitmap (pmm st') = pmm_bitmap (pmm st) /\
  pmm_bitmap_size (pmm st') = pmm_bitmap_size (pmm st) /\ total_frames (pmm st') = total_frames (pmm st) /\
  hhdm_offset st' = hhdm_offset st /\ current_PML4 st' = current_PML4 st.

Definition upd_ram (f : mem -> mem) (st : vmm_state) : vmm_state := set_pmm (set_ram f (pmm st)) st.

Lemma same_env_venv st st' : same_env st st' -> venv st -> venv st'.
Proof.
  intros (E1&E2&E3&E4&E5&E6) [[] ? ? ?]. constructor; [constructor|..]; rewrite ?E1, ?E2, ?E3, ?E4, ?E5; done.
Qed.
Lemma same_env_refl st : same_env st st.
Proof. by repeat split. Qed.
Lemma same_env_trans a b c : same_env a b -> same_env b c -> same_env a c.
Proof. unfold same_env. intros (?&?&?&?&?&?) (?&?&?&?&?&?). split_and!; congruence. Qed.
Lemma same_env_root st st' : same_env st st' -> root st' = root st.
Proof. intros (E1&_&_&_&_&E6). unfold root. by rewrite E1, E6. Qed.
Lemma same_env_bm st st' : same_env st st' -> bm_phys (pmm st') = bm_phys (pmm st).
Proof. intros (E1&E2&_). unfold bm_phys. by rewrite E1, E2. Qed.
#[export] Hint Resolve same_env_refl same_env_trans same_env_venv : eos.

(** ** Running the accessors *)

Definition in_ram (t : Z) : Prop := 0 <= t /\ t + 4096 <= 2 ^ 40.

Lemma node_ok_in_ram ps t : total_frames ps <= 2 ^ 28 -> node_ok ps t -> in_ram t.
Proof. intros H (?&?&?&?). unfold in_ram. divlia. Qed.

Section Access.
Context (st : vmm_state) (Henv : venv st).
Let H := hhdm (pmm st).

Lemma load_entry_eq t i : in_ram t -> 0 <= i < 512 ->
    load_entry (t + H) i st = OK (ent (ram (pmm st)) t i, st).
  Proof using Henv.
    intros [? ?] Hi. destruct Henv as [_ _ ? _]. subst H. unfold load_entry, in_pmm, zoom, hload64.
    rewrite wrap_id by (unfold in_range; lia). case_bool; reflect_Z; [lia|]. cbn.
    unfold ent. replace (t + hhdm (pmm st) + 8 * i - hhdm (pmm st)) with (t + 8 * i) by lia.
    by destruct st as [[]].
  Qed.

Lemma store_entry_eq t i e : in_ram t -> 0 <= i < 512 ->
    store_entry (t + H) i e st = OK (tt, upd_ram (fun m => wr64 m (t + 8 * i) e) st).
  Proof using Henv.
    intros [? ?] Hi. destruct Henv as [_ _ ? _]. subst H. unfold store_entry, in_pmm, zoom, hstore64.
    rewrite wrap_id by (unfold in_range; lia). case_bool; reflect_Z; [lia|]. cbn.
    by replace (t + hhdm (pmm st) + 8 * i - hhdm (pmm st)) with (t + 8 * i) by lia.
  Qed.

Lemma entry_ptr_eq e : in_ram (pe_physical_addr e * 4096) ->
    entry_ptr e st = OK (pe_physical_addr e * 4096 + H, st).
  Proof using Henv.
    intros [? ?]. destruct Henv as [_ Ho ? _]. subst H. unfold entry_ptr, gets. rewrite Ho.
    pose proof (pa_range e). rewrite Z.shiftl_mul_pow2 by lia. change (2 ^ 12) with 4096.
    rewrite wrap_id; [done|]. unfold in_range. lia.
  Qed.

Lemma memset_page_eq t : in_ram t ->
    in_pmm (hmemset (t + H) 0 PAGE_SIZE) st = OK (tt, upd_ram (fun m => fill page_bytes m t 0) st).
  Proof using Henv.
    intros [? ?]. destruct Henv as [_ _ ? _]. subst H. unfold in_pmm, zoom, hmemset.
    case_bool; reflect_Z; [lia|]. cbn [obind].
    replace (t + hhdm (pmm st) - hhdm (pmm st)) with t by lia. done.
  Qed.
End Access.

Lemma ent_range m t i : in_range 64 (ent m t i).
Proof. apply (rdn_range 8). Qed.

Lemma ent_wr_eq m t i e : in_range 64 e -> ent (wr64 m (t + 8 * i) e) t i = e.
Proof. intros He. unfold ent. rewrite rdn_wrn_eq. apply Z.mod_small. done. Qed.

Lemma ent_wr_ne m t i e u j : t mod 4096 = 0 -> u mod 4096 = 0 -> 0 <= i < 512 -> 0 <= j < 512 ->
  (u, j) <> (t, i) -> ent (wr64 m (t + 8 * i) e) u j = ent m u j.
Proof.
  intros Ht Hu Hi Hj Hne. unfold ent. apply rdn_wrn_out.
  destruct (decide (u = t)) as [->|]; [|divlia]. destruct (decide (j = i)) as [->|]; [done|lia].
Qed.

(** ** Frame conditions *)

Lemma fresh_page_ok ps f : pmm_wf ps ->
  (forall a, bm_phys ps <= a < bm_phys ps + pmm_bitmap_size ps ->
     0 <= a / 4096 < total_frames ps /\ frame_used ps (a / 4096) = true) ->
  0 <= f < total_frames ps -> frame_used ps f = false ->
  f * 4096 + 4096 <= bm_phys ps \/ bm_phys ps + pmm_bitmap_size ps <= f * 4096.
Proof.
  intros Hwf Hbm Hf Hu. pose proof (wf_size ps Hwf).
  destruct (decide (f * 4096 + 4096 <= bm_phys ps)); [by left|].
  destruct (decide (bm_phys ps + pmm_bitmap_size ps <= f * 4096)); [by right|].
  exfalso. specialize (Hbm (Z.max (bm_phys ps) (f * 4096)) ltac:(divlia)).
  replace (Z.max (bm_phys ps) (f * 4096) / 4096) with f in Hbm by divlia. destruct Hbm; congruence.
Qed.

(** The usage of covered frames depends on the bytes of the bitmap only. *)
Lemma frame_used_ext ps ps' f : pmm_wf ps -> bm_phys ps' = bm_phys ps ->
  (forall a, bm_phys ps <= a < bm_phys ps + pmm_bitmap_size ps -> rd8 (ram ps') a = rd8 (ram ps) a) ->
  0 <= f < total_frames ps -> frame_used ps' f = frame_used ps f.
Proof.
  intros Hwf Hb Hm Hf. unfold frame_used. rewrite Hb, Hm; [done|]. rewrite (wf_size ps Hwf). divlia.
Qed.

Lemma bitmap_byte_range ps f : pmm_wf ps -> 0 <= f < total_frames ps ->
  bm_phys ps <= bm_phys ps + f / 8 < bm_phys ps + pmm_bitmap_size ps.
Proof. intros Hwf Hf. rewrite (wf_size ps Hwf). divlia. Qed.

(** What one step of the manager may change: tables and bitmap.  [slot] is the
    table slot rewritten, [f] the frame it now refers to. *)
Record vstep (own : Z -> bool) (p : list Z) (i : Z) (c : option Z) (U : Z -> bool) (st st' : vmm_state) : Prop := {
  vs_env : same_env st st';
  vs_nodes : forall q, path_ok own q -> nd st' q = if decide (q = p ++ [i]) then c else nd st q;
  vs_ents : forall q u j, path_ok own (q ++ [j]) -> nd st q = Some u -> (q, j) <> (p, i) ->
    ent (ram (pmm st')) u j = ent (ram (pmm st)) u j;
  vs_used : forall g, 0 <= g < total_frames (pmm st) -> frame_used (pmm st') g = U g
}.

(** Such a step keeps the invariant when frames of nodes stay in use and the
    new node is fresh. *)
Lemma vstep_ok own p i c U st st' : vmm_ok own st -> vstep own p i c U st st' ->
  (forall g, 0 <= g < total_frames (pmm st) -> frame_used (pmm st) g = true -> U g = false ->
     nd st (p ++ [i]) = Some (g * 4096) /\ length p = 3%nat /\ c = None /\
     ~ (exists a, bm_phys (pmm st) <= a < bm_phys (pmm st) + pmm_bitmap_size (pmm st) /\ a / 4096 = g)) ->
  path_ok own (p ++ [i]) ->
  (forall f, c = Some f ->
     node_ok (pmm st') f /\ forall q, path_ok own q -> nd st q = Some f -> q = p ++ [i]) ->
  vmm_ok own st'.
Proof.
  intros [Henv Hbm Hnodes Hinj] [Hse Hn He Hu] Hkeep Hpi Hc.
  pose proof (same_env_bm _ _ Hse) as Eb. destruct Hse as (E1&E2&E3&E4&E5&E6) eqn:Hse'.
  constructor.
  - by eapply same_env_venv.
  - intros a Ha. rewrite Eb, E3 in Ha. destruct (Hbm a Ha). rewrite E4. split; [done|]. rewrite Hu by auto.
    destruct (U (a / 4096)) eqn:EU; [done|]. exfalso.
    destruct (Hkeep (a / 4096)) as (_ & _ & _ & Hno); auto. apply Hno. eauto.
  - intros q t Hq Ht. rewrite Hn in Ht by done. case_decide as E; [by apply (Hc t)|].
    destruct (Hnodes q t Hq Ht) as (N1 & N2 & N3 & N4). split_and!; rewrite ?E4, ?E3, ?Eb; [done|lia|lia| |done].
    rewrite Hu by lia. destruct (U (t / 4096)) eqn:EU; [done|]. exfalso.
    destruct (Hkeep (t / 4096)) as (K1 & _ & _ & _); auto.
    replace (t / 4096 * 4096) with t in K1 by divlia. apply E. by apply (Hinj q (p ++ [i]) t).
  - intros q q' t Hq Hq' Ht Ht'. rewrite Hn in Ht, Ht' by done.
    destruct (decide (q = p ++ [i])) as [->|], (decide (q' = p ++ [i])) as [->|]; [done| | |by apply (Hinj q q' t)].
    + symmetry. by apply (Hc t).
    + by apply (Hc t).
Qed.

(** ** Linking a table: [ensure_table] *)

Section Ensure.
Context (own : Z -> bool) (st : vmm_state) (Hok : vmm_ok own st).
Context (p : list Z) (i t : Z) (Hpi : path_ok own (p ++ [i])) (Ht : nd st p = Some t).

Lemma slot_node : node_ok (pmm st) t /\ in_ram t /\ 0 <= i < 512 /\ path_ok own p /\ (length p < 4)%nat.
  Proof using All.
    destruct (path_ok_snoc _ _ _ Hpi) as (Hp & Hi & Hl).
    pose proof (vok_nodes _ _ Hok p t Hp Ht) as Hn. split_and!; try done; try lia;
      destruct (node_ok_in_ram _ _ (ve_total _ (vok_env _ _ Hok)) Hn); done.
  Qed.

  (** Memory after a frame [f] was taken, cleared and linked with entry [e]. *)
Definition linked (f e : Z) (m : mem) : mem := wr64 (fill page_bytes m (f * 4096) 0) (t + 8 * i) e.

Lemma linked_rd8 f e m a : ~ (f * 4096 <= a < f * 4096 + 4096) -> ~ (t <= a < t + 4096) ->
    rd8 (linked f e m) a = rd8 m a.
  Proof using All.
    intros H1 H2. destruct slot_node as (_ & _ & Hi & _). unfold linked.
    rewrite rd8_wrn_out by lia. rewrite rd8_fill, page_bytes_eq. by rewrite decide_False by lia.
  Qed.

Lemma link_step f e : 0 <= f < total_frames (pmm st) -> frame_used (pmm st) f = false ->
    in_range 64 e -> pe_present e = true -> pe_physical_addr e = f ->
    child (ram (pmm st)) t i = None -> (length p < 3)%nat ->
    let st' := upd_ram (linked f e) (set_pmm (set_used f true (pmm st)) st) in
    vstep own p i (Some (f * 4096)) (fun g => if decide (f = g) then true else frame_used (pmm st) g) st st' /\
    vmm_ok own st'.
  Proof using All.
    intros Hf Hu He Hpres Hpa Hnone Hlen st'. destruct slot_node as (Hn & Hr & Hi & Hp & _).
    destruct Hok as [Henv Hbm Hnodes Hinj]. pose proof (ve_pmm _ Henv) as Hwf.
    pose proof (fresh_page_ok _ _ Hwf Hbm Hf Hu) as Hpage.
    assert (ram (pmm st') = linked f e (ram (set_used f true (pmm st)))) as Eram by done.
    assert (f * 4096 <> t) as Hft.
    { intros E. destruct Hn as (_ & _ & Hnu & _). rewrite <- E in Hnu. rewrite Z.div_mul in Hnu by lia. congruence. }
    assert (forall u j, node_ok (pmm st) u -> 0 <= j < 512 -> (u, j) <> (t, i) ->
      ent (ram (pmm st')) u j = ent (ram (pmm st)) u j) as Hent.
    { intros u j Hnu Hj Hne. rewrite Eram. destruct Hn as (A1 & A2 & A3 & A4). destruct Hnu as (B1 & B2 & B3 & B4).
      unfold linked. rewrite ent_wr_ne by (done || lia). unfold ent.
      assert (u <> f * 4096) by (intros ->; rewrite Z.div_mul in B3 by lia; congruence).
      rewrite rdn_fill_out by (rewrite page_bytes_eq; divlia). pose proof (bitmap_byte_range _ _ Hwf Hf). apply rdn_wr8_out. lia. }
    assert (same_env st st') as Hse by by repeat split.
    clearbody st'.
    assert (vstep own p i (Some (f * 4096)) (fun g => if decide (f = g) then true else frame_used (pmm st) g) st st') as Hs.
    { constructor.
      - done.
      - intros q Hq. unfold nd. rewrite (same_env_root _ _ Hse).
        apply (node_update own (ram (pmm st)) (ram (pmm st')) (root st) p i t);
          [exact Hinj|exact Hpi|exact Ht| |by intros| | |exact Hq].
        + unfold child. rewrite Eram. unfold linked. rewrite ent_wr_eq by done. by rewrite Hpres, Hpa.
        + intros g [= <-] _ j Hj. unfold child. rewrite Eram. unfold linked.
          rewrite ent_wr_ne; [|apply Hn|apply Z.mod_mul; lia|done|done|congruence].
          unfold ent. rewrite rdn_fill_in; [done|done|lia|rewrite page_bytes_eq; lia].
        + intros q' u j Hq' Hu' Hne. destruct (path_ok_snoc _ _ _ Hq') as (Hq0 & Hj & _).
          unfold child. rewrite Hent; [done|by apply (Hnodes q')|done|].
          intros [= -> ->]. apply Hne. f_equal. by apply (Hinj q' p t).
      - intros q u j Hqj Hqu Hne. destruct (path_ok_snoc _ _ _ Hqj) as (Hq0 & Hj & _).
        apply Hent; [by apply (Hnodes q)|done|]. intros [= -> ->]. apply Hne. f_equal. by apply (Hinj q p t).
      - intros g Hg. rewrite <- (frame_used_set f g true (pmm st)) by lia.
        apply (frame_used_ext (set_used f true (pmm st))); [by apply set_used_wf|by rewrite (same_env_bm _ _ Hse)| |done].
        intros a Ha. change (bm_phys (set_used f true (pmm st))) with (bm_phys (pmm st)) in Ha.
        change (pmm_bitmap_size (set_used f true (pmm st))) with (pmm_bitmap_size (pmm st)) in Ha.
        rewrite Eram. apply linked_rd8; [lia|]. destruct Hn as (_ & _ & _ & ?). lia. }
    split; [done|]. eapply (vstep_ok own p i _ _ st st' Hok Hs).
    - intros g Hg HU. case_decide; [done|]. congruence.
    - done.
    - intros f' [= <-]. split.
      + pose proof (same_env_bm _ _ Hse) as Eb. destruct Hse as (_&_&E3&E4&_).
        split_and!; rewrite ?Eb, ?E3, ?E4, ?Z.div_mul by lia; [apply Z.mod_mul; lia|lia|lia| |done].
        rewrite (vs_used _ _ _ _ _ _ _ Hs f Hf). by rewrite decide_True.
      + intros q Hq Hqf. exfalso. destruct (Hnodes q _ Hq Hqf) as (_ & _ & Hqu & _).
        rewrite Z.div_mul in Hqu by lia. congruence.
  Qed.
End Ensure.

(** ** Translation *)

(** The page-table entry that maps [virt], when there is one. *)
Definition tr (st : vmm_state) (virt : Z) : option Z :=
  pt ← nd st (take 3 (vpath virt));
  let e := ent (ram (pmm st)) pt (PT_INDEX virt) in
  if pe_present e then Some e else None.

Lemma vpath_split virt : vpath virt = take 3 (vpath virt) ++ [PT_INDEX virt].
Proof. done. Qed.

Lemma nd_vpath st virt :
  nd st (vpath virt) = pt ← nd st (take 3 (vpath virt)); child (ram (pmm st)) pt (PT_INDEX virt).
Proof. unfold nd. by rewrite vpath_split, node_snoc. Qed.

Lemma tr_node st virt : nd st (vpath virt) = (fun e => pe_physical_addr e * 4096) <$> tr st virt.
Proof.
  unfold tr. rewrite nd_vpath.
  destruct (nd _ (take 3 _)) as [pt|]; [|done]. cbn [mbind option_bind]. unfold child.
  by destruct (pe_present _).
Qed.

(** [st'] extends [st]: same translations, tables only added, in fresh frames. *)
Record grows (own : Z -> bool) (st st' : vmm_state) : Prop := {
  g_env : same_env st st';
  g_tr : forall virt, own (PML4_INDEX virt) = true -> tr st' virt = tr st virt;
  g_nodes : forall q t, path_ok own q -> nd st q = Some t -> nd st' q = Some t;
  g_fresh : forall q t, path_ok own q -> nd st' q = Some t ->
    nd st q = Some t \/ frame_used (pmm st) (t / 4096) = false;
  g_used : forall g, 0 <= g < total_frames (pmm st) ->
    frame_used (pmm st) g = true -> frame_used (pmm st') g = true
}.

Lemma grows_refl own st : grows own st st.
Proof. constructor; auto with eos. Qed.

Lemma grows_trans own a b c : vmm_ok own c -> grows own a b -> grows own b c -> grows own a c.
Proof.
  intros Hok [E1 T1 N1 F1 U1] [E2 T2 N2 F2 U2]. pose proof (same_env_trans _ _ _ E1 E2) as E3.
  destruct E1 as (_&_&_&Et1&_). constructor; auto.
  - intros virt Hv. by rewrite T2, T1.
  - intros q t Hq Ht. destruct (F2 q t Hq Ht) as [Hb|Hb]; [by apply F1|]. right.
    destruct (vok_nodes _ _ Hok q t Hq Ht) as (_ & Hr & _). destruct E3 as (_&_&_&Et3&_).
    destruct (frame_used (pmm a) (t / 4096)) eqn:E; [|done]. rewrite U1 in Hb; [done|lia|done].
  - intros g Hg Hu. apply U2; [by rewrite Et1|]. by apply U1.
Qed.

Lemma vstep_grows own p i f st st' : vmm_ok own st -> path_ok own (p ++ [i]) -> (length p < 3)%nat ->
  nd st (p ++ [i]) = None -> frame_used (pmm st) f = false ->
  vstep own p i (Some (f * 4096)) (fun g => if decide (f = g) then true else frame_used (pmm st) g) st st' ->
  grows own st st'.
Proof.
  intros Hok Hpi Hlen Hnone Hu [Hse Hn He Hus]. constructor; [done| | | |].
  - intros virt Hv. unfold tr.
    pose proof (path_ok_vpath own virt 3 Hv) as H3. pose proof (path_ok_vpath own virt 4 Hv) as H4.
    change (take 4 (vpath virt)) with (vpath virt) in H4.
    rewrite Hn by done. case_decide as E.
    + rewrite E, Hnone. cbn [mbind option_bind].
      pose proof (Hn (vpath virt) H4) as Hl. rewrite decide_False in Hl.
      2: { intros E2. apply (f_equal length) in E2. rewrite length_app in E2. cbn in E2. lia. }
      pose proof (Hn (p ++ [i]) Hpi) as Hl2. rewrite decide_True in Hl2 by done.
      rewrite !nd_vpath, E, Hnone, Hl2 in Hl. cbn [mbind option_bind] in Hl. unfold child in Hl.
      by destruct (pe_present (ent (ram (pmm st')) (f * 4096) (PT_INDEX virt))).
    + destruct (nd st (take 3 (vpath virt))) as [pt|] eqn:Ept; [|done]. cbn [mbind option_bind].
      rewrite (He (take 3 (vpath virt))); [done| |done|].
      * by rewrite <- vpath_split.
      * intros [= E1 _]. apply (f_equal length) in E1. cbn in E1. lia.
  - intros q t Hq Ht. rewrite Hn by done. case_decide as E; [|done]. subst. congruence.
  - intros q t Hq Ht. rewrite Hn in Ht by done. case_decide as E; [|by left].
    injection Ht as <-. right. by rewrite Z.div_mul by lia.
  - intros g Hg Hg'. rewrite Hus by done. by case_decide.
Qed.

Lemma in_pmm_eq {A} (m : M pmm_state A) st a ps :
  m (pmm st) = OK (a, ps) -> in_pmm m st = OK (a, set_pmm ps st).
Proof. intros E. unfold in_pmm, zoom. by rewrite E. Qed.

Lemma upd_ram_upd_ram f g st : upd_ram f (upd_ram g st) = upd_ram (fun m => f (g m)) st.
Proof. done. Qed.

Lemma table_entry f : 0 <= f < 2 ^ 28 ->
  let e := pe_set_physical_addr VMM_FLAGS_TABLE f in
  in_range 64 e /\ pe_present e = true /\ pe_physical_addr e = f.
Proof.
  intros Hf e. subst e. rewrite set_pa_present. split; [|split; [done|]].
  - apply set_pa_range. vm_compute. done.
  - apply set_pa_get. lia.
Qed.

Section EnsureRun.
Context (own : Z -> bool) (st : vmm_state) (Hok : vmm_ok own st).
Context (p : list Z) (i t : Z) (Hpi : path_ok own (p ++ [i])) (Ht : nd st p = Some t).
Context (Hlen : (length p < 3)%nat).
Let H := hhdm (pmm st).

Lemma ensure_table_new n : free_frames (pmm st) (S n) -> nd st (p ++ [i]) = None ->
    exists f st', ensure_table (t + H) i st = OK (Some (f * 4096 + H), st') /\ vmm_ok own st' /\
      grows own st st' /\ free_frames (pmm st') n /\ nd st' (p ++ [i]) = Some (f * 4096).
  Proof using Hok Hpi Ht Hlen.
    intros Hfree Hnone. destruct (slot_node own st Hok p i t Hpi Ht) as (Hn & Hr & Hi & Hp & _).
    pose proof (vok_env _ _ Hok) as Henv. destruct (ve_hhdm _ Henv). pose proof (ve_total _ Henv).
    assert (child (ram (pmm st)) t i = None) as Hc.
    { unfold nd in Hnone, Ht. by rewrite node_snoc, Ht in Hnone. }
    destruct (alloc_frame_ok (pmm st) n (ve_pmm _ Henv) Hfree) as (f & Halloc & Hf & Hu & Hfree').
    destruct (table_entry f ltac:(lia)) as (He & Hpres & Hpa).
    set (e := pe_set_physical_addr VMM_FLAGS_TABLE f) in *.
    destruct (link_step own st Hok p i t Hpi Ht f e Hf Hu He Hpres Hpa Hc Hlen) as [Hs Hok'].
    set (st1 := set_pmm (set_used f true (pmm st)) st) in *.
    assert (same_env st st1) as Hse1 by done.
    pose proof (same_env_venv _ _ Hse1 Henv) as Henv1. unfold FRAME_SIZE in Halloc.
    assert (in_ram (f * 4096)) as Hrf by (unfold in_ram; lia).
    exists f, (upd_ram (linked i t f e) st1). split_and!; [|done| | |].
    - unfold ensure_table. erewrite bind_step by (apply load_entry_eq; done).
      unfold child in Hc. destruct (pe_present _); [done|]. cbn [negb].
      erewrite bind_step by (apply in_pmm_eq, Halloc). fold st1.
      erewrite bind_step by done. change (hhdm_offset st1) with (hhdm_offset st). rewrite (ve_off _ Henv). fold H.
      cbv zeta. rewrite (wrap_id 64 (f * 4096 + H)) by (unfold in_range, H; lia).
      case_bool; reflect_Z; [unfold H in *; lia|].
      erewrite bind_step by (apply (memset_page_eq st1); done).
      set (st2 := upd_ram (fun m => fill page_bytes m (f * 4096) 0) st1).
      assert (same_env st st2) as Hse2 by done. pose proof (same_env_venv _ _ Hse2 Henv) as Henv2.
      erewrite bind_step by (apply (store_entry_eq st2); done).
      set (st3 := upd_ram (fun m => wr64 m (t + 8 * i) VMM_FLAGS_TABLE) st2).
      assert (same_env st st3) as Hse3 by done. pose proof (same_env_venv _ _ Hse3 Henv) as Henv3.
      erewrite bind_step by (apply (load_entry_eq st3); done).
      change (ram (pmm st3)) with (wr64 (ram (pmm st2)) (t + 8 * i) VMM_FLAGS_TABLE).
      rewrite ent_wr_eq by (vm_compute; done).
      replace (Z.shiftr (u64 (f * 4096 + H - H)) 12) with f.
      2: { rewrite wrap_id by (unfold in_range; lia). rewrite Z.shiftr_div_pow2 by lia. change (2 ^ 12) with 4096. divlia. }
      erewrite bind_step by (apply (store_entry_eq st3); done). unfold ret. subst st3 st2.
      rewrite !upd_ram_upd_ram. unfold linked, upd_ram, set_ram. cbv beta. by rewrite wrn_wrn.
    - by eapply vstep_grows.
    - destruct Hfree' as (l & Hnd & Hl & Hall). exists l. split_and!; [done|done|].
      eapply Forall_impl; [exact Hall|]. intros g [Hg Hgu]. split; [done|].
      rewrite (vs_used _ _ _ _ _ _ _ Hs g Hg). rewrite frame_used_set in Hgu by lia. done.
    - rewrite (vs_nodes _ _ _ _ _ _ _ Hs _ Hpi). by rewrite decide_True.
  Qed.

Lemma ensure_table_old u : nd st (p ++ [i]) = Some u ->
    ensure_table (t + H) i st = OK (Some (u + H), st).
  Proof using Hok Hpi Ht Hlen.
    intros Hu. destruct (slot_node own st Hok p i t Hpi Ht) as (Hn & Hr & Hi & Hp & _).
    pose proof (vok_env _ _ Hok) as Henv.
    pose proof (node_ok_in_ram _ _ (ve_total _ Henv) (vok_nodes _ _ Hok _ _ Hpi Hu)) as Hru.
    unfold nd in Hu, Ht. rewrite node_snoc, Ht in Hu. cbn [mbind option_bind] in Hu. unfold child in Hu.
    unfold ensure_table. erewrite bind_step by (apply load_entry_eq; done).
    destruct (pe_present _); [|done]. injection Hu as <-. cbn [negb].
    erewrite bind_step by (apply entry_ptr_eq; done). done.
  Qed.

  (** After [ensure_table] the slot leads to a table; translations are kept. *)
Lemma ensure_table_ok n : free_frames (pmm st) (S n) ->
    exists u st', ensure_table (t + H) i st = OK (Some (u + H), st') /\ vmm_ok own st' /\
      grows own st st' /\ free_frames (pmm st') n /\ nd st' (p ++ [i]) = Some u.
  Proof using Hok Hpi Ht Hlen.
    intros Hfree. destruct (nd st (p ++ [i])) as [u|] eqn:E.
    - exists u, st. split_and!; [by apply ensure_table_old|done|apply grows_refl| |done].
      eapply free_frames_le; [|done]. lia.
    - destruct (ensure_table_new n Hfree E) as (f & st' & ?&?&?&?&?). eauto 10.
  Qed.
End EnsureRun.

(** ** Rewriting a leaf entry *)

Lemma node_ext_ok own m m' r :
  (forall q t j, path_ok own (q ++ [j]) -> node m r q = Some t -> child m' t j = child m t j) ->
  forall p, path_ok own p -> node m' r p = node m r p.
Proof.
  intros Hsame p. induction p as [|j p IH] using rev_ind; intros Hp; [done|].
  destruct (path_ok_snoc _ _ _ Hp) as (Hp0 & _ & _). rewrite !node_snoc, IH by done.
  destruct (node m r p) eqn:E; [|done]. by apply (Hsame p).
Qed.

Section Leaf.
Context (own : Z -> bool) (st : vmm_state) (Hok : vmm_ok own st).
Context (virt pt : Z) (Hown : own (PML4_INDEX virt) = true).
Context (Hpt : nd st (take 3 (vpath virt)) = Some pt).
Let p := take 3 (vpath virt).
Let i := PT_INDEX virt.

Definition leaf_child (e : Z) : option Z :=
    if pe_present e then Some (pe_physical_addr e * 4096) else None.

Lemma leaf_path : path_ok own (p ++ [i]).
  Proof using Hown. change (p ++ [i]) with (take 4 (vpath virt)). by apply path_ok_vpath. Qed.

Lemma leaf_slot : node_ok (pmm st) pt /\ in_ram pt /\ 0 <= i < 512 /\ path_ok own p /\ (length p < 4)%nat.
  Proof using All. exact (slot_node own st Hok p i pt leaf_path Hpt). Qed.

Lemma leaf_write e : in_range 64 e ->
    vstep own p i (leaf_child e) (frame_used (pmm st)) st (upd_ram (fun m => wr64 m (pt + 8 * i) e) st).
  Proof using All.
    intros He. set (st' := upd_ram _ st). destruct leaf_slot as (Hn & Hr & Hi & Hp & _).
    pose proof leaf_path as Hpi. destruct Hok as [Henv Hbm Hnodes Hinj].
    assert (ram (pmm st') = wr64 (ram (pmm st)) (pt + 8 * i) e) as Eram by done.
    assert (same_env st st') as Hse by by repeat split. clearbody st'.
    assert (forall q u j, path_ok own (q ++ [j]) -> nd st q = Some u -> (q, j) <> (p, i) ->
      ent (ram (pmm st')) u j = ent (ram (pmm st)) u j) as Hent.
    { intros q u j Hqj Hqu Hne. destruct (path_ok_snoc _ _ _ Hqj) as (Hq0 & Hj & _).
      rewrite Eram. apply ent_wr_ne; [apply Hn|by apply (Hnodes q)|done|done|].
      intros [= -> ->]. apply Hne. f_equal. by apply (Hinj q p pt). }
    constructor; [done| |exact Hent|].
    - intros q Hq. unfold nd. rewrite (same_env_root _ _ Hse).
      apply (node_update own (ram (pmm st)) (ram (pmm st')) (root st) p i pt);
        [exact Hinj|exact Hpi|exact Hpt| |intros Hl; cbn in Hl; lia|intros ?? Hl; cbn in Hl; lia| |exact Hq].
      + unfold child. rewrite Eram, ent_wr_eq by done. done.
      + intros q' u j Hq' Hu' Hne. unfold child. by rewrite (Hent q').
    - intros g Hg. apply frame_used_ext; [apply Henv|by apply same_env_bm| |done].
      intros a Ha. rewrite Eram. apply rd8_wrn_out. destruct Hn as (_&_&_&?). lia.
  Qed.

  (** Marking a frame afterwards does not touch the tables. *)
Lemma leaf_mark c U st1 f b : vstep own p i c U st st1 -> 0 <= f < total_frames (pmm st) ->
    vstep own p i c (fun g => if decide (f = g) then b else U g) st (set_pmm (set_used f b (pmm st1)) st1).
  Proof using All.
    intros [Hse Hn He Hu] Hf. pose proof leaf_path as Hpi. destruct Hok as [Henv Hbm Hnodes Hinj].
    pose proof (same_env_venv _ _ Hse Henv) as Henv1. pose proof (same_env_bm _ _ Hse) as Eb.
    destruct Hse as (E1&E2&E3&E4&E5&E6). set (st2 := set_pmm (set_used f b (pmm st1)) st1).
    assert (forall q u j, path_ok own (q ++ [j]) -> nd st q = Some u -> ent (ram (pmm st2)) u j = ent (ram (pmm st1)) u j) as Hent.
    { intros q u j Hqj Hqu. destruct (path_ok_snoc _ _ _ Hqj) as (Hq0 & Hj & _).
      destruct (Hnodes q u Hq0 Hqu) as (_ & _ & _ & Hd). unfold ent.
      pose proof (bitmap_byte_range (pmm st1) f (ve_pmm _ Henv1) ltac:(lia)) as Hb. rewrite Eb, E3 in Hb.
      cbn. rewrite Eb. apply rdn_wr8_out. lia. }
    constructor; [by repeat split| | |].
    - intros q Hq. rewrite <- Hn by done. unfold nd. change (root st2) with (root st1).
      apply (node_ext_ok own); [|done]. intros q' u j Hq' Hu'. unfold child.
      rewrite (Hent q'); [done..|]. destruct (path_ok_snoc _ _ _ Hq') as (Hq0 & _ & Hl).
      change (nd st1 q' = Some u) in Hu'. rewrite Hn in Hu' by done. rewrite decide_False in Hu'; [done|].
      intros ->. cbn in Hl. lia.
    - intros q u j Hqj Hqu Hne. rewrite (Hent q) by done. by apply (He q).
    - intros g Hg. change (pmm st2) with (set_used f b (pmm st1)). rewrite frame_used_set by lia.
      case_decide; [done|]. by apply Hu.
  Qed.

  (** The translations after such a step. *)
Lemma leaf_tr e c U st' : vstep own p i c U st st' -> ent (ram (pmm st')) pt i = e ->
    forall v, own (PML4_INDEX v) = true ->
      tr st' v = if decide (vpath v = vpath virt) then (if pe_present e then Some e else None) else tr st v.
  Proof using All.
    intros [Hse Hn He Hu] Hent v Hv. unfold tr.
    rewrite Hn by by apply path_ok_vpath. rewrite decide_False.
    2: { intros E. apply (f_equal length) in E. cbn in E. lia. }
    destruct (nd st (take 3 (vpath v))) as [u|] eqn:Eu.
    - cbn [mbind option_bind]. case_decide as E.
      + assert (take 3 (vpath v) = p) as Ep by by rewrite E.
        assert (PT_INDEX v = i) as -> by by injection E. rewrite Ep in Eu.
        assert (u = pt) as -> by (unfold p in Eu; congruence). by rewrite Hent.
      + rewrite (He (take 3 (vpath v))); [done| |done|].
        * change (path_ok own (take 4 (vpath v))). by apply path_ok_vpath.
        * intros [= E1 E2 E3 E4]. apply E. unfold vpath. by rewrite E1, E2, E3, E4.
    - rewrite decide_False; [done|]. intros E. rewrite E in Eu. congruence.
  Qed.
End Leaf.

(** ** Walking *)

Section Walk.
Context (own : Z -> bool) (st : vmm_state) (Hok : vmm_ok own st).
Context (virt : Z) (Hown : own (PML4_INDEX virt) = true).
Let H := hhdm (pmm st).

Lemma root_ptr : current_PML4 st = root st + H.
  Proof using. unfold root, H. lia. Qed.

  (** One level of the descent. *)
Lemma descend p i t A (k : option Z -> M vmm_state A) : path_ok own (p ++ [i]) -> nd st p = Some t ->
    (let* e := load_entry (t + H) i in
     if negb (pe_present e) then k None else let* q := entry_ptr e in k (Some q)) st =
    k ((fun u => u + H) <$> nd st (p ++ [i])) st.
  Proof using Hok.
    intros Hpi Ht. destruct (slot_node own st Hok p i t Hpi Ht) as (Hn & Hr & Hi & Hp & _).
    pose proof (vok_env _ _ Hok) as Henv. erewrite bind_step by (apply load_entry_eq; done).
    destruct (nd st (p ++ [i])) as [u|] eqn:Eu.
    - pose proof (node_ok_in_ram _ _ (ve_total _ Henv) (vok_nodes _ _ Hok _ _ Hpi Eu)) as Hru.
      unfold nd in Eu, Ht. rewrite node_snoc, Ht in Eu. cbn [mbind option_bind] in Eu. unfold child in Eu.
      destruct (pe_present _); [|done]. injection Eu as <-. cbn [negb].
      erewrite bind_step by (apply entry_ptr_eq; done). done.
    - unfold nd in Eu, Ht. rewrite node_snoc, Ht in Eu. cbn [mbind option_bind] in Eu. unfold child in Eu.
      by destruct (pe_present _).
  Qed.

Lemma walk_eq : walk virt st = OK ((fun u => u + H) <$> nd st (take 3 (vpath virt)), st).
  Proof using All.
    pose proof (path_ok_vpath own virt 1 Hown) as P1. pose proof (path_ok_vpath own virt 2 Hown) as P2.
    pose proof (path_ok_vpath own virt 3 Hown) as P3.
    unfold walk. erewrite bind_step by done. rewrite root_ptr.
    rewrite (descend [] (PML4_INDEX virt) (root st) _ (fun o => match o with None => ret None | Some pdpt_addr =>
      let* e3 := load_entry pdpt_addr (PDPT_INDEX virt) in
      if negb (pe_present e3) then ret None else
      let* pd_addr := entry_ptr e3 in
      let* e2 := load_entry pd_addr (PD_INDEX virt) in
      if negb (pe_present e2) then ret None else
      let* pt_addr := entry_ptr e2 in ret (Some pt_addr) end) P1 eq_refl).
    change ([] ++ [PML4_INDEX virt]) with (take 1 (vpath virt)).
    destruct (nd st (take 1 (vpath virt))) as [t1|] eqn:E1; cbn [fmap option_fmap option_map].
    2: { change (take 3 (vpath virt)) with (take 1 (vpath virt) ++ [PDPT_INDEX virt] ++ [PD_INDEX virt]).
         unfold nd in E1 |- *. rewrite app_assoc, !node_snoc, E1. done. }
    rewrite (descend (take 1 (vpath virt)) (PDPT_INDEX virt) t1 _ (fun o => match o with None => ret None | Some pd_addr =>
      let* e2 := load_entry pd_addr (PD_INDEX virt) in
      if negb (pe_present e2) then ret None else
      let* pt_addr := entry_ptr e2 in ret (Some pt_addr) end) P2 E1).
    change (take 1 (vpath virt) ++ [PDPT_INDEX virt]) with (take 2 (vpath virt)).
    destruct (nd st (take 2 (vpath virt))) as [t2|] eqn:E2; cbn [fmap option_fmap option_map].
    2: { change (take 3 (vpath virt)) with (take 2 (vpath virt) ++ [PD_INDEX virt]).
         unfold nd in E2 |- *. rewrite node_snoc, E2. done. }
    rewrite (descend (take 2 (vpath virt)) (PD_INDEX virt) t2 _ (fun o => ret o) P3 E2). done.
  Qed.

  (** The entry of [virt] in its page table. *)
Lemma leaf_entry_eq pt : nd st (take 3 (vpath virt)) = Some pt ->
    load_entry (pt + H) (PT_INDEX virt) st = OK (ent (ram (pmm st)) pt (PT_INDEX virt), st) /\
    tr st virt = (let e := ent (ram (pmm st)) pt (PT_INDEX virt) in if pe_present e then Some e else None).
  Proof using All.
    intros Hpt. destruct (leaf_slot own st Hok virt pt Hown Hpt) as (Hn & Hr & Hi & _).
    split; [apply load_entry_eq; [apply Hok|done|done]|]. unfold tr. by rewrite Hpt.
  Qed.

Lemma is_mapped_eq : vmm_is_mapped virt st = OK (bool_decide (is_Some (tr st virt)), st).
  Proof using All.
    unfold vmm_is_mapped. rewrite (bind_step _ _ _ _ _ walk_eq).
    destruct (nd st (take 3 (vpath virt))) as [pt|] eqn:Ept; cbn [fmap option_fmap option_map].
    - destruct (leaf_entry_eq pt Ept) as [El Etr]. rewrite (bind_step _ _ _ _ _ El), Etr. cbv zeta.
      unfold ret. by destruct (pe_present _).
    - unfold tr. by rewrite Ept.
  Qed.

  (** A mapped page's frame is a node of the tree. *)
Lemma tr_frame e : tr st virt = Some e ->
    node_ok (pmm st) (pe_physical_addr e * 4096) /\ nd st (vpath virt) = Some (pe_physical_addr e * 4096) /\
    pe_present e = true /\ in_range 64 e.
  Proof using All.
    intros E. pose proof (tr_node st virt) as En. rewrite E in En. cbn in En.
    pose proof (path_ok_vpath own virt 4 Hown) as P4.
    split; [by apply (vok_nodes _ _ Hok (vpath virt))|]. split; [done|].
    unfold tr in E. destruct (nd st (take 3 (vpath virt))) as [pt|]; [|done].
    cbn [mbind option_bind] in E. destruct (pe_present _) eqn:Ep; [|done]. injection E as <-.
    split; [done|]. apply ent_range.
  Qed.

Lemma is_reserved_node e : tr st virt = Some e ->
    pmm_is_reserved (Z.shiftl (pe_physical_addr e) 12) (pmm st) = OK (true, pmm st).
  Proof using All.
    intros E. destruct (tr_frame e E) as ((N1 & N2 & N3 & N4) & _).
    rewrite Z.shiftl_mul_pow2 by lia. change (2 ^ 12) with 4096. unfold pmm_is_reserved, FRAME_SIZE.
    pose proof (wf_total _ (ve_pmm _ (vok_env _ _ Hok))).
    rewrite pmm_get_frame_eq; [by rewrite N3|apply Hok|lia].
  Qed.

Lemma virt_to_phys_eq :
    vmm_virt_to_phys virt st = OK (match tr st virt with Some e => pe_physical_addr e * 4096 | None => 0 end, st).
  Proof using All.
    unfold vmm_virt_to_phys. rewrite (bind_step _ _ _ _ _ walk_eq).
    destruct (nd st (take 3 (vpath virt))) as [pt|] eqn:Ept; cbn [fmap option_fmap option_map].
    - destruct (leaf_entry_eq pt Ept) as [El Etr]. rewrite (bind_step _ _ _ _ _ El).
      cbv zeta in Etr. destruct (pe_present _) eqn:Ep; cbn [negb].
      + pose proof (is_reserved_node _ Etr) as Hres. cbv zeta.
        erewrite bind_step by (apply in_pmm_eq, Hres). rewrite Etr. cbn [negb].
        rewrite Z.shiftl_mul_pow2 by lia. unfold ret. by destruct st.
      + by rewrite Etr.
    - unfold tr. by rewrite Ept.
  Qed.
End Walk.

(** ** Mapping *)

Section Map.
Context (own : Z -> bool) (virt : Z) (Hown : own (PML4_INDEX virt) = true).

  (** The descent of [vmm_map_page] reaches the page table of [virt]. *)
Lemma map_page_reach st n : vmm_ok own st -> free_frames (pmm st) (3 + n) ->
    exists pt st', vmm_ok own st' /\ grows own st st' /\ free_frames (pmm st') n /\
      nd st' (take 3 (vpath virt)) = Some pt /\
      forall phys flags, vmm_map_page virt phys flags st = map_leaf (pt + hhdm (pmm st')) virt phys flags st'.
  Proof using Hown.
    intros Hok Hfree. pose proof (path_ok_vpath own virt 1 Hown) as P1.
    pose proof (path_ok_vpath own virt 2 Hown) as P2. pose proof (path_ok_vpath own virt 3 Hown) as P3.
    destruct (ensure_table_ok own st Hok [] (PML4_INDEX virt) (root st) P1 eq_refl ltac:(cbn; lia) _ Hfree)
      as (t1 & st1 & R1 & Hok1 & G1 & F1 & N1).
    destruct (ensure_table_ok own st1 Hok1 (take 1 (vpath virt)) (PDPT_INDEX virt) t1 P2 N1 ltac:(cbn; lia) _ F1)
      as (t2 & st2 & R2 & Hok2 & G2 & F2 & N2).
    destruct (ensure_table_ok own st2 Hok2 (take 2 (vpath virt)) (PD_INDEX virt) t2 P3 N2 ltac:(cbn; lia) _ F2)
      as (t3 & st3 & R3 & Hok3 & G3 & F3 & N3).
    assert (hhdm (pmm st1) = hhdm (pmm st)) as E1 by apply G1.
    assert (hhdm (pmm st2) = hhdm (pmm st1)) as E2 by apply G2.
    assert (hhdm (pmm st3) = hhdm (pmm st2)) as E3 by apply G3.
    exists t3, st3. split; [done|]. split; [|split; [done|split; [done|]]].
    - apply (grows_trans own st st2 st3); [done| |done]. by apply (grows_trans own st st1 st2).
    - intros phys flags. unfold vmm_map_page. erewrite bind_step by done.
      rewrite (root_ptr st). rewrite (bind_step _ _ _ _ _ R1). rewrite <- E1, (bind_step _ _ _ _ _ R2).
      rewrite <- E2, (bind_step _ _ _ _ _ R3). by rewrite E3.
  Qed.

  (** A frame that may be mapped: in use, and no table or mapped page. *)
Definition mappable (st : vmm_state) (f : Z) : Prop :=
    0 <= f < total_frames (pmm st) /\ frame_used (pmm st) f = true /\
    (f * 4096 + 4096 <= bm_phys (pmm st) \/ bm_phys (pmm st) + pmm_bitmap_size (pmm st) <= f * 4096) /\
    forall q, path_ok own q -> nd st q <> Some (f * 4096).

Lemma mappable_grows st st' f : grows own st st' -> mappable st f -> mappable st' f.
  Proof using.
    intros [E T N F U] (Hf & Hu & Hb & Hq). pose proof (same_env_bm _ _ E) as Eb. destruct E as (_&_&E3&E4&_).
    split_and!; [lia|lia|by apply U|by rewrite Eb, E3|].
    intros q Hqo Hn. destruct (F q _ Hqo Hn) as [Hn0|Hn0]; [by apply (Hq q)|].
    rewrite Z.div_mul in Hn0 by lia. congruence.
  Qed.

Lemma map_leaf_new st pt f flags : vmm_ok own st -> nd st (take 3 (vpath virt)) = Some pt ->
    tr st virt = None -> mappable st f -> in_range 64 flags -> pe_present flags = true ->
    exists st', map_leaf (pt + hhdm (pmm st)) virt (f * 4096) flags st = OK (true, st') /\
      vstep own (take 3 (vpath virt)) (PT_INDEX virt) (Some (f * 4096)) (frame_used (pmm st)) st st' /\
      ent (ram (pmm st')) pt (PT_INDEX virt) = pe_set_physical_addr flags f.
  Proof using Hown.
    intros Hok Hpt Htr (Hf & Hu & Hb & Hq) Hfl Hpres. pose proof (vok_env _ _ Hok) as Henv.
    destruct (leaf_slot own st Hok virt pt Hown Hpt) as (Hn & Hr & Hi & _).
    destruct (leaf_entry_eq own st Hok virt Hown pt Hpt) as [El Etr]. rewrite Htr in Etr. cbv zeta in Etr.
    pose proof (ve_total _ Henv). set (e := pe_set_physical_addr flags f).
    assert (in_range 64 e) as He by by apply set_pa_range.
    pose proof (leaf_write own st Hok virt pt Hown Hpt e He) as Hs.
    replace (leaf_child e) with (Some (f * 4096)) in Hs.
    2: { unfold leaf_child, e. rewrite set_pa_present, Hpres, set_pa_get by lia. done. }
    eexists. split; [|split; [exact Hs|]].
    - unfold map_leaf. rewrite (bind_step _ _ _ _ _ El).
      destruct (pe_present (ent (ram (pmm st)) pt (PT_INDEX virt))); [done|].
      assert (pmm_is_reserved (f * 4096) (pmm st) = OK (true, pmm st)) as Hres.
      { unfold pmm_is_reserved, FRAME_SIZE. rewrite Z.div_mul by lia.
        pose proof (wf_total _ (ve_pmm _ Henv)). rewrite pmm_get_frame_eq; [by rewrite Hu|apply Henv|lia]. }
      erewrite bind_step by (apply in_pmm_eq, Hres). cbn [negb]. erewrite bind_step by done. cbn [negb].
      replace (set_pmm (pmm st) st) with st by by destruct st.
      erewrite bind_step by (apply store_entry_eq; done).
      set (st1 := upd_ram _ st). assert (venv st1) as Henv1 by (apply (same_env_venv st); done).
      erewrite bind_step by (apply (load_entry_eq st1); done).
      change (ram (pmm st1)) with (wr64 (ram (pmm st)) (pt + 8 * PT_INDEX virt) flags). rewrite ent_wr_eq by done.
      replace (Z.shiftr (f * 4096) 12) with f.
      2: { rewrite Z.shiftr_div_pow2 by lia. change (2 ^ 12) with 4096. divlia. }
      fold e. erewrite bind_step by (apply (store_entry_eq st1); done). unfold ret, st1.
      rewrite upd_ram_upd_ram. unfold upd_ram, set_ram. cbv beta. by rewrite wrn_wrn.
    - unfold upd_ram, set_ram. cbn [pmm set_pmm ram]. by apply ent_wr_eq.
  Qed.

Lemma map_leaf_taken st pt e phys flags : vmm_ok own st -> nd st (take 3 (vpath virt)) = Some pt ->
    tr st virt = Some e -> map_leaf (pt + hhdm (pmm st)) virt phys flags st = OK (false, st).
  Proof using Hown.
    intros Hok Hpt Htr. destruct (leaf_entry_eq own st Hok virt Hown pt Hpt) as [El Etr].
    rewrite Htr in Etr. cbv zeta in Etr. unfold map_leaf. rewrite (bind_step _ _ _ _ _ El).
    by destruct (pe_present _).
  Qed.
End Map.
