(* ===== verification/VmmThms.v ===== *)
(** * Theorems about the virtual memory manager *)
From S2P Require Import Prelude Mem Pmm Vmm VmmTree VmmSpec.

(** ** Addresses *)

Lemma index_mod v k : 0 <= k -> Z.land (Z.shiftr v k) 511 = (v / 2 ^ k) mod 512.
Proof.
  intros Hk. change 511 with (Z.ones 9). rewrite Z.land_ones by lia. change (2 ^ 9) with 512.
  by rewrite Z.shiftr_div_pow2 by lia.
Qed.

(** The four indices of the [*_INDEX] macros are the base-512 digits of the
    page number modulo 2^36. *)
Lemma vpath_digits v :
  (v / 4096) mod 2 ^ 36 =
  ((PML4_INDEX v * 512 + PDPT_INDEX v) * 512 + PD_INDEX v) * 512 + PT_INDEX v.
Proof.
  unfold PML4_INDEX, PDPT_INDEX, PD_INDEX, PT_INDEX. rewrite !index_mod by lia.
  change (2 ^ 39) with (4096 * 134217728). change (2 ^ 30) with (4096 * 262144).
  change (2 ^ 21) with (4096 * 512). change (2 ^ 12) with 4096.
  rewrite <- !Z.div_div by lia. set (w := v / 4096). change (2 ^ 36) with 68719476736. divlia.
Qed.

(** Two virtual addresses select the same page-table slot exactly when
    they agree on bits 12 to 47. *)
Lemma vpath_inj v v' : vpath v = vpath v' <-> (v / 4096) mod 2 ^ 36 = (v' / 4096) mod 2 ^ 36.
Proof.
  split.
  - intros E. rewrite !vpath_digits. injection E as -> -> -> ->. done.
  - rewrite !vpath_digits. intros E.
    pose proof (index_range v 39). pose proof (index_range v 30). pose proof (index_range v 21). pose proof (index_range v 12).
    pose proof (index_range v' 39). pose proof (index_range v' 30). pose proof (index_range v' 21). pose proof (index_range v' 12).
    fold (PML4_INDEX v) (PDPT_INDEX v) (PD_INDEX v) (PT_INDEX v) (PML4_INDEX v') (PDPT_INDEX v') (PD_INDEX v') (PT_INDEX v') in *.
    assert (PT_INDEX v = PT_INDEX v') by lia. assert (PD_INDEX v = PD_INDEX v') by lia.
    assert (PDPT_INDEX v = PDPT_INDEX v') by lia. assert (PML4_INDEX v = PML4_INDEX v') by lia.
    unfold vpath. congruence.
Qed.

(** ** Mapping *)

Section MapThm.
Context (own : Z -> bool) (st : vmm_state) (Hok : vmm_ok own st).
Context (virt f flags : Z) (Hown : own (PML4_INDEX virt) = true).
Context (Hmap : mappable own st f) (Hfl : in_range 64 flags) (Hpres : pe_present flags = true).

Definition mapped_as (st st' : vmm_state) : Prop :=
    forall v, own (PML4_INDEX v) = true ->
      tr st' v = if decide (vpath v = vpath virt) then Some (pe_set_physical_addr flags f) else tr st v.

Lemma map_page_new n : free_frames (pmm st) (3 + n) -> tr st virt = None ->
    exists st', vmm_map_page virt (f * 4096) flags st = OK (true, st') /\ vmm_ok own st' /\
      same_env st st' /\ mapped_as st st' /\ free_frames (pmm st') n /\
      (forall q t, path_ok own q -> nd st' q = Some t -> nd st q = Some t \/ t = f * 4096 \/ frame_used (pmm st) (t / 4096) = false) /\
      (forall g, 0 <= g < total_frames (pmm st) -> frame_used (pmm st) g = true -> frame_used (pmm st') g = true).
  Proof using All.
    intros Hfree Htr. destruct (map_page_reach own virt Hown st n Hok Hfree) as (pt & st1 & Hok1 & G & F1 & Hpt & Hrun).
    pose proof (mappable_grows own _ _ _ G Hmap) as Hmap1.
    pose proof (ve_total _ (vok_env _ _ Hok1)).
    assert (tr st1 virt = None) as Htr1 by (rewrite (g_tr _ _ _ G); done).
    destruct (map_leaf_new own virt Hown st1 pt f flags Hok1 Hpt Htr1 Hmap1 Hfl Hpres) as (st' & Hleaf & Hs & Hent).
    exists st'. destruct Hmap1 as (Hf & Hu & Hb & Hq). pose proof (vs_env _ _ _ _ _ _ _ Hs) as Hse.
    assert (same_env st st') as Hse' by (eapply same_env_trans; [apply G|done]).
    assert (total_frames (pmm st1) = total_frames (pmm st)) as Et by apply G.
    assert (total_frames (pmm st') = total_frames (pmm st1)) as Et' by apply Hse.
    split_and!; [by rewrite Hrun| |done| | | |].
    - apply (vstep_ok own _ _ _ _ _ _ Hok1 Hs); [congruence|by apply leaf_path|].
      intros g [= <-]. split.
      + split_and!; rewrite ?Z.div_mul by lia; [apply Z.mod_mul; lia|lia|lia| |].
        * by rewrite (vs_used _ _ _ _ _ _ _ Hs f Hf).
        * destruct Hse as (?&?&E3&?). rewrite (same_env_bm _ _ (vs_env _ _ _ _ _ _ _ Hs)), E3. done.
      + intros q Hqo Hqn. by destruct (Hq q).
    - intros v Hv. rewrite (leaf_tr own st1 Hok1 virt pt Hown Hpt _ _ _ _ Hs Hent v Hv).
      rewrite set_pa_present, Hpres. case_decide; [done|]. by apply (g_tr _ _ _ G).
    - destruct F1 as (l & Hnd & Hl & Hall). exists l. split_and!; [done|done|].
      eapply Forall_impl; [exact Hall|]. intros g [Hg Hgu]. split; [lia|].
      by rewrite (vs_used _ _ _ _ _ _ _ Hs g Hg).
    - intros q t Hqo Hqt. rewrite (vs_nodes _ _ _ _ _ _ _ Hs q Hqo) in Hqt. case_decide.
      + right. left. congruence.
      + destruct (g_fresh _ _ _ G q t Hqo Hqt) as [|]; auto.
    - intros g Hg Hgu. rewrite (vs_used _ _ _ _ _ _ _ Hs g) by lia. by apply (g_used _ _ _ G).
  Qed.

Lemma map_page_taken n e : free_frames (pmm st) (3 + n) -> tr st virt = Some e ->
    exists st', vmm_map_page virt (f * 4096) flags st = OK (false, st') /\ vmm_ok own st' /\ grows own st st' /\
      free_frames (pmm st') n.
  Proof using All.
    intros Hfree Htr. destruct (map_page_reach own virt Hown st n Hok Hfree) as (pt & st1 & Hok1 & G & F1 & Hpt & Hrun).
    exists st1. split; [|done]. rewrite Hrun. apply (map_leaf_taken own virt Hown st1 pt e); [done|done|].
    by rewrite (g_tr _ _ _ G).
  Qed.
End MapThm.

(** C3: [vmm_map_page].  In a well-formed address space with three frames to
    spare, mapping an in-use frame at a virtual address returns, keeps the
    invariant, succeeds exactly when the address was not mapped, and then
    changes the translation of that page only; a refused call changes no
    translation at all. *)
Theorem vmm_map_page_correct own st virt f flags :
  vmm_ok own st -> own (PML4_INDEX virt) = true -> free_frames (pmm st) 3 ->
  mappable own st f -> in_range 64 flags -> pe_present flags = true ->
  exists b st', vmm_map_page virt (f * 4096) flags st = OK (b, st') /\ vmm_ok own st' /\
    b = bool_decide (tr st virt = None) /\
    forall v, own (PML4_INDEX v) = true ->
      tr st' v = if decide (b = true /\ vpath v = vpath virt)
                 then Some (pe_set_physical_addr flags f) else tr st v.
Proof.
  intros Hok Hown Hfree Hmap Hfl Hpres. destruct (tr st virt) as [e|] eqn:Htr.
  - destruct (map_page_taken own st Hok virt f flags Hown Hmap Hfl Hpres 0 e Hfree Htr) as (st' & R & Hok' & G & _).
    exists false, st'. split_and!; [done..|]. intros v Hv. rewrite decide_False by naive_solver. by apply (g_tr _ _ _ G).
  - destruct (map_page_new own st Hok virt f flags Hown Hmap Hfl Hpres 0 Hfree Htr) as (st' & R & Hok' & _ & Hm & _).
    exists true, st'. split_and!; [done..|]. intros v Hv. rewrite (Hm v Hv).
    destruct (decide (vpath v = vpath virt)).
    + by rewrite decide_True.
    + by rewrite decide_False by naive_solver.
Qed.

(** A small address space: eight frames, the bitmap in frame 1, an empty PML4 in
    frame 2, frame 3 handed out, frames 4 to 7 free. *)
Definition demo_vmm : vmm_state :=
  mk_vmm (mk_pmm {[ 4096 := 15 ]} (2 ^ 47) (2 ^ 47 + 4096) 1 8 []) (2 ^ 47 + 8192) (2 ^ 47) 0 0 8192.
Definition all_own : Z -> bool := fun _ => true.

Lemma demo_rd8 a : a <> 4096 -> rd8 (ram (pmm demo_vmm)) a = 0.
Proof. intros Ha. unfold rd8. cbn. by rewrite lookup_singleton_ne. Qed.

Lemma demo_nd p t : path_ok all_own p -> nd demo_vmm p = Some t -> p = [] /\ t = 8192.
Proof.
  destruct p as [|i p]; intros Hp; [by intros [= <-]|].
  destruct Hp as (Hi & _). apply Forall_inv in Hi. unfold nd. cbn [node]. unfold child, ent.
  rewrite rdn_zero; [done|]. intros b Hb. apply demo_rd8. change (root demo_vmm) with 8192 in Hb. lia.
Qed.

Lemma demo_frames f : 0 <= f < 8 -> frame_used (pmm demo_vmm) f = bool_decide (f < 4).
Proof.
  intros Hf. assert (f = 0 \/ f = 1 \/ f = 2 \/ f = 3 \/ f = 4 \/ f = 5 \/ f = 6 \/ f = 7) as E by lia.
  repeat destruct E as [->|E]; try (vm_compute; reflexivity). subst. vm_compute. reflexivity.
Qed.

Lemma demo_vmm_ok : vmm_ok all_own demo_vmm.
Proof.
  constructor.
  - constructor; [constructor|..]; cbn; unfold MAX_FRAMES; done || lia.
  - intros a Ha. assert (a = 4096) as -> by (unfold bm_phys in Ha; cbn in Ha; lia).
    split; [vm_compute; done|]. by rewrite demo_frames.
  - intros p t Hp Ht. apply demo_nd in Ht as [-> ->]; [|done]. split_and!; [done|vm_compute; done|vm_compute; done| |right; vm_compute; done].
    by rewrite demo_frames.
  - intros p q t Hp Hq E1 E2. apply demo_nd in E1 as [-> _]; [|done]. by apply demo_nd in E2 as [-> _].
Qed.

Lemma demo_mappable : mappable all_own demo_vmm 3.
Proof.
  split_and!; [vm_compute; done|vm_compute; done| |right; vm_compute; done|].
  - by rewrite demo_frames.
  - intros q Hq E. by apply demo_nd in E as [_ E2].
Qed.

Lemma demo_free : free_frames (pmm demo_vmm) 3.
Proof.
  exists [4; 5; 6]. split_and!; [|done|].
  - by apply (bool_decide_unpack _).
  - repeat constructor; cbn [total_frames demo_vmm pmm]; try lia; by rewrite demo_frames.
Qed.

Lemma demo_tr v : tr demo_vmm v = None.
Proof.
  destruct (tr demo_vmm v) as [e|] eqn:E; [|done]. exfalso.
  pose proof (tr_node demo_vmm v) as Hn. rewrite E in Hn. cbn [fmap option_fmap option_map] in Hn.
  apply demo_nd in Hn as [Hn _]; [done|]. apply (path_ok_vpath all_own v 4). done.
Qed.

Lemma vmm_map_page_correct_witness :
  exists b st', vmm_map_page 0x2000000 (3 * 4096) VMM_FLAGS_USER_RW demo_vmm = OK (b, st') /\ vmm_ok all_own st' /\
    b = bool_decide (tr demo_vmm 0x2000000 = None) /\
    forall v, all_own (PML4_INDEX v) = true ->
      tr st' v = if decide (b = true /\ vpath v = vpath 0x2000000)
                 then Some (pe_set_physical_addr VMM_FLAGS_USER_RW 3) else tr demo_vmm v.
Proof.
  apply (vmm_map_page_correct all_own demo_vmm 0x2000000 3 VMM_FLAGS_USER_RW).
  - apply demo_vmm_ok.
  - reflexivity.
  - apply demo_free.
  - apply demo_mappable.
  - vm_compute. done.
  - reflexivity.
Defined.

(** Round trip.  After a successful [vmm_map_page] of frame [f] at [virt],
    [vmm_virt_to_phys virt] returns the frame's address and [vmm_is_mapped]
    answers true, for every address of that page. *)
Theorem vmm_map_then_translate own st virt f flags st' :
  vmm_ok own st -> own (PML4_INDEX virt) = true -> free_frames (pmm st) 3 ->
  mappable own st f -> in_range 64 flags -> pe_present flags = true ->
  vmm_map_page virt (f * 4096) flags st = OK (true, st') ->
  forall v, vpath v = vpath virt ->
    vmm_virt_to_phys v st' = OK (f * 4096, st') /\ vmm_is_mapped v st' = OK (true, st').
Proof.
  intros Hok Hown Hfree Hmap Hfl Hpres Hrun v Hv.
  assert (own (PML4_INDEX v) = true) as Hownv by (injection Hv as -> _ _ _; done).
  destruct (tr st virt) as [e|] eqn:Htr.
  { destruct (map_page_taken own st Hok virt f flags Hown Hmap Hfl Hpres 0 e Hfree Htr) as (? & R & _). congruence. }
  destruct (map_page_new own st Hok virt f flags Hown Hmap Hfl Hpres 0 Hfree Htr) as (st1 & R & Hok1 & _ & Hm & _).
  assert (st1 = st') as -> by congruence.
  pose proof (ve_total _ (vok_env _ _ Hok)). destruct Hmap as (? & _).
  rewrite (virt_to_phys_eq own), (is_mapped_eq own), (Hm v Hownv), decide_True by done.
  by rewrite set_pa_get by lia.
Qed.

Lemma vmm_map_then_translate_witness : exists st',
  vmm_map_page 0x2000000 (3 * 4096) VMM_FLAGS_USER_RW demo_vmm = OK (true, st') /\
  vmm_virt_to_phys 0x2000abc st' = OK (3 * 4096, st') /\ vmm_is_mapped 0x2000abc st' = OK (true, st').
Proof.
  assert (in_range 64 VMM_FLAGS_USER_RW) as Hr by (vm_compute; done).
  assert (vpath 0x2000abc = vpath 0x2000000) as Hv by (vm_compute; reflexivity).
  destruct (map_page_new all_own demo_vmm demo_vmm_ok 0x2000000 3 VMM_FLAGS_USER_RW eq_refl demo_mappable
    Hr eq_refl 0 demo_free (demo_tr _)) as (st' & R & _).
  exists st'. split; [exact R|].
  exact (vmm_map_then_translate all_own demo_vmm 0x2000000 3 VMM_FLAGS_USER_RW st' demo_vmm_ok eq_refl
    demo_free demo_mappable Hr eq_refl R 0x2000abc Hv).
Defined.

(** ** Unmapping *)

Section UnmapThm.
Context (own : Z -> bool) (st : vmm_state) (Hok : vmm_ok own st).
Context (virt : Z) (Hown : own (PML4_INDEX virt) = true).

Lemma tr_table e : tr st virt = Some e ->
    exists pt, nd st (take 3 (vpath virt)) = Some pt /\ ent (ram (pmm st)) pt (PT_INDEX virt) = e.
  Proof using.
    unfold tr. destruct (nd st (take 3 (vpath virt))) as [pt|]; [|done]. cbn [mbind option_bind].
    destruct (pe_present _) eqn:Ep; [|done]. intros [= <-]. eauto.
  Qed.

Lemma unmap_page_none : tr st virt = None -> vmm_unmap_page virt st = OK (false, st).
  Proof using All.
    intros Htr. unfold vmm_unmap_page. rewrite (bind_step _ _ _ _ _ (walk_eq own st Hok virt Hown)).
    destruct (nd st (take 3 (vpath virt))) as [pt|] eqn:Ept; cbn [fmap option_fmap option_map]; [|done].
    destruct (leaf_entry_eq own st Hok virt Hown pt Ept) as [El Etr]. rewrite Htr in Etr. cbv zeta in Etr.
    rewrite (bind_step _ _ _ _ _ El). by destruct (pe_present (ent (ram (pmm st)) pt (PT_INDEX virt))).
  Qed.

Lemma unmap_page_some e : tr st virt = Some e ->
    exists st', vmm_unmap_page virt st = OK (true, st') /\ vmm_ok own st' /\ same_env st st' /\
      (forall v, own (PML4_INDEX v) = true ->
         tr st' v = if decide (vpath v = vpath virt) then None else tr st v) /\
      (forall g, 0 <= g < total_frames (pmm st) ->
         frame_used (pmm st') g = if decide (pe_physical_addr e = g) then false else frame_used (pmm st) g).
  Proof using All.
    intros Htr. destruct (tr_table e Htr) as (pt & Hpt & He). pose proof (vok_env _ _ Hok) as Henv.
    destruct (tr_frame own st Hok virt Hown e Htr) as (Hnode & Hnd & Hpres & Hrange).
    destruct (leaf_slot own st Hok virt pt Hown Hpt) as (Hn & Hr & Hi & _).
    pose proof (leaf_write own st Hok virt pt Hown Hpt _ (clear_present_range e Hrange)) as Hs1.
    set (st1 := upd_ram _ st) in Hs1. replace (leaf_child (pe_clear_present e)) with (@None Z) in Hs1
      by (unfold leaf_child; by rewrite clear_present_spec).
    set (f := pe_physical_addr e) in *. destruct Hnode as (N1 & N2 & N3 & N4).
    rewrite Z.div_mul in N2, N3 by lia.
    pose proof (leaf_mark own st Hok virt pt Hown Hpt _ _ _ f false Hs1 N2) as Hs.
    set (st2 := set_pmm (set_used f false (pmm st1)) st1) in Hs.
    assert (same_env st st1) as Hse1 by apply Hs1. pose proof (same_env_venv _ _ Hse1 Henv) as Henv1.
    assert (total_frames (pmm st1) = total_frames (pmm st)) as Et by apply Hse1.
    pose proof (wf_total _ (ve_pmm _ Henv1)). exists st2. split_and!.
    - unfold vmm_unmap_page. rewrite (bind_step _ _ _ _ _ (walk_eq own st Hok virt Hown)), Hpt.
      cbn [fmap option_fmap option_map].
      destruct (leaf_entry_eq own st Hok virt Hown pt Hpt) as [El _]. rewrite (bind_step _ _ _ _ _ El), He, Hpres.
      cbn [negb]. cbv zeta. erewrite bind_step by (apply store_entry_eq; done). fold st1. fold f.
      rewrite Z.shiftl_mul_pow2 by lia. change (2 ^ 12) with 4096.
      assert (pmm_is_reserved (f * 4096) (pmm st1) = OK (true, pmm st1)) as Hres.
      { unfold pmm_is_reserved, FRAME_SIZE. rewrite Z.div_mul by lia. rewrite pmm_get_frame_eq; [|apply Henv1|lia].
        by rewrite (vs_used _ _ _ _ _ _ _ Hs1 f N2), N3. }
      erewrite bind_step by (apply in_pmm_eq, Hres). replace (set_pmm (pmm st1) st1) with st1 by by destruct st1.
      assert (pmm_free_frame (f * 4096) (pmm st1) = OK (tt, set_used f false (pmm st1))) as Hfree.
      { unfold pmm_free_frame, FRAME_SIZE. rewrite Z.div_mul by lia. apply pmm_set_frame_eq; [apply Henv1|lia]. }
      by erewrite bind_step by (apply in_pmm_eq, Hfree).
    - apply (vstep_ok own _ _ _ _ _ _ Hok Hs); [|by apply leaf_path|done].
      intros g Hg Hgu. case_decide; [|congruence]. subst g. intros _. split_and!; [|done|done|].
      + done.
      + intros (a & Ha1 & Ha2). divlia.
    - apply Hs.
    - intros v Hv. rewrite (leaf_tr own st Hok virt pt Hown Hpt (pe_clear_present e) _ _ _ Hs); [| |done].
      + by rewrite clear_present_spec.
      + subst st2. cbn [pmm set_pmm]. unfold ent. cbn [ram set_used set_ram].
        pose proof (bitmap_byte_range _ f (ve_pmm _ Henv1) ltac:(lia)). destruct Hn as (_ & _ & _ & Hd).
        rewrite (same_env_bm _ _ Hse1) in *. destruct Hse1 as (_ & _ & E3 & _). rewrite E3 in *.
        rewrite rdn_wr8_out by lia. apply (ent_wr_eq (ram (pmm st))). by apply clear_present_range.
    - intros g Hg. apply (vs_used _ _ _ _ _ _ _ Hs g Hg).
  Qed.
End UnmapThm.

(** C24: [vmm_unmap_page].  On an unmapped address it returns false and changes
    nothing; on a mapped one it returns true, keeps the invariant, removes that
    page's translation and no other, and returns exactly its frame to the PMM. *)
Theorem vmm_unmap_page_correct own st virt :
  vmm_ok own st -> own (PML4_INDEX virt) = true ->
  match tr st virt with
  | None => vmm_unmap_page virt st = OK (false, st)
  | Some e =>
      exists st', vmm_unmap_page virt st = OK (true, st') /\ vmm_ok own st' /\
        (forall v, own (PML4_INDEX v) = true ->
           tr st' v = if decide (vpath v = vpath virt) then None else tr st v) /\
        (forall g, 0 <= g < total_frames (pmm st) ->
           frame_used (pmm st') g = if decide (pe_physical_addr e = g) then false else frame_used (pmm st) g)
  end.
Proof.
  intros Hok Hown. destruct (tr st virt) as [e|] eqn:E.
  - destruct (unmap_page_some own st Hok virt Hown e E) as (st' & ?&?&?&?&?). eauto.
  - by apply (unmap_page_none own).
Qed.

Lemma vmm_unmap_page_correct_witness : vmm_unmap_page 0x2000000 demo_vmm = OK (false, demo_vmm) /\
  exists st1 st2, vmm_map_page 0x2000000 (3 * 4096) VMM_FLAGS_USER_RW demo_vmm = OK (true, st1) /\
    vmm_unmap_page 0x2000000 st1 = OK (true, st2) /\ tr st2 0x2000000 = None.
Proof.
  assert (in_range 64 VMM_FLAGS_USER_RW) as Hr by (vm_compute; done).
  split.
  - pose proof (vmm_unmap_page_correct all_own demo_vmm 0x2000000 demo_vmm_ok eq_refl) as T.
    rewrite demo_tr in T. exact T.
  - destruct (map_page_new all_own demo_vmm demo_vmm_ok 0x2000000 3 VMM_FLAGS_USER_RW eq_refl demo_mappable
      Hr eq_refl 0 demo_free (demo_tr _)) as (st1 & R & Hok1 & _ & Hm & _).
    pose proof (vmm_unmap_page_correct all_own st1 0x2000000 Hok1 eq_refl) as T.
    rewrite (Hm 0x2000000 eq_refl), decide_True in T by reflexivity.
    destruct T as (st2 & R2 & _ & Ht & _). exists st1, st2. split; [exact R|]. split; [exact R2|].
    rewrite (Ht 0x2000000 eq_refl). rewrite decide_True by reflexivity. reflexivity.
Defined.
