(* ===== verification/VmmAlloc.v ===== *)
(** * Ranges of pages: [vmm_alloc] and [vmm_free]

    Mapping a range either maps every page to a frame that was free, or, when
    a page of the range is already mapped, undoes what it did. *)
From S2P Require Import Prelude Mem Pmm Vmm VmmTree VmmSpec VmmThms.

Definition page_at (start i : Z) : Z := u64 (start + i * PAGE_SIZE).

(** Marking a frame that is no node of the tree. *)
Lemma mark_ok own st f b : vmm_ok own st -> 0 <= f < total_frames (pmm st) ->
  (b = true \/ (forall q, path_ok own q -> nd st q <> Some (f * 4096)) /\
     (f * 4096 + 4096 <= bm_phys (pmm st) \/ bm_phys (pmm st) + pmm_bitmap_size (pmm st) <= f * 4096)) ->
  let st' := set_pmm (set_used f b (pmm st)) st in
  vmm_ok own st' /\ (forall q, path_ok own q -> nd st' q = nd st q) /\
  (forall v, own (PML4_INDEX v) = true -> tr st' v = tr st v).
Proof.
  intros [Henv Hbm Hnodes Hinj] Hf Hb st'. pose proof (ve_pmm _ Henv) as Hwf.
  assert (forall q u j, path_ok own q -> 0 <= j < 512 -> nd st q = Some u ->
    ent (ram (pmm st')) u j = ent (ram (pmm st)) u j) as Hent.
  { intros q u j Hq Hj Hu. destruct (Hnodes q u Hq Hu) as (_ & _ & _ & Hd).
    pose proof (bitmap_byte_range _ f Hwf Hf). unfold ent. apply rdn_wr8_out. lia. }
  assert (forall q, path_ok own q -> nd st' q = nd st q) as Hnd.
  { intros q Hq. apply (node_ext_ok own); [|done]. intros q' u j Hq' Hu.
    destruct (path_ok_snoc _ _ _ Hq') as (Hq0 & Hj & _). unfold child. by rewrite (Hent q'). }
  assert (forall g, 0 <= g < total_frames (pmm st) -> frame_used (pmm st) g = true ->
    frame_used (pmm st') g = true \/ g = f /\ b = false) as Hused.
  { intros g Hg Hu. change (pmm st') with (set_used f b (pmm st)). rewrite frame_used_set by lia.
    case_decide; [|by left]. destruct b; auto. }
  split; [|split; [done|]].
  - constructor.
    + apply (same_env_venv st); [by repeat split|done].
    + intros a Ha. destruct (Hbm a Ha) as [Hr Hu]. split; [done|].
      destruct (Hused _ Hr Hu) as [|[E ->]]; [done|]. destruct Hb as [|[_ Hb]]; [done|].
      change (bm_phys (pmm st')) with (bm_phys (pmm st)) in Ha.
      change (pmm_bitmap_size (pmm st')) with (pmm_bitmap_size (pmm st)) in Ha. divlia.
    + intros q t Hq Ht. rewrite Hnd in Ht by done. destruct (Hnodes q t Hq Ht) as (N1 & N2 & N3 & N4).
      split_and!; [done|apply N2|apply N2| |done].
      destruct (Hused _ N2 N3) as [|[E ->]]; [done|]. destruct Hb as [|[Hq' _]]; [done|].
      exfalso. apply (Hq' q Hq). rewrite Ht. f_equal. divlia.
    + intros q q' t Hq Hq' E1 E2. rewrite Hnd in E1, E2 by done. by apply (Hinj q q' t).
  - intros v Hv. unfold tr. pose proof (path_ok_vpath own v 3 Hv) as P3. rewrite Hnd by done.
    destruct (nd st (take 3 (vpath v))) as [pt|] eqn:E; [|done]. cbn [mbind option_bind].
    rewrite (Hent _ _ (PT_INDEX v) P3); [done|apply index_range|done].
Qed.

(** What [vmm_alloc] guarantees of the pages [i..i+n) it has mapped so far. *)
Record alloc_post (own : Z -> bool) (start flags i : Z) (n k : nat) (st st' : vmm_state) : Prop := {
  ap_ok : vmm_ok own st';
  ap_env : same_env st st';
  ap_free : free_frames (pmm st') k;
  ap_used : forall g, 0 <= g < total_frames (pmm st) -> frame_used (pmm st) g = true -> frame_used (pmm st') g = true;
  ap_tr : forall v, own (PML4_INDEX v) = true ->
    (forall j, i <= j < i + Z.of_nat n -> vpath v <> vpath (page_at start j)) -> tr st' v = tr st v;
  ap_new : forall j, i <= j < i + Z.of_nat n -> exists f,
    tr st' (page_at start j) = Some (pe_set_physical_addr flags f) /\
    0 <= f < total_frames (pmm st) /\ frame_used (pmm st) f = false
}.

Section Loop.
Context (own : Z -> bool) (start flags amount : Z).
Context (Hfl : in_range 64 flags) (Hpres : pe_present flags = true).
Context (Howned : forall j, 0 <= j < amount -> own (PML4_INDEX (page_at start j)) = true).
Context (Hdist : forall j k, 0 <= j < amount -> 0 <= k < amount ->
    vpath (page_at start j) = vpath (page_at start k) -> j = k).

  (** Taking a frame from the PMM for a page. *)
Lemma take_frame st n : vmm_ok own st -> frame_used (pmm st) 0 = true -> free_frames (pmm st) (S n) ->
    exists f st1, in_pmm pmm_alloc_frame st = OK (f * 4096, st1) /\ f <> 0 /\
      0 <= f < total_frames (pmm st) /\ frame_used (pmm st) f = false /\
      vmm_ok own st1 /\ grows own st st1 /\ mappable own st1 f /\ free_frames (pmm st1) n.
  Proof using.
    intros Hok H0 Hfree. pose proof (vok_env _ _ Hok) as Henv. pose proof (ve_pmm _ Henv) as Hwf.
    destruct (alloc_frame_ok _ _ Hwf Hfree) as (f & Ha & Hf & Hu & Hfree').
    destruct (mark_ok own st f true Hok Hf (or_introl eq_refl)) as (Hok1 & Hnd1 & Htr1).
    exists f, (set_pmm (set_used f true (pmm st)) st).
    split; [by apply in_pmm_eq|]. split; [congruence|]. do 3 (split; [done|]). split; [|split; [|done]].
    - constructor; [by repeat split|done|..].
      + intros q t Hq Ht. by rewrite Hnd1.
      + intros q t Hq Ht. left. by rewrite <- Hnd1.
      + intros g Hg Hgu. cbn [pmm set_pmm]. rewrite frame_used_set by lia. by case_decide.
    - split; [done|]. split; [|split].
      + cbn [pmm set_pmm]. rewrite frame_used_set by lia. by rewrite decide_True.
      + apply (fresh_page_ok (pmm st)); [done|apply Hok|done|done].
      + intros q Hq E. rewrite Hnd1 in E by done. destruct (vok_nodes _ _ Hok q _ Hq E) as (_ & _ & Hn & _).
        rewrite Z.div_mul in Hn by lia. congruence.
  Qed.

Lemma alloc_loop_new n i k st : vmm_ok own st -> frame_used (pmm st) 0 = true ->
    0 <= i -> i + Z.of_nat n <= amount -> free_frames (pmm st) (4 * n + k) ->
    (forall j, i <= j < i + Z.of_nat n -> tr st (page_at start j) = None) ->
    forall rest, exists st', alloc_post own start flags i n k st st' /\
      alloc_loop (n + rest) i amount start flags st = alloc_loop rest (i + Z.of_nat n) amount start flags st'.
  Proof using Hfl Hpres Howned Hdist.
    revert i st. induction n as [|n IH]; intros i st Hok H0 Hi Hn Hfree Hnone rest.
    - exists st. split; [|by rewrite Z.add_0_r]. constructor; auto with eos. lia.
    - destruct (take_frame st (3 + (4 * n + k)) Hok H0 ltac:(by replace (S (3 + (4 * n + k))) with (4 * S n + k)%nat by lia))
        as (f & st1 & Ra & Hf0 & Hf & Hfu & Hok1 & G1 & Hmap & Hfree1).
      assert (own (PML4_INDEX (page_at start i)) = true) as Howni by (apply Howned; lia).
      assert (tr st1 (page_at start i) = None) as Htr1 by (rewrite (g_tr _ _ _ G1); [apply Hnone; lia|done]).
      destruct (map_page_new own st1 Hok1 (page_at start i) f flags Howni Hmap Hfl Hpres (4 * n + k) Hfree1 Htr1)
        as (st2 & Rm & Hok2 & Hse2 & Hm & Hfree2 & _ & Hu2).
      assert (total_frames (pmm st1) = total_frames (pmm st)) as Et1 by apply G1.
      assert (total_frames (pmm st2) = total_frames (pmm st1)) as Et2 by apply Hse2.
      assert (forall j, i + 1 <= j < i + 1 + Z.of_nat n -> vpath (page_at start j) <> vpath (page_at start i)) as Hne.
      { intros j Hj E. apply Hdist in E; lia. }
      assert (forall g, 0 <= g < total_frames (pmm st) -> frame_used (pmm st) g = true -> frame_used (pmm st2) g = true) as Hu02.
      { intros g Hg Hgu. apply Hu2; [lia|]. by apply (g_used _ _ _ G1). }
      destruct (IH (i + 1) st2 Hok2) with (rest := rest) as (st' & [A1 A2 A3 A4 A5 A6] & Rl); [by apply Hu02; [lia|]|lia|lia|done| |].
      { intros j Hj. rewrite Hm by (apply Howned; lia). rewrite decide_False by (apply Hne; lia).
        rewrite (g_tr _ _ _ G1) by (apply Howned; lia). apply Hnone. lia. }
      exists st'. split.
      + constructor; [done| |done| | |].
        * apply (same_env_trans st st2); [apply (same_env_trans st st1); [apply G1|done]|done].
        * intros g Hg Hgu. apply A4; [lia|]. by apply Hu02.
        * intros v Hv Hnot. rewrite A5; [|done|intros j Hj; apply Hnot; lia].
          rewrite Hm by done. rewrite decide_False by (apply Hnot; lia). by apply (g_tr _ _ _ G1).
        * intros j Hj. destruct (decide (j = i)) as [->|].
          -- exists f. split; [|done]. rewrite A5; [|done|intros j Hj'; apply not_eq_sym, Hne; lia].
             rewrite Hm by done. by rewrite decide_True.
          -- destruct (A6 j ltac:(lia)) as (g & Hg1 & Hg2 & Hg3). exists g. split_and!; [done|lia|lia|].
             destruct (frame_used (pmm st) g) eqn:E; [|done]. rewrite Hu02 in Hg3; [done|lia|done].
      + cbn [Nat.add alloc_loop]. rewrite (bind_step _ _ _ _ _ Ra). case_bool; reflect_Z; [lia|].
        fold (page_at start i). rewrite (bind_step _ _ _ _ _ Rm). cbn [negb].
        rewrite Rl. f_equal. lia.
  Qed.

  (** The iteration that finds its page mapped gives the frame back and stops. *)
Lemma alloc_loop_taken n i e st : vmm_ok own st -> frame_used (pmm st) 0 = true ->
    0 <= i < amount -> free_frames (pmm st) 4 -> tr st (page_at start i) = Some e ->
    exists st', alloc_loop (S n) i amount start flags st = OK (i, st') /\ vmm_ok own st' /\ same_env st st' /\
      forall v, own (PML4_INDEX v) = true -> tr st' v = tr st v.
  Proof using Hfl Hpres Howned.
    intros Hok H0 Hi Hfree Htr. assert (own (PML4_INDEX (page_at start i)) = true) as Howni by (apply Howned; lia).
    destruct (take_frame st 3 Hok H0 Hfree) as (f & st1 & Ra & Hf0 & Hf & Hfu & Hok1 & G1 & Hmap & Hfree1).
    assert (tr st1 (page_at start i) = Some e) as Htr1 by (rewrite (g_tr _ _ _ G1); done).
    destruct (map_page_taken own st1 Hok1 (page_at start i) f flags Howni Hmap Hfl Hpres 0 e Hfree1 Htr1)
      as (st2 & Rm & Hok2 & G2 & _).
    pose proof (mappable_grows own _ _ _ G2 Hmap) as (Hf2 & _ & Hb2 & Hq2).
    destruct (mark_ok own st2 f false Hok2 Hf2 (or_intror (conj Hq2 Hb2))) as (Hok3 & _ & Htr3).
    exists (set_pmm (set_used f false (pmm st2)) st2).
    assert (same_env st st2) as Hse by (apply (same_env_trans st st1); [apply G1|apply G2]).
    split; [|split; [done|split; [apply (same_env_trans st st2); [done|by repeat split]|]]].
    - cbn [alloc_loop]. rewrite (bind_step _ _ _ _ _ Ra). case_bool; reflect_Z; [lia|].
      fold (page_at start i). rewrite (bind_step _ _ _ _ _ Rm). cbn [negb].
      assert (pmm_free_frame (f * 4096) (pmm st2) = OK (tt, set_used f false (pmm st2))) as Hfr.
      { unfold pmm_free_frame, FRAME_SIZE. rewrite Z.div_mul by lia. pose proof (vok_env _ _ Hok2) as Henv2.
        pose proof (wf_total _ (ve_pmm _ Henv2)). apply pmm_set_frame_eq; [apply Henv2|lia]. }
      by erewrite bind_step by (apply in_pmm_eq, Hfr).
    - intros v Hv. by rewrite Htr3, (g_tr _ _ _ G2), (g_tr _ _ _ G1).
  Qed.

Lemma unmap_loop_ok n st : vmm_ok own st -> Z.of_nat n <= amount ->
    exists st', unmap_loop n start st = OK (tt, st') /\ vmm_ok own st' /\ same_env st st' /\
      (forall v, own (PML4_INDEX v) = true ->
         (forall j, 0 <= j < Z.of_nat n -> vpath v <> vpath (page_at start j)) -> tr st' v = tr st v) /\
      (forall j, 0 <= j < Z.of_nat n -> tr st' (page_at start j) = None).
  Proof using Howned.
    intros Hok Hn.
    destruct (for_loop_ind (fun i s => vmm_ok own s /\ same_env st s /\
      (forall v, own (PML4_INDEX v) = true ->
         (forall j, 0 <= j < i -> vpath v <> vpath (page_at start j)) -> tr s v = tr st v) /\
      (forall j, 0 <= j < i -> tr s (page_at start j) = None))
      (fun i => vmm_unmap_page (u64 (start + i * PAGE_SIZE)) ;;; ret tt) n 0 st) as (st' & R & H1 & H2 & H3 & H4).
    - split; [done|]. split; [apply same_env_refl|]. split; [done|]. lia.
    - intros i s Hi (S1 & S2 & S3 & S4). fold (page_at start i).
      assert (own (PML4_INDEX (page_at start i)) = true) as Howni by (apply Howned; lia).
      destruct (tr s (page_at start i)) as [e|] eqn:E.
      + destruct (unmap_page_some own s S1 _ Howni e E) as (s' & R & K1 & K2 & K3 & _).
        exists s'. split; [by erewrite bind_step by exact R|]. split; [done|]. split; [by apply (same_env_trans st s)|]. split.
        * intros v Hv Hnot. rewrite K3 by done. rewrite decide_False by (apply Hnot; lia).
          apply S3; [done|]. intros j Hj. apply Hnot. lia.
        * intros j Hj. rewrite K3 by (apply Howned; lia). case_decide as Ev; [done|].
          apply S4. destruct (decide (j = i)) as [->|]; [done|lia].
      + exists s. split; [by erewrite bind_step by (by apply (unmap_page_none own))|].
        split; [done|]. split; [done|]. split.
        * intros v Hv Hnot. apply S3; [done|]. intros j Hj. apply Hnot. lia.
        * intros j Hj. destruct (decide (j = i)) as [->|]; [done|]. apply S4. lia.
    - exists st'. rewrite Z.add_0_l in *. done.
  Qed.

  (** Either every page of a prefix is unmapped, or a first mapped one exists. *)
Lemma first_mapped st n : (forall j, 0 <= j < Z.of_nat n -> tr st (page_at start j) = None) \/
    exists k e, 0 <= k < Z.of_nat n /\ tr st (page_at start k) = Some e /\
      forall j, 0 <= j < k -> tr st (page_at start j) = None.
  Proof using.
    induction n as [|n IH]; [left; lia|]. destruct IH as [IH|(k & e & Hk & He & Hj)].
    - destruct (tr st (page_at start (Z.of_nat n))) as [e|] eqn:E.
      + right. exists (Z.of_nat n), e. split; [lia|]. split; [done|]. intros j Hj. apply IH. lia.
      + left. intros j Hj. destruct (decide (j = Z.of_nat n)) as [->|]; [done|]. apply IH. lia.
    - right. exists k, e. split; [lia|done].
  Qed.

Lemma page_of v n : (exists j, 0 <= j < Z.of_nat n /\ vpath v = vpath (page_at start j)) \/
    (forall j, 0 <= j < Z.of_nat n -> vpath v <> vpath (page_at start j)).
  Proof using.
    induction n as [|n IH]; [right; lia|]. destruct IH as [(j & Hj & E)|IH].
    - left. exists j. split; [lia|done].
    - destruct (decide (vpath v = vpath (page_at start (Z.of_nat n)))) as [E|E].
      + left. exists (Z.of_nat n). split; [lia|done].
      + right. intros j Hj. destruct (decide (j = Z.of_nat n)) as [->|]; [done|]. apply IH. lia.
  Qed.
End Loop.

(** The pages of a range that stays inside the address space are distinct. *)
Lemma page_at_inj start n j k : 0 <= start -> start + n * 4096 <= 2 ^ 64 -> n <= 2 ^ 36 ->
  0 <= j < n -> 0 <= k < n -> vpath (page_at start j) = vpath (page_at start k) -> j = k.
Proof.
  intros Hs Hn Hn2 Hj Hk E. unfold page_at, PAGE_SIZE in E.
  assert (forall i, 0 <= i < n -> u64 (start + i * 4096) = start + i * 4096) as Hw.
  { intros i Hi. apply wrap_id. unfold in_range. lia. }
  rewrite !Hw in E by done. clear Hw.
  assert (((start + j * 4096) / 4096) mod 2 ^ 36 = ((start + k * 4096) / 4096) mod 2 ^ 36) as Hd.
  { rewrite !vpath_digits. by injection E as -> -> -> ->. }
  rewrite !Z.div_add in Hd by lia. divlia.
Qed.

Lemma tr_vpath st v v' : vpath v = vpath v' -> tr st v = tr st v'.
Proof. intros E. unfold tr. rewrite E. injection E as _ _ _ ->. done. Qed.

Section AllocThm.
Context (own : Z -> bool) (st : vmm_state) (start end_ flags : Z).
Let amount := page_amount start end_.
Context (Hok : vmm_ok own st) (H0 : frame_used (pmm st) 0 = true).
Context (Hfl : in_range 64 flags) (Hpres : pe_present flags = true).
Context (Hs : 0 <= start) (Hend : start + amount * 4096 <= 2 ^ 64) (Ham : amount <= 2 ^ 36).
Context (Howned : forall j, 0 <= j < amount -> own (PML4_INDEX (page_at start j)) = true).
Context (Hfree : free_frames (pmm st) (4 * Z.to_nat amount)).

Lemma amount_nonneg : 0 <= amount.
  Proof using. apply (wrap_range 64). lia. Qed.

Lemma vmm_alloc_new : (forall j, 0 <= j < amount -> tr st (page_at start j) = None) ->
    exists st', vmm_alloc start end_ flags st = OK (true, st') /\
      alloc_post own start flags 0 (Z.to_nat amount) 0 st st'.
  Proof using All.
    intros Hnone. pose proof amount_nonneg.
    destruct (alloc_loop_new own start flags amount Hfl Hpres Howned
      (fun j k => page_at_inj start amount j k Hs Hend Ham) (Z.to_nat amount) 0 0 st Hok H0)
      with (rest := O) as (st' & A & R); [lia|lia|by rewrite Nat.add_0_r|intros j Hj; apply Hnone; lia|].
    rewrite Nat.add_0_r in R. exists st'. split; [|done].
    unfold vmm_alloc. fold amount. unfold bind at 1. rewrite R. cbn [alloc_loop].
    change (ret amount st') with (@OK (Z * vmm_state) (amount, st')). cbn [obind].
    by rewrite Z.ltb_irrefl.
  Qed.

Lemma vmm_alloc_taken k e : 0 <= k < amount -> tr st (page_at start k) = Some e ->
    (forall j, 0 <= j < k -> tr st (page_at start j) = None) ->
    exists st', vmm_alloc start end_ flags st = OK (false, st') /\ vmm_ok own st' /\ same_env st st' /\
      forall v, own (PML4_INDEX v) = true -> tr st' v = tr st v.
  Proof using All.
    intros Hk He Hj. pose proof (fun j k => page_at_inj start amount j k Hs Hend Ham) as Hdist.
    assert (exists m, Z.to_nat amount = (Z.to_nat k + S m)%nat) as (m & Em).
    { exists (Z.to_nat amount - Z.to_nat k - 1)%nat. lia. }
    destruct (alloc_loop_new own start flags amount Hfl Hpres Howned Hdist (Z.to_nat k) 0 4 st Hok H0)
      with (rest := S m) as (st1 & [A1 A2 A3 A4 A5 A6] & R1);
      [lia|lia|eapply free_frames_le; [|exact Hfree]; lia|intros j Hj'; apply Hj; lia|].
    assert (tr st1 (page_at start k) = Some e) as He1.
    { rewrite A5; [done|apply Howned; lia|]. intros j Hj' E. apply Hdist in E; lia. }
    assert (frame_used (pmm st1) 0 = true) as H01.
    { apply A4; [|done]. destruct Hfree as ([|g l] & _ & Hl & Hall); [cbn in Hl; lia|].
      inversion_clear Hall as [|?? [? _] _]. lia. }
    destruct (alloc_loop_taken own start flags amount Hfl Hpres Howned m k e st1 A1 H01 Hk A3 He1)
      as (st2 & R2 & Hok2 & E2 & T2).
    destruct (unmap_loop_ok own start amount Howned (Z.to_nat k) st2 Hok2 ltac:(lia)) as (st3 & R3 & Hok3 & E3 & T3 & T3').
    exists st3. split; [|split; [done|split; [eauto using same_env_trans|]]].
    - unfold vmm_alloc. fold amount. unfold bind at 1. rewrite Em, R1, Z.add_0_l.
      replace (Z.of_nat (Z.to_nat k)) with k by lia. rewrite R2. cbn [obind].
      rewrite (proj2 (Z.ltb_lt k amount)) by lia. by rewrite (bind_step _ _ _ _ _ R3).
    - intros v Hv. destruct (page_of start v (Z.to_nat k)) as [(j & Hj1 & Ev)|Hnot].
      + rewrite !(tr_vpath _ v _ Ev). rewrite T3' by lia. symmetry. apply Hj. lia.
      + rewrite T3, T2, A5 by done. done.
  Qed.
End AllocThm.


Lemma demo_free4 : free_frames (pmm demo_vmm) 4.
Proof.
  exists [4; 5; 6; 7]. split_and!; [by apply (bool_decide_unpack _)|done|].
  repeat constructor; cbn [total_frames demo_vmm pmm]; try lia; by rewrite demo_frames.
Qed.


(** C30: [vmm_free].  Freeing a range returns, keeps the invariant, leaves no
    page of the range mapped and changes no other translation. *)
Theorem vmm_free_correct own st start end_ :
  let amount := page_amount start end_ in
  vmm_ok own st -> (forall j, 0 <= j < amount -> own (PML4_INDEX (page_at start j)) = true) ->
  exists st', vmm_free start end_ st = OK (tt, st') /\ vmm_ok own st' /\
    (forall j, 0 <= j < amount -> tr st' (page_at start j) = None) /\
    (forall v, own (PML4_INDEX v) = true ->
       (forall j, 0 <= j < amount -> vpath v <> vpath (page_at start j)) -> tr st' v = tr st v).
Proof.
  intros amount Hok Howned. pose proof (amount_nonneg start end_) as Ham0. fold amount in Ham0.
  destruct (unmap_loop_ok own start amount Howned (Z.to_nat amount) st Hok ltac:(lia)) as (st' & R & Hok' & _ & T & T').
  exists st'. split; [done|]. split; [done|]. split.
  - intros j Hj. apply T'. lia.
  - intros v Hv Hnot. apply T; [done|]. intros j Hj. apply Hnot. lia.
Qed.

Lemma vmm_free_correct_witness : exists st', vmm_free 0x2000000 0x2003fff demo_vmm = OK (tt, st') /\ vmm_ok all_own st' /\
    (forall j, 0 <= j < page_amount 0x2000000 0x2003fff -> tr st' (page_at 0x2000000 j) = None) /\
    (forall v, all_own (PML4_INDEX v) = true ->
       (forall j, 0 <= j < page_amount 0x2000000 0x2003fff -> vpath v <> vpath (page_at 0x2000000 j)) -> tr st' v = tr demo_vmm v).
Proof.
  apply (vmm_free_correct all_own demo_vmm 0x2000000 0x2003fff).
  - apply demo_vmm_ok.
  - reflexivity.
Defined.

(** The out-of-memory test of [vmm_create_PML4] never fires: with every
    frame in use the call still returns a table, the direct-map address of
    physical page 0, whose 4096 bytes it has cleared. *)
Theorem vmm_create_PML4_ignores_oom st :
  venv st -> (forall f, 0 <= f < total_frames (pmm st) -> frame_used (pmm st) f = true) ->
  vmm_create_PML4 st = OK (Some (hhdm (pmm st)), upd_ram (fun m => fill page_bytes m 0 0) st).
Proof.
  intros Henv Hall. pose proof (ve_pmm _ Henv) as Hwf. pose proof (wf_total _ Hwf). pose proof (ve_hhdm _ Henv).
  assert (pmm_alloc_frame (pmm st) = OK (0, pmm st)) as Ha.
  { destruct (alloc_scan_eq (Z.to_nat (total_frames (pmm st))) 0 (pmm st) Hwf) as [(f & Hf & Hu & _)|[_ R]];
      [lia|lia| |exact R]. rewrite Hall in Hu by lia. done. }
  unfold vmm_create_PML4. erewrite bind_step by (apply in_pmm_eq, Ha).
  replace (set_pmm (pmm st) st) with st by by destruct st. erewrite bind_step by done.
  rewrite (ve_off _ Henv). cbv zeta. rewrite Z.add_0_l, wrap_id by (unfold in_range; lia).
  case_bool; reflect_Z; [lia|].
  assert (in_ram 0) as Hr by (unfold in_ram; lia). pose proof (memset_page_eq st Henv 0 Hr) as Hm.
  rewrite Z.add_0_l in Hm. by rewrite (bind_step _ _ _ _ _ Hm).
Qed.

Definition demo_full : vmm_state :=
  mk_vmm (mk_pmm {[ 4096 := 255 ]} (2 ^ 47) (2 ^ 47 + 4096) 1 8 []) (2 ^ 47 + 8192) (2 ^ 47) 0 0 8192.

Lemma vmm_create_PML4_ignores_oom_witness :
  vmm_create_PML4 demo_full = OK (Some (2 ^ 47), upd_ram (fun m => fill page_bytes m 0 0) demo_full).
Proof.
  apply (vmm_create_PML4_ignores_oom demo_full).
  - constructor; [constructor|..]; vm_compute; done.
  - intros f Hf. change (0 <= f < 8) in Hf.
    assert (f = 0 \/ f = 1 \/ f = 2 \/ f = 3 \/ f = 4 \/ f = 5 \/ f = 6 \/ f = 7) as E by lia.
    repeat destruct E as [->|E]; try (vm_compute; reflexivity). subst. vm_compute. reflexivity.
Defined.
