(* ===== verification/VmmInit.v ===== *)
(** * Memory at boot

    [pmm_init] and [vmm_init] (memory/pmm.c, memory/vmm.c) one after the other
    establish the invariant [vmm_ok] that mapping, allocation and the heaps
    rely on, and the new table keeps the boot loader's mappings. *)
From S2P Require Import Prelude Mem Pmm Vmm VmmTree VmmSpec.

(** ** What [pmm_init] writes *)

Lemma set_frames_ram n i used st a : 0 <= i -> (forall k, i <= k < i + Z.of_nat n -> a <> bm_phys st + k / 8) ->
  rd8 (ram (set_frames n i used st)) a = rd8 (ram st) a.
Proof.
  revert i st. induction n as [|n IH]; intros i st Hi Ha; cbn [set_frames]; [done|].
  rewrite IH; [|lia|intros k Hk; apply Ha; lia]. apply set_used_ram, Ha. lia.
Qed.

Lemma hhdm_set_frames n i used st : hhdm (set_frames n i used st) = hhdm st.
Proof. revert i st. induction n as [|n IH]; intros; cbn [set_frames]; [done|]. by rewrite IH. Qed.
Lemma init_reserved_hhdm entries entries' st b : hhdm (init_reserved entries entries' st b) = hhdm st.
Proof.
  unfold init_reserved. rewrite hhdm_set_frames. assert (forall l s, hhdm (free_entries l s) = hhdm s) as ->; [|done].
  induction l as [|e l IH]; intros s; cbn [free_entries]; [done|]. rewrite IH. destruct (Pmm.usable e); [apply hhdm_set_frames|done].
Qed.

(** The largest end of a usable region bounds them all. *)
Lemma top_of_ram_max entries e : e ∈ entries -> Pmm.usable e = true -> u64 (e_base e + e_length e) <= top_of_ram entries.
Proof.
  unfold top_of_ram. set (step := fun top e => _). intros He Hu.
  assert (forall l t, t <= fold_left step l t) as Hmono.
  { induction l as [|x l IH]; intros t; cbn [fold_left]; [lia|]. etransitivity; [|apply IH].
    unfold step. destruct (Pmm.usable x); [|lia]. cbv zeta. case_bool; lia. }
  generalize 0. induction entries as [|x l IH]; intros t; [by apply elem_of_nil in He|]. cbn [fold_left].
  apply elem_of_cons in He as [<-|He]; [|by apply IH]. etransitivity; [|apply Hmono]. unfold step. rewrite Hu. cbv zeta. case_bool; lia.
Qed.
Lemma place_bitmap_ends size entries b entries' : 0 <= size -> Forall entry_ok entries -> place_bitmap size entries = Some (b, entries') ->
  b + size <= top_of_ram entries /\ Forall (fun e => Pmm.usable e = true -> u64 (e_base e + e_length e) <= top_of_ram entries) entries'.
Proof.
  intros Hs Hok Hp. pose proof (fun e => top_of_ram_max entries e) as Hmax. revert Hmax. generalize (top_of_ram entries). intros top.
  induction entries as [|e entries IH] in entries', Hok, Hp |- *; intros Hmax; cbn [place_bitmap] in Hp; [done|].
  inversion_clear Hok as [|?? He Hes]. assert (Forall (fun e => Pmm.usable e = true -> u64 (e_base e + e_length e) <= top) entries) as Hrest.
  { apply Forall_forall. intros x Hx. apply Hmax. by right. }
  destruct (Pmm.usable e && (size <=? e_length e)) eqn:E.
  - injection Hp as <- <-. apply andb_true_iff in E as [Hu Hl%Z.leb_le]. specialize (Hmax e ltac:(left) Hu).
    rewrite (entry_ok_u64 e He) in Hmax. destruct He as (?&?&?). split; [lia|]. constructor; [|done]. intros _. cbn.
    rewrite (wrap_id 64 (e_base e + size)), (wrap_id 64 (e_length e - size)), wrap_id by (unfold in_range; lia). lia.
  - destruct (place_bitmap size entries) as [[b' es']|] eqn:E2; [|done]. injection Hp as <- <-.
    destruct (IH es' Hes eq_refl) as [? ?]; [intros x Hx; apply Hmax; by right|]. split; [done|]. constructor; [|done]. apply Hmax. left.
Qed.

Section Bitmap.
Context (entries entries' : list memmap_entry) (st : pmm_state) (b : Z).
Let total := top_of_ram entries / 4096.
Let size := (total + 7) / 8.
Context (Hok : Forall entry_ok entries) (Hh : 0 <= hhdm st <= 2 ^ 64 - 2 ^ 47) (Hplace : place_bitmap size entries = Some (b, entries')).

(** Only the bitmap and, for the frame at the end of memory, the byte after it. *)
Lemma pmm_init_ram a : ~ (b <= a <= b + size) -> rd8 (ram (init_reserved entries entries' st b)) a = rd8 (ram st) a.
Proof using All.
  intros Ha. destruct (init_ranges entries entries' b Hok Hplace) as (Ht & Hs & Hok' & Hb & Hend). fold total size in Ht, Hs, Hend.
  destruct (place_bitmap_ends size entries b entries' (proj1 Hs) Hok Hplace) as [Htop Hends].
  assert (forall k, 0 <= k <= total -> a <> b + k / 8) as Hout by (intros k Hk; unfold size in Ha; divlia).
  assert (bm_phys (init_filled entries st b) = b) as Ebm by (unfold bm_phys; cbn; lia).
  unfold init_reserved. rewrite set_frames_ram; [|unfold FRAME_SIZE; divlia|].
  2: { intros k Hk. destruct (free_entries_layout entries' (init_filled entries st b)) as [-> _]. rewrite Ebm. apply Hout.
       unfold span, FRAME_SIZE, total in *. divlia. }
  assert (forall l s, bm_phys s = b -> Forall entry_ok l -> Forall (fun e => Pmm.usable e = true -> u64 (e_base e + e_length e) <= top_of_ram entries) l ->
    rd8 (ram (free_entries l s)) a = rd8 (ram s) a) as Hfree.
  { induction l as [|e l IH]; intros s Es Hl He; cbn [free_entries]; [done|]. inversion_clear Hl as [|?? (?&?&?) Hl']. inversion_clear He as [|?? He' Hel].
    destruct (Pmm.usable e); [|by apply IH]. specialize (He' eq_refl). rewrite IH; [|by rewrite bm_phys_set_frames|done|done].
    apply set_frames_ram; [unfold FRAME_SIZE; divlia|]. intros k Hk. rewrite Es. apply Hout. unfold span, FRAME_SIZE, total in *. divlia. }
  rewrite (Hfree entries'); [|done|done|done]. cbn [ram init_filled set_ram]. rewrite rd8_fill. rewrite decide_False; [done|]. fold total size. lia.
Qed.
End Bitmap.

(** When the number of frames is a multiple of eight the frame at the end of
    memory has its bit in the byte after the bitmap, which [pmm_init] changes. *)
Theorem pmm_init_writes_past_bitmap :
  let st := mk_pmm {[ 4097 := 255 ]} (2 ^ 64 - 2 ^ 47) 0 0 0 [] in
  exists es st', pmm_init [mk_entry 4096 28672 LIMINE_MEMMAP_USABLE] st = OK (es, st') /\
    bm_phys st' + pmm_bitmap_size st' = 4097 /\ rd8 (ram st') 4097 = 254.
Proof. cbv zeta. eexists _, _. split; [vm_compute; reflexivity|]. split; vm_compute; reflexivity. Qed.

(** ** [vmm_init] *)

Definition with_ram (m : mem) (st : vmm_state) : vmm_state := upd_ram (fun _ => m) st.

(** The loop over the upper half copies the entries of one table to another. *)
Lemma copy_upper_eq st to from : venv st -> in_ram to -> in_ram from -> to mod 4096 = 0 -> from mod 4096 = 0 -> to <> from ->
  exists m', vmm_copy_kernel_PML4 (to + hhdm (pmm st)) (from + hhdm (pmm st)) st = OK (tt, with_ram m' st) /\
    (forall a, ~ (to + 2048 <= a < to + 4096) -> rd8 m' a = rd8 (ram (pmm st)) a) /\
    forall i, 256 <= i < 512 -> ent m' to i = ent (ram (pmm st)) from i.
Proof.
  intros Henv Hto Hfrom Ha Hb Hne. unfold vmm_copy_kernel_PML4.
  destruct (for_loop_ind (fun j s => exists m', s = with_ram m' st /\
      (forall a, ~ (to + 2048 <= a < to + 8 * j) -> rd8 m' a = rd8 (ram (pmm st)) a) /\
      forall i, 256 <= i < j -> ent m' to i = ent (ram (pmm st)) from i)
    (fun i => let* e := load_entry (from + hhdm (pmm st)) i in store_entry (to + hhdm (pmm st)) i e) 256 256 st) as (s' & Hrun & m' & -> & Hout & Hin).
  - exists (ram (pmm st)). split_and!; [by destruct st as [[]]|done|lia].
  - intros j s Hj (m1 & -> & Hout & Hin). set (s1 := with_ram m1 st).
    assert (venv s1) as Henv1 by (apply (same_env_venv st); [|done]; by repeat split).
    assert (ent m1 from j = ent (ram (pmm st)) from j) as Ej.
    { unfold ent. apply rdn_ext. intros a Hra. apply Hout. unfold in_ram in *. divlia. }
    eexists. split.
    { erewrite bind_step by (apply (load_entry_eq s1 Henv1 from j); [done|lia]). apply (store_entry_eq s1 Henv1 to j); [done|lia]. }
    exists (wr64 m1 (to + 8 * j) (ent m1 from j)). split_and!; [done| |].
    + intros a Hna. rewrite rd8_wrn_out by lia. apply Hout. lia.
    + intros i Hi. destruct (decide (i = j)) as [->|Hij]; [rewrite ent_wr_eq by apply ent_range; done|].
      rewrite ent_wr_ne by (done || lia || naive_solver). apply Hin. lia.
  - exists m'. split_and!; [exact Hrun|intros a Hna; apply Hout; lia|intros i Hi; apply Hin; lia].
Qed.

Section Init.
Context (st : vmm_state) (offset base kernel_end f : Z).
Let P := pmm st.
Let P1 := set_used f true P.
Let F := f * 4096.
Context (Hwf : pmm_wf P) (Hoff : hhdm P = offset) (Hoffr : 0 < offset <= 2 ^ 64 - 2 ^ 47) (Htotal : total_frames P <= 2 ^ 28).
Context (Halloc : pmm_alloc_frame P = OK (F, P1)) (Hf : 0 <= f < total_frames P).
Context (Hc : cr3 st mod 4096 = 0) (Hcr : in_ram (cr3 st)) (Hcf : cr3 st <> F).

(** The fresh table: the lower half empty, the upper half that of the table
    the boot loader left; nothing else in memory changes. *)
Lemma vmm_init_eq : exists m' con, vmm_init offset base kernel_end st =
    OK (Some (F + offset), mk_vmm (mk_pmm m' offset (pmm_bitmap P) (pmm_bitmap_size P) (total_frames P) con) (F + offset) offset base
      (u64 (kernel_end - KERNEL_START + base)) F) /\
  (forall a, ~ (F <= a < F + 4096) -> rd8 m' a = rd8 (ram P1) a) /\
  (forall i, 0 <= i < 256 -> ent m' F i = 0) /\
  forall i, 256 <= i < 512 -> ent m' F i = ent (ram P1) (cr3 st) i.
Proof using All.
  assert (in_ram F) as HF by (unfold in_ram, F; lia). assert (F mod 4096 = 0) as HF0 by (unfold F; by rewrite Z.mod_mul).
  set (st1 := mk_vmm P1 (current_PML4 st) offset (kernel_start_phys st) (kernel_end_phys st) (cr3 st)).
  assert (venv st1) as Henv1.
  { constructor; cbn; [unfold P1; auto with eos|by rewrite <- Hoff|by rewrite Hoff|done]. }
  set (st2 := upd_ram (fun m => fill page_bytes m F 0) st1).
  assert (vmm_create_PML4 (mk_vmm P (current_PML4 st) offset (kernel_start_phys st) (kernel_end_phys st) (cr3 st)) = OK (Some (F + offset), st2)) as Hcreate.
  { unfold vmm_create_PML4. erewrite bind_step by (unfold in_pmm, zoom; cbn [pmm]; by rewrite Halloc). erewrite bind_step by done. cbv zeta. cbn [hhdm_offset set_pmm].
    rewrite wrap_id by (unfold in_range, in_ram in *; lia). rewrite (proj2 (Z.eqb_neq _ 0)) by (unfold in_ram in *; lia).
    pose proof (memset_page_eq st1 Henv1 F HF) as Hm. cbn [pmm st1 P1 set_used set_ram hhdm] in Hm. rewrite Hoff in Hm.
    by rewrite (bind_step _ _ _ _ _ Hm). }
  set (st3 := mk_vmm (emit "[vmm] created kernel PML4\n" (pmm st2)) (current_PML4 st) offset base (u64 (kernel_end - KERNEL_START + base)) (cr3 st)).
  assert (venv st3) as Henv3.
  { constructor; cbn; [destruct Hwf; by constructor|by rewrite <- Hoff|by rewrite Hoff|done]. }
  destruct (copy_upper_eq st3 F (cr3 st) Henv3) as (m' & Hcopy & Hout & Hin); [done..|by intros E; symmetry in E|].
  assert (hhdm (pmm st3) = offset) as E3 by exact Hoff. rewrite E3 in Hcopy.
  exists m'. eexists. split; [|split_and!].
  - unfold vmm_init. erewrite bind_step by done. rewrite (bind_step _ _ _ _ _ Hcreate). erewrite bind_step by done.
    erewrite bind_step by done. erewrite bind_step by done. cbn [cr3 hhdm_offset].
    change (cr3 (emit _ st2) + hhdm_offset (emit _ st2)) with (cr3 st + offset).
    rewrite (wrap_id 64 (cr3 st + offset)) by (unfold in_range, in_ram in *; lia). erewrite bind_step; [|exact Hcopy].
    do 5 (erewrite bind_step by reflexivity). cbn. rewrite Z.add_simpl_r, (wrap_id 64 F) by (unfold in_range, in_ram in *; lia). apply (f_equal OK), (f_equal2 pair); [reflexivity|]. f_equal. rewrite <- Hoff. reflexivity.
  - intros a Ha. rewrite Hout by lia. cbn [pmm st3 emit pmm_console ram st2 upd_ram set_pmm set_ram]. rewrite rd8_fill, page_bytes_eq. by rewrite decide_False.
  - intros i Hi. unfold ent. rewrite (rdn_ext 8 m' (ram (pmm st3))) by (intros a Hra; apply Hout; lia).
    apply rdn_fill_in; [done|lia|rewrite page_bytes_eq; lia].
  - intros i Hi. rewrite Hin by done. unfold ent. apply rdn_fill_out. rewrite page_bytes_eq. unfold in_ram in *. divlia.
Qed.
End Init.

(** ** Both together *)

(** The two calls of [kernel_main]. *)
Definition memory_boot (entries : list memmap_entry) (offset base kernel_end : Z) : M vmm_state (option Z) :=
  in_pmm (pmm_init entries) ;;; vmm_init offset base kernel_end.

(** What the boot protocol gives: a memory map whose regions end on pages, a
    region that can hold the bitmap [b] of [size] bytes with a page to spare,
    and the current tables in a page no usable region touches. *)
Record boot_ok (entries entries' : list memmap_entry) (b size : Z) (st : vmm_state) : Prop := {
  bo_entries : Forall entry_ok entries;
  bo_top : top_of_ram entries mod 4096 = 0 /\ top_of_ram entries <= 2 ^ 40;
  bo_hhdm : 0 < hhdm (pmm st) <= 2 ^ 64 - 2 ^ 47;
  bo_size : size = (top_of_ram entries / 4096 + 7) / 8;
  bo_place : place_bitmap size entries = Some (b, entries');
  bo_spare : exists f, 0 <= f < top_of_ram entries / 4096 /\ covered entries' f = true /\ ~ (b / 4096 <= f <= (b + size) / 4096);
  bo_cr3 : cr3 st mod 4096 = 0 /\ in_ram (cr3 st) /\ covered entries' (cr3 st / 4096) = false /\
    (cr3 st + 4096 <= b \/ b + size < cr3 st)
}.

(** The state after the start: table [f] is new and current, its upper half
    has the boot loader's entries, and one more frame is in use. *)
Definition booted (entries entries' : list memmap_entry) (b size : Z) (st : vmm_state) (f : Z) (st' : vmm_state) : Prop :=
  0 <= f < total_frames (pmm st') /\ covered entries' f = true /\ total_frames (pmm st') = top_of_ram entries / 4096 /\
  root st' = f * 4096 /\ cr3 st' = f * 4096 /\
  (forall i, 256 <= i < 512 -> ent (ram (pmm st')) (f * 4096) i = ent (ram (pmm st)) (cr3 st) i) /\
  (forall g, 0 <= g < total_frames (pmm st') ->
     frame_used (pmm st') g = bool_decide (g = f) || (b / 4096 <=? g) && (g <=? (b + size) / 4096) || negb (covered entries' g)).

Section Boot.
Context (entries entries' : list memmap_entry) (b size : Z) (st : vmm_state) (Hbo : boot_ok entries entries' b size st).

Let total := top_of_ram entries / 4096.
Let in_use (g : Z) : bool := (b / 4096 <=? g) && (g <=? (b + size) / 4096) || negb (covered entries' g).

Lemma boot_ranges : 0 <= total <= 2 ^ 28 /\ 0 <= size /\ total <= 8 * size /\ 0 <= b /\ b + size <= 4096 * total.
Proof using Hbo.
  destruct Hbo as [Hok [Hal Htop] _ Hsize Hplace _ _]. pose proof (top_of_ram_range entries Hok).
  assert (0 <= size) as Hs by (rewrite Hsize; divlia). destruct (place_bitmap_ends size entries b entries' Hs Hok Hplace) as [Hend _].
  destruct (place_bitmap_ok size entries b entries' Hs Hok Hplace) as (_ & ? & _). unfold total. rewrite Hsize in *. divlia.
Qed.

(** After [pmm_init]. *)
Lemma boot_pmm : exists P, pmm_init entries (pmm st) = OK (entries', P) /\ pmm_wf P /\ total_frames P = total /\ bm_phys P = b /\
  hhdm P = hhdm (pmm st) /\ (forall g, 0 <= g < total -> frame_used P g = in_use g) /\
  forall a, ~ (b <= a <= b + size) -> rd8 (ram P) a = rd8 (ram (pmm st)) a.
Proof using Hbo.
  destruct boot_ranges as (_ & _ & Hcover & _). destruct Hbo as [Hok _ Hh Hsize Hplace _ _].
  assert (0 <= hhdm (pmm st) <= 2 ^ 64 - 2 ^ 47) as Hh' by lia. unfold in_use. rewrite Hsize in *.
  eexists. split; [exact (pmm_init_eq entries entries' (pmm st) b Hok Hh' Hplace)|].
  destruct (init_reserved_layout entries entries' (pmm st) b Hok Hh' Hplace) as (Hwf & Htot & Hbm).
  split_and!; [destruct Hwf; by constructor|done|done|apply init_reserved_hhdm| |].
  - intros g Hg. apply (init_reserved_frames entries entries' (pmm st) b Hok Hh' Hplace). unfold total in *. divlia.
  - intros a Ha. by apply (pmm_init_ram entries entries' (pmm st) b Hok Hh' Hplace).
Qed.

(** One empty page as a table: the invariant holds with that node alone. *)
Lemma lone_root_ok own st' : venv st' ->
  (forall a, bm_phys (pmm st') <= a < bm_phys (pmm st') + pmm_bitmap_size (pmm st') ->
     0 <= a / 4096 < total_frames (pmm st') /\ frame_used (pmm st') (a / 4096) = true) ->
  node_ok (pmm st') (root st') ->
  (forall i, 0 <= i < 512 -> own i = true -> pe_present (ent (ram (pmm st')) (root st') i) = false) ->
  vmm_ok own st' /\ forall v, own (PML4_INDEX v) = true -> tr st' v = None.
Proof using.
  intros Henv Hbm Hroot Hnone.
  assert (forall i p, path_ok own (i :: p) -> nd st' (i :: p) = None) as Hleaf.
  { intros i p (Hi & _ & Ho). apply Forall_inv in Hi. unfold nd. cbn [node]. unfold child. by rewrite (Hnone i) by done. }
  split; [constructor; [done|done|..]|].
  - intros [|i p] t Hp Ht; [injection Ht as <-; done|]. by rewrite Hleaf in Ht.
  - intros [|i p] [|j q] t Hp Hq Hpt Hqt; [done|by rewrite Hleaf in Hqt|by rewrite Hleaf in Hpt..].
  - intros v Hv. unfold tr. cbn [take vpath]. rewrite Hleaf; [done|]. apply (path_ok_vpath own v 3). done.
Qed.

Lemma memory_boot_ok base kernel_end (own : Z -> bool) :
  (forall i, 0 <= i < 512 -> own i = true -> i < 256 \/ pe_present (ent (ram (pmm st)) (cr3 st) i) = false) ->
  exists f st', memory_boot entries (hhdm (pmm st)) base kernel_end st = OK (Some (f * 4096 + hhdm (pmm st)), st') /\
    vmm_ok own st' /\ booted entries entries' b size st f st' /\ forall v, own (PML4_INDEX v) = true -> tr st' v = None.
Proof using Hbo.
  intros Hown. destruct boot_ranges as (Ht & Hs & Hcover & Hb & Hend). destruct boot_pmm as (P & Hinit & Hwf & Htot & Hbm & Hhh & Hused & Hram).
  destruct Hbo as [_ _ Hh Hsize _ (g0 & Hg0 & Hcov0 & Hnb0) (Hc & Hcr & Hccov & Hcb)]. fold total in Hg0.
  assert (pmm_bitmap_size P = size) as Hps by (rewrite (wf_size P Hwf), Htot, Hsize; done).
  assert (forall g, in_use g = false -> covered entries' g = true /\ ~ (b / 4096 <= g <= (b + size) / 4096)) as Hfree.
  { intros g. unfold in_use. destruct (covered entries' g); [|by rewrite orb_true_r]. rewrite orb_false_r. intros E. split; [done|].
    apply andb_false_iff in E as [E%Z.leb_gt|E%Z.leb_gt]; lia. }
  assert (free_frames P 1) as Hff.
  { exists [g0]. split_and!; [apply NoDup_singleton|done|]. apply Forall_singleton. rewrite Htot, Hused by done. split; [done|].
    unfold in_use. rewrite Hcov0, orb_false_r. apply andb_false_iff. destruct (Z.leb_spec (b / 4096) g0), (Z.leb_spec g0 ((b + size) / 4096)); first [by left|by right|lia]. }
  destruct (alloc_frame_ok P 0 Hwf Hff) as (f & Halloc & Hf & Huf & _). rewrite Htot in Hf. rewrite Hused in Huf by done.
  destruct (Hfree f Huf) as [Hcovf Hnbf]. set (st1 := set_pmm P st).
  assert (cr3 st <> f * 4096) as Hcf by (intros E; rewrite E, Z.div_mul in Hccov by done; congruence).
  destruct (vmm_init_eq st1 (hhdm (pmm st)) base kernel_end f Hwf Hhh Hh) as (m' & con & Hrun & Hout & Hlow & Hup); [cbn; lia|done|cbn; lia|done..|].
  exists f. eexists. split; [unfold memory_boot; erewrite bind_step by (unfold in_pmm, zoom; by rewrite Hinit); exact Hrun|].
  set (st' := mk_vmm _ _ _ _ _ _) in *. cbn [pmm st1 set_pmm] in Hout, Hup. cbn [cr3 st1 set_pmm] in Hup.
  assert (bm_phys (pmm st') = b) as Hbm' by (rewrite <- Hbm; unfold bm_phys; cbn; lia).
  assert (root st' = f * 4096) as Hroot by (unfold root; cbn; lia).
  assert (forall a, b <= a <= b + size -> ~ (f * 4096 <= a < f * 4096 + 4096)) as Hapart by (intros a Ha; divlia).
  assert (forall g, 0 <= g < total -> frame_used (pmm st') g = bool_decide (g = f) || in_use g) as Hused'.
  { intros g Hg. transitivity (frame_used (set_used f true P) g).
    - unfold frame_used. rewrite Hbm'. change (bm_phys (set_used f true P)) with (bm_phys P). rewrite Hbm. cbn [ram pmm st'].
      rewrite Hout; [done|]. apply Hapart. divlia.
    - rewrite frame_used_set by lia. destruct (decide (f = g)) as [->|Hne]; [by rewrite bool_decide_true|].
      rewrite bool_decide_false by congruence. by apply Hused. }
  assert (forall i, 256 <= i < 512 -> ent m' (f * 4096) i = ent (ram (pmm st)) (cr3 st) i) as Hup'.
  { intros i Hi. rewrite Hup by done. unfold ent. apply rdn_ext. intros a Ha.
    rewrite set_used_ram by (rewrite Hbm; divlia). apply Hram. lia. }
  destruct (lone_root_ok own st') as [Hvok Htr].
  - constructor; [destruct Hwf; constructor; cbn; lia || done|done|done|cbn; lia].
  - rewrite Hbm'. change (pmm_bitmap_size (pmm st')) with (pmm_bitmap_size P). change (total_frames (pmm st')) with (total_frames P). rewrite Hps, Htot. intros a Ha. split; [divlia|].
    rewrite Hused' by divlia. unfold in_use. rewrite (proj2 (Z.leb_le (b / 4096) _)), (proj2 (Z.leb_le (a / 4096) _)) by divlia. by rewrite orb_true_r.
  - rewrite Hroot. split; [|split; [|split]].
    + by apply Z.mod_mul.
    + rewrite Z.div_mul by done. cbn. lia.
    + rewrite Z.div_mul by done. rewrite Hused' by lia. by rewrite bool_decide_true.
    + rewrite Hbm'. change (pmm_bitmap_size (pmm st')) with (pmm_bitmap_size P). rewrite Hps. divlia.
  - intros i Hi Ho. rewrite Hroot. cbn [ram pmm st']. destruct (decide (i < 256)) as [Hlt|Hge]; [by rewrite Hlow by lia|].
    rewrite Hup' by lia. destruct (Hown i Hi Ho) as [?|?]; [lia|done].
  - split; [done|]. split; [|done]. split_and!; [cbn; lia|cbn; lia|done|exact Htot|done|done|done|].
    intros g Hg. cbn in Hg. rewrite Hused' by lia. unfold in_use. by rewrite orb_assoc.
Qed.
End Boot.


(** Sixteen frames, the boot loader's table above them with one entry. *)
Definition boot_map : list memmap_entry := [mk_entry 0 4096 1; mk_entry 4096 61440 LIMINE_MEMMAP_USABLE].
Definition boot_st : vmm_state := mk_vmm (mk_pmm {[ 0x20800 := 3 ]} (2 ^ 64 - 2 ^ 47) 0 0 0 []) 0 0 0 0 0x20000.

