(* ===== verification/Heap.v ===== *)
(** * The heap's free list (src/memory/allocator.c)

    [malloc_internal] and [free_internal] over the words of virtual memory.
    The memory is an interface: a state with 64-bit loads and stores that
    represents a finite map of aligned words ([WordMem]).  The theorems
    show that a heap is always a tiling of its range by free and used blocks,
    that no two free blocks are adjacent, and what each call does to it. *)
From S2P Require Import Prelude.

(** ** Word-addressed memory *)

Class WordOps (St : Type) := {
  ld64 : Z -> M St Z;
  st64 : Z -> Z -> M St unit
}.

(** What the heap relies on: the state stands for a map of aligned words,
    read and updated by the two operations. *)
Class WordMem (St : Type) `{WordOps St} := {
  wrepr : St -> gmap Z Z -> Prop;
  ld64_spec s h a v : wrepr s h -> h !! a = Some v -> ld64 a s = OK (v, s);
  st64_spec s h a v : wrepr s h -> is_Some (h !! a) -> in_range 64 v ->
    exists s', st64 a v s = OK (tt, s') /\ wrepr s' (<[a := v]> h)
}.

(** The plainest instance: memory is the map itself. *)
#[global] Instance flat_ops : WordOps (gmap Z Z) := {
  ld64 a := fun h => match h !! a with Some v => OK (v, h) | None => UB end;
  st64 a v := fun h => match h !! a with Some _ => OK (tt, <[a := v]> h) | None => UB end
}.
#[global, program] Instance flat_mem : WordMem (gmap Z Z) := { wrepr s h := s = h }.
Next Obligation. intros s h a v -> E. cbn. by rewrite E. Qed.
Next Obligation. intros s h a v -> [w E] _. cbn. rewrite E. eauto. Qed.

(** ** The code *)

Definition ALIGN : Z := 8.
(** [sizeof(block_t)]: a [size_t] and a pointer. *)
Definition HDR : Z := 16.
Definition ALIGN_UP (x : Z) : Z := Z.land (u64 (x + (ALIGN - 1))) (Z.lnot (ALIGN - 1)).

Section Code.
Context {St : Type} `{WordOps St}.

(** Fields of [block_t]. *)
Definition blk_size (b : Z) : M St Z := ld64 b.
Definition blk_next (b : Z) : M St Z := ld64 (b + 8).
Definition set_blk_size (b v : Z) : M St unit := st64 b v.
Definition set_blk_next (b v : Z) : M St unit := st64 (b + 8) v.

(** [if (prev) prev->next = v; else *free_list_ptr = v;] *)
Definition relink (free_list_ptr prev v : Z) : M St unit :=
  if prev =? 0 then st64 free_list_ptr v else set_blk_next prev v.

Fixpoint malloc_loop (fuel : nat) (free_list_ptr size prev curr : Z) : M St Z :=
  match fuel with
  | O => out_of_fuel
  | S fuel' =>
      if curr =? 0 then ret 0 else
      let* csize := blk_size curr in
      if size <=? csize then
        let alloc_ptr := u64 (curr + HDR) in
        (if HDR + ALIGN <=? u64 (csize - size) then
           let next := u64 (curr + size) in
           set_blk_size next (u64 (csize - size)) ;;;
           let* cnext := blk_next curr in
           set_blk_next next cnext ;;;
           relink free_list_ptr prev next ;;;
           set_blk_size curr size
         else
           let* cnext := blk_next curr in
           relink free_list_ptr prev cnext) ;;;
        ret alloc_ptr
      else
        let* cnext := blk_next curr in
        malloc_loop fuel' free_list_ptr size curr cnext
  end.

Definition malloc_internal (fuel : nat) (free_list_ptr size : Z) : M St Z :=
  if size =? 0 then ret 0 else
  let* free_list := ld64 free_list_ptr in
  malloc_loop fuel free_list_ptr (ALIGN_UP (u64 (size + HDR))) 0 free_list.

(** The search for the insertion point: the last free block below [blk] and
    the first one not below it. *)
Fixpoint free_find (fuel : nat) (blk prev curr : Z) : M St (Z * Z) :=
  match fuel with
  | O => out_of_fuel
  | S fuel' =>
      if negb (curr =? 0) && (curr <? blk) then
        let* cnext := blk_next curr in free_find fuel' blk curr cnext
      else ret (prev, curr)
  end.

Definition free_internal (fuel : nat) (free_list_ptr ptr : Z) : M St unit :=
  if ptr =? 0 then ret tt else
  let* free_list := ld64 free_list_ptr in
  let blk := u64 (ptr - HDR) in
  let* original_blk_size := blk_size blk in
  let* (prev, curr) := free_find fuel blk 0 free_list in
  set_blk_next blk curr ;;;
  relink free_list_ptr prev blk ;;;
  let* bnext := blk_next blk in
  let* bsize := blk_size blk in
  (if negb (bnext =? 0) && (u64 (blk + bsize) =? bnext) then
     let* nsize := blk_size bnext in
     set_blk_size blk (u64 (bsize + nsize)) ;;;
     let* nnext := blk_next bnext in
     set_blk_next blk nnext
   else ret tt) ;;;
  if prev =? 0 then ret tt else
  let* psize := blk_size prev in
  if u64 (prev + psize) =? blk then
    let* bsize := blk_size blk in
    set_blk_size prev (u64 (psize + bsize)) ;;;
    let* bnext := blk_next blk in
    set_blk_next prev bnext
  else ret tt.
End Code.

(** ** What a heap is

    A heap is a sequence of blocks that tiles its address range. *)

Record tile := Tile { t_size : Z; t_used : bool }.
#[global] Instance tile_eq_dec : EqDecision tile.
Proof. solve_decision. Defined.

Abbreviation Free s := (Tile s false).
Abbreviation Used s := (Tile s true).

Fixpoint total (l : list tile) : Z :=
  match l with [] => 0 | t :: l' => t_size t + total l' end.

(** Addresses of the free blocks of a tiling that starts at [a]. *)
Fixpoint frees (a : Z) (l : list tile) : list Z :=
  match l with
  | [] => []
  | t :: l' => if t_used t then frees (a + t_size t) l' else a :: frees (a + t_size t) l'
  end.

(** Every block's header holds its size. *)
Fixpoint headers (h : gmap Z Z) (a : Z) (l : list tile) : Prop :=
  match l with
  | [] => True
  | t :: l' => h !! a = Some (t_size t) /\ headers h (a + t_size t) l'
  end.

(** The pointers from cell [c] through the blocks [fs] to null. *)
Fixpoint linked (h : gmap Z Z) (c : Z) (fs : list Z) : Prop :=
  match fs with
  | [] => h !! c = Some 0
  | a :: fs' => h !! c = Some a /\ linked h (a + 8) fs'
  end.

(** No two free blocks are adjacent. *)
Fixpoint coalesced (l : list tile) : Prop :=
  match l with
  | [] => True
  | t :: l' => match l' with t' :: _ => t_used t || t_used t' = true | [] => True end /\ coalesced l'
  end.

Definition tile_ok (t : tile) : Prop := HDR + ALIGN <= t_size t /\ (8 | t_size t).

(** The tiling [l] of the range from [lo], its list anchored at [flp]. *)
Record heap_pre (h : gmap Z Z) (flp lo : Z) (l : list tile) : Prop := {
  ho_lo : 0 < lo /\ (8 | lo);
  ho_hi : lo + total l < 2 ^ 64;
  ho_tiles : Forall tile_ok l;
  ho_flp : flp < lo \/ lo + total l <= flp;
  ho_dom : forall a, lo <= a < lo + total l -> (8 | a) -> is_Some (h !! a);
  ho_headers : headers h lo l;
  ho_linked : linked h flp (frees lo l)
}.

Definition heap_ok (h : gmap Z Z) (flp lo : Z) (l : list tile) : Prop := heap_pre h flp lo l /\ coalesced l.

(** Address [x] belongs to a used block of the tiling. *)
Fixpoint owned (lo : Z) (l : list tile) (x : Z) : Prop :=
  match l with
  | [] => False
  | t :: l' => (t_used t = true /\ lo <= x < lo + t_size t) \/ owned (lo + t_size t) l' x
  end.

(** What no heap operation may touch: used blocks and memory outside the heap. *)
Definition foreign (flp lo : Z) (l : list tile) (x : Z) : Prop :=
  owned lo l x \/ (x <> flp /\ (x < lo \/ lo + total l <= x)).

(** ** The specification of the two operations on tilings *)

(** First fit: the blocks before it, its address and size, the blocks after. *)
Fixpoint first_fit (req a : Z) (l : list tile) : option (list tile * Z * Z * list tile) :=
  match l with
  | [] => None
  | t :: l' =>
      if negb (t_used t) && (req <=? t_size t) then Some ([], a, t_size t, l')
      else '(l1, b, s, l2) ← first_fit req (a + t_size t) l'; Some (t :: l1, b, s, l2)
  end.

(** The blocks that replace a free block of [s] bytes when [req] are taken. *)
Definition carve (req s : Z) : list tile :=
  if HDR + ALIGN <=? s - req then [Used req; Free (s - req)] else [Used s].

(** A block becomes free: it is merged with free neighbours. *)
Definition join_next (s : Z) (l : list tile) : list tile :=
  match l with
  | t :: l' => if t_used t then Free s :: l else Free (s + t_size t) :: l'
  | [] => [Free s]
  end.
Fixpoint release (l1 : list tile) (s : Z) (l2 : list tile) : list tile :=
  match l1 with
  | [] => join_next s l2
  | t :: l1' =>
      match l1' with
      | [] => if t_used t then t :: join_next s l2 else join_next (t_size t) (join_next s l2)
      | _ => t :: release l1' s l2
      end
  end.

(** ** Lemmas on tilings *)

Lemma total_app l1 l2 : total (l1 ++ l2) = total l1 + total l2.
Proof. induction l1 as [|t l IH]; cbn; lia. Qed.
Lemma total_cons t l : total (t :: l) = t_size t + total l.
Proof. done. Qed.

Lemma frees_app a l1 l2 : frees a (l1 ++ l2) = frees a l1 ++ frees (a + total l1) l2.
Proof.
  revert a. induction l1 as [|t l IH]; intros a; cbn; [by rewrite Z.add_0_r|].
  rewrite IH, Z.add_assoc. by destruct (t_used t).
Qed.

Lemma headers_app h a l1 l2 : headers h a (l1 ++ l2) <-> headers h a l1 /\ headers h (a + total l1) l2.
Proof.
  revert a. induction l1 as [|t l IH]; intros a; cbn; [rewrite Z.add_0_r; tauto|].
  rewrite IH, Z.add_assoc. tauto.
Qed.

Lemma total_nonneg l : Forall tile_ok l -> 0 <= total l.
Proof. induction 1 as [|t l [? _] _ IH]; unfold HDR, ALIGN in *; cbn in *; lia. Qed.

Lemma total_div l : Forall tile_ok l -> (8 | total l).
Proof.
  induction 1 as [|t l [_ Hd] _ IH]; cbn; [by exists 0|]. by apply Z.divide_add_r.
Qed.

Lemma frees_bounds a l b : Forall tile_ok l -> b ∈ frees a l -> a <= b /\ b + 24 <= a + total l.
Proof.
  intros Hl. revert a. induction Hl as [|t l [Ht _] Hl IH]; intros a; cbn; [by intros ?%elem_of_nil|].
  pose proof (total_nonneg _ Hl). unfold HDR, ALIGN in Ht.
  destruct (t_used t); [|rewrite elem_of_cons; intros [->|Hb]; [lia|]]; intros; specialize (IH _ ltac:(eassumption)); lia.
Qed.

(** Replacing words that hold no header of the blocks [l]. *)
Lemma headers_ext h h' a l : Forall tile_ok l -> headers h a l ->
  (forall x, a <= x < a + total l -> h' !! x = h !! x \/ exists b, b ∈ frees a l /\ x = b + 8) ->
  headers h' a l.
Proof.
  intros Hl. revert a. induction Hl as [|t l [Ht _] Hl IH]; intros a; cbn; [done|].
  pose proof (total_nonneg _ Hl). unfold HDR, ALIGN in Ht. intros [Ha Hh] Hx. split.
  - destruct (Hx a) as [->|(b & Hb & ?)]; [lia|done|].
    destruct (t_used t); [|apply elem_of_cons in Hb as [->|Hb]; [lia|]];
      pose proof (frees_bounds _ _ _ Hl Hb); lia.
  - apply IH; [done|]. intros x Hr. destruct (Hx x) as [?|(b & Hb & ?)]; [lia|by left|]. right. exists b.
    split; [|done]. destruct (t_used t); [done|]. apply elem_of_cons in Hb as [->|Hb]; [lia|done].
Qed.

(** ** Lemmas on the linked list *)

(** The list segment from [c] through [fs], without what the last cell holds. *)
Fixpoint lseg (h : gmap Z Z) (c : Z) (fs : list Z) : Prop :=
  match fs with
  | [] => True
  | a :: fs' => h !! c = Some a /\ lseg h (a + 8) fs'
  end.
Fixpoint last_cell (c : Z) (fs : list Z) : Z :=
  match fs with [] => c | a :: fs' => last_cell (a + 8) fs' end.
Fixpoint last_block (p : Z) (fs : list Z) : Z :=
  match fs with [] => p | a :: fs' => last_block a fs' end.
Definition pcell (flp prev : Z) : Z := if prev =? 0 then flp else prev + 8.

Lemma linked_app h c fs1 fs2 :
  linked h c (fs1 ++ fs2) <-> lseg h c fs1 /\ linked h (last_cell c fs1) fs2.
Proof. revert c. induction fs1 as [|a fs IH]; intros c; cbn; [tauto|]. rewrite IH. tauto. Qed.

Lemma linked_move h h' c c' fs : linked h c fs -> h' !! c' = h !! c ->
  (forall a, a ∈ fs -> h' !! (a + 8) = h !! (a + 8)) -> linked h' c' fs.
Proof.
  revert c c'. induction fs as [|a fs IH]; intros c c'; cbn; [congruence|].
  intros [Hc Hl] E Ha. split; [congruence|]. apply (IH (a + 8)); [done|apply Ha; left|].
  intros b Hb. apply Ha. by right.
Qed.

Lemma linked_head h c fs : linked h c fs -> h !! c = Some (default 0 (head fs)).
Proof. destruct fs; cbn; tauto. Qed.

Lemma last_cell_elem c fs : last_cell c fs = c \/ exists a, a ∈ fs /\ last_cell c fs = a + 8.
Proof.
  revert c. induction fs as [|a fs IH]; intros c; cbn; [by left|]. right.
  destruct (IH (a + 8)) as [E|(b & Hb & E)]; [exists a|exists b]; split; auto; [left|by right].
Qed.

(** Everything a segment reads but its last cell may be kept while that cell changes. *)
Lemma lseg_ext h h' c a l : Forall tile_ok l -> c < a \/ a + total l <= c -> lseg h c (frees a l) ->
  (forall x, x <> last_cell c (frees a l) -> x = c \/ (exists b, b ∈ frees a l /\ x = b + 8) -> h' !! x = h !! x) ->
  lseg h' c (frees a l).
Proof.
  intros Hl. revert c a. induction Hl as [|t l [Ht _] Hl IH]; intros c a Hc; cbn; [done|].
  pose proof (total_nonneg _ Hl). unfold HDR, ALIGN in Ht. rewrite total_cons in Hc. destruct (t_used t); cbn.
  { apply IH. lia. }
  intros [Hca Hs] Hx. split.
  - rewrite <- Hca. apply Hx; [|by left]. intros E.
    destruct (last_cell_elem (a + 8) (frees (a + t_size t) l)) as [E'|(b & Hb & E')]; [lia|].
    pose proof (frees_bounds _ _ _ Hl Hb). lia.
  - apply IH; [lia|done|]. intros x Hne [->|(b & Hb & ->)]; apply Hx; try done; right.
    + exists a. split; [left|done].
    + exists b. split; [by right|done].
Qed.

Lemma last_block_cell flp p a l : Forall tile_ok l -> 0 < a ->
  pcell flp (last_block p (frees a l)) = last_cell (pcell flp p) (frees a l).
Proof.
  intros Hl. revert p a. induction Hl as [|t l [Ht _] Hl IH]; intros p a Ha; cbn; [done|].
  unfold HDR, ALIGN in Ht. destruct (t_used t); cbn; [apply IH; lia|].
  rewrite IH by lia. f_equal. unfold pcell. case_bool; reflect_Z; lia.
Qed.

(** ** malloc_internal *)

Lemma first_fit_spec req a l l1 b s l2 : first_fit req a l = Some (l1, b, s, l2) ->
  l = l1 ++ Free s :: l2 /\ b = a + total l1 /\ req <= s.
Proof.
  revert a l1. induction l as [|t l IH]; intros a l1; cbn; [done|]. case_bool.
  - intros. simplify_eq. reflect_Z. cbn. split_and!; [|lia|done]. by destruct t; cbn in *; subst.
  - destruct (first_fit req (a + t_size t) l) as [[[[m1 c] u] m2]|] eqn:E; cbn; [|done].
    intros. simplify_eq. apply IH in E as (-> & -> & ?). cbn. split_and!; [done|lia|done].
Qed.

(** The words [malloc_internal] writes when it takes [req] bytes of the block
    of [s] bytes at [b], reached from the cell [c] and followed by [n]. *)
Definition carve_words (h : gmap Z Z) (c b s req n : Z) : gmap Z Z :=
  if HDR + ALIGN <=? s - req
  then <[b := req]> (<[c := b + req]> (<[b + req + 8 := n]> (<[b + req := s - req]> h)))
  else <[c := n]> h.

Section Malloc.
Context {St : Type} `{WordMem St}.

Lemma wp_ld64 (Q : Z -> St -> Prop) s h a v : wrepr s h -> h !! a = Some v -> Q v s -> wp (ld64 a) Q s.
Proof. intros Hr Ha. apply wp_step. by apply (ld64_spec s h). Qed.

Lemma wp_st64 (Q : unit -> St -> Prop) s h a v : wrepr s h -> is_Some (h !! a) -> in_range 64 v ->
  (forall s', wrepr s' (<[a := v]> h) -> Q tt s') -> wp (st64 a v) Q s.
Proof. intros Hr Ha Hv HQ. destruct (st64_spec s h a v Hr Ha Hv) as (s' & R & ?). by apply (wp_step _ _ _ _ _ R), HQ. Qed.

Lemma wp_relink (Q : unit -> St -> Prop) flp prev v s h : wrepr s h -> is_Some (h !! pcell flp prev) ->
  in_range 64 v -> (forall s', wrepr s' (<[pcell flp prev := v]> h) -> Q tt s') -> wp (relink flp prev v) Q s.
Proof.
  unfold relink, set_blk_next, pcell. intros Hr Hs Hv. destruct (prev =? 0); by apply wp_st64.
Qed.

Lemma carve_run fuel flp req prev b sz n s h : wrepr s h -> 0 < b -> b + sz < 2 ^ 64 ->
  24 <= req <= sz -> h !! b = Some sz -> h !! (b + 8) = Some n -> in_range 64 n ->
  is_Some (h !! pcell flp prev) ->
  (24 <= sz - req -> is_Some (h !! (b + req)) /\ is_Some (h !! (b + req + 8))) ->
  wp (malloc_loop (Datatypes.S fuel) flp req prev b)
     (fun r s' => r = b + 16 /\ wrepr s' (carve_words h (pcell flp prev) b sz req n)) s.
Proof.
  intros Hr Hb Hbs Hreq Hh Hn Hnr Hc Hd. cbn [malloc_loop]. rewrite (proj2 (Z.eqb_neq b 0)) by lia.
  apply wp_bind, (wp_ld64 _ _ _ _ _ Hr Hh). rewrite (proj2 (Z.leb_le req sz)) by lia.
  unfold carve_words, HDR, ALIGN. change (16 + 8) with 24.
  rewrite !wrap_id by (unfold in_range; lia). apply wp_bind. case_bool; reflect_Z.
  - destruct (Hd ltac:(lia)) as [D1 D2].
    apply wp_bind, (wp_st64 _ _ _ _ _ Hr); [done|unfold in_range; lia|]. intros s1 R1.
    apply wp_bind. eapply (wp_ld64 _ _ _ _ n R1); [by rewrite lookup_insert_ne by lia|].
    apply wp_bind, (wp_st64 _ _ _ _ _ R1); [apply lookup_insert_is_Some'; by right|done|]. intros s2 R2.
    apply wp_bind, (wp_relink _ _ _ _ _ _ R2); [rewrite !lookup_insert_is_Some'; by do 2 right|unfold in_range; lia|]. intros s3 R3.
    apply (wp_st64 _ _ _ _ _ R3); [rewrite !lookup_insert_is_Some'; right; right; right; by eexists|unfold in_range; lia|].
    intros s4 R4. by apply wp_ret.
  - apply wp_bind, (wp_ld64 _ _ _ _ _ Hr Hn). apply (wp_relink _ _ _ _ _ _ Hr); [done..|].
    intros s1 R1. by apply wp_ret.
Qed.

Lemma malloc_loop_spec flp req s h : wrepr s h -> 24 <= req -> (8 | req) -> forall l a prev curr fuel,
  Forall tile_ok l -> 0 < a -> (8 | a) -> a + total l < 2 ^ 64 -> headers h a l ->
  linked h (pcell flp prev) (frees a l) -> h !! pcell flp prev = Some curr ->
  (forall x, a <= x < a + total l -> (8 | x) -> is_Some (h !! x)) -> (length (frees a l) < fuel)%nat ->
  wp (malloc_loop fuel flp req prev curr) (fun r s' =>
    match first_fit req a l with
    | None => r = 0 /\ s' = s
    | Some (l1, b, sz, l2) => r = b + 16 /\ exists n, h !! (b + 8) = Some n /\
        wrepr s' (carve_words h (last_cell (pcell flp prev) (frees a l1)) b sz req n)
    end) s.
Proof.
  intros Hr Hreq Hreq8. induction l as [|t l IH]; intros a prev curr fuel Hl Ha Ha8 Hhi Hh Hk Hc Hd Hf.
  { destruct fuel; [cbn in Hf; lia|]. cbn in *. replace curr with 0 by congruence. by apply wp_ret. }
  inversion_clear Hl as [|? ? [Ht Ht8] Hl']. cbn [headers] in Hh. destruct Hh as [Hha Hh].
  unfold HDR, ALIGN in Ht. rewrite total_cons in Hhi, Hd. pose proof (total_nonneg _ Hl').
  assert (8 | a + t_size t) by by apply Z.divide_add_r.
  assert (forall x, a + t_size t <= x < a + t_size t + total l -> (8 | x) -> is_Some (h !! x)) as Hd'
    by (intros; apply Hd; [lia|done]).
  cbn [first_fit frees] in *. destruct (t_used t) eqn:Hu; cbn [negb andb].
  { eapply wp_mono; [apply (IH (a + t_size t) prev curr fuel); eauto; lia|]. intros r s'.
    destruct (first_fit _ _ l) as [[[[l1 b] sz] l2]|]; cbn; [|done]. by rewrite Hu. }
  destruct Hk as [Hca Hk]. assert (curr = a) as -> by congruence. destruct fuel as [|fuel]; [lia|].
  assert (h !! (a + 8) = Some (default 0 (head (frees (a + t_size t) l)))) as Hn by by apply linked_head.
  destruct (Z.leb_spec req (t_size t)) as [Hle|Hgt].
  - eapply wp_mono; [apply (carve_run fuel flp req prev a (t_size t) (default 0 (head (frees (a + t_size t) l))) s h Hr); try done; try lia|].
    + destruct (frees (a + t_size t) l) as [|y fs] eqn:E; cbn; [by unfold in_range|].
      destruct (frees_bounds (a + t_size t) l y Hl'); [rewrite E; left|]. unfold in_range. lia.
    + intros ?. split; apply Hd; try lia; by repeat apply Z.divide_add_r.
    + cbn. intros r s' [-> ?]. split; [done|]. eauto.
  - cbn [malloc_loop]. rewrite (proj2 (Z.eqb_neq a 0)) by lia.
    apply wp_bind, (wp_ld64 _ _ _ _ _ Hr Hha). rewrite (proj2 (Z.leb_gt req _)) by lia.
    apply wp_bind, (wp_ld64 _ _ _ _ _ Hr Hn).
    assert (pcell flp a = a + 8) as Ep by (unfold pcell; case_bool; reflect_Z; lia).
    eapply wp_mono; [apply (IH (a + t_size t) a _ fuel); rewrite ?Ep; eauto; cbn in Hf; lia|].
    intros r s'. destruct (first_fit _ _ l) as [[[[l1 b] sz] l2]|]; cbn; [|done].
    rewrite Hu. cbn. by rewrite Ep.
Qed.
End Malloc.

(** ** Map-level effect of taking a block *)

Lemma coalesced_app l1 t l2 : coalesced (l1 ++ t :: l2) <-> coalesced (l1 ++ [t]) /\ coalesced (t :: l2).
Proof.
  induction l1 as [|u l IH]; cbn [app].
  - cbn [coalesced]. destruct l2; tauto.
  - cbn [coalesced]. cbn [coalesced] in IH. rewrite IH. destruct l; cbn [app]; tauto.
Qed.

Lemma coalesced_tail t l : coalesced (t :: l) -> coalesced l.
Proof. by intros [_ ?]. Qed.
Lemma coalesced_used_mid l1 s s' l2 : coalesced (l1 ++ Free s :: l2) -> coalesced (l1 ++ Used s' :: l2).
Proof.
  rewrite (coalesced_app l1 (Free s)), (coalesced_app l1 (Used s')). intros [H1 H2]. split.
  - clear H2. induction l1 as [|u l IH]; cbn [app coalesced] in *; [done|].
    destruct l; cbn [app] in *; [split; [|done]; by rewrite orb_true_r|]. destruct H1. split; auto.
  - cbn [coalesced] in *. destruct H2 as [_ H2]. split; [by destruct l2|done].
Qed.

Lemma owned_app lo l1 l2 x : owned lo (l1 ++ l2) x <-> owned lo l1 x \/ owned (lo + total l1) l2 x.
Proof.
  revert lo. induction l1 as [|t l IH]; intros lo; cbn; [rewrite Z.add_0_r; tauto|].
  rewrite IH, Z.add_assoc. tauto.
Qed.

Lemma owned_bounds lo l x : Forall tile_ok l -> owned lo l x -> lo <= x < lo + total l.
Proof.
  intros Hl. revert lo. induction Hl as [|t l [Ht _] Hl IH]; intros lo; cbn; [done|].
  pose proof (total_nonneg _ Hl). unfold HDR, ALIGN in Ht. intros [[_ ?]|Ho]; [lia|]. apply IH in Ho. lia.
Qed.

Lemma owned_frees lo l x a : Forall tile_ok l -> owned lo l x -> a ∈ frees lo l -> x < a \/ a + 24 <= x.
Proof.
  intros Hl. revert lo. induction Hl as [|t l [Ht _] Hl IH]; intros lo; cbn; [done|].
  unfold HDR, ALIGN in Ht. destruct (t_used t) eqn:Hu; intros Ho Ha.
  - destruct Ho as [[_ ?]|Ho]; [|eauto]. pose proof (frees_bounds _ _ _ Hl Ha). lia.
  - destruct Ho as [[? _]|Ho]; [done|]. apply elem_of_cons in Ha as [->|Ha]; [|eauto].
    pose proof (owned_bounds _ _ _ Hl Ho). lia.
Qed.

(** The cell that points to the first free block after [l1]. *)
Lemma anchor_cases flp lo l1 : Forall tile_ok l1 ->
  last_cell flp (frees lo l1) = flp \/
  exists a, a ∈ frees lo l1 /\ last_cell flp (frees lo l1) = a + 8 /\ lo <= a /\ a + 24 <= lo + total l1.
Proof.
  intros Hl. destruct (last_cell_elem flp (frees lo l1)) as [?|(a & Ha & ?)]; [by left|]. right.
  pose proof (frees_bounds _ _ _ Hl Ha). eauto.
Qed.

(** ** Replacing the blocks in the middle of a tiling *)

Section Replace.
Context (h h' : gmap Z Z) (flp lo : Z) (l1 m m' l2 : list tile).
Context (Hpre : heap_pre h flp lo (l1 ++ m ++ l2)).
Let c := last_cell flp (frees lo l1).
Let b := lo + total l1.
Let e := b + total m.
Context (Htot : total m' = total m) (Hm' : Forall tile_ok m').
Context (Hframe : forall x, x <> c -> x < b \/ e <= x -> h' !! x = h !! x).

Lemma replace_tiles : Forall tile_ok l1 /\ Forall tile_ok m /\ Forall tile_ok l2 /\
  0 <= total l1 /\ 0 <= total m /\ 0 <= total l2 /\ (flp < lo \/ e + total l2 <= flp).
Proof using Hpre.
  destruct Hpre as [_ _ Ht Hflp _ _ _]. rewrite !Forall_app in Ht. destruct Ht as (H1 & H2 & H3).
  rewrite !total_app in Hflp. subst b e.
  split_and!; [done..|by apply total_nonneg|by apply total_nonneg|by apply total_nonneg|lia].
Qed.

(** The free list after the replaced blocks keeps its cells. *)
Lemma linked_tail c1 c2 : linked h c1 (frees e l2) -> h' !! c2 = h !! c1 -> linked h' c2 (frees e l2).
Proof using Hpre Hframe.
  destruct replace_tiles as (H1 & H2 & H3 & ? & ? & ? & Hflp). intros Hl Hc.
  apply (linked_move h h' c1 c2); [done|done|]. intros a Ha. pose proof (frees_bounds _ _ _ H3 Ha).
  apply Hframe; [|lia]. destruct (anchor_cases flp lo l1 H1) as [E|(x & _ & E & ? & ?)]; subst c; lia.
Qed.

Lemma replace_middle :
  (forall x, is_Some (h !! x) -> is_Some (h' !! x)) -> headers h' b m' ->
  linked h' c (frees b m' ++ frees e l2) -> heap_pre h' flp lo (l1 ++ m' ++ l2).
Proof using All.
  intros Hdom Hhd Hlk. destruct replace_tiles as (H1 & H2 & H3 & ? & ? & ? & Hflp).
  destruct Hpre as [Hlo Hhi Ht _ Hd Hh Hl]. rewrite !total_app in *.
  apply headers_app in Hh as [Hh1 Hh2]. apply headers_app in Hh2 as [_ Hh2]. fold b e in Hh2.
  rewrite frees_app in Hl. apply linked_app in Hl as [Hl1 _]. fold b in Hlk.
  destruct (anchor_cases flp lo l1 H1) as [E|(y & Hy & E & Hy1 & Hy2)]; fold c in E; constructor;
    rewrite ?total_app, ?Htot; try done; try lia.
  all: try (rewrite !Forall_app; split_and!; done).
  all: try (intros a Ha Ha8; apply Hdom, Hd; [lia|done]).
  all: try (apply headers_app; split; [|apply headers_app; split; [done|rewrite Htot; fold e]]).
  all: try (rewrite !frees_app, Htot; apply linked_app; split; [|exact Hlk];
    apply (lseg_ext h); [done|lia|done|]; intros x Hx Hx'; apply Hframe; [done|];
    destruct Hx' as [->|(z & Hz & ->)]; [lia|]; pose proof (frees_bounds _ _ _ H1 Hz); lia).
  all: eapply (headers_ext h); [done|done|]; intros x Hx;
    destruct (decide (x = c)) as [->|Hne]; [|left; apply Hframe; [done|lia]].
  all: try lia. rewrite E. right. eauto.
Qed.

Lemma replace_frame x : owned lo l1 x \/ owned e l2 x \/ (x <> flp /\ (x < lo \/ e + total l2 <= x)) ->
  h' !! x = h !! x.
Proof using Hpre Hframe.
  destruct replace_tiles as (H1 & H2 & H3 & ? & ? & ? & Hflp). intros Hx.
  destruct (anchor_cases flp lo l1 H1) as [E|(y & Hy & E & Hy1 & Hy2)]; fold c in E.
  - apply Hframe; destruct Hx as [Hx|[Hx|Hx]]; try apply owned_bounds in Hx; try done; lia.
  - apply Hframe; destruct Hx as [Hx|[Hx|Hx]]; try lia.
    + pose proof (owned_frees _ _ _ _ H1 Hx Hy). lia.
    + apply owned_bounds in Hx; [lia|done].
    + apply owned_bounds in Hx; [lia|done].
    + apply owned_bounds in Hx; [lia|done].
Qed.
End Replace.

Lemma insert_dom (h : gmap Z Z) a v x : is_Some (h !! x) -> is_Some (<[a := v]> h !! x).
Proof. intros. apply lookup_insert_is_Some'. by right. Qed.

Lemma tile_ok_intro s u : 24 <= s -> (8 | s) -> tile_ok (Tile s u).
Proof. by split. Qed.

(** The words of the blocks of [l1 ++ m ++ l2] around [m]. *)
Lemma heap_pre_mid h flp lo l1 t l2 : heap_pre h flp lo (l1 ++ t :: l2) ->
  let b := lo + total l1 in
  h !! b = Some (t_size t) /\ linked h (last_cell flp (frees lo l1)) (frees b (t :: l2)) /\
  tile_ok t /\ 0 < lo <= b /\ (8 | b) /\ b + t_size t + total l2 < 2 ^ 64 /\
  (forall x, b <= x < b + t_size t -> (8 | x) -> is_Some (h !! x)).
Proof.
  intros Hpre. cbv zeta.
  destruct (replace_tiles _ _ _ _ [t] _ Hpre) as (H1 & H2 & H3 & ? & ? & ? & Hflp).
  destruct Hpre as [[Hlo Hlo8] Hhi Ht _ Hd Hh Hl]. rewrite total_app, total_cons in Hhi, Hd.
  apply headers_app in Hh as [_ [Hh _]]. rewrite frees_app in Hl. apply linked_app in Hl as [_ Hl].
  apply Forall_inv in H2. split_and!; try done; try lia.
  - by apply Z.divide_add_r; [|apply total_div].
  - intros x Hx. apply Hd. lia.
Qed.

Ltac lookup_ins :=
  repeat first [rewrite lookup_insert_eq | rewrite lookup_insert_ne by lia].

Lemma carve_pre h flp lo l1 s l2 req n : heap_pre h flp lo (l1 ++ Free s :: l2) ->
  let b := lo + total l1 in let c := last_cell flp (frees lo l1) in
  24 <= req <= s -> (8 | req) -> h !! (b + 8) = Some n ->
  heap_pre (carve_words h c b s req n) flp lo (l1 ++ carve req s ++ l2) /\
  forall x, owned lo l1 x \/ owned (b + s) l2 x \/ (x <> flp /\ (x < lo \/ b + s + total l2 <= x)) ->
    carve_words h c b s req n !! x = h !! x.
Proof.
  intros Hpre b c Hreq Hreq8 Hn. destruct (heap_pre_mid _ _ _ _ _ _ Hpre) as (Hb & Hl & [Ht Ht8] & ? & Hb8 & ? & Hd).
  fold b c in Hb, Hl, Hb8, Hd |- *. cbn [t_size t_used frees] in *. destruct Hl as [Hc Hl].
  destruct (replace_tiles _ _ _ _ [Free s] _ Hpre) as (H1 & _ & H3 & ? & _ & ? & Hflp). cbn in Hflp.
  assert (c < b \/ b + s <= c) as Hcb.
  { destruct (anchor_cases flp lo l1 H1) as [E|(y & _ & E & ? & ?)]; fold c in E; lia. }
  assert (b + total [Free s] = b + s) as Ee by (cbn; lia).
  unfold carve_words, carve, HDR, ALIGN in *. case_bool; reflect_Z.
  - set (h' := <[b := req]> _).
    assert (forall x, x <> c -> x < b \/ b + total [Free s] <= x -> h' !! x = h !! x) as Hf.
    { intros x ? ?. rewrite Ee in *. subst h'. by lookup_ins. }
    split; [|rewrite <- Ee; by apply (replace_frame _ _ _ _ _ [Free s])].
    apply (replace_middle h h' flp lo l1 [Free s] [Used req; Free (s - req)] l2); [done|cbn; lia| |done|..].
    + apply Forall_cons_2; [by apply tile_ok_intro; [lia|]|].
      apply Forall_cons_2; [|done]. apply tile_ok_intro; [lia|by apply Z.divide_sub_r].
    + intros x Hx. by repeat apply insert_dom.
    + fold b. subst h'. cbn. split_and!; lookup_ins; done.
    + fold b c. cbn [frees t_used t_size app]. split; [subst h'; by lookup_ins|].
      apply (linked_tail h h' flp lo l1 [Free s] l2 Hpre Hf (b + 8)); [fold b; by rewrite Ee|]. subst h'. by lookup_ins.
  - set (h' := <[c := n]> h).
    assert (forall x, x <> c -> x < b \/ b + total [Free s] <= x -> h' !! x = h !! x) as Hf.
    { intros x ? ?. subst h'. by rewrite lookup_insert_ne. }
    split; [|rewrite <- Ee; by apply (replace_frame _ _ _ _ _ [Free s])].
    apply (replace_middle h h' flp lo l1 [Free s] [Used s] l2); [done|done|by repeat constructor|done|..].
    + intros x Hx. by apply insert_dom.
    + fold b. subst h'. cbn. by lookup_ins.
    + fold b c. cbn [frees t_used t_size app].
      apply (linked_tail h h' flp lo l1 [Free s] l2 Hpre Hf (b + 8)); [fold b; by rewrite Ee|].
      subst h'. by rewrite lookup_insert_eq.
Qed.

(** Linking a used block into the free list. *)
Lemma mark_pre h flp lo l1 s l2 v : heap_pre h flp lo (l1 ++ Used s :: l2) ->
  let b := lo + total l1 in let c := last_cell flp (frees lo l1) in
  let h' := <[c := b]> (<[b + 8 := v]> h) in
  h !! c = Some v -> heap_pre h' flp lo (l1 ++ Free s :: l2) /\
  forall x, owned lo l1 x \/ owned (b + s) l2 x \/ (x <> flp /\ (x < lo \/ b + s + total l2 <= x)) -> h' !! x = h !! x.
Proof.
  intros Hpre b c h' Hv. destruct (heap_pre_mid _ _ _ _ _ _ Hpre) as (Hb & Hl & Ht & ? & Hb8 & ? & Hd).
  fold b c in Hb, Hl, Hb8, Hd |- *. cbn [t_size t_used frees] in *. pose proof Ht as [Ht1 _]. unfold HDR, ALIGN in Ht1. cbn in Ht1.
  destruct (replace_tiles _ _ _ _ [Used s] _ Hpre) as (H1 & _ & H3 & ? & _ & ? & Hflp). cbn in Hflp.
  assert (c < b \/ b + s <= c) as Hcb.
  { destruct (anchor_cases flp lo l1 H1) as [E|(y & _ & E & ? & ?)]; fold c in E; lia. }
  assert (b + total [Used s] = b + s) as Ee by (cbn; lia).
  assert (forall x, x <> c -> x < b \/ b + total [Used s] <= x -> h' !! x = h !! x) as Hf.
  { intros x ? ?. rewrite Ee in *. subst h'. by lookup_ins. }
  split; [|rewrite <- Ee; by apply (replace_frame _ _ _ _ _ [Used s])].
  apply (replace_middle h h' flp lo l1 [Used s] [Free s] l2); [done|done|by apply Forall_cons_2|done|..].
  - intros x Hx. by repeat apply insert_dom.
  - fold b. subst h'. cbn. by lookup_ins.
  - fold b c. cbn [frees t_used t_size app]. split; [subst h'; by lookup_ins|].
    apply (linked_tail h h' flp lo l1 [Used s] l2 Hpre Hf c); [fold b; by rewrite Ee|]. subst h'. by lookup_ins.
Qed.

(** Merging two adjacent free blocks. *)
Lemma merge_pre h flp lo l1 s s2 l2 n : heap_pre h flp lo (l1 ++ Free s :: Free s2 :: l2) ->
  let b := lo + total l1 in let h' := <[b + 8 := n]> (<[b := s + s2]> h) in
  h !! (b + s + 8) = Some n -> heap_pre h' flp lo (l1 ++ Free (s + s2) :: l2) /\
  forall x, owned lo l1 x \/ owned (b + (s + s2)) l2 x \/ (x <> flp /\ (x < lo \/ b + (s + s2) + total l2 <= x)) ->
    h' !! x = h !! x.
Proof.
  intros Hpre b h' Hn. destruct (heap_pre_mid _ _ _ _ _ _ Hpre) as (Hb & Hl & [Ht Ht8] & ? & Hb8 & ? & Hd).
  set (c := last_cell flp (frees lo l1)) in *.
  fold b c in Hb, Hl, Hb8, Hd |- *. cbn [t_size t_used frees] in *. unfold HDR, ALIGN in Ht. destruct Hl as (Hc & _ & Hl).
  destruct (replace_tiles _ _ _ _ [Free s; Free s2] _ Hpre) as (H1 & H2 & H3 & ? & _ & ? & Hflp). cbn in Hflp.
  apply Forall_cons in H2 as [_ [[Ht2 Ht28] _]%Forall_cons]. cbn in Ht2, Ht28. unfold HDR, ALIGN in Ht2.
  assert (c < b \/ b + s + s2 <= c) as Hcb.
  { destruct (anchor_cases flp lo l1 H1) as [E|(y & _ & E & ? & ?)]; fold c in E; lia. }
  assert (b + total [Free s; Free s2] = b + (s + s2)) as Ee by (cbn; lia).
  assert (forall x, x <> c -> x < b \/ b + total [Free s; Free s2] <= x -> h' !! x = h !! x) as Hf.
  { intros x ? ?. rewrite Ee in *. subst h'. by lookup_ins. }
  split; [|rewrite <- Ee; by apply (replace_frame _ _ _ _ _ [Free s; Free s2])].
  apply (replace_middle h h' flp lo l1 [Free s; Free s2] [Free (s + s2)] l2); [done|cbn; lia| |done|..].
  - apply Forall_cons_2; [|done]. apply tile_ok_intro; [lia|by apply Z.divide_add_r].
  - intros x Hx. by repeat apply insert_dom.
  - fold b. subst h'. cbn. by lookup_ins.
  - fold b c. cbn [frees t_used t_size app]. split; [subst h'; by lookup_ins|].
    apply (linked_tail h h' flp lo l1 [Free s; Free s2] l2 Hpre Hf (b + s + 8)).
    + fold b. rewrite Ee. by rewrite Z.add_assoc.
    + subst h'. by lookup_ins.
Qed.

Lemma carve_cons req s : req <= s -> exists bs rest, carve req s = Used bs :: rest /\ req <= bs.
Proof. unfold carve. intros. case_bool; do 2 eexists; split; done || lia. Qed.

Lemma carve_coalesced l1 s l2 req : coalesced (l1 ++ Free s :: l2) -> coalesced (l1 ++ carve req s ++ l2).
Proof.
  unfold carve. intros Hc. case_bool; cbn [app]; [|by eapply coalesced_used_mid].
  apply coalesced_app. pose proof (coalesced_used_mid _ _ req _ Hc) as [Hu _]%coalesced_app.
  apply coalesced_app in Hc as [_ Hc]. split; [done|]. by split.
Qed.

(** ** Functional correctness of malloc_internal *)

Lemma align_up_spec x : 0 <= x -> x + 7 < 2 ^ 64 -> x <= ALIGN_UP x < x + 8 /\ (8 | ALIGN_UP x).
Proof.
  intros Hx Hb. unfold ALIGN_UP, ALIGN. change (8 - 1) with (Z.ones 3).
  rewrite wrap_id by (unfold in_range; change (Z.ones 3) with 7; lia).
  rewrite <- Z.ldiff_land, Z.ldiff_ones_r, Z.shiftr_div_pow2, Z.shiftl_mul_pow2 by lia.
  change (2 ^ 3) with 8. change (Z.ones 3) with 7. split; [divlia|by eexists].
Qed.

(** On a well-formed heap [malloc_internal] takes the first free block
    that fits the request and its header, splitting it when the rest can hold
    another block: the result is 16 bytes into that block, which offers at
    least [size] bytes; the heap stays a well-formed tiling; no used block and
    nothing outside the heap is written.  Without a fitting block it returns
    null and changes nothing.  The loop ends within one round per free block. *)
Lemma malloc_internal_ok {St} `{WordMem St} s h flp lo l size fuel :
  wrepr s h -> heap_ok h flp lo l -> 0 < size <= 2 ^ 64 - 24 -> (length (frees lo l) < fuel)%nat ->
  let req := ALIGN_UP (size + HDR) in
  wp (malloc_internal fuel flp size) (fun p s' =>
    match first_fit req lo l with
    | None => p = 0 /\ s' = s
    | Some (l1, b, sz, l2) =>
        p = b + HDR /\ l = l1 ++ Free sz :: l2 /\ b = lo + total l1 /\
        exists h' bs rest, wrepr s' h' /\ carve req sz = Used bs :: rest /\ HDR + size <= bs /\
          heap_ok h' flp lo (l1 ++ carve req sz ++ l2) /\
          forall x, foreign flp lo l x -> h' !! x = h !! x
    end) s.
Proof.
  intros Hr [Hpre Hco] Hsz Hf req. unfold malloc_internal. rewrite (proj2 (Z.eqb_neq size 0)) by lia.
  pose proof (linked_head _ _ _ (ho_linked _ _ _ _ Hpre)) as Hhead.
  apply wp_bind, (wp_ld64 _ _ _ _ _ Hr Hhead). unfold HDR in req |- *.
  rewrite (wrap_id 64 (size + 16)) by (unfold in_range; lia). fold req.
  destruct (align_up_spec (size + 16)) as [Hreq Hreq8]; [lia|lia|]. fold req in Hreq, Hreq8.
  assert (24 <= req) as Hreq24 by (destruct Hreq8; lia).
  pose proof Hpre as [[Hlo Hlo8] Hhi Ht Hflp Hd Hh Hl].
  eapply wp_mono; [apply (malloc_loop_spec flp req s h Hr Hreq24 Hreq8 l lo 0 _ fuel); done|].
  cbv beta. intros p s' Hp. destruct (first_fit req lo l) as [[[[l1 b] sz] l2]|] eqn:E; [|done].
  apply first_fit_spec in E as (El & -> & Hfit). destruct Hp as (-> & n & Hn & Hr').
  split_and!; [done|done|done|].
  change (pcell flp 0) with flp in Hr'. rewrite El in Hpre.
  destruct (carve_pre h flp lo l1 sz l2 req n Hpre) as [Hpre' Hfr]; [lia|done|done|].
  destruct (carve_cons req sz Hfit) as (bs & rest & Ec & Hbs).
  eexists _, bs, rest. split_and!; [exact Hr'|done|lia|split; [done|]|].
  - apply carve_coalesced. by rewrite <- El.
  - intros x Hx. apply Hfr. subst l. unfold foreign in Hx. rewrite owned_app, total_app in Hx. cbn in Hx.
    destruct Hx as [[?|[[? _]|?]]|Hx]; [by left|done|by right; left|]. right; right. lia.
Qed.

(** ** free_internal *)

Lemma last_free_split p lo l1 :
  (Forall (fun t => t_used t = true) l1 /\ last_block p (frees lo l1) = p) \/
  exists x ps y, l1 = x ++ Free ps :: y /\ Forall (fun t => t_used t = true) y /\
    last_block p (frees lo l1) = lo + total x.
Proof.
  revert p lo. induction l1 as [|[ts tu] l IH]; intros p lo; [by left|]. cbn [frees t_used t_size].
  destruct tu; cbn [last_block].
  - destruct (IH p (lo + ts)) as [[? E]|(x & ps & y & -> & ? & E)].
    + left. split; [by constructor|done].
    + right. exists (Used ts :: x), ps, y. rewrite E. cbn. split_and!; [done..|lia].
  - right. destruct (IH lo (lo + ts)) as [[? E]|(x & ps & y & -> & ? & E)].
    + exists [], ts, l. rewrite E. cbn. split_and!; [done..|lia].
    + exists (Free ts :: x), ps, y. rewrite E. cbn. split_and!; [done..|lia].
Qed.

Lemma release_used l1 s l2 : Forall (fun t => t_used t = true) l1 -> release l1 s l2 = l1 ++ join_next s l2.
Proof.
  induction 1 as [|t l Ht Hl IH]; [done|]. cbn. destruct l; [by rewrite Ht|]. by rewrite IH.
Qed.

Lemma release_app x l1 s l2 : l1 <> [] -> release (x ++ l1) s l2 = x ++ release l1 s l2.
Proof.
  intros Hne. induction x as [|t x IH]; [done|]. cbn. rewrite IH. destruct (x ++ l1) eqn:E; [|done].
  by apply app_nil in E as [_ ?].
Qed.

Lemma release_free_used x ps y s l2 : Forall (fun t => t_used t = true) y -> y <> [] ->
  release (x ++ Free ps :: y) s l2 = x ++ Free ps :: y ++ join_next s l2.
Proof.
  intros Hy Hne. rewrite release_app by done. f_equal. rewrite <- (release_used y) by done.
  by destruct y.
Qed.

Lemma join_next_shape s l : exists s' l', join_next s l = Free s' :: l' /\
  total (Free s' :: l') = s + total l /\ (coalesced l -> coalesced (Free s' :: l')).
Proof.
  destruct l as [|[ts []] l]; cbn [join_next t_used t_size].
  - exists s, []. by split_and!.
  - exists s, (Used ts :: l). split_and!; [done|cbn; lia|]. intros. by split.
  - exists (s + ts), l. split_and!; [done|cbn; lia|]. cbn. by destruct l.
Qed.

Lemma join_next_owned a s l x : owned a (join_next s l) x <-> owned (a + s) l x.
Proof.
  destruct l as [|[ts []] l]; cbn.
  - naive_solver.
  - naive_solver.
  - rewrite Z.add_assoc. naive_solver.
Qed.

Lemma coalesced_swap l1 t t' : t_used t' = false \/ t_used t = t_used t' ->
  coalesced (l1 ++ [t']) -> coalesced (l1 ++ [t]).
Proof.
  intros Ht. induction l1 as [|u l IH]; cbn [app coalesced]; [done|].
  destruct l; cbn [app]; intros [? ?]; (split; [|by apply IH]); [|done].
  destruct Ht as [E|E]; [|by rewrite E]. rewrite E, orb_false_r in *. by destruct (t_used u).
Qed.
Lemma coalesced_last_used l1 u t : t_used u = true -> coalesced (l1 ++ [u]) -> coalesced ((l1 ++ [u]) ++ [t]).
Proof.
  intros Hu Hc. rewrite <- app_assoc. cbn. apply coalesced_app. split; [done|]. cbn. by rewrite Hu.
Qed.

Lemma release_coalesced l1 s l2 : coalesced (l1 ++ Used s :: l2) -> coalesced (release l1 s l2).
Proof.
  intros [H1 [_ H2]]%coalesced_app. destruct (join_next_shape s l2) as (s' & l' & E & _ & Hc). specialize (Hc H2).
  destruct (last_free_split 0 0 l1) as [[Hu _]|(x & ps & y & -> & Hy & _)].
  - rewrite release_used, E by done. apply coalesced_app. split; [|done].
    destruct l1 as [|u l1 _] using rev_ind; [done|]. apply Forall_app in Hu as [_ Hu%Forall_inv].
    apply coalesced_last_used; [done|]. rewrite <- app_assoc in H1. by apply (coalesced_app l1 u [Used s]) in H1 as [? _].
  - destruct y as [|u y _] using rev_ind.
    + rewrite release_app by done. cbn [release t_used t_size]. rewrite E. cbn [join_next t_used t_size].
      rewrite <- app_assoc in H1. apply (coalesced_app x _ [Used s]) in H1 as [H1 _].
      apply coalesced_app. split; [by eapply coalesced_swap; [|exact H1]; right|]. exact Hc.
    + rewrite release_free_used by (done || by destruct y). rewrite E. apply Forall_app in Hy as [_ Hy%Forall_inv].
      replace (x ++ Free ps :: (y ++ [u]) ++ Free s' :: l') with ((x ++ Free ps :: y ++ [u]) ++ Free s' :: l')
        by by rewrite <- app_assoc.
      apply coalesced_app. split; [|done].
      replace (x ++ Free ps :: y ++ [u]) with ((x ++ Free ps :: y) ++ [u]) in * by by rewrite <- app_assoc.
      apply coalesced_last_used; [done|]. rewrite <- app_assoc in H1.
      by apply (coalesced_app (x ++ Free ps :: y) u [Used s]) in H1 as [? _].
Qed.

(** What a call on the block between [l1] and [l2] may not touch. *)
Definition others (flp lo : Z) (l1 : list tile) (s : Z) (l2 : list tile) (x : Z) : Prop :=
  owned lo l1 x \/ owned (lo + total l1 + s) l2 x \/
  (x <> flp /\ (x < lo \/ lo + total l1 + s + total l2 <= x)).

Section FreeProof.
Context {St : Type} `{WordMem St}.

Lemma free_find_spec s h blk fs2 : wrepr s h -> (forall a, a ∈ fs2 -> blk <= a) -> forall fs1 c p fuel,
  linked h c (fs1 ++ fs2) -> (forall a, a ∈ fs1 -> 0 < a < blk) -> (length fs1 < fuel)%nat ->
  wp (free_find fuel blk p (default 0 (head (fs1 ++ fs2))))
     (fun r s' => s' = s /\ r = (last_block p fs1, default 0 (head fs2))) s.
Proof.
  intros Hr H2 fs1. induction fs1 as [|a fs IH]; intros c p fuel Hl H1 Hf;
    (destruct fuel as [|fuel]; [cbn in Hf; lia|]); cbn [free_find app].
  - destruct fs2 as [|b fs]; cbn [head default]; [by apply wp_ret|].
    pose proof (H2 b ltac:(left)). cbn. rewrite (proj2 (Z.ltb_ge b blk)), andb_false_r by lia. by apply wp_ret.
  - pose proof (H1 a ltac:(left)). cbn [head default].
    cbn -[free_find]. rewrite (proj2 (Z.eqb_neq a 0)), (proj2 (Z.ltb_lt a blk)) by lia. cbn [negb andb].
    destruct Hl as [_ Hl]. apply wp_bind, (wp_ld64 _ _ _ _ _ Hr (linked_head _ _ _ Hl)).
    apply (IH (a + 8)); [done| |cbn in Hf; lia]. intros b Hb. apply H1. by right.
Qed.

Lemma wp_merge s h flp lo l1 sz s2 l2 (Q : unit -> St -> Prop) :
  let b := lo + total l1 in
  wrepr s h -> heap_pre h flp lo (l1 ++ Free sz :: Free s2 :: l2) ->
  (forall s' h', wrepr s' h' -> heap_pre h' flp lo (l1 ++ Free (sz + s2) :: l2) ->
     (forall x, others flp lo l1 (sz + s2) l2 x -> h' !! x = h !! x) -> Q tt s') ->
  wp (let* nsize := blk_size (b + sz) in
      set_blk_size b (u64 (sz + nsize)) ;;;
      let* nnext := blk_next (b + sz) in set_blk_next b nnext) Q s.
Proof.
  intros b Hr Hpre HQ. destruct (heap_pre_mid _ _ _ _ _ _ Hpre) as (Hb & Hl & Ht & ? & Hb8 & Hhi & Hd).
  cbn [t_size t_used frees linked] in *. destruct Hl as (_ & Hn & Hl). fold b in Hb, Hb8, Hd, Hn, Hl. pose proof Ht as [Ht1 _]. unfold HDR, ALIGN in Ht1. cbn in Ht1.
  assert (heap_pre h flp lo ((l1 ++ [Free sz]) ++ Free s2 :: l2)) as Hpre2 by by rewrite <- app_assoc.
  destruct (heap_pre_mid _ _ _ _ _ _ Hpre2) as (Hb2 & _ & Ht2 & _ & _ & Hhi2 & _).
  assert (lo + total (l1 ++ [Free sz]) = b + sz) as Eb by (rewrite total_app; subst b; cbn; lia). rewrite Eb in *.
  destruct Ht2 as [Ht2 _]. unfold HDR, ALIGN in Ht2. cbn [t_size] in *. rewrite total_cons in Hhi. cbn [t_size] in Hhi.
  pose proof (total_nonneg l2) as Hl2. destruct (replace_tiles _ _ _ _ [Free sz; Free s2] _ Hpre) as (_ & _ & _ & ? & _ & ? & _).
  apply wp_bind, (wp_ld64 _ _ _ _ _ Hr Hb2). rewrite wrap_id by (unfold in_range; lia).
  apply wp_bind, (wp_st64 _ _ _ _ _ Hr); [by eexists|unfold in_range; lia|]. intros s1 R1.
  pose proof (linked_head _ _ _ Hl) as Hnn. set (n := default 0 _) in Hnn.
  apply wp_bind. eapply (wp_ld64 _ _ _ _ n R1); [by rewrite lookup_insert_ne by lia|].
  apply (wp_st64 _ _ _ _ _ R1); [apply insert_dom; by eexists| |].
  { destruct (replace_tiles _ _ _ _ [Free sz; Free s2] _ Hpre) as (_ & _ & Hok2 & _).
    subst n. destruct (frees (b + sz + s2) l2) as [|y fs] eqn:E; [by unfold in_range|]. cbn.
    destruct (frees_bounds (b + sz + s2) l2 y Hok2); [rewrite E; left|]. unfold in_range. lia. }
  intros s' Hr'. destruct (merge_pre _ _ _ _ _ _ _ n Hpre Hnn) as [Hp Hfr]. apply (HQ s' _ Hr' Hp).
  intros x Hx. apply Hfr. unfold others in Hx. by rewrite !Z.add_assoc in *.
Qed.

(** The next-block half of the coalescing, [v] being the list after the block. *)
Lemma wp_join_next s h flp lo l1 sz l2 (Q : unit -> St -> Prop) :
  let b := lo + total l1 in let v := default 0 (head (frees (b + sz) l2)) in
  wrepr s h -> heap_pre h flp lo (l1 ++ Free sz :: l2) ->
  (forall s' h', wrepr s' h' -> heap_pre h' flp lo (l1 ++ join_next sz l2) ->
     (forall x, others flp lo l1 sz l2 x -> h' !! x = h !! x) -> Q tt s') ->
  wp (if negb (v =? 0) && (u64 (b + sz) =? v) then
        let* nsize := blk_size v in
        set_blk_size b (u64 (sz + nsize)) ;;;
        let* nnext := blk_next v in set_blk_next b nnext
      else ret tt) Q s.
Proof.
  intros b v Hr Hpre HQ. destruct (heap_pre_mid _ _ _ _ _ _ Hpre) as (_ & _ & [Ht _] & ? & _ & Hhi & _).
  destruct (replace_tiles _ _ _ _ [Free sz] _ Hpre) as (_ & _ & H3 & _ & _ & ? & _).
  unfold HDR, ALIGN in Ht. cbn [t_size] in *. rewrite wrap_id by (unfold in_range; subst b; lia).
  destruct l2 as [|[ts []] l2]; cbn [join_next t_used t_size frees] in *.
  - apply wp_ret. by apply (HQ s h).
  - rewrite (proj2 (Z.eqb_neq (b + sz) v)), andb_false_r; [apply wp_ret; by apply (HQ s h)|].
    apply Forall_cons in H3 as [[Hts _] H3]. unfold HDR, ALIGN in Hts. cbn in Hts. subst v.
    destruct (frees (b + sz + ts) l2) as [|y fs] eqn:E; cbn; [lia|].
    destruct (frees_bounds (b + sz + ts) l2 y H3); [rewrite E; left|]. lia.
  - cbn in v. subst v. rewrite Z.eqb_refl, (proj2 (Z.eqb_neq _ 0)) by lia. cbn [negb andb].
    apply (wp_merge s h flp lo l1 sz ts l2); [done|exact Hpre|]. intros s' h' Hr' Hp Hfr. apply (HQ s' h'); [done|done|].
    intros x Hx. apply Hfr. unfold others in *. cbn in Hx. rewrite !Z.add_assoc in *.
    destruct Hx as [?|[[[? _]|?]|?]]; [by left|done|by right; left|]. right; right. lia.
Qed.
End FreeProof.

(** Freeing a used block of a well-formed heap makes it free and merges
    it with the free neighbours it has, on both sides; the heap stays a
    well-formed tiling with no adjacent free blocks; the other used blocks and
    the memory outside the heap are not written.  The search for the place in
    the list ends within one round per free block. *)
Lemma free_internal_ok {St} `{WordMem St} s h flp lo l1 sz l2 fuel :
  wrepr s h -> heap_ok h flp lo (l1 ++ Used sz :: l2) -> (length (frees lo l1) < fuel)%nat ->
  wp (free_internal fuel flp (lo + total l1 + HDR)) (fun _ s' =>
    exists h', wrepr s' h' /\ heap_ok h' flp lo (release l1 sz l2) /\
      forall x, others flp lo l1 sz l2 x -> h' !! x = h !! x) s.
Proof.
  intros Hr [Hpre Hco] Hf. destruct (heap_pre_mid _ _ _ _ _ _ Hpre) as (Hb & Hl & [Ht _] & Hlo & Hb8 & Hhi & Hd).
  destruct (replace_tiles _ _ _ _ [Used sz] _ Hpre) as (H1 & _ & H3 & ? & _ & ? & _).
  unfold HDR, ALIGN in Ht. cbn [t_size t_used frees] in *. set (b := lo + total l1) in *.
  set (c := last_cell flp (frees lo l1)) in *. set (v := default 0 (head (frees (b + sz) l2))).
  unfold free_internal. rewrite (proj2 (Z.eqb_neq _ 0)) by (unfold HDR; lia).
  pose proof (ho_linked _ _ _ _ Hpre) as Hl0. rewrite frees_app in Hl0. cbn [t_used t_size frees] in Hl0. fold b in Hl0.
  apply wp_bind, (wp_ld64 _ _ _ _ _ Hr (linked_head _ _ _ Hl0)).
  rewrite wrap_id by (unfold in_range, HDR; lia). replace (b + HDR - HDR) with b by lia.
  apply wp_bind, (wp_ld64 _ _ _ _ _ Hr Hb). apply wp_bind. eapply wp_mono.
  { eapply (free_find_spec s h b); [done| |exact Hl0| |done]; intros a Ha.
    - pose proof (frees_bounds _ _ _ H3 Ha). lia.
    - pose proof (frees_bounds _ _ _ H1 Ha). lia. }
  intros [prev curr] s1 [-> [= -> ->]]. fold v.
  assert (in_range 64 v) as Hv.
  { subst v. destruct (frees (b + sz) l2) as [|y fs] eqn:E; [by unfold in_range|]. cbn.
    destruct (frees_bounds (b + sz) l2 y H3); [rewrite E; left|]. unfold in_range. lia. }
  assert (h !! c = Some v) as Hc by by apply linked_head.
  assert (h !! c = Some v -> pcell flp (last_block 0 (frees lo l1)) = c) as Ec by (intros _; by rewrite last_block_cell by (done || lia)).
  apply wp_bind, (wp_st64 _ _ _ _ _ Hr); [apply Hd; [lia|by apply Z.divide_add_r]|done|]. intros s2 R2.
  apply wp_bind, (wp_relink _ _ _ _ _ _ R2); [rewrite Ec by done; apply insert_dom; by eexists|unfold in_range; lia|].
  intros s3 R3. rewrite Ec in R3 by done. destruct (mark_pre _ _ _ _ _ _ v Hpre Hc) as [Hp3 Hfr3]. fold b c in Hp3, R3, Hfr3.
  set (h3 := <[c := b]> _) in *. clearbody h3. clear Hb Hd.
  destruct (heap_pre_mid _ _ _ _ _ _ Hp3) as (Hb & Hl3 & _). fold b c in Hb, Hl3. cbn [t_size frees t_used] in Hb, Hl3.
  apply wp_bind, (wp_ld64 _ _ _ _ _ R3 (linked_head _ _ _ (proj2 Hl3))). fold v.
  apply wp_bind, (wp_ld64 _ _ _ _ _ R3 Hb). apply wp_bind.
  apply (wp_join_next s3 h3 flp lo l1 sz l2); [done|done|]. intros s4 h4 R4 Hp4 Hfr4.
  assert (forall x, others flp lo l1 sz l2 x -> h4 !! x = h !! x) as Hfr.
  { intros x Hx. rewrite Hfr4 by done. by apply Hfr3. }
  clear Hfr3 Hfr4 R3 Hp3 Hb Hl3. pose proof (release_coalesced _ _ _ Hco) as Hco'.
  destruct (join_next_shape sz l2) as (sj & lj & Ej & Etot & _). rewrite Ej in Hp4. cbn in Etot.
  destruct (last_free_split 0 lo l1) as [[Hu ->]|(x & ps & y & El & Hy & ->)].
  { apply wp_ret. exists h4. rewrite release_used, Ej in * by done. by split_and!. }
  assert (heap_pre h4 flp lo (x ++ Free ps :: y ++ Free sj :: lj)) as Hp5 by (subst l1; by rewrite <- app_assoc in Hp4).
  destruct (heap_pre_mid _ _ _ _ _ _ Hp5) as (Hps & _ & [Htp _] & ? & _ & ? & _).
  unfold HDR, ALIGN in Htp. cbn [t_size] in *.
  assert (b = lo + total x + ps + total y) as Eb by (subst b; rewrite El, total_app; cbn; lia).
  rewrite (proj2 (Z.eqb_neq _ 0)) by lia. apply wp_bind, (wp_ld64 _ _ _ _ _ R4 Hps).
  assert (Forall tile_ok y) as Hty by (rewrite El in H1; apply Forall_app in H1 as [_ [_ ?]%Forall_cons]; done).
  pose proof (total_nonneg _ Hty). rewrite wrap_id by (unfold in_range; lia).
  destruct y as [|u y].
  - cbn in Eb. rewrite Z.add_0_r in Eb. rewrite Eb, Z.eqb_refl.
    eapply (wp_merge s4 h4 flp lo x ps sj lj); [done|done|]. intros s5 h5 R5 Hp6 Hfr5. exists h5.
    rewrite El, release_app in Hco' |- * by done. cbn [release t_used t_size] in Hco' |- *. rewrite Ej in Hco' |- *.
    cbn [join_next t_used t_size] in Hco' |- *. split_and!; [done|by split|]. intros z Hz. rewrite Hfr5; [by apply Hfr; subst l1|].
    destruct (join_next_owned (lo + total x + ps) sz l2 z) as [_ Ho]. rewrite Ej in Ho. cbn in Ho.
    unfold others in Hz |- *. rewrite total_app, owned_app in Hz. cbn in Hz.
    replace (lo + (total x + (ps + 0)) + sz) with (lo + total x + ps + sz) in Hz by lia.
    rewrite !Z.add_assoc. destruct Hz as [[?|[[? _]|[]]]|[Hz|Hz]]; [by left|done| |right; right; lia].
    right; left. by destruct (Ho Hz) as [[? _]|?].
  - apply Forall_cons in Hty as [[Htu _] Hty]. pose proof (total_nonneg _ Hty). unfold HDR, ALIGN in Htu. cbn in Eb.
    rewrite (proj2 (Z.eqb_neq _ b)) by lia. apply wp_ret. exists h4.
    rewrite El, release_free_used in Hco' |- * by done. rewrite Ej in Hco' |- *. split_and!; [done|by split|by subst l1].
Qed.

(** ** Theorems *)

(** Taking a block and releasing it gives back the tiling. *)
Lemma release_carve l1 sz l2 req bs rest : coalesced (l1 ++ Free sz :: l2) ->
  carve req sz = Used bs :: rest -> release l1 bs (rest ++ l2) = l1 ++ Free sz :: l2.
Proof.
  intros Hc E. assert (join_next bs (rest ++ l2) = Free sz :: l2) as Ej.
  { unfold carve in E. apply coalesced_app in Hc as [_ [Hc _]]. case_bool; simplify_eq; cbn.
    - by replace (bs + (sz - bs)) with sz by lia.
    - destruct l2 as [|t l2]; [done|]. cbn in *. by rewrite Hc. }
  destruct (last_free_split 0 0 l1) as [[Hu _]|(x & ps & y & -> & Hy & _)].
  - by rewrite release_used, Ej.
  - destruct y as [|u y]; [|by rewrite release_free_used, Ej, <- app_assoc by done].
    rewrite <- app_assoc in Hc. apply (coalesced_app x _ (Free sz :: l2)) in Hc as [_ [Hc _]]. done.
Qed.

Lemma carve_total req s : total (carve req s) = s.
Proof. unfold carve. case_bool; cbn; lia. Qed.

(** [free_internal] undoes [malloc_internal]: allocating any number of
    bytes and freeing the result (null included) leaves the heap with the very
    same tiling, every used block and everything outside the heap unchanged. *)
Theorem malloc_free_roundtrip {St} `{WordMem St} s h flp lo l size fuel :
  wrepr s h -> heap_ok h flp lo l -> 0 <= size <= 2 ^ 64 - 24 -> (length l < fuel)%nat ->
  wp (let* p := malloc_internal fuel flp size in free_internal fuel flp p) (fun _ s' =>
    exists h', wrepr s' h' /\ heap_ok h' flp lo l /\ forall x, foreign flp lo l x -> h' !! x = h !! x) s.
Proof.
  intros Hr Hok Hsz Hf. destruct (decide (size = 0)) as [->|Hne]; [by apply wp_bind, wp_ret; exists h|].
  assert (forall a k, length (frees a k) <= length k)%nat as Hlen.
  { intros a k. revert a. induction k as [|t k IH]; intros a; cbn; [lia|]. specialize (IH (a + t_size t)).
    destruct (t_used t); cbn; lia. }
  apply wp_bind. eapply wp_mono; [apply (malloc_internal_ok s h flp lo l size fuel); try done|].
  { lia. } { specialize (Hlen lo l). lia. }
  cbv beta. intros p s1. destruct (first_fit _ lo l) as [[[[l1 b] sz] l2]|]; [|intros [-> ->]; by apply wp_ret; exists h].
  intros (-> & -> & -> & h1 & bs & rest & R1 & Ec & _ & Hok1 & Hfr1). pose proof Hok as [_ Hco].
  pose proof (release_carve _ _ _ _ _ _ Hco Ec) as Er. pose proof (carve_total (ALIGN_UP (size + HDR)) sz) as Et.
  rewrite Ec in Hok1, Et. rewrite length_app in Hf. cbn in Et.
  eapply wp_mono; [apply (free_internal_ok s1 h1 flp lo l1 bs (rest ++ l2) fuel R1 Hok1)|].
  { specialize (Hlen lo l1). lia. }
  cbv beta. intros _ s2 (h2 & R2 & Hok2 & Hfr2). exists h2. rewrite Er in Hok2. split_and!; [done|done|].
  intros x Hx. rewrite <- (Hfr1 x) by done. apply Hfr2. unfold foreign in Hx. unfold others.
  rewrite owned_app, total_app in Hx. cbn in Hx. rewrite owned_app, total_app.
  replace (lo + total l1 + bs + total rest) with (lo + total l1 + sz) by lia.
  destruct Hx as [[?|[[? _]|?]]|?]; [by left|done|by right; left; right|]. right; right. lia.
Qed.

(** The size computation of [malloc_internal] is not checked for
    overflow: a request of 2^64 - 16 bytes wraps to a block of 0 bytes, so the
    call returns a non-null pointer into the first free block and sets that
    block's size to 0, which removes its memory from the heap. *)
Theorem malloc_size_overflow {St} `{WordMem St} s h flp b sz n fuel :
  wrepr s h -> h !! flp = Some b -> h !! b = Some sz -> h !! (b + 8) = Some n ->
  0 < b < 2 ^ 64 - 16 -> 24 <= sz < 2 ^ 64 -> in_range 64 n -> flp <> b -> flp <> b + 8 ->
  wp (malloc_internal (S fuel) flp (2 ^ 64 - 16)) (fun p s' =>
    p = b + 16 /\ exists h', wrepr s' h' /\ h' !! flp = Some b /\ h' !! b = Some 0) s.
Proof.
  intros Hr Hflp Hb Hn Hbr Hsz Hnr Hne Hne'. unfold malloc_internal. rewrite (proj2 (Z.eqb_neq _ 0)) by lia.
  apply wp_bind, (wp_ld64 _ _ _ _ _ Hr Hflp). cbn [malloc_loop]. rewrite (proj2 (Z.eqb_neq b 0)) by lia.
  change (ALIGN_UP (u64 (2 ^ 64 - 16 + HDR))) with 0. apply wp_bind, (wp_ld64 _ _ _ _ _ Hr Hb).
  rewrite (proj2 (Z.leb_le 0 sz)), Z.sub_0_r, Z.add_0_r, !wrap_id by (unfold in_range, HDR; lia).
  change (HDR + ALIGN) with 24. rewrite (proj2 (Z.leb_le 24 sz)) by lia.
  apply wp_bind, wp_bind, (wp_st64 _ _ _ _ _ Hr); [by eexists|unfold in_range; lia|]. intros s1 R1.
  apply wp_bind. eapply (wp_ld64 _ _ _ _ n R1); [by rewrite lookup_insert_ne by lia|].
  apply wp_bind, (wp_st64 _ _ _ _ _ R1); [apply insert_dom; by eexists|done|]. intros s2 R2.
  apply wp_bind, (wp_relink _ _ _ _ _ _ R2); [by repeat apply insert_dom; eexists|unfold in_range; lia|]. intros s3 R3.
  apply (wp_st64 _ _ _ _ _ R3); [by repeat apply insert_dom; eexists|done|]. intros s4 R4.
  apply wp_ret. split; [done|]. eexists. split; [exact R4|]. change (pcell flp 0) with flp.
  rewrite lookup_insert_ne, !lookup_insert_eq by done. done.
Qed.

(** ** A concrete heap: 256 bytes at 4096, the list anchored at address 8 *)

Definition demo_tiles : list tile := [Used 32; Free 64; Used 24; Free 136].
Definition demo_words : gmap Z Z :=
  foldr (fun '(a, v) h => <[a := v]> h) (foldr (fun k h => <[8 * k := 0]> h) ∅ (seqZ 512 32))
    [(8, 4128); (4096, 32); (4128, 64); (4136, 4216); (4192, 24); (4216, 136)].

Lemma demo_heap_ok : heap_ok demo_words 8 4096 demo_tiles.
Proof.
  split; [constructor|by repeat split].
  - split; [lia|by exists 512].
  - done.
  - unfold demo_tiles. repeat (apply Forall_cons_2; [split; [vm_compute; discriminate|by apply Z.mod_divide]|]).
    apply Forall_nil_2.
  - left. done.
  - assert (Forall (fun k => is_Some (demo_words !! (8 * k))) (seqZ 512 32)) as Hf
      by (apply (bool_decide_unpack _); by vm_compute).
    rewrite Forall_forall in Hf. intros a Ha [k ->]. rewrite Z.mul_comm. apply Hf.
    apply elem_of_seqZ. cbn in Ha. lia.
  - by repeat split.
  - by repeat split.
Qed.

Lemma malloc_free_roundtrip_witness :
  wp (let* p := malloc_internal 5 8 100 in free_internal 5 8 p)
     (fun _ h' => heap_ok h' 8 4096 demo_tiles) demo_words.
Proof.
  refine (wp_mono _ _ _ _ (malloc_free_roundtrip demo_words demo_words 8 4096 demo_tiles 100 5
    eq_refl demo_heap_ok ltac:(lia) ltac:(cbn; lia)) _).
  cbv beta. intros _ h' (h1 & E & Hok & _). by rewrite E.
Defined.

Lemma malloc_size_overflow_witness :
  wp (malloc_internal 1 8 (2 ^ 64 - 16)) (fun p h' => p = 4144 /\ h' !! 4128 = Some 0) demo_words.
Proof.
  refine (wp_mono _ _ _ _ (malloc_size_overflow demo_words demo_words 8 4128 64 4216 0
    eq_refl eq_refl eq_refl eq_refl ltac:(lia) ltac:(lia) ltac:(done) ltac:(done) ltac:(done)) _).
  cbv beta. intros p h' (-> & h1 & E & _ & Hb). by rewrite E.
Defined.
