(* ===== verification/Allocator.v ===== *)
(** * The kernel's heap allocator (src/memory/allocator.c, allocator.h)

    The heap algorithm of [Heap] run on virtual memory: loads and stores go
    through the page tables the CPU uses, and [allocator_heap_init] maps the
    heap's pages with the VMM. *)
From S2P Require Import Prelude Mem Pmm Vmm VmmTree VmmSpec VmmThms VmmAlloc Heap.

(** ** Memory accesses through the MMU *)

(** x86-64 addresses: bits 47..63 agree. *)
Definition canonical (a : Z) : bool :=
  (0 <=? a) && (a <? 2 ^ 47) || (2 ^ 64 - 2 ^ 47 <=? a) && (a <? 2 ^ 64).

(** The CPU's walk from [cr3]; [None] is a page fault. *)
Definition mmu_phys (st : vmm_state) (a : Z) : option Z :=
  if canonical a then t ← node (ram (pmm st)) (cr3 st) (vpath a); Some (t + a mod 4096) else None.

(** Aligned 64-bit accesses; a fault or a misaligned pointer is undefined. *)
Definition vload64 (a : Z) : M vmm_state Z := fun st =>
  match mmu_phys st a with
  | Some p => if a mod 8 =? 0 then OK (rd64 (ram (pmm st)) p, st) else UB
  | None => UB
  end.
Definition vstore64 (a v : Z) : M vmm_state unit := fun st =>
  match mmu_phys st a with
  | Some p => if a mod 8 =? 0 then OK (tt, upd_ram (fun m => wr64 m p v) st) else UB
  | None => UB
  end.

#[global] Instance mmu_ops : WordOps vmm_state := { ld64 := vload64; st64 := vstore64 }.

(** ** Data *)

Definition HEAP_START_KERNEL : Z := 0xffffc90000000000.
Definition HEAP_START : Z := 0x0000555555554000.
Definition HEAP_SIZE : Z := 0x100000.

(** [data] and [kernel_data], pointers to [allocator_data]. *)
Definition data : Z := HEAP_START - PAGE_SIZE.
Definition kernel_data : Z := HEAP_START_KERNEL - PAGE_SIZE.

Record alloc_state := mk_alloc {
  avmm : vmm_state;
  kernel_heap_initialized : bool
}.
Definition set_avmm (v : vmm_state) (st : alloc_state) : alloc_state := mk_alloc v (kernel_heap_initialized st).
Definition in_vmm {A} (m : M vmm_state A) : M alloc_state A := zoom avmm set_avmm m.
#[global] Instance alloc_console : Console alloc_state := fun msg st => set_avmm (emit msg (avmm st)) st.

(** Fields of [allocator_data]: a pointer, a byte (the low byte of its word)
    and a [size_t]. *)
Definition ad_free_list (d : Z) : Z := d.
Definition ad_is_kernel (d : Z) : Z := d + 8.
Definition ad_heap_size (d : Z) : Z := d + 16.

Definition load_bool (a : Z) : M vmm_state bool :=
  let* w := ld64 a in ret (negb (Z.land w 255 =? 0)).
Definition store_bool (a : Z) (b : bool) : M vmm_state unit :=
  let* w := ld64 a in st64 a (Z.lor (Z.land w (Z.lnot 255)) (Z.b2z b)).

(** ** Operations *)

Definition allocator_heap_init (heap_size : Z) (is_kernel : bool) : M alloc_state bool :=
  let* init := gets kernel_heap_initialized in
  if negb init && negb is_kernel then panic "Tried to init a non kernel heap before kernel heap initialized" else
  if init && is_kernel then panic "Tried to re-init kernel heap" else
  let* success := in_vmm (vmm_alloc data (data + PAGE_SIZE - 1) VMM_FLAGS_KERNEL_RW) in
  if negb success then screen_print "[allocator] failed to map allocator data page\n" ;;; ret false else
  screen_print "[allocator] mapped allocator data page\n" ;;;
  let* success :=
    (if is_kernel then
       let* s := in_vmm (vmm_alloc kernel_data (kernel_data + PAGE_SIZE - 1) VMM_FLAGS_KERNEL_RW) in
       (if negb s then screen_print "[allocator] failed to map kernel allocator data page\n"
        else screen_print "[allocator] mapped kernel allocator data page\n") ;;; ret s
     else ret true) in
  if negb success then ret false else
  let start := if is_kernel then HEAP_START_KERNEL else HEAP_START in
  let end_ := u64 (start + heap_size - 1) in
  let* success := in_vmm (vmm_alloc start end_ (if is_kernel then VMM_FLAGS_KERNEL_RW else VMM_FLAGS_USER_RW)) in
  if negb success then
    in_vmm (vmm_unmap_page data) ;;;
    (if is_kernel then in_vmm (vmm_unmap_page kernel_data) else ret true) ;;;
    screen_print "[allocator] failed to map heap pages\n" ;;; ret false
  else
  screen_print "[allocator] mapped heap pages\n" ;;;
  in_vmm (if is_kernel then
    store_bool (ad_is_kernel data) true ;;;
    st64 (ad_free_list data) 0 ;;;
    st64 (ad_heap_size data) 0 ;;;
    store_bool (ad_is_kernel kernel_data) true ;;;
    st64 (ad_free_list kernel_data) HEAP_START_KERNEL ;;;
    (let* b := ld64 (ad_free_list kernel_data) in set_blk_size b heap_size) ;;;
    (let* b := ld64 (ad_free_list kernel_data) in set_blk_next b 0) ;;;
    st64 (ad_heap_size kernel_data) heap_size
  else
    store_bool (ad_is_kernel data) false ;;;
    st64 (ad_free_list data) HEAP_START ;;;
    (let* b := ld64 (ad_free_list data) in set_blk_size b heap_size) ;;;
    (let* b := ld64 (ad_free_list data) in set_blk_next b 0) ;;;
    st64 (ad_heap_size data) heap_size) ;;;
  modify (fun st => mk_alloc (avmm st) true) ;;;
  screen_print "[allocator] allocator heap init\n" ;;;
  ret true.

(** The guard every entry point starts with. *)
Definition require_init {A} (msg : string) (m : M alloc_state A) : M alloc_state A :=
  let* init := gets kernel_heap_initialized in
  if negb init then panic msg else m.

Definition allocator_unmap_heap : M alloc_state unit :=
  require_init "Tried to unmap heap before kernel heap initialized" (
  let* k := in_vmm (load_bool (ad_is_kernel data)) in
  if k then panic "Tried to unmap kernel heap"
  else
    let* hs := in_vmm (ld64 (ad_heap_size data)) in
    in_vmm (vmm_free data (u64 (HEAP_START + hs - 1)))).

(** [data->is_kernel] selects the list of the kernel or of the process. *)
Definition current_data : M vmm_state Z :=
  let* k := load_bool (ad_is_kernel data) in ret (if k then kernel_data else data).

Definition malloc (fuel : nat) (size : Z) : M alloc_state Z :=
  require_init "Tried to malloc before kernel heap initialized" (in_vmm (
    let* d := current_data in malloc_internal fuel (ad_free_list d) size)).
Definition malloc_kernel (fuel : nat) (size : Z) : M alloc_state Z :=
  require_init "Tried to malloc before kernel heap initialized" (
    in_vmm (malloc_internal fuel (ad_free_list kernel_data) size)).
Definition free (fuel : nat) (ptr : Z) : M alloc_state unit :=
  require_init "Tried to free before kernel heap initialized" (in_vmm (
    let* d := current_data in free_internal fuel (ad_free_list d) ptr)).
Definition free_kernel (fuel : nat) (ptr : Z) : M alloc_state unit :=
  require_init "Tried to free before kernel heap initialized" (
    in_vmm (free_internal fuel (ad_free_list kernel_data) ptr)).

(** ** Virtual memory as a word memory *)

(** The words of [h] are mapped, in pages no table shares. *)
Definition mrepr (own : Z -> bool) (st : vmm_state) (h : gmap Z Z) : Prop :=
  vmm_ok own st /\ cr3 st = root st /\
  forall a v, h !! a = Some v ->
    canonical a = true /\ a mod 8 = 0 /\ own (PML4_INDEX a) = true /\
    exists t, nd st (vpath a) = Some t /\ rd64 (ram (pmm st)) (t + a mod 4096) = v.

(** Memory [m'] differs inside the page of [a] only. *)
Section Page.
Context (own : Z -> bool) (st : vmm_state) (Hok : vmm_ok own st).
Context (a t : Z) (Hown : own (PML4_INDEX a) = true) (Ht : nd st (vpath a) = Some t).
Context (m' : mem) (Hout : forall x, x < t \/ t + 4096 <= x -> rd8 m' x = rd8 (ram (pmm st)) x).
Let st' := upd_ram (fun _ => m') st.

Lemma page_path : path_ok own (vpath a).
Proof using Hown. by apply (path_ok_vpath own a 4). Qed.
Lemma page_frame : t mod 4096 = 0.
Proof using Hok Hown Ht. by destruct (vok_nodes _ _ Hok _ _ page_path Ht) as (? & _). Qed.

(** Bytes of other pages, and the bitmap, are untouched. *)
Lemma page_out n x : x + Z.of_nat n <= t \/ t + 4096 <= x -> rdn n m' x = rdn n (ram (pmm st)) x.
Proof using Hout. intros Hx. apply rdn_ext. intros y Hy. apply Hout. lia. Qed.

Lemma page_nodes q : path_ok own q -> nd st' q = nd st q.
Proof using All.
  intros Hq. unfold nd. change (root st') with (root st). apply (node_ext_ok own); [|done].
  intros q' u j Hq' Hu. destruct (path_ok_snoc _ _ _ Hq') as (Hq0 & Hj & Hl). unfold child, ent.
  destruct (vok_nodes _ _ Hok q' u Hq0 Hu) as (Hu4 & _). pose proof page_frame as Ht4.
  assert (u <> t) as Hne.
  { intros ->. pose proof (vok_inj _ _ Hok q' (vpath a) t Hq0 page_path Hu Ht) as ->. cbn in Hl. lia. }
  change (ram (pmm st')) with m'. rewrite page_out; [done|]. clear st'. divlia.
Qed.

Lemma page_vmm_ok : vmm_ok own st'.
Proof using All.
  pose proof Hok as [Henv Hbm Hnodes Hinj]. destruct (Hnodes _ _ page_path Ht) as (N1 & N2 & N3 & N4).
  assert (same_env st st') as Hse by by repeat split.
  assert (forall g, 0 <= g < total_frames (pmm st) -> frame_used (pmm st') g = frame_used (pmm st) g) as Hu.
  { intros g Hg. apply frame_used_ext; [apply Henv|done| |done]. intros x Hx. apply Hout. lia. }
  constructor.
  - by eapply same_env_venv.
  - intros x Hx. change (total_frames (pmm st')) with (total_frames (pmm st)). destruct (Hbm x Hx). split; [done|].
    by rewrite Hu.
  - intros q u Hq Hqu. rewrite page_nodes in Hqu by done. destruct (Hnodes q u Hq Hqu) as (M1 & M2 & M3 & M4).
    split_and!; try done; try apply M2. by rewrite Hu.
  - intros q q' u Hq Hq' H1 H2. rewrite page_nodes in H1, H2 by done. by apply (Hinj q q' u).
Qed.

(** Two addresses of one page differ in their offsets. *)
Lemma page_offset b u : canonical a = true -> canonical b = true -> own (PML4_INDEX b) = true -> nd st (vpath b) = Some u -> b <> a ->
  u = t -> b mod 4096 <> a mod 4096.
Proof using Hok Hown Ht.
  intros Hca Hcb Hob Hu Hne ->. pose proof (path_ok_vpath own b 4 Hob : path_ok own (vpath b)) as Hpb.
  pose proof (vok_inj _ _ Hok _ _ _ Hpb page_path Hu Ht) as E%vpath_inj. unfold canonical in *. intros E2. apply Hne.
  apply orb_true_iff in Hca, Hcb. rewrite !andb_true_iff, !Z.leb_le, !Z.ltb_lt in Hca, Hcb.
  clear -Hca Hcb E E2. divlia.
Qed.
End Page.

Section Store.
Context (own : Z -> bool) (st : vmm_state) (Hok : vmm_ok own st).
Context (a t v : Z) (Ha8 : a mod 8 = 0) (Hown : own (PML4_INDEX a) = true) (Ht : nd st (vpath a) = Some t).
Let st' := upd_ram (fun m => wr64 m (t + a mod 4096) v) st.

Lemma store_path : path_ok own (vpath a).
Proof using Hown. by apply page_path. Qed.
Lemma store_frame : t mod 4096 = 0 /\ 0 <= a mod 4096 <= 4088.
Proof using All. split; [by apply (page_frame own st Hok a)|clear st'; divlia]. Qed.
Lemma store_bytes x : x < t \/ t + 4096 <= x -> rd8 (ram (pmm st')) x = rd8 (ram (pmm st)) x.
Proof using All. destruct store_frame. intros Hx. subst st'. cbn. apply rd8_wrn_out. lia. Qed.
Lemma store_nodes q : path_ok own q -> nd st' q = nd st q.
Proof using All. apply (page_nodes own st Hok a t Hown Ht _ store_bytes). Qed.
Lemma store_vmm_ok : vmm_ok own st'.
Proof using All. apply (page_vmm_ok own st Hok a t Hown Ht _ store_bytes). Qed.

(** Another word keeps its value; the word itself holds [v]. *)
Lemma store_word b u : b mod 8 = 0 -> canonical a = true -> canonical b = true ->
  own (PML4_INDEX b) = true -> nd st (vpath b) = Some u -> b <> a ->
  rd64 (ram (pmm st')) (u + b mod 4096) = rd64 (ram (pmm st)) (u + b mod 4096).
Proof using All.
  intros Hb8 Hca Hcb Hob Hu Hne. destruct store_frame as [Ht4 Ha].
  pose proof (path_ok_vpath own b 4 Hob : path_ok own (vpath b)) as Hpb.
  destruct (vok_nodes _ _ Hok _ _ Hpb Hu) as (Hu4 & _). destruct (decide (u = t)) as [->|Hut].
  - pose proof (page_offset own st Hok a t Hown Ht b t Hca Hcb Hob Hu Hne eq_refl) as Hoff.
    subst st'. cbn. apply rdn_wrn_out. clear -Ha8 Hb8 Hoff. divlia.
  - apply (page_out st t _ store_bytes). clear st'. divlia.
Qed.
End Store.

Lemma mmu_phys_eq own st a t : vmm_ok own st -> cr3 st = root st -> canonical a = true ->
  nd st (vpath a) = Some t -> mmu_phys st a = Some (t + a mod 4096).
Proof. intros Hok Hc Hca Ht. unfold mmu_phys, nd in *. rewrite Hca, Hc, Ht. done. Qed.

#[global, program] Instance mmu_mem (own : Z -> bool) : WordMem vmm_state := { wrepr := mrepr own }.
Next Obligation.
  intros own st h a v (Hok & Hc & Hh) Ha. destruct (Hh a v Ha) as (Hca & H8 & _ & t & Ht & Hv).
  cbn. unfold vload64. rewrite (mmu_phys_eq own st a t), H8 by done. cbn. by rewrite Hv.
Qed.
Next Obligation.
  intros own st h a v (Hok & Hc & Hh) [w Ha] Hv. destruct (Hh a w Ha) as (Hca & H8 & Ho & t & Ht & Hw).
  cbn. unfold vstore64. rewrite (mmu_phys_eq own st a t), H8 by done. cbn.
  eexists. split; [done|]. split_and!; [by apply (store_vmm_ok own)|done|].
  intros b u [[<- <-]|[Hne Hb]]%lookup_insert_Some.
  - split_and!; [done..|]. exists t. split; [by rewrite (store_nodes own _ Hok _ _ v H8 Ho Ht) by by apply (store_path own)|].
    cbn. rewrite rdn_wrn_eq. by apply Z.mod_small.
  - destruct (Hh b u Hb) as (Hcb & Hb8 & Hob & tb & Htb & Hu). split_and!; [done..|]. exists tb.
    split; [by rewrite (store_nodes own _ Hok _ _ v H8 Ho Ht) by by apply (store_path own)|].
    rewrite <- Hu. by apply (store_word own).
Qed.
