(* ===== verification/AllocInit.v ===== *)
(** * Setting up and using the heaps (src/memory/allocator.c)

    [allocator_heap_init] composed with the VMM and the PMM: from page tables
    that leave the heap's addresses unmapped it builds a well-formed heap, on
    which the entry points [malloc] and [free] behave as [Heap] specifies. *)
From S2P Require Import Prelude Mem Pmm Vmm VmmTree VmmSpec VmmThms VmmAlloc Heap Allocator.

(** ** The VMM's operations on pages leave [cr3] alone *)

Definition keeps {A} (m : M vmm_state A) : Prop := forall s a s', m s = OK (a, s') -> cr3 s' = cr3 s.

Lemma keeps_ret {A} (a : A) : keeps (ret a).
Proof. by intros s a' s' [= _ <-]. Qed.
Lemma keeps_gets {A} (f : vmm_state -> A) : keeps (gets f).
Proof. by intros s a' s' [= _ <-]. Qed.
Lemma keeps_in_pmm {A} (m : M pmm_state A) : keeps (in_pmm m).
Proof. intros s a s' (t & _ & ->)%zoom_OK. done. Qed.
Lemma keeps_bind {A B} (m : M vmm_state A) (k : A -> M vmm_state B) :
  keeps m -> (forall a, keeps (k a)) -> keeps (bind m k).
Proof. intros H1 H2 s b s' (a & s1 & E1 & E2)%bind_OK. rewrite (H2 _ _ _ _ E2). by apply (H1 s a). Qed.
Lemma keeps_for n i body : (forall j, keeps (body j)) -> keeps (for_loop n i body).
Proof. intros Hb. revert i. induction n; intros i; [apply keeps_ret|]. by apply keeps_bind. Qed.

#[local] Hint Resolve keeps_ret keeps_gets keeps_in_pmm : eos.
Ltac keeps_tac :=
  repeat match goal with
  | |- keeps (bind _ _) => apply keeps_bind; [|intros ?]
  | |- keeps (if ?b then _ else _) => destruct b
  | |- keeps (match ?x with _ => _ end) => destruct x
  | |- keeps (load_entry _ _) => apply keeps_in_pmm
  | |- keeps (store_entry _ _ _) => apply keeps_in_pmm
  | |- keeps _ => progress auto with eos
  end.

Lemma keeps_ensure_table t i : keeps (ensure_table t i).
Proof. unfold ensure_table, entry_ptr. keeps_tac. Qed.
Lemma keeps_map_page v p f : keeps (vmm_map_page v p f).
Proof. unfold vmm_map_page, map_leaf. keeps_tac; apply keeps_ensure_table. Qed.
Lemma keeps_unmap_page v : keeps (vmm_unmap_page v).
Proof. unfold vmm_unmap_page, walk, entry_ptr. keeps_tac. Qed.
Lemma keeps_vmm_alloc s e f : keeps (vmm_alloc s e f).
Proof.
  unfold vmm_alloc. apply keeps_bind.
  - generalize 0. induction (Z.to_nat _) as [|n IH]; intros i; cbn [alloc_loop]; [apply keeps_ret|].
    keeps_tac; auto using keeps_map_page.
  - intros a. destruct (_ <? _); [|apply keeps_ret]. apply keeps_bind; [|auto with eos]. apply keeps_for.
    intros j. apply keeps_bind; [apply keeps_unmap_page|auto with eos].
Qed.

(** ** Mapping a region *)

(** The pages of [start, start + len). *)
Definition region_pages (len : Z) : Z := (len + 4095) / 4096.

Record mapping_env (own : Z -> bool) (k : nat) (st : vmm_state) : Prop := {
  me_ok : vmm_ok own st;
  me_cr3 : cr3 st = root st;
  me_frame0 : frame_used (pmm st) 0 = true;
  me_free : free_frames (pmm st) k
}.

Lemma free_frames_pos st n : (0 < n)%nat -> free_frames st n -> 0 < total_frames st.
Proof. intros Hn ([|g l] & _ & Hl & Hall); [cbn in Hl; lia|]. apply Forall_inv in Hall. lia. Qed.

Lemma map_region own st start len flags k :
  let n := region_pages len in
  mapping_env own (4 * Z.to_nat n + k) st -> in_range 64 flags -> pe_present flags = true ->
  0 <= start -> start mod 4096 = 0 -> 0 < len -> n <= 2 ^ 36 -> start + n * 4096 <= 2 ^ 64 ->
  (forall a, start <= a < start + n * 4096 -> own (PML4_INDEX a) = true /\ tr st a = None) ->
  exists st', vmm_alloc start (start + len - 1) flags st = OK (true, st') /\ mapping_env own k st' /\
    (forall v, own (PML4_INDEX v) = true ->
       (forall a, start <= a < start + n * 4096 -> vpath v <> vpath a) -> tr st' v = tr st v) /\
    (forall a, start <= a < start + n * 4096 -> is_Some (tr st' a)).
Proof.
  intros n [Hok Hc H0 Hfree] Hfl Hpres Hs Hs4 Hlen Hn36 Hend Hun.
  assert (page_amount start (start + len - 1) = n) as Eam.
  { unfold page_amount, PAGE_SIZE. rewrite wrap_id; [|unfold in_range]; subst n; unfold region_pages in *; divlia. }
  assert (0 < n) as Hn by (subst n; unfold region_pages; divlia).
  assert (forall j, 0 <= j < n -> page_at start j = start + j * 4096) as Epg.
  { intros j Hj. unfold page_at, PAGE_SIZE. apply wrap_id. unfold in_range. lia. }
  assert (forall j, 0 <= j < n -> own (PML4_INDEX (page_at start j)) = true) as Howned.
  { intros j Hj. rewrite Epg by lia. apply Hun. lia. }
  destruct (alloc_loop_new own start flags n Hfl Hpres Howned
    (fun j i => page_at_inj start n j i Hs Hend Hn36) (Z.to_nat n) 0 k st Hok H0 ltac:(lia) ltac:(lia) Hfree)
    with (rest := O) as (st' & [A1 A2 A3 A4 A5 A6] & R).
  { intros j Hj. rewrite Epg by lia. apply Hun. lia. }
  rewrite Nat.add_0_r in R. exists st'.
  assert (vmm_alloc start (start + len - 1) flags st = OK (true, st')) as Ra.
  { unfold vmm_alloc. rewrite Eam. unfold bind at 1. rewrite R. cbn [alloc_loop]. unfold ret at 1. cbn [obind].
    by rewrite Z.ltb_irrefl. }
  split; [done|]. split; [|split].
  - constructor; [done| | |done].
    + rewrite (keeps_vmm_alloc _ _ _ _ _ _ Ra), Hc. symmetry. by apply same_env_root.
    + apply A4; [|done]. pose proof (free_frames_pos (pmm st) (4 * Z.to_nat n + k) ltac:(lia) Hfree). lia.
  - intros v Hv Hnot. apply A5; [done|]. intros j Hj. rewrite Epg by lia. apply Hnot. lia.
  - intros a Ha. assert (vpath a = vpath (page_at start ((a - start) / 4096))) as E.
    { rewrite Epg by divlia. apply vpath_inj. f_equal. divlia. }
    rewrite (tr_vpath _ _ _ E). destruct (A6 ((a - start) / 4096)) as (f & -> & _); [divlia|]. by eexists.
Qed.

(** The log does not concern memory. *)
Lemma emit_vmm_ok own msg st : vmm_ok own st -> vmm_ok own (emit msg st).
Proof. intros [[[] ? ? ?] Hb Hn Hi]. constructor; [constructor; [constructor|..]|..]; assumption. Qed.
Lemma emit_env own k msg st : mapping_env own k st -> mapping_env own k (emit msg st).
Proof. intros [Hok ? ? ?]. constructor; [by apply emit_vmm_ok|assumption..]. Qed.
Lemma emit_mrepr own msg st h : mrepr own st h -> mrepr own (emit msg st) h.
Proof. intros (Hok & Hc & Hh). split; [by apply emit_vmm_ok|]. by split. Qed.

(** ** The words of mapped pages *)

Definition word (st : vmm_state) (a : Z) : Z :=
  match mmu_phys st a with Some p => rd64 (ram (pmm st)) p | None => 0 end.
Definition words (st : vmm_state) (X : gset Z) : gmap Z Z :=
  map_imap (fun a _ => Some (word st a)) (gset_to_gmap tt X).

Lemma words_lookup st X a v : words st X !! a = Some v <-> a ∈ X /\ v = word st a.
Proof.
  unfold words. rewrite map_lookup_imap. destruct (gset_to_gmap tt X !! a) eqn:E; cbn.
  - apply lookup_gset_to_gmap_Some in E as [? _]. naive_solver.
  - apply lookup_gset_to_gmap_None in E. naive_solver.
Qed.

Lemma words_repr own k st X : mapping_env own k st ->
  (forall a, a ∈ X -> canonical a = true /\ a mod 8 = 0 /\ own (PML4_INDEX a) = true /\ is_Some (tr st a)) ->
  mrepr own st (words st X).
Proof.
  intros [Hok Hc _ _] HX. split; [done|]. split; [done|].
  intros a v [Ha ->]%words_lookup. destruct (HX a Ha) as (Hca & H8 & Ho & e & He). split_and!; [done..|].
  exists (pe_physical_addr e * 4096).
  assert (nd st (vpath a) = Some (pe_physical_addr e * 4096)) as Hn by (rewrite tr_node, He; done).
  split; [done|]. unfold word. by rewrite (mmu_phys_eq own st a _ Hok Hc Hca Hn).
Qed.

(** The aligned addresses of a range. *)
Definition range_addrs (lo len : Z) : gset Z := list_to_set ((fun k => lo + 8 * k) <$> seqZ 0 (len / 8)).
Lemma elem_of_range_addrs lo len a : 0 <= len -> (8 | len) ->
  a ∈ range_addrs lo len <-> lo <= a < lo + len /\ (8 | a - lo).
Proof.
  intros Hl [n ->]. unfold range_addrs. rewrite elem_of_list_to_set, list_elem_of_fmap, Z.div_mul by lia. split.
  - intros (k & -> & Hk%elem_of_seqZ). split; [lia|]. exists k. lia.
  - intros [Ha [k Hk]]. exists k. split; [lia|]. apply elem_of_seqZ. lia.
Qed.

(** ** allocator_heap_init *)

(** The stores that set up the list of a heap of [size] bytes at [lo] with its
    [allocator_data] at [d]. *)
Definition init_list (d lo size : Z) (flag : bool) (h : gmap Z Z) (w : Z) : gmap Z Z :=
  <[d + 16 := size]> (<[lo + 8 := 0]> (<[lo := size]> (<[d := lo]>
    (<[d + 8 := Z.lor (Z.land w (Z.lnot 255)) (Z.b2z flag)]> h)))).

Lemma init_list_heap_ok h d lo size flag w : 0 < lo -> (8 | lo) -> lo + size < 2 ^ 64 -> 24 <= size -> (8 | size) ->
  d + 24 <= lo -> (forall a, lo <= a < lo + size -> (8 | a) -> is_Some (h !! a)) ->
  heap_ok (init_list d lo size flag h w) d lo [Free size].
Proof.
  intros Hlo H8 Hhi Hs Hs8 Hd Hdom. unfold init_list. split; [constructor|by repeat split].
  - done.
  - cbn. lia.
  - apply Forall_cons_2; [by apply tile_ok_intro|done].
  - left. lia.
  - intros a Ha Ha8. repeat apply insert_dom. apply Hdom; [|done]. cbn in Ha. lia.
  - cbn. split; [|done]. by lookup_ins.
  - cbn. split; by lookup_ins.
Qed.

Lemma bool_word w b : 0 <= w < 2 ^ 64 -> in_range 64 (Z.lor (Z.land w (Z.lnot 255)) (Z.b2z b)) /\
  Z.land (Z.lor (Z.land w (Z.lnot 255)) (Z.b2z b)) 255 = Z.b2z b.
Proof.
  intros Hw. split.
  - apply bits_range; [lia|]. intros k Hk. rewrite Z.lor_spec, Z.land_spec.
    rewrite (range_bits 64 w) by (done || lia). destruct b; cbn [Z.b2z]; [|by rewrite Z.testbit_0_l].
    rewrite testbit_one. apply Z.eqb_neq. lia.
  - rewrite Z.land_lor_distr_l, <- Z.land_assoc. replace (Z.land (Z.lnot 255) 255) with 0 by done.
    rewrite Z.land_0_r. by destruct b.
Qed.

Lemma wp_store_bool own (Q : unit -> vmm_state -> Prop) s h a w b : wrepr (WordMem := mmu_mem own) s h ->
  h !! a = Some w -> 0 <= w < 2 ^ 64 ->
  (forall s', wrepr (WordMem := mmu_mem own) s' (<[a := Z.lor (Z.land w (Z.lnot 255)) (Z.b2z b)]> h) -> Q tt s') ->
  wp (store_bool a b) Q s.
Proof.
  intros Hr Ha Hw HQ. apply wp_bind, (wp_ld64 _ _ _ _ _ Hr Ha).
  apply (wp_st64 _ _ _ _ _ Hr); [by eexists|by apply bool_word|done].
Qed.

Lemma mrepr_range own st h a v : mrepr own st h -> h !! a = Some v -> 0 <= v < 2 ^ 64.
Proof. intros (_ & _ & Hh) Ha. destruct (Hh a v Ha) as (_ & _ & _ & t & _ & <-). apply (rdn_range 8). Qed.

Lemma wp_init_list own (Q : unit -> vmm_state -> Prop) s h d lo size flag w :
  wrepr (WordMem := mmu_mem own) s h -> h !! (d + 8) = Some w ->
  is_Some (h !! d) -> is_Some (h !! (d + 16)) -> is_Some (h !! lo) -> is_Some (h !! (lo + 8)) ->
  d + 24 <= lo -> in_range 64 lo -> in_range 64 size ->
  (forall s', wrepr (WordMem := mmu_mem own) s' (init_list d lo size flag h w) -> Q tt s') ->
  wp (store_bool (ad_is_kernel d) flag ;;;
      st64 (ad_free_list d) lo ;;;
      (let* b := ld64 (ad_free_list d) in set_blk_size b size) ;;;
      (let* b := ld64 (ad_free_list d) in set_blk_next b 0) ;;;
      st64 (ad_heap_size d) size) Q s.
Proof.
  intros Hr Hw D0 D2 L0 L1 Hd Hlo Hsz HQ. unfold ad_is_kernel, ad_free_list, ad_heap_size.
  apply wp_bind, (wp_store_bool own _ _ _ _ w _ Hr Hw); [exact (mrepr_range own s h _ _ Hr Hw)|]. intros s1 R1.
  apply wp_bind, (wp_st64 _ _ _ _ _ R1); [by apply insert_dom|done|]. intros s2 R2.
  apply wp_bind, wp_bind, (wp_ld64 _ _ _ _ lo R2); [by lookup_ins|].
  apply (wp_st64 _ _ _ _ _ R2); [by repeat apply insert_dom|done|]. intros s3 R3.
  apply wp_bind, wp_bind, (wp_ld64 _ _ _ _ lo R3); [by lookup_ins|].
  apply (wp_st64 _ _ _ _ _ R3); [by repeat apply insert_dom|done|]. intros s4 R4.
  apply (wp_st64 _ _ _ _ _ R4); [by repeat apply insert_dom|done|]. done.
Qed.

(** A page-aligned region of [n] pages that the tables own and leave unmapped. *)
Definition region_free (own : Z -> bool) (st : vmm_state) (lo n : Z) : Prop :=
  forall a, lo <= a < lo + n * 4096 -> own (PML4_INDEX a) = true /\ tr st a = None.

(** Mapping a region as a step of the allocator. *)
Lemma wp_map_region own k (Q : bool -> alloc_state -> Prop) st start len flags :
  let n := region_pages len in
  mapping_env own (4 * Z.to_nat n + k) (avmm st) -> in_range 64 flags -> pe_present flags = true ->
  0 <= start -> start mod 4096 = 0 -> 0 < len -> n <= 2 ^ 36 -> start + n * 4096 <= 2 ^ 64 ->
  region_free own (avmm st) start n ->
  (forall v, mapping_env own k v ->
    (forall a, own (PML4_INDEX a) = true -> (forall b, start <= b < start + n * 4096 -> vpath a <> vpath b) ->
       tr v a = tr (avmm st) a) ->
    (forall a, start <= a < start + n * 4096 -> is_Some (tr v a)) -> Q true (set_avmm v st)) ->
  wp (in_vmm (vmm_alloc start (start + len - 1) flags)) Q st.
Proof.
  intros n Henv Hfl Hp Hs H4 Hl H36 Hend Hfree HQ.
  destruct (map_region own (avmm st) start len flags k Henv Hfl Hp Hs H4 Hl H36 Hend Hfree) as (v & R & Henv' & T & T').
  apply wp_zoom. eapply wp_step; [exact R|]. by apply HQ.
Qed.

(** Canonical addresses in different pages have different paths. *)
Lemma vpath_page a b : canonical a = true -> canonical b = true -> vpath a = vpath b -> a / 4096 = b / 4096.
Proof.
  unfold canonical. intros Ha Hb E%vpath_inj. apply orb_true_iff in Ha, Hb.
  rewrite !andb_true_iff, !Z.leb_le, !Z.ltb_lt in Ha, Hb. divlia.
Qed.

(** A region stays free, or mapped, while another one is mapped. *)
Definition can_region (lo n : Z) : Prop := forall a, lo <= a < lo + n * 4096 -> canonical a = true.

Lemma region_ne lo n lo' n' a b : lo mod 4096 = 0 -> lo' mod 4096 = 0 -> can_region lo n -> can_region lo' n' ->
  lo + n * 4096 <= lo' \/ lo' + n' * 4096 <= lo ->
  lo <= a < lo + n * 4096 -> lo' <= b < lo' + n' * 4096 -> vpath a <> vpath b.
Proof.
  intros H4 H4' Hc Hc' Hd Ha Hb E. apply vpath_page in E; [|by apply Hc|by apply Hc']. clear Hc Hc'. divlia.
Qed.

Lemma data_regions : can_region data 1 /\ can_region kernel_data 1 /\
  data mod 4096 = 0 /\ kernel_data mod 4096 = 0 /\ HEAP_START mod 4096 = 0 /\ HEAP_START_KERNEL mod 4096 = 0.
Proof.
  split_and!; try done; intros a; unfold data, kernel_data, HEAP_START, HEAP_START_KERNEL, PAGE_SIZE, canonical;
    intros Ha; apply orb_true_iff; rewrite !andb_true_iff, !Z.leb_le, !Z.ltb_lt; lia.
Qed.

Lemma can_kernel_heap n : HEAP_START_KERNEL + n * 4096 <= 2 ^ 64 -> can_region HEAP_START_KERNEL n.
Proof.
  unfold can_region, HEAP_START_KERNEL, canonical. intros Hn a Ha.
  apply orb_true_iff; rewrite !andb_true_iff, !Z.leb_le, !Z.ltb_lt; lia.
Qed.
Lemma can_user_heap n : HEAP_START + n * 4096 <= 2 ^ 47 -> can_region HEAP_START n.
Proof.
  unfold can_region, HEAP_START, canonical. intros Hn a Ha.
  apply orb_true_iff; rewrite !andb_true_iff, !Z.leb_le, !Z.ltb_lt; lia.
Qed.

(** The words of mapped regions: those of the data pages' fields and the heap's. *)
Lemma mapped_words own k st (ds : list Z) lo size : mapping_env own k st ->
  0 <= size -> (8 | size) -> (8 | lo) -> lo mod 4096 = 0 ->
  can_region lo (region_pages size) ->
  (forall a, lo <= a < lo + region_pages size * 4096 -> own (PML4_INDEX a) = true /\ is_Some (tr st a)) ->
  (forall d, d ∈ ds -> d mod 4096 = 0 /\ can_region d 1 /\
     forall a, d <= a < d + 1 * 4096 -> own (PML4_INDEX a) = true /\ is_Some (tr st a)) ->
  exists h, mrepr own st h /\ (forall a, lo <= a < lo + size -> (8 | a) -> is_Some (h !! a)) /\
    (forall d, d ∈ ds -> is_Some (h !! d) /\ is_Some (h !! (d + 8)) /\ is_Some (h !! (d + 16))).
Proof.
  intros Henv Hs Hs8 Hlo8 Hlo4 Hcan Hheap Hds.
  set (X := range_addrs lo size ∪ list_to_set (ds ≫= fun d => [d; d + 8; d + 16]) : gset Z).
  exists (words st X). split; [|split].
  - apply (words_repr own k); [done|]. intros a [Ha|Ha]%elem_of_union.
    + apply elem_of_range_addrs in Ha as [Ha [j Hj]]; [|done|done].
      assert (lo <= a < lo + region_pages size * 4096) as Hr by (unfold region_pages; divlia).
      destruct (Hheap a Hr). split_and!; [by apply Hcan| |done|done]. destruct Hlo8 as [i Hi]. divlia.
    + apply elem_of_list_to_set, list_elem_of_bind in Ha as (d & Ha & Hd). destruct (Hds d Hd) as (H4 & Hcd & Hm).
      assert (d <= a < d + 1 * 4096 /\ a mod 8 = 0) as [Hr H8].
      { rewrite !elem_of_cons, elem_of_nil in Ha. destruct Ha as [->|[->|[->|[]]]]; divlia. }
      destruct (Hm a Hr). split_and!; [by apply Hcd|done|done|done].
  - intros a Ha H8. exists (word st a). apply words_lookup. split; [|done]. apply elem_of_union_l.
    apply elem_of_range_addrs; [done|done|]. split; [done|]. by apply Z.divide_sub_r.
  - intros d Hd. split_and!; eexists; apply words_lookup; (split; [|done]); apply elem_of_union_r, elem_of_list_to_set,
      list_elem_of_bind; exists d; (split; [|done]); rewrite !elem_of_cons; tauto.
Qed.

Lemma flags_ok (b : bool) : in_range 64 (if b then VMM_FLAGS_KERNEL_RW else VMM_FLAGS_USER_RW) /\
  pe_present (if b then VMM_FLAGS_KERNEL_RW else VMM_FLAGS_USER_RW) = true.
Proof. by destruct b; vm_compute. Qed.

Lemma wp_print (Q : unit -> alloc_state -> Prop) msg st : Q tt (emit msg st) -> wp (screen_print msg) Q st.
Proof. done. Qed.

Lemma region_pages_page : region_pages PAGE_SIZE = 1.
Proof. done. Qed.

Lemma heap_init_kernel own st size : let n := region_pages size in
  kernel_heap_initialized st = false -> mapping_env own (8 + 4 * Z.to_nat n) (avmm st) ->
  24 <= size -> (8 | size) -> HEAP_START_KERNEL + n * 4096 < 2 ^ 64 ->
  region_free own (avmm st) data 1 -> region_free own (avmm st) kernel_data 1 ->
  region_free own (avmm st) HEAP_START_KERNEL n ->
  wp (allocator_heap_init size true) (fun b st' => b = true /\ kernel_heap_initialized st' = true /\
    exists h w, mrepr own (avmm st') h /\ heap_ok h kernel_data HEAP_START_KERNEL [Free size] /\
      h !! ad_is_kernel data = Some w /\ Z.land w 255 = 1) st.
Proof.
  intros n Hi Henv Hs Hs8 Hend F1 F2 F3. destruct data_regions as (C1 & C2 & M1 & M2 & _ & M3).
  assert (size <= n * 4096) by (subst n; unfold region_pages; divlia).
  pose proof (can_kernel_heap n ltac:(lia)) as C3. destruct (flags_ok true) as [Hfl Hpr].
  assert (n <= 2 ^ 36) as H36 by (unfold HEAP_START_KERNEL in Hend; lia).
  assert (kernel_data + 4096 = HEAP_START_KERNEL) as Ek by done.
  assert (data + 4096 = HEAP_START) as Ed by done.
  assert (HEAP_START < kernel_data) as Hdk by done.
  assert (forall lo a, data + 4096 <= lo -> lo <= a -> a < data + 4096 -> False) as Hlt by lia.
  unfold allocator_heap_init. apply wp_bind, wp_gets. rewrite Hi. cbn [negb andb].
  apply wp_bind, (wp_map_region own (4 + 4 * Z.to_nat n) _ _ data PAGE_SIZE); rewrite ?region_pages_page;
    [by replace (4 * Z.to_nat 1 + (4 + 4 * Z.to_nat n))%nat with (8 + 4 * Z.to_nat n)%nat by lia|done..|].
  intros v1 Env1 T1 T1'. cbn [negb]. apply wp_bind, wp_print, wp_bind, wp_bind.
  set (st1 := emit _ _).
  assert (mapping_env own (4 + 4 * Z.to_nat n) (avmm st1)) as Env1' by by apply emit_env.
  assert (forall lo m, lo mod 4096 = 0 -> can_region lo m -> HEAP_START <= lo ->
    region_free own (avmm st) lo m -> region_free own v1 lo m) as F1'.
  { intros lo m Hm Hc Hlo Hf a Ha. destruct (Hf a Ha) as [Ho Hn]. split; [done|]. rewrite T1; [done|done|].
    intros b. apply (region_ne lo m); try done. lia. }
  apply (wp_map_region own (4 * Z.to_nat n) _ st1 kernel_data PAGE_SIZE); rewrite ?region_pages_page;
    [done|done..|apply F1'; try done; lia|].
  intros v2 Env2 T2 T2'. cbn [negb]. apply wp_bind, wp_print, wp_ret. cbn [negb].
  set (st2 := emit _ _).
  rewrite (wrap_id 64 (HEAP_START_KERNEL + size - 1)) by (unfold in_range, HEAP_START_KERNEL in *; lia).
  apply wp_bind, (wp_map_region own 0 _ st2 HEAP_START_KERNEL size); try done; try lia.
  { rewrite Nat.add_0_r. by apply emit_env. }
  { intros a Ha. destruct (F1' HEAP_START_KERNEL n ltac:(done) C3 ltac:(lia) F3 a Ha) as [Ho Hn]. split; [done|].
    change (tr v2 a = None). rewrite T2; [done|done|]. intros b. apply (region_ne HEAP_START_KERNEL n); try done. lia. }
  intros v3 Env3 T3 T3'. cbn [negb]. apply wp_bind, wp_print. set (st3 := emit _ _).
  assert (forall d, d ∈ [data; kernel_data] -> d mod 4096 = 0 /\ can_region d 1 /\ forall a, d <= a < d + 1 * 4096 ->
    own (PML4_INDEX a) = true /\ is_Some (tr v3 a)) as Hds.
  { assert (forall d, d + 4096 <= HEAP_START_KERNEL -> d mod 4096 = 0 -> can_region d 1 ->
      (forall a, d <= a < d + 1 * 4096 -> own (PML4_INDEX a) = true /\ is_Some (tr v2 a)) ->
      forall a, d <= a < d + 1 * 4096 -> own (PML4_INDEX a) = true /\ is_Some (tr v3 a)) as Hkeep.
    { intros d Hd Hm Hc Hv a Ha. destruct (Hv a Ha) as [Ho Hv']. split; [done|].
      rewrite T3; [done|done|]. intros b. apply (region_ne d 1); try done. lia. }
    intros d [->|[->|[]%elem_of_nil]%elem_of_cons]%elem_of_cons.
    - split; [done|]. split; [done|]. apply Hkeep; [lia|done|done|]. intros a Ha. split; [by apply F1|].
      rewrite T2; [by apply T1'|by apply F1|]. intros b. apply (region_ne data 1); try done. lia.
    - split; [done|]. split; [done|]. apply Hkeep; [lia|done|done|]. intros a Ha. split; [by apply F2|by apply T2']. }
  destruct (mapped_words own 0 (avmm st3) [data; kernel_data] HEAP_START_KERNEL size) as (h & Hr & Hd1 & Hd2);
    [by apply emit_env|lia|done|by apply Z.mod_divide|done|done| |done|].
  { intros a Ha. split; [by apply F3|by apply T3']. }
  destruct (Hd2 data ltac:(left)) as (D0 & [w Dw] & D2). destruct (Hd2 kernel_data ltac:(right; left)) as (K0 & [wk Kw] & K2).
  clearbody st1 st2 st3. clear F1 F2 F3 F1' Hlt T1 T1' T2 T2' T3 T3' Hds Hd2.
  destruct (bool_word w true (mrepr_range own _ _ _ _ Hr Dw)) as [Hbw Ebw].
  apply wp_bind, wp_zoom.
  apply wp_bind, (wp_store_bool own _ _ h _ w _ Hr Dw (mrepr_range own _ _ _ _ Hr Dw)). intros s1 R1.
  apply wp_bind, (wp_st64 _ _ _ _ _ R1); [by apply insert_dom|done|]. intros s2 R2.
  apply wp_bind, (wp_st64 _ _ _ _ _ R2); [by repeat apply insert_dom|done|]. intros s3 R3.
  apply (wp_init_list own _ _ _ _ _ _ _ wk R3);
    [unfold ad_heap_size, ad_free_list, ad_is_kernel; by lookup_ins|by repeat apply insert_dom|by repeat apply insert_dom
    |repeat apply insert_dom; apply Hd1; [lia|by apply Z.mod_divide]
    |repeat apply insert_dom; apply Hd1; [lia|by apply Z.mod_divide]|lia|done|unfold in_range, HEAP_START_KERNEL in *; lia|].
  intros s4 R4. apply wp_bind, wp_modify, wp_bind, wp_print, wp_ret. split_and!; [done|done|].
  eexists _, _. split; [exact (emit_mrepr own _ s4 _ R4)|]. clear R4.
  split_and!; [apply init_list_heap_ok| |exact Ebw]; try done; try lia.
  - by apply Z.mod_divide.
  - intros a Ha Ha8. repeat apply insert_dom. by apply Hd1.
  - unfold init_list, ad_is_kernel, ad_free_list, ad_heap_size. by lookup_ins.
Qed.

Lemma heap_init_user own st size : let n := region_pages size in
  kernel_heap_initialized st = true -> mapping_env own (4 + 4 * Z.to_nat n) (avmm st) ->
  24 <= size -> (8 | size) -> HEAP_START + n * 4096 <= 2 ^ 47 ->
  region_free own (avmm st) data 1 -> region_free own (avmm st) HEAP_START n ->
  wp (allocator_heap_init size false) (fun b st' => b = true /\ kernel_heap_initialized st' = true /\
    exists h w, mrepr own (avmm st') h /\ heap_ok h data HEAP_START [Free size] /\
      h !! ad_is_kernel data = Some w /\ Z.land w 255 = 0) st.
Proof.
  intros n Hi Henv Hs Hs8 Hend F1 F3. destruct data_regions as (C1 & _ & M1 & _ & M3 & _).
  assert (size <= n * 4096) by (subst n; unfold region_pages; divlia).
  pose proof (can_user_heap n ltac:(lia)) as C3. destruct (flags_ok false) as [Hfl Hpr].
  assert (n <= 2 ^ 36) as H36 by (unfold HEAP_START in Hend; lia). assert (data + 4096 = HEAP_START) as Ed by done.
  unfold allocator_heap_init. apply wp_bind, wp_gets. rewrite Hi. cbn [negb andb].
  apply wp_bind, (wp_map_region own (4 * Z.to_nat n) _ _ data PAGE_SIZE); rewrite ?region_pages_page;
    [by replace (4 * Z.to_nat 1 + (4 * Z.to_nat n))%nat with (4 + 4 * Z.to_nat n)%nat by lia|done..|].
  intros v1 Env1 T1 T1'. cbn [negb]. apply wp_bind, wp_print, wp_bind, wp_ret. cbn [negb]. set (st2 := emit _ _).
  rewrite (wrap_id 64 (HEAP_START + size - 1)) by (unfold in_range, HEAP_START in *; lia).
  apply wp_bind, (wp_map_region own 0 _ st2 HEAP_START size); try done; try lia.
  { rewrite Nat.add_0_r. by apply emit_env. }
  { intros a Ha. destruct (F3 a Ha) as [Ho Hn]. split; [done|].
    change (tr v1 a = None). rewrite T1; [done|done|]. intros b. apply (region_ne HEAP_START n); try done. lia. }
  intros v3 Env3 T3 T3'. cbn [negb]. apply wp_bind, wp_print. set (st3 := emit _ _).
  destruct (mapped_words own 0 (avmm st3) [data] HEAP_START size) as (h & Hr & Hd1 & Hd2);
    [by apply emit_env|lia|done|by apply Z.mod_divide|done|done| | |].
  { intros a Ha. split; [by apply F3|by apply T3']. }
  { intros d [->|[]%elem_of_nil]%elem_of_cons. split_and!; [done|done|]. intros a Ha. split; [by apply F1|].
    change (is_Some (tr v3 a)). rewrite T3; [by apply T1'|by apply F1|]. intros b. apply (region_ne data 1); try done. lia. }
  destruct (Hd2 data ltac:(left)) as (D0 & [w Dw] & D2). clearbody st2 st3. clear F1 F3 T1 T1' T3 T3' Hd2.
  destruct (bool_word w false (mrepr_range own _ _ _ _ Hr Dw)) as [Hbw Ebw].
  apply wp_bind, wp_zoom, (wp_init_list own _ _ _ _ _ _ _ w Hr); try done; try lia;
    [apply Hd1; [lia|by apply Z.mod_divide]..|unfold in_range, HEAP_START in *; lia|].
  intros s4 R4. apply wp_bind, wp_modify, wp_bind, wp_print, wp_ret. split_and!; [done|done|].
  eexists _, _. split; [exact (emit_mrepr own _ s4 _ R4)|]. clear R4.
  split_and!; [apply init_list_heap_ok| |exact Ebw]; try done; try lia.
  - by apply Z.mod_divide.
  - unfold init_list, ad_is_kernel. by lookup_ins.
Qed.

(** ** Theorems *)


(** Which list [malloc] and [free] use. *)
Lemma wp_current_data own (Q : Z -> vmm_state -> Prop) s h w : mrepr own s h -> h !! ad_is_kernel data = Some w ->
  Q (if Z.land w 255 =? 0 then data else kernel_data) s -> wp current_data Q s.
Proof.
  intros Hr Hw HQ. apply wp_bind, wp_bind, (wp_ld64 (H0 := mmu_mem own) _ _ _ _ _ Hr Hw), wp_ret, wp_ret.
  by destruct (_ =? 0).
Qed.

(** C5: the entry point [malloc] after initialisation, through the page
    tables: it serves the request from the heap [data->is_kernel] selects,
    first fit, and returns null without any change when no block fits; the
    result is a block of at least [size] bytes, the heap stays well formed
    with the same page tables invariant, and no used block, allocator field or
    other mapped word outside the heap changes. *)
Theorem malloc_correct own st h w lo l size fuel :
  let d := if Z.land w 255 =? 0 then data else kernel_data in
  let req := ALIGN_UP (size + HDR) in
  kernel_heap_initialized st = true -> mrepr own (avmm st) h -> h !! ad_is_kernel data = Some w ->
  heap_ok h d lo l -> 0 < size <= 2 ^ 64 - 24 -> (length (frees lo l) < fuel)%nat ->
  wp (malloc fuel size) (fun p st' => kernel_heap_initialized st' = true /\
    match first_fit req lo l with
    | None => p = 0 /\ st' = st
    | Some (l1, b, sz, l2) =>
        p = b + HDR /\ l = l1 ++ Free sz :: l2 /\ b = lo + total l1 /\
        exists h' bs rest, mrepr own (avmm st') h' /\ carve req sz = Used bs :: rest /\ HDR + size <= bs /\
          heap_ok h' d lo (l1 ++ carve req sz ++ l2) /\ forall x, foreign d lo l x -> h' !! x = h !! x
    end) st.
Proof.
  intros d req Hi Hr Hw Hok Hsz Hf. unfold malloc, require_init. apply wp_bind, wp_gets. rewrite Hi. cbn [negb].
  apply wp_zoom, wp_bind, (wp_current_data own _ _ _ _ Hr Hw). fold d.
  refine (wp_mono _ _ _ _ (malloc_internal_ok (H0 := mmu_mem own) _ h d lo l size fuel Hr Hok Hsz Hf) _).
  intros p s'. cbv beta zeta. fold req. intros Hp. split; [done|].
  destruct (first_fit req lo l) as [[[[l1 b] sz] l2]|]; [exact Hp|]. destruct Hp as [-> ->]. split; [done|]. by destruct st.
Qed.

(** C6: the entry point [free] after initialisation: freeing the pointer of a
    used block of the current heap releases that block, merges it with free
    neighbours and changes nothing else. *)
Theorem free_correct own st h w lo l1 sz l2 fuel :
  let d := if Z.land w 255 =? 0 then data else kernel_data in
  kernel_heap_initialized st = true -> mrepr own (avmm st) h -> h !! ad_is_kernel data = Some w ->
  heap_ok h d lo (l1 ++ Used sz :: l2) -> (length (frees lo l1) < fuel)%nat ->
  wp (free fuel (lo + total l1 + HDR)) (fun _ st' => kernel_heap_initialized st' = true /\
    exists h', mrepr own (avmm st') h' /\ heap_ok h' d lo (release l1 sz l2) /\
      forall x, others d lo l1 sz l2 x -> h' !! x = h !! x) st.
Proof.
  intros d Hi Hr Hw Hok Hf. unfold free, require_init. apply wp_bind, wp_gets. rewrite Hi. cbn [negb].
  apply wp_zoom, wp_bind, (wp_current_data own _ _ _ _ Hr Hw). fold d.
  refine (wp_mono _ _ _ _ (free_internal_ok (H0 := mmu_mem own) _ h d lo l1 sz l2 fuel Hr Hok Hf) _).
  intros p s' Hp. by split.
Qed.

(** ** A concrete machine: 24 frames, the bitmap in frame 1, an empty PML4 in
    frame 2, frames 3 to 23 free *)

Definition demo_big : vmm_state :=
  mk_vmm (mk_pmm {[ 4096 := 7 ]} (2 ^ 47) (2 ^ 47 + 4096) 3 24 []) (2 ^ 47 + 8192) (2 ^ 47) 0 0 8192.

Lemma demo_big_rd8 a : a <> 4096 -> rd8 (ram (pmm demo_big)) a = 0.
Proof. intros Ha. unfold rd8. cbn. by rewrite lookup_singleton_ne. Qed.

Lemma demo_big_nd p t : path_ok all_own p -> nd demo_big p = Some t -> p = [] /\ t = 8192.
Proof.
  destruct p as [|i p]; intros Hp; [by intros [= <-]|].
  destruct Hp as (Hi & _). apply Forall_inv in Hi. unfold nd. cbn [node]. unfold child, ent.
  rewrite rdn_zero; [done|]. intros b Hb. apply demo_big_rd8. change (root demo_big) with 8192 in Hb. lia.
Qed.

Lemma demo_big_env : mapping_env all_own 12 demo_big.
Proof.
  assert (forall f, f ∈ seqZ 0 24 -> frame_used (pmm demo_big) f = bool_decide (f < 3)) as Hu.
  { apply Forall_forall. apply (bool_decide_unpack _). by vm_compute. }
  constructor; [constructor| | |].
  - constructor; [constructor|..]; cbn; unfold MAX_FRAMES; done || lia.
  - intros a Ha. assert (a = 4096 \/ a = 4097 \/ a = 4098) as E by (unfold bm_phys in Ha; cbn in Ha; lia).
    destruct E as [->|[->| ->]]; split; by vm_compute.
  - intros p t Hp Ht. apply demo_big_nd in Ht as [-> ->]; [|done].
    split_and!; [done|done|done|by vm_compute|right; vm_compute; done].
  - intros p q t Hp Hq E1 E2. apply demo_big_nd in E1 as [-> _]; [|done]. by apply demo_big_nd in E2 as [-> _].
  - done.
  - by vm_compute.
  - exists (seqZ 3 20). split_and!; [apply NoDup_seqZ|by vm_compute; lia|]. apply Forall_forall. intros f Hf%elem_of_seqZ.
    split; [cbn; lia|]. rewrite Hu by (apply elem_of_seqZ; lia). by apply bool_decide_eq_false_2; lia.
Qed.

Lemma demo_big_free lo n : region_free all_own demo_big lo n.
Proof.
  intros a _. split; [done|]. unfold tr. destruct (nd _ _) eqn:E; [|done].
  apply demo_big_nd in E as [E _]; [done|]. by apply path_ok_vpath.
Qed.

Definition demo_alloc : alloc_state := mk_alloc demo_big false.


(** Two requests on the freshly made heap, then the first one freed. *)
Lemma demo_heap_ready : exists st h w, kernel_heap_initialized st = true /\ mrepr all_own (avmm st) h /\
  heap_ok h kernel_data HEAP_START_KERNEL [Free 4096] /\ h !! ad_is_kernel data = Some w /\ Z.land w 255 = 1.
Proof.
  pose proof (heap_init_kernel all_own demo_alloc 4096 eq_refl demo_big_env ltac:(lia) ltac:(by apply Z.mod_divide) eq_refl
    (demo_big_free _ _) (demo_big_free _ _) (demo_big_free _ _)) as Hw.
  destruct (proj1 (wp_OK _ _ _) Hw) as (b & st & R & _ & Hi & h & w & Hr & Hok & Hk & Ew). clear Hw R.
  exists st, h, w. exact (conj Hi (conj Hr (conj Hok (conj Hk Ew)))).
Qed.

Lemma malloc_correct_witness : exists st st' h', malloc 2 100 st = OK (HEAP_START_KERNEL + 16, st') /\
  mrepr all_own (avmm st') h' /\ heap_ok h' kernel_data HEAP_START_KERNEL [Used 120; Free 3976].
Proof.
  destruct demo_heap_ready as (st & h & w & Hi & Hr & Hok & Hw & Ew).
  assert ((if Z.land w 255 =? 0 then data else kernel_data) = kernel_data) as Ed by by rewrite Ew.
  pose proof (malloc_correct all_own st h w HEAP_START_KERNEL [Free 4096] 100 2 Hi Hr Hw ltac:(by rewrite Ed) ltac:(lia)
    ltac:(cbn; lia)) as Hm. cbv zeta in Hm. rewrite Ed in Hm.
  destruct (proj1 (wp_OK _ _ _) Hm) as (p & st' & R & _ & Hm2). clear Hm. rename Hm2 into Hm. change (first_fit _ _ _) with (Some ([] : list tile, HEAP_START_KERNEL, 4096, [] : list tile)) in Hm.
  destruct Hm as (-> & _ & _ & h' & bs & rest & Hr' & _ & _ & Hok' & _). exists st, st', h'. done.
Defined.

Lemma free_correct_witness : exists st st' h', free 2 (HEAP_START_KERNEL + 16) st = OK (tt, st') /\
  mrepr all_own (avmm st') h' /\ heap_ok h' kernel_data HEAP_START_KERNEL [Free 4096].
Proof.
  destruct demo_heap_ready as (st & h & w & Hi & Hr & Hok & Hw & Ew).
  destruct (proj1 (wp_OK _ _ _) (malloc_internal_ok (H0 := mmu_mem all_own) (avmm st) h kernel_data HEAP_START_KERNEL [Free 4096]
    100 2 Hr Hok ltac:(lia) ltac:(cbn; lia))) as (p & s1 & _ & Hm).
  change (first_fit _ _ _) with (Some ([] : list tile, HEAP_START_KERNEL, 4096, [] : list tile)) in Hm.
  destruct Hm as (_ & _ & _ & h1 & bs & rest & Hr1 & _ & _ & Hok1 & Hfr).
  assert (h1 !! ad_is_kernel data = Some w) as Hw1.
  { rewrite Hfr; [done|]. right. unfold ad_is_kernel, data, kernel_data, HEAP_START, HEAP_START_KERNEL, PAGE_SIZE. lia. }
  assert ((if Z.land w 255 =? 0 then data else kernel_data) = kernel_data) as Ed by by rewrite Ew.
  pose proof (free_correct all_own (mk_alloc s1 true) h1 w HEAP_START_KERNEL [] 120 [Free 3976] 2 eq_refl Hr1 Hw1
    ltac:(rewrite Ed; exact Hok1) ltac:(cbn; lia)) as Hf. cbv zeta in Hf. rewrite Ed in Hf.
  destruct (proj1 (wp_OK _ _ _) Hf) as ([] & st' & R & _ & h' & Hr' & Hok' & _). exists (mk_alloc s1 true), st', h'. done.
Defined.
