(* ===== verification/Util.v ===== *)
(** * Arithmetic and memory helpers (src/util/util.c, util.h)

    A [double] is the rational number it stands for; the operations below are
    exact on the values the kernel passes (integers and their quotients by
    powers of two), so no rounding is modelled.  Conversions to [int] outside
    its range are undefined, as in C. *)
From Stdlib Require Import QArith Qabs Qround Lqa.
From S2P Require Import Prelude Mem.
#[local] Open Scope Z_scope.

(** ** Doubles *)

Definition int_max : Z := 2 ^ 31 - 1.
Definition int_min : Z := - 2 ^ 31.
Definition int_ok (z : Z) : bool := (int_min <=? z) && (z <=? int_max).

(** [(int)num]: truncation toward zero. *)
Definition to_int (num : Q) : outcome Z :=
  let z := Z.quot (Qnum num) (QDen num) in if int_ok z then OK z else UB.

Definition abs (num : Q) : Q := if Qlt_le_dec num 0 then Qopp num else num.
Definition max (num1 num2 : Q) : Q := if Qlt_le_dec num2 num1 then num1 else num2.
Definition min (num1 num2 : Q) : Q := if Qlt_le_dec num1 num2 then num1 else num2.
Definition clamp (num mn mx : Q) : Q :=
  if Qlt_le_dec mx num then mx else if Qlt_le_dec num mn then mn else num.

Fixpoint iter_q (n : nat) (f : Q -> Q) (x : Q) : Q :=
  match n with O => x | S n' => iter_q n' f (f x) end.
(** [for (int i = 0; i < abs(power) - 1; i++)] runs [|power| - 1] times. *)
Definition pow (base : Q) (power : Z) : Q :=
  if power =? 0 then inject_Z 1
  else if power =? 1 then base
  else if power =? -1 then Qdiv (inject_Z 1) base
  else if 1 <? power then iter_q (Z.to_nat (Z.abs power - 1)) (fun r => Qmult r base) base
  else iter_q (Z.to_nat (Z.abs power - 1)) (fun r => Qdiv r base) (Qdiv (inject_Z 1) base).

Definition floor (num : Q) : outcome Q :=
  obind (to_int num) (fun t =>
    if Qlt_le_dec num 0 then
      (if Qeq_dec (Qminus num (inject_Z t)) 0 then OK num else
         if int_ok (t - 1) then OK (inject_Z (t - 1)) else UB)
    else OK (inject_Z t)).

Definition ceil (num : Q) : outcome Q :=
  obind (floor num) (fun flo =>
    if Qeq_dec (Qminus num flo) 0 then OK num else OK (Qplus flo (inject_Z 1))).

Definition round (num : Q) : outcome Q :=
  obind (floor num) (fun flo =>
    if Qlt_le_dec (Qminus num flo) (1 # 2) then OK flo else OK (Qplus flo (inject_Z 1))).

(** ** Integers *)

Definition ceil_div (a b : Z) : outcome Z := if b =? 0 then UB else OK (u64 (a + b - 1) / b).

(** [rand_state] is an [int]: the product overflows as one. *)
Definition rand (rand_state : Z) : outcome (Z * Z) :=
  let p := rand_state * 1103515245 in
  if int_ok p then
    let s := p + 12345 in
    if int_ok s then
      let r := s32 (Z.rem s 0xffffffff) in OK (r, r)
    else UB
  else UB.

(** ** memcpy and memset on byte memory *)

Fixpoint memcpy_loop (n : nat) (i : Z) (m : mem) (dest src : Z) : mem :=
  match n with
  | O => m
  | S n' => memcpy_loop n' (i + 1) (wr8 m (dest + i) (rd8 m (src + i))) dest src
  end.
Definition memcpy (m : mem) (dest src size : Z) : mem := memcpy_loop (Z.to_nat size) 0 m dest src.

(** [while (size--) *d++ = val;] *)
Fixpoint memset_loop (n : nat) (m : mem) (d val : Z) : mem :=
  match n with
  | O => m
  | S n' => memset_loop n' (wr8 m d val) (d + 1) val
  end.
Definition memset (m : mem) (dest val size : Z) : mem := memset_loop (Z.to_nat size) m dest val.

(** ** Lemmas and theorems *)

Lemma to_int_bounds q : (inject_Z int_min < q -> q < inject_Z int_max ->
  exists z, to_int q = OK z /\ (int_min < z < int_max + 1)%Z)%Q.
Proof.
  intros H1 H2. destruct q as [n d]. unfold to_int, Qlt, inject_Z in *. cbn [Qnum Qden] in *.
  rewrite !Z.mul_1_r in *.
  assert (int_min < Z.quot n (Z.pos d) < int_max + 1) as Hz.
  { unfold int_min, int_max in *. pose proof (Z.quot_rem n (Z.pos d) ltac:(lia)).
    pose proof (Z.rem_bound_abs n (Z.pos d) ltac:(lia)).
    destruct (decide (0 <= n)).
    - pose proof (Z.rem_bound_pos n (Z.pos d) ltac:(lia) ltac:(lia)). nia.
    - pose proof (Z.rem_bound_pos_neg n (Z.pos d) ltac:(lia) ltac:(lia)).
      set (z := Z.quot n (Z.pos d)) in *. set (r := Z.rem n (Z.pos d)) in *. clearbody z r.
      split; apply (Z.mul_lt_mono_pos_l (Z.pos d)); lia. }
  eexists. split; [|exact Hz]. unfold int_ok. rewrite !(proj2 (Z.leb_le _ _)) by lia. done.
Qed.

Lemma to_int_floor q z : to_int q = OK z ->
  Qfloor q = if Qlt_le_dec q 0 then (if Qeq_dec (Qminus q (inject_Z z)) 0 then z else z - 1) else z.
Proof.
  unfold to_int. destruct (int_ok _); [|done]. intros [= <-]. destruct q as [n d]. cbn [Qnum Qden Qfloor].
  destruct (Qlt_le_dec _ _) as [Hq|Hq]; unfold Qlt, Qle in Hq; cbn [Qnum Qden inject_Z] in Hq.
  - pose proof (Z.quot_rem n (Z.pos d) ltac:(lia)). pose proof (Z.rem_bound_pos_neg n (Z.pos d) ltac:(lia) ltac:(lia)).
    destruct (Qeq_dec _ _) as [He|He]; unfold Qeq, Qminus, Qplus, inject_Z in He; cbn in He; symmetry.
    + apply (Z.div_unique_pos _ _ _ 0); [lia|]. nia.
    + apply (Z.div_unique_pos _ _ _ (Z.rem n (Z.pos d) + Z.pos d)); [|nia].
      assert (Z.rem n (Z.pos d) <> 0) by (intros E; apply He; nia). lia.
  - symmetry. apply Z.quot_div_nonneg; lia.
Qed.

Lemma Qfloor_unique q k : (inject_Z k <= q -> q < inject_Z k + 1 -> Qfloor q = k)%Q.
Proof.
  intros H1 H2. pose proof (Qfloor_le q). pose proof (Qlt_floor q) as H3. rewrite inject_Z_plus in H3.
  change (inject_Z 1) with 1%Q in H3.
  assert (inject_Z k < inject_Z (Qfloor q + 1) /\ inject_Z (Qfloor q) < inject_Z (k + 1))%Q as [L1 L2]
    by (rewrite !inject_Z_plus; change (inject_Z 1) with 1%Q; split; lra).
  rewrite <- Zlt_Qlt in L1, L2. lia.
Qed.

Lemma floor_ok q : (inject_Z int_min < q -> q < inject_Z int_max ->
  exists f, floor q = OK f /\ f == inject_Z (Qfloor q))%Q.
Proof.
  intros H1 H2. destruct (to_int_bounds q H1 H2) as (z & Ez & Hz). pose proof (to_int_floor q z Ez) as Ef.
  unfold floor. rewrite Ez, Ef. cbn [obind]. destruct (Qlt_le_dec q 0); [|by eexists].
  destruct (Qeq_dec _ _) as [He|He].
  - eexists. split; [done|]. lra.
  - unfold int_ok. rewrite !(proj2 (Z.leb_le _ _)) by (unfold int_min, int_max in *; lia). by eexists.
Qed.

Lemma ceil_ok q : (inject_Z int_min < q -> q < inject_Z int_max ->
  exists c, ceil q = OK c /\ c == inject_Z (Qceiling q))%Q.
Proof.
  intros H1 H2. destruct (floor_ok q H1 H2) as (f & Hf & Ef).
  pose proof (Qfloor_le q) as F1. pose proof (Qlt_floor q) as F2. rewrite inject_Z_plus in F2. change (inject_Z 1) with 1%Q in F2.
  unfold ceil, Qceiling. rewrite Hf. cbn [obind]. destruct (Qeq_dec _ _) as [He|He]; eexists; (split; [reflexivity|]).
  - rewrite (Qfloor_unique (- q) (- Qfloor q)), Z.opp_involutive by (rewrite inject_Z_opp; lra). lra.
  - rewrite (Qfloor_unique (- q) (- Qfloor q - 1)).
    all: rewrite ?inject_Z_opp; unfold Z.sub; rewrite ?inject_Z_plus, ?inject_Z_opp; change (inject_Z (- (1))) with (-1)%Q; change (inject_Z 1) with 1%Q; lra.
Qed.

(** [floor], [ceil] and [round] of util.c compute the mathematical floor,
    ceiling and nearest integer (halves up) of every number strictly inside
    the range of [int]. *)
Theorem floor_ceil_round_correct q : (inject_Z int_min < q -> q < inject_Z int_max ->
  (exists f, floor q = OK f /\ f == inject_Z (Qfloor q)) /\
  (exists c, ceil q = OK c /\ c == inject_Z (Qceiling q)) /\
  (exists r, round q = OK r /\ r == inject_Z (Qfloor (q + (1 # 2)))))%Q.
Proof.
  intros H1 H2. destruct (floor_ok q H1 H2) as (f & Hf & Ef).
  pose proof (Qfloor_le q) as F1. pose proof (Qlt_floor q) as F2. rewrite inject_Z_plus in F2. change (inject_Z 1) with 1%Q in F2.
  split; [by exists f|]. split; [by apply ceil_ok|]. unfold round. rewrite Hf. cbn [obind].
  destruct (Qlt_le_dec _ _) as [He|He]; eexists; (split; [reflexivity|]).
  - rewrite (Qfloor_unique _ (Qfloor q)) by lra. done.
  - rewrite (Qfloor_unique _ (Qfloor q + 1)) by (rewrite inject_Z_plus; change (inject_Z 1) with 1%Q; lra).
    rewrite inject_Z_plus. lra.
Qed.

Lemma floor_ceil_round_correct_witness :
  (exists f, floor (-7 # 2) = OK f /\ f == -4)%Q /\ (exists c, ceil (-7 # 2) = OK c /\ c == -3)%Q /\
  (exists r, round (-7 # 2) = OK r /\ r == -3)%Q.
Proof. exact (floor_ceil_round_correct (-7 # 2) ltac:(done) ltac:(done)). Defined.

(** The very first call of [rand] multiplies 183 by 1103515245 in [int],
    which overflows: the C standard gives it no meaning.  (The next state
    cannot be relied on.) *)
Theorem rand_first_call_overflows : rand 183 = UB.
Proof. reflexivity. Qed.

(** [ceil_div] is the exact quotient rounded up while the sum does not wrap. *)
Lemma ceil_div_spec a b : 0 <= a -> 0 < b -> a + b - 1 < 2 ^ 64 ->
  exists q, ceil_div a b = OK q /\ (q - 1) * b < a <= q * b.
Proof.
  intros Ha Hb Hs. unfold ceil_div. rewrite (proj2 (Z.eqb_neq b 0)) by lia. eexists. split; [done|].
  rewrite wrap_id by (unfold in_range; lia). pose proof (Z.div_mod (a + b - 1) b ltac:(lia)).
  pose proof (Z.mod_pos_bound (a + b - 1) b ltac:(lia)). nia.
Qed.

Lemma memset_fill m dest val size : memset m dest val size = fill (Z.to_nat size) m dest val.
Proof. unfold memset. generalize (Z.to_nat size). intros n. revert m dest. induction n; intros; [done|]. cbn. apply IHn. Qed.

Lemma memcpy_loop_rd8 n i m dest src a :
  (forall j k, i <= j < i + Z.of_nat n -> i <= k < i + Z.of_nat n -> dest + j <> src + k) -> 
  rd8 (memcpy_loop n i m dest src) a =
  if decide (dest + i <= a < dest + i + Z.of_nat n) then rd8 m (src + (a - dest)) else rd8 m a.
Proof.
  revert i m. induction n as [|n IH]; intros i m Hd; cbn [memcpy_loop].
  - rewrite decide_False by lia. done.
  - rewrite IH by (intros; apply Hd; lia).
    assert (forall k, i <= k < i + Z.of_nat (S n) -> rd8 (wr8 m (dest + i) (rd8 m (src + i))) (src + k) = rd8 m (src + k)) as Hs.
    { intros k Hk. apply rd8_wr8_ne, Hd; lia. }
    destruct (decide (a = dest + i)) as [->|Hne].
    + rewrite decide_False, decide_True by lia. rewrite rd8_wr8_eq.
      rewrite wrap_id by (unfold in_range; pose proof (rd8_range m (src + i)); lia). f_equal. lia.
    + destruct (decide (dest + (i + 1) <= a < _)) as [Ha|Ha].
      * rewrite decide_True by lia. apply Hs. lia.
      * rewrite decide_False by lia. by apply rd8_wr8_ne.
Qed.

(** [memcpy] between regions that do not overlap leaves in the
    destination exactly the source's bytes and changes nothing else; [memset]
    fills the destination and nothing else. *)
Theorem memcpy_memset_correct m dest src val size : 0 <= size ->
  dest + size <= src \/ src + size <= dest ->
  (forall a, rd8 (memcpy m dest src size) a =
     if decide (dest <= a < dest + size) then rd8 m (src + (a - dest)) else rd8 m a) /\
  (forall a, rd8 (memset m dest val size) a = if decide (dest <= a < dest + size) then u8 val else rd8 m a).
Proof.
  intros Hs Hd. split; intros a.
  - unfold memcpy. rewrite memcpy_loop_rd8 by lia. rewrite Z2Nat.id, Z.add_0_r by lia. done.
  - rewrite memset_fill, rd8_fill, Z2Nat.id by lia. done.
Qed.

Lemma memcpy_memset_correct_witness :
  let m := blit ∅ 100 [1; 2; 3] in
  (forall a, rd8 (memcpy m 200 100 3) a = if decide (200 <= a < 203) then rd8 m (100 + (a - 200)) else rd8 m a) /\
  (forall a, rd8 (memset m 200 7 3) a = if decide (200 <= a < 203) then 7 else rd8 m a).
Proof. exact (memcpy_memset_correct (blit ∅ 100 [1; 2; 3]) 200 100 7 3 ltac:(lia) ltac:(lia)). Defined.
