(* ===== verification/Str.v ===== *)
(** * Strings (src/util/string.c, string.h)

    A [char*] is the list of bytes readable from it; reading or writing past
    the end is undefined.  Functions that allocate run over a heap of buffers
    whose [malloc] answers come from an oracle: null, or a buffer of the size
    asked for with arbitrary contents. *)
From Stdlib Require Import QArith.
From S2P Require Import Prelude Util.
#[local] Open Scope Z_scope.

(** ** String literals *)

Definition of_string (s : string) : list Z :=
  (fun c => Z.of_N (Ascii.N_of_ascii c)) <$> String.list_ascii_of_string s.
Definition cstr (s : string) : list Z := of_string s ++ [0].
(** The characters of a C string, for the console's log. *)
Fixpoint show (s : list Z) : string :=
  match s with
  | [] => EmptyString
  | c :: s' => if c =? 0 then EmptyString else String (Ascii.ascii_of_N (Z.to_N c)) (show s')
  end.

(** ** Heap of buffers *)

Record bheap := mk_bheap {
  bh_mal : nat -> Z -> option (list Z);   (* contents of the n-th allocation *)
  bh_next : nat;
  bh_live : Z                             (* buffers allocated and not freed *)
}.

(** [malloc(size)] returns null for size 0 (allocator.c) and when the heap is full. *)
Definition bmalloc (size : Z) : M bheap (option (list Z)) := fun h =>
  if size =? 0 then OK (None, h) else
  match bh_mal h (bh_next h) size with
  | None => OK (None, mk_bheap (bh_mal h) (S (bh_next h)) (bh_live h))
  | Some junk => OK (Some (u8 <$> resize (Z.to_nat size) 0 junk),
                     mk_bheap (bh_mal h) (S (bh_next h)) (bh_live h + 1))
  end.
Definition bfree (p : option (list Z)) : M bheap unit := fun h =>
  match p with
  | None => OK (tt, h)
  | Some _ => OK (tt, mk_bheap (bh_mal h) (bh_next h) (bh_live h - 1))
  end.

(** Accesses through a pointer that may be null. *)
Definition deref {St A} (p : option A) : M St A := match p with Some a => ret a | None => undefined end.
Definition bget (s : list Z) (i : Z) : outcome Z :=
  if i <? 0 then UB else match s !! Z.to_nat i with Some c => OK c | None => UB end.
Definition bset (s : list Z) (i v : Z) : outcome (list Z) :=
  if (i <? 0) || (Z.of_nat (length s) <=? i) then UB else OK (<[Z.to_nat i := u8 v]> s).

(** An [n]-byte little-endian field of a structure stored in a buffer. *)
Fixpoint field (n : nat) (s : list Z) (off : Z) : outcome Z :=
  match n with
  | O => OK 0
  | S n' => obind (bget s off) (fun b => obind (field n' s (off + 1)) (fun r => OK (b + 256 * r)))
  end.

(** [memcpy] between buffers: [n] bytes of [src] from [so] to [dst] from [d]. *)
Fixpoint bcopy (n : nat) (dst : list Z) (d : Z) (src : list Z) (so : Z) : outcome (list Z) :=
  match n with
  | O => OK dst
  | S n' => obind (bget src so) (fun c => obind (bset dst d c) (fun dst' => bcopy n' dst' (d + 1) src (so + 1)))
  end.

Definition SPACE : Z := 32.
Definition CH_0 : Z := 48.
Definition CH_MINUS : Z := 45.
Definition CH_DOT : Z := 46.

(** ** Functions without allocation *)

Fixpoint strlen_loop (s : list Z) (count : Z) : outcome Z :=
  match s with
  | [] => UB
  | c :: s' => if c =? 0 then OK count
               else if 1000 <? count then OK (-1) else strlen_loop s' (count + 1)
  end.
Definition strlen (s : list Z) : outcome Z := strlen_loop s 0.

Fixpoint strcmp_loop (n : nat) (s1 s2 : list Z) (i : Z) : outcome bool :=
  match n with
  | O => OK true
  | S n' => obind (bget s1 i) (fun a => obind (bget s2 i) (fun b =>
              if negb (a =? b) then OK false else strcmp_loop n' s1 s2 (i + 1)))
  end.
(** Not the C library's: true means equal. *)
Definition strcmp (s1 s2 : list Z) : outcome bool :=
  obind (strlen s1) (fun len => obind (strlen s2) (fun len2 =>
    if negb (len =? len2) then OK false else strcmp_loop (Z.to_nat len) s1 s2 0)).

Fixpoint strncmp (s1 s2 : list Z) (n : nat) : outcome bool :=
  match n with
  | O => OK true
  | S n' =>
      match s1, s2 with
      | a :: s1', b :: s2' => if negb (a =? b) || (a =? 0) then OK false else strncmp s1' s2' n'
      | _, _ => UB
      end
  end.

(** The result is the offset of the character, [None] for null. *)
Fixpoint strchr_loop (s : list Z) (target i : Z) : outcome (option Z) :=
  match s with
  | [] => UB
  | c :: s' => if c =? 0 then (if target =? 0 then OK (Some i) else OK None)
               else if c =? target then OK (Some i) else strchr_loop s' target (i + 1)
  end.
Definition strchr (s : list Z) (c : Z) : outcome (option Z) := strchr_loop s (u8 c) 0.

Fixpoint strrchr_loop (s : list Z) (c i : Z) (last : option Z) : outcome (option Z) :=
  match s with
  | [] => UB
  | x :: s' => if x =? 0 then OK last
               else strrchr_loop s' c (i + 1) (if x =? c then Some i else last)
  end.
Definition strrchr (s : list Z) (c : Z) : outcome (option Z) := strrchr_loop s c 0 None.

(** [num_to_str_no_malloc]: the offset of the first character in the buffer,
    which is filled from its end.  [n < 0] never holds of a [uint64_t], so no
    sign is written. *)
Fixpoint digits_back (fuel : nat) (n ptr : Z) (buffer : list Z) : outcome (Z * list Z) :=
  match fuel with
  | O => NoFuel
  | S fuel' =>
      if (0 <? n) && (0 <? ptr) then
        obind (bset buffer (ptr - 1) (n mod 10 + CH_0)) (fun b => digits_back fuel' (n / 10) (ptr - 1) b)
      else OK (ptr, buffer)
  end.
Definition num_to_str_no_malloc (num : Z) (buffer : option (list Z)) (buffer_size : Z)
  : outcome (option (Z * list Z)) :=
  match buffer with
  | None => OK None
  | Some b =>
      if buffer_size <? 2 then OK None else
      let ptr := buffer_size - 1 in
      obind (bset b ptr 0) (fun b =>
        if num =? 0 then obind (bset b (ptr - 1) CH_0) (fun b => OK (Some (ptr - 1, b)))
        else obind (digits_back 21 num ptr b) (fun r => OK (Some r)))
  end.

(** ** Functions that allocate *)

Definition str_concat (s1 s2 : list Z) : M bheap (option (list Z)) :=
  let* len1 := lift (strlen s1) in
  let* len2 := lift (strlen s2) in
  let* result := bmalloc (u64 (len1 + len2 + 1)) in
  match result with
  | None => ret None
  | Some r =>
      let* r := lift (bcopy (Z.to_nat len1) r 0 s1 0) in
      let* r := lift (bcopy (Z.to_nat len2) r len1 s2 0) in
      let* r := lift (bset r (len1 + len2) 0) in
      ret (Some r)
  end.

Definition strdup (s : list Z) : M bheap (option (list Z)) :=
  let* len := lift (strlen s) in
  let* result := bmalloc (u64 (len + 1)) in
  if len + 1 =? 0 then ret result else
  let* r := deref result in
  let* r := lift (bcopy (Z.to_nat (len + 1)) r 0 s 0) in
  ret (Some r).

Fixpoint concats_loop (result : option (list Z)) (rest : list (list Z)) : M bheap (option (list Z)) :=
  match rest with
  | [] => ret result
  | s :: rest' =>
      let* r := deref result in
      let* temp := str_concat r s in
      bfree result ;;;
      concats_loop temp rest'
  end.
Definition str_concats (strings : list (list Z)) : M bheap (option (list Z)) :=
  match strings with
  | [] => undefined
  | s :: rest => let* result := strdup s in concats_loop result rest
  end.

Fixpoint substr_loop (n : nat) (dst s : list Z) (start i : Z) : outcome (list Z) :=
  match n with
  | O => OK dst
  | S n' => obind (bget s (start + i)) (fun c => obind (bset dst i c) (fun dst' =>
              if c =? 0 then OK dst' else substr_loop n' dst' s start (i + 1)))
  end.
Definition substr (s : list Z) (start size : Z) : M bheap (option (list Z)) :=
  let* p := bmalloc (u64 (size + 1)) in
  let* new_str := deref p in
  let* r := lift (substr_loop (Z.to_nat size) new_str s start 0) in
  let* r := lift (bset r size 0) in
  ret (Some r).

(** The three inner scans of [str_split], on the bytes from [p] on. *)
Fixpoint skip_delims (p : list Z) (delim : Z) : outcome (list Z) :=
  match p with
  | [] => UB
  | c :: p' => if c =? delim then skip_delims p' delim else OK p
  end.
Fixpoint scan_token (p : list Z) (delim : Z) : outcome (list Z * list Z) :=
  match p with
  | [] => UB
  | c :: p' => if (c =? 0) || (c =? delim) then OK ([], p)
               else obind (scan_token p' delim) (fun '(t, q) => OK (c :: t, q))
  end.

Fixpoint count_tokens (fuel : nat) (p : list Z) (delim count : Z) : outcome Z :=
  match fuel with
  | O => NoFuel
  | S fuel' =>
      obind (bget p 0) (fun c => if c =? 0 then OK count else
      obind (skip_delims p delim) (fun p1 =>
      obind (bget p1 0) (fun c1 => if c1 =? 0 then OK count else
      obind (scan_token p1 delim) (fun '(_, p2) => count_tokens fuel' p2 delim (count + 1)))))
  end.

(** The second pass: [tokens] has room for [count] pointers. *)
Fixpoint split_loop (fuel : nat) (p : list Z) (delim i count : Z) (tokens : list (list Z)) : M bheap (list (list Z)) :=
  match fuel with
  | O => out_of_fuel
  | S fuel' =>
      let* c := lift (bget p 0) in
      if c =? 0 then ret tokens else
      let* p1 := lift (skip_delims p delim) in
      let* c1 := lift (bget p1 0) in
      if c1 =? 0 then ret tokens else
      let* (tok, p2) := lift (scan_token p1 delim) in
      let len := Z.of_nat (length tok) in
      let* b := bmalloc (len + 1) in
      if count <=? i then undefined else
      let* b := deref b in
      let* b := lift (bcopy (Z.to_nat len) b 0 tok 0) in
      let* b := lift (bset b len 0) in
      split_loop fuel' p2 delim (i + 1) count (tokens ++ [b])
  end.

Definition str_split (s : list Z) (delim : Z) : M bheap (list (list Z)) :=
  let fuel := S (length s) in
  let* count := lift (count_tokens fuel s delim 0) in
  let* tokens := bmalloc (8 * count) in
  let room := match tokens with Some _ => count | None => 0 end in
  split_loop fuel s delim 0 room [].

(** [num_to_str], on the rationals a [double] stands for. *)
Definition to_long (num : Q) : outcome Z :=
  let z := Z.quot (Qnum num) (QDen num) in
  if (- 2 ^ 63 <=? z) && (z <? 2 ^ 63) then OK z else UB.

Fixpoint frac_loop (fuel : nat) (x : Q) (fraction_digit_count : Z) : outcome (Q * Z) :=
  obind (to_long x) (fun l =>
    if Qeq_dec (inject_Z l) x then OK (x, fraction_digit_count) else
    match fuel with
    | O => OK (x, fraction_digit_count)
    | S fuel' => frac_loop fuel' (Qmult x (inject_Z 10)) (fraction_digit_count + 1)
    end).

Fixpoint digit_loop (fuel : nat) (tmp digit_count : Z) : outcome Z :=
  match fuel with
  | O => NoFuel
  | S fuel' => let tmp' := Z.quot tmp 10 in
               if 0 <? tmp' then digit_loop fuel' tmp' (digit_count + 1) else OK (digit_count + 1)
  end.

Fixpoint put_digits (fuel : nat) (int_num i digit_count neg frac : Z) (result : list Z) : outcome (list Z) :=
  match fuel with
  | O => NoFuel
  | S fuel' =>
      if int_num =? 0 then OK result else
      obind (bset result (digit_count - i - 1) (Z.rem int_num 10 + CH_0)) (fun result =>
      let b1 := Z.b2z (0 <? frac) in
      let b2 := Z.b2z (frac =? digit_count) in
      if i + neg + b1 + b2 + 1 =? frac then
        let i := i + 1 in
        obind (bset result (digit_count - i - 1) CH_DOT) (fun result =>
        obind (if Z.quot int_num 10 =? 0 then bset result neg CH_0 else OK result) (fun result =>
        put_digits fuel' (Z.quot int_num 10) (i + 1) digit_count neg frac result))
      else put_digits fuel' (Z.quot int_num 10) (i + 1) digit_count neg frac result)
  end.

Definition num_to_str (num : Q) : M bheap (list Z) :=
  if Qeq_dec num 0 then
    let* p := bmalloc 2 in
    let* r := deref p in
    let* r := lift (bset r 0 CH_0) in
    lift (bset r 1 0)
  else
    let is_negative := if Qlt_le_dec num 0 then 1 else 0 in
    let num := if Qlt_le_dec num 0 then Qopp num else num in
    let* (no_frac_num, fraction_digit_count) := lift (frac_loop 6 (abs num) 0) in
    let* int_num := lift (to_long no_frac_num) in
    let* digit_count := lift (digit_loop 20 int_num 0) in
    let b1 := Z.b2z (0 <? fraction_digit_count) in
    let b2 := Z.b2z (fraction_digit_count =? digit_count) in
    let len := digit_count + b1 + b2 + is_negative + 1 in
    let* p := bmalloc len in
    let* r := deref p in
    let* r := lift (bset r (len - 1) 0) in
    let* r := lift (if is_negative =? 1 then bset r 0 CH_MINUS else OK r) in
    lift (put_digits 21 int_num (- is_negative - b1 - b2) digit_count is_negative fraction_digit_count r).

(** ** C strings *)

(** [s] starts with the characters [t] and their terminator. *)
Definition nonzero (t : list Z) : Prop := Forall (fun c => c <> 0) t.
Definition cstring (s t : list Z) : Prop := nonzero t /\ exists r, s = t ++ 0 :: r.
Definition MAX_STR : Z := 1001.
Definition len (t : list Z) : Z := Z.of_nat (length t).

Lemma strlen_loop_short t r count : nonzero t -> 0 <= count -> count + len t <= MAX_STR ->
  strlen_loop (t ++ 0 :: r) count = OK (count + len t).
Proof.
  unfold len, MAX_STR. intros Ht. revert count. induction Ht as [|c t Hc Ht IH]; intros count H0 Hl; cbn in *.
  - f_equal. lia.
  - rewrite (proj2 (Z.eqb_neq c 0)), (proj2 (Z.ltb_ge 1000 count)) by lia. rewrite IH by lia. f_equal. lia.
Qed.
Lemma strlen_loop_long t r count : nonzero t -> 0 <= count <= MAX_STR -> MAX_STR < count + len t ->
  strlen_loop (t ++ 0 :: r) count = OK (-1).
Proof.
  unfold len, MAX_STR. intros Ht. revert count. induction Ht as [|c t Hc Ht IH]; intros count H0 Hl; cbn in *; [lia|].
  rewrite (proj2 (Z.eqb_neq c 0)) by lia. destruct (Z.ltb_spec 1000 count); [done|]. apply IH; lia.
Qed.

(** [strlen]: the length up to 1001 characters, -1 beyond. *)
Lemma strlen_spec s t : cstring s t -> strlen s = OK (if len t <=? MAX_STR then len t else -1).
Proof.
  intros [Ht [r ->]]. unfold strlen. destruct (Z.leb_spec (len t) MAX_STR).
  - by rewrite strlen_loop_short by (done || lia).
  - apply strlen_loop_long; [done|unfold MAX_STR; lia|lia].
Qed.
Lemma strlen_ok s t : cstring s t -> len t <= MAX_STR -> strlen s = OK (len t).
Proof. intros Hs Hl. rewrite (strlen_spec _ _ Hs). by rewrite (proj2 (Z.leb_le _ _)). Qed.

Lemma bget_lookup s i c : 0 <= i -> s !! Z.to_nat i = Some c -> bget s i = OK c.
Proof. intros Hi Hc. unfold bget. rewrite (proj2 (Z.ltb_ge i 0)) by lia. by rewrite Hc. Qed.

Lemma cstring_lookup s t i c : cstring s t -> t !! i = Some c -> s !! i = Some c.
Proof. intros [_ [r ->]] H. by apply lookup_app_l_Some. Qed.

Lemma strcmp_loop_spec n s1 s2 t1 t2 i : cstring s1 t1 -> cstring s2 t2 -> 0 <= i ->
  len t1 = i + Z.of_nat n -> len t2 = len t1 ->
  strcmp_loop n s1 s2 i = OK (bool_decide (drop (Z.to_nat i) t1 = drop (Z.to_nat i) t2)).
Proof.
  intros H1 H2. unfold len. revert i. induction n as [|n IH]; intros i Hi E1 E2; cbn [strcmp_loop].
  - rewrite !drop_ge by lia. done.
  - destruct (lookup_Z_lt t1 i ltac:(lia)) as [a Ha]. destruct (lookup_Z_lt t2 i ltac:(lia)) as [b Hb].
    rewrite (bget_lookup s1 i a), (bget_lookup s2 i b) by (done || by eapply cstring_lookup). cbn [obind].
    rewrite (drop_S t1 a), (drop_S t2 b) by done. destruct (Z.eqb_spec a b) as [->|Hne]; cbn [negb].
    + rewrite IH by lia. f_equal. replace (Z.to_nat (i + 1)) with (S (Z.to_nat i)) by lia.
      apply bool_decide_ext. split; [by intros ->|by intros [= ->]].
    + f_equal. symmetry. apply bool_decide_eq_false_2. by intros [= ? _].
Qed.

Lemma strcmp_spec s1 s2 t1 t2 : cstring s1 t1 -> cstring s2 t2 ->
  strcmp s1 s2 = OK (if (len t1 <=? MAX_STR) || (len t2 <=? MAX_STR) then bool_decide (t1 = t2) else true).
Proof.
  intros H1 H2. unfold strcmp. rewrite (strlen_spec _ _ H1), (strlen_spec _ _ H2). cbn [obind].
  assert (forall t t' : list Z, len t <> len t' -> bool_decide (t = t') = false) as Hne.
  { intros t t' Hl. apply bool_decide_eq_false_2. by intros ->. }
  destruct (Z.leb_spec (len t1) MAX_STR), (Z.leb_spec (len t2) MAX_STR); cbn [orb].
  - destruct (Z.eqb_spec (len t1) (len t2)); cbn [negb]; [|by rewrite Hne].
    rewrite (strcmp_loop_spec _ s1 s2 t1 t2) by (done || unfold len in *; lia). done.
  - rewrite (proj2 (Z.eqb_neq _ (-1))) by (unfold len; lia). cbn [negb]. by rewrite Hne by lia.
  - rewrite (proj2 (Z.eqb_neq (-1) _)) by (unfold len; lia). cbn [negb]. by rewrite Hne by lia.
  - done.
Qed.

(** [strcmp] on two terminated strings: equality of the strings when one
    of them has at most 1001 characters; two strings longer than that are
    always reported equal, because their lengths both come out as -1. *)
Theorem strcmp_correct s1 s2 t1 t2 : cstring s1 t1 -> cstring s2 t2 ->
  strcmp s1 s2 = OK (if (len t1 <=? MAX_STR) || (len t2 <=? MAX_STR) then bool_decide (t1 = t2) else true).
Proof. apply strcmp_spec. Qed.

Lemma strcmp_correct_witness : strcmp [97; 98; 0; 7] [97; 98; 0] = OK true /\
  strcmp (replicate 1002 97 ++ [0]) (replicate 1002 98 ++ [0]) = OK true.
Proof.
  assert (forall c n, c <> 0 -> nonzero (replicate n c)) as Hr by (intros c n Hc; by apply Forall_replicate).
  split.
  - refine (eq_trans (strcmp_correct _ _ [97; 98] [97; 98] _ _) _); [split; [by repeat constructor|by exists [7]]|split; [by repeat constructor|by exists []]|done].
  - refine (eq_trans (strcmp_correct _ _ (replicate 1002 97) (replicate 1002 98) _ _) _);
      [split; [by apply Hr|by exists []]|split; [by apply Hr|by exists []]|done].
Defined.

(** ** Copying *)

Definition bytes (s : list Z) : Prop := Forall (in_range 8) s.

Lemma bset_ok s i v : 0 <= i < len s -> bset s i v = OK (<[Z.to_nat i := u8 v]> s).
Proof.
  unfold bset, len. intros Hi. rewrite (proj2 (Z.ltb_ge i 0)), (proj2 (Z.leb_gt _ i)) by lia. done.
Qed.

Lemma bcopy_spec n dst d src so : bytes src -> 0 <= d -> 0 <= so ->
  d + Z.of_nat n <= len dst -> so + Z.of_nat n <= len src ->
  bcopy n dst d src so = OK (take (Z.to_nat d) dst ++ take n (drop (Z.to_nat so) src) ++ drop (Z.to_nat d + n) dst).
Proof.
  unfold len. intros Hb. revert dst d so. induction n as [|n IH]; intros dst d so Hd Hso H1 H2; cbn [bcopy].
  - rewrite take_0, Nat.add_0_r. cbn. by rewrite take_drop.
  - destruct (lookup_Z_lt src so ltac:(lia)) as [c Hc]. rewrite (bget_lookup _ _ _ Hso Hc). cbn [obind].
    rewrite bset_ok by (unfold len; lia). cbn [obind]. rewrite IH by (rewrite ?length_insert; lia).
    assert (u8 c = c) as -> by (apply wrap_id; by eapply Forall_lookup_1).
    f_equal. rewrite (drop_S src c (Z.to_nat so)) by done. cbn [take].
    replace (Z.to_nat (d + 1)) with (S (Z.to_nat d)) by lia. replace (Z.to_nat (so + 1)) with (S (Z.to_nat so)) by lia.
    rewrite (take_S_r _ _ c) by (apply list_lookup_insert_eq; lia).
    rewrite take_insert_ge by lia. rewrite drop_insert_lt by lia.
    replace (S (Z.to_nat d) + n)%nat with (Z.to_nat d + S n)%nat by lia. by rewrite <- !app_assoc.
Qed.

Lemma bmalloc_ok h size junk : size <> 0 -> bh_mal h (bh_next h) size = Some junk ->
  bmalloc size h = OK (Some (u8 <$> resize (Z.to_nat size) 0 junk),
    mk_bheap (bh_mal h) (S (bh_next h)) (bh_live h + 1)).
Proof. intros Hs Hj. unfold bmalloc. rewrite (proj2 (Z.eqb_neq _ _)) by done. by rewrite Hj. Qed.

(** The heap never refuses. *)
Definition ample (h : bheap) : Prop := forall n size, is_Some (bh_mal h n size).

(** [malloc] on an ample heap: a buffer of the requested size. *)
Lemma wp_bmalloc (Q : option (list Z) -> bheap -> Prop) h size : ample h -> 0 < size ->
  (forall b h', ample h' -> len b = size -> bytes b -> bh_live h' = bh_live h + 1 -> Q (Some b) h') -> wp (bmalloc size) Q h.
Proof.
  intros Ha Hs HQ. destruct (Ha (bh_next h) size) as [junk Hj]. eapply wp_step; [apply bmalloc_ok; [lia|exact Hj]|].
  apply HQ; [done| | |done].
  - unfold len. rewrite length_fmap, length_resize. lia.
  - apply Forall_fmap, Forall_true. intros x. apply wrap_range. lia.
Qed.

Lemma wp_lift {St A} (Q : A -> St -> Prop) o a h : o = OK a -> Q a h -> wp (lift o) Q h.
Proof. intros -> HQ. done. Qed.

Lemma cstring_take s t : cstring s t -> take (length t) s = t.
Proof. intros [_ [r ->]]. by rewrite take_app_length. Qed.
Lemma cstring_len s t : cstring s t -> len t + 1 <= len s.
Proof. intros [_ [r ->]]. unfold len. rewrite length_app. cbn. lia. Qed.

(** [str_concat] on an ample heap. *)
Lemma wp_str_concat (Q : option (list Z) -> bheap -> Prop) h s1 s2 t1 t2 : ample h ->
  cstring s1 t1 -> cstring s2 t2 -> bytes s1 -> bytes s2 -> len t1 <= MAX_STR -> len t2 <= MAX_STR ->
  (forall b h', ample h' -> b = t1 ++ t2 ++ [0] -> bh_live h' = bh_live h + 1 -> Q (Some b) h') ->
  wp (str_concat s1 s2) Q h.
Proof.
  intros Ha C1 C2 B1 B2 L1 L2 HQ. pose proof (cstring_len _ _ C1). pose proof (cstring_len _ _ C2).
  unfold str_concat. apply wp_bind, (wp_lift _ _ (len t1)); [by apply strlen_ok|].
  apply wp_bind, (wp_lift _ _ (len t2)); [by apply strlen_ok|]. apply wp_bind.
  rewrite wrap_id by (unfold in_range, len, MAX_STR in *; lia).
  apply wp_bmalloc; [done|unfold len; lia|]. intros b h1 Ha1 Hb Bb Hl.
  assert (Z.to_nat (len t1) = length t1 /\ Z.to_nat (len t2) = length t2) as [N1 N2] by (unfold len; lia).
  apply wp_bind. eapply wp_lift; [apply bcopy_spec; try done; try lia; unfold len in *; lia|].
  rewrite N1, take_0, drop_0. cbn [Z.to_nat app]. rewrite (cstring_take _ _ C1), Nat.add_0_l.
  apply wp_bind. eapply wp_lift.
  { apply bcopy_spec; try done; try lia; unfold len in *; rewrite ?length_app, ?length_drop; lia. }
  rewrite N1, N2, drop_0, take_app_length, (cstring_take _ _ C2).
  apply wp_bind. eapply wp_lift; [apply bset_ok; unfold len in *; rewrite !length_app, length_drop, length_app, length_drop; lia|].
  apply wp_ret, HQ; [done| |done]. change (u8 0) with 0.
  assert (drop (length t1 + length t2) (t1 ++ drop (length t1) b) = drop (length t1 + length t2) b) as ->.
  { rewrite drop_app_ge by lia. rewrite drop_drop. f_equal. lia. }
  rewrite (drop_S b (default 0 (b !! (length t1 + length t2)%nat))); cycle 1.
  { destruct (b !! _) eqn:E; [done|]. apply lookup_ge_None in E. unfold len in *. lia. }
  rewrite (drop_ge b) by (unfold len in *; lia).
  replace (Z.to_nat (len t1 + len t2)) with (length (t1 ++ t2) + 0)%nat by (unfold len; rewrite length_app; lia).
  rewrite (app_assoc t1 t2), insert_app_r. by rewrite <- app_assoc.
Qed.

(** ** Splitting *)

(** The maximal pieces of [t] between delimiters. *)
Fixpoint pieces (delim : Z) (t cur : list Z) : list (list Z) :=
  match t with
  | [] => match cur with [] => [] | _ => [cur] end
  | c :: t' =>
      if c =? delim then match cur with [] => pieces delim t' [] | _ => cur :: pieces delim t' [] end
      else pieces delim t' (cur ++ [c])
  end.

Section Split.
Context (delim : Z) (Hdelim : delim <> 0) (r : list Z).

Lemma skip_delims_spec t : nonzero t -> exists t', skip_delims (t ++ 0 :: r) delim = OK (t' ++ 0 :: r) /\
  nonzero t' /\ pieces delim t [] = pieces delim t' [] /\ (length t' <= length t)%nat /\
  match t' with [] => True | c :: _ => c <> delim end /\ forall P : Z -> Prop, Forall P t -> Forall P t'.
Proof using Hdelim.
  induction 1 as [|c t Hc Ht IH]; cbn [app skip_delims].
  - rewrite (proj2 (Z.eqb_neq 0 delim)) by done. exists []. split_and!; [done|by constructor|done..].
  - destruct (Z.eqb_spec c delim) as [->|Hne].
    + destruct IH as (t' & -> & ? & E & ? & ? & HP). exists t'. cbn. rewrite Z.eqb_refl, E. split_and!; [done..|lia|done|].
      intros P [_ ?]%Forall_cons. by apply HP.
    + exists (c :: t). split_and!; [done|by constructor|done..].
Qed.

Lemma scan_token_spec t : nonzero t -> exists tok t', scan_token (t ++ 0 :: r) delim = OK (tok, t' ++ 0 :: r) /\
  nonzero t' /\ nonzero tok /\ t = tok ++ t' /\
  (forall cur, cur ++ tok <> [] -> pieces delim t cur = (cur ++ tok) :: pieces delim t' []).
Proof using.
  induction 1 as [|c t Hc Ht IH]; cbn [app scan_token].
  - exists [], []. split_and!; try done; try by constructor. intros cur. rewrite app_nil_r. cbn. by destruct cur.
  - rewrite (proj2 (Z.eqb_neq c 0)) by done. cbn [orb]. destruct (Z.eqb_spec c delim) as [->|Hne].
    + exists [], (delim :: t). split_and!; [done|by constructor|by constructor|done|].
      intros cur. rewrite app_nil_r. cbn. rewrite Z.eqb_refl. by destruct cur.
    + destruct IH as (tok & t' & -> & H1 & H2 & -> & E). exists (c :: tok), t'.
      split_and!; [done|done|by constructor|done|]. intros cur _. cbn. rewrite (proj2 (Z.eqb_neq c delim)) by done.
      rewrite E by by destruct cur. by rewrite <- app_assoc.
Qed.

(** One round of either pass: the next token and what follows it. *)
Definition next_token (p : list Z) : outcome (option (list Z * list Z)) :=
  obind (bget p 0) (fun c => if c =? 0 then OK None else
  obind (skip_delims p delim) (fun p1 =>
  obind (bget p1 0) (fun c1 => if c1 =? 0 then OK None else
  obind (scan_token p1 delim) (fun r => OK (Some r))))).

Lemma count_tokens_next fuel p k : count_tokens (S fuel) p delim k =
  obind (next_token p) (fun o => match o with
    | None => OK k | Some (_, p2) => count_tokens fuel p2 delim (k + 1) end).
Proof using.
  cbn [count_tokens]. unfold next_token. destruct (bget p 0) as [c| | |]; [|done..]. cbn [obind]. destruct (c =? 0); [done|].
  destruct (skip_delims p delim) as [p1| | |]; [|done..]. cbn [obind].
  destruct (bget p1 0) as [c1| | |]; [|done..]. cbn [obind]. destruct (c1 =? 0); [done|].
  by destruct (scan_token p1 delim) as [[]| | |].
Qed.

Lemma next_token_spec t : nonzero t ->
  (next_token (t ++ 0 :: r) = OK None /\ pieces delim t [] = []) \/
  exists tok t2, next_token (t ++ 0 :: r) = OK (Some (tok, t2 ++ 0 :: r)) /\
    nonzero t2 /\ nonzero tok /\ (length t2 < length t)%nat /\ pieces delim t [] = tok :: pieces delim t2 [] /\
    forall P : Z -> Prop, Forall P t -> Forall P tok /\ Forall P t2.
Proof using Hdelim.
  intros Ht. destruct t as [|c t]; [by left|]. pose proof Ht as Hc%Forall_inv.
  assert (forall x y, bget (x :: y) 0 = OK x) as Hget by done.
  destruct (skip_delims_spec (c :: t) Ht) as (t1 & E1 & Ht1 & Ep & Hl1 & Hd1 & Hsub).
  unfold next_token. rewrite E1. cbn [app]. rewrite Hget. cbn [obind]. rewrite (proj2 (Z.eqb_neq c 0)) by done.
  rewrite Ep. destruct t1 as [|c1 t1]; [by left|]. right. cbn [app]. rewrite Hget. cbn [obind].
  pose proof Ht1 as Hc1%Forall_inv. rewrite (proj2 (Z.eqb_neq c1 0)) by done.
  destruct (scan_token_spec (c1 :: t1) Ht1) as (tok & t2 & E & Ht2 & Htok & E2 & Ep2).
  change (c1 :: t1 ++ 0 :: r) with ((c1 :: t1) ++ 0 :: r). rewrite E. cbn [obind]. exists tok, t2.
  assert (tok <> []) as Hne.
  { intros ->. cbn in E. rewrite (proj2 (Z.eqb_neq c1 0)), (proj2 (Z.eqb_neq c1 delim)) in E by done. cbn in E.
    apply obind_OK in E as ([? ?] & _ & [=]). }
  split_and!; [done..| | |].
  - apply (f_equal length) in E2. rewrite length_app in E2. destruct tok; [done|]. cbn in *. lia.
  - by apply (Ep2 []).
  - intros P HP. apply Hsub in HP. rewrite E2 in HP. by apply Forall_app in HP.
Qed.

Lemma count_tokens_spec fuel t k : nonzero t -> (length t < fuel)%nat ->
  count_tokens fuel (t ++ 0 :: r) delim k = OK (k + Z.of_nat (length (pieces delim t []))).
Proof using Hdelim.
  revert t k. induction fuel as [|fuel IH]; intros t k Ht Hf; [lia|]. rewrite count_tokens_next.
  destruct (next_token_spec t Ht) as [[-> ->]|(tok & t2 & -> & Ht2 & _ & Hl & -> & _)]; cbn [obind length].
  - by rewrite Z.add_0_r.
  - rewrite IH by (done || lia). f_equal. lia.
Qed.

Lemma split_loop_next fuel p i room tokens h : split_loop (S fuel) p delim i room tokens h =
  (let* o := lift (next_token p) in
  match o with
  | None => ret tokens
  | Some (tok, p2) =>
      let* b := bmalloc (len tok + 1) in
      if room <=? i then undefined else
      let* b := deref b in
      let* b := lift (bcopy (Z.to_nat (len tok)) b 0 tok 0) in
      let* b := lift (bset b (len tok) 0) in
      split_loop fuel p2 delim (i + 1) room (tokens ++ [b])
  end) h.
Proof using.
  cbn [split_loop]. unfold next_token, lift, bind at 1 7. destruct (bget p 0) as [c| | |]; [|done..]. cbn [obind].
  destruct (c =? 0); [done|]. unfold bind at 1. destruct (skip_delims p delim) as [p1| | |]; [|done..]. cbn [obind].
  unfold bind at 1. destruct (bget p1 0) as [c1| | |]; [|done..]. cbn [obind]. destruct (c1 =? 0); [done|].
  unfold bind at 1. by destruct (scan_token p1 delim) as [[]| | |].
Qed.

(** The second pass on an ample heap. *)
Lemma wp_split_loop fuel t i room tokens (Q : list (list Z) -> bheap -> Prop) h : ample h -> nonzero t -> bytes t ->
  (length t < fuel)%nat -> i + Z.of_nat (length (pieces delim t [])) <= room ->
  (forall h', ample h' -> bh_live h' = bh_live h + Z.of_nat (length (pieces delim t [])) ->
     Q (tokens ++ ((fun k => k ++ [0]) <$> pieces delim t [])) h') ->
  wp (split_loop fuel (t ++ 0 :: r) delim i room tokens) Q h.
Proof using Hdelim.
  revert t i tokens h. induction fuel as [|fuel IH]; intros t i tokens h Ha Ht Hb Hf Hr HQ; [lia|].
  eapply wp_ext; [apply split_loop_next|]. apply wp_bind.
  destruct (next_token_spec t Ht) as [[E Ep]|(tok & t2 & E & Ht2 & _ & Hl & Ep & Hsub)].
  - eapply wp_lift; [exact E|]. apply wp_ret. rewrite Ep in HQ. cbn in HQ. rewrite app_nil_r in HQ. apply HQ; [done|lia].
  - rewrite Ep in HQ, Hr. cbn in HQ, Hr. eapply wp_lift; [exact E|]. destruct (Hsub _ Hb) as [Hb1 Hb2].
    apply wp_bind, wp_bmalloc; [done|unfold len; lia|]. intros b h1 Ha1 Hlb _ Hlive.
    rewrite (proj2 (Z.leb_gt room i)) by lia. apply wp_bind, wp_ret, wp_bind.
    eapply wp_lift; [apply bcopy_spec; try done; unfold len in *; lia|]. apply wp_bind.
    assert (Z.to_nat (len tok) = length tok) as N by (unfold len; lia). rewrite N, take_0, drop_0, firstn_all. cbn [Z.to_nat app].
    eapply wp_lift; [apply bset_ok; unfold len in *; rewrite length_app, length_drop; lia|].
    assert (<[Z.to_nat (len tok) := u8 0]> (tok ++ drop (Z.to_nat 0 + length tok) b) = tok ++ [0]) as ->.
    { rewrite N, <- (Nat.add_0_r (length tok)) at 1. rewrite insert_app_r. f_equal.
      rewrite (drop_S b (default 0 (b !! length tok))); [by rewrite drop_ge by (unfold len in *; lia)|].
      destruct (b !! length tok) eqn:Eb; [done|]. apply lookup_ge_None in Eb. unfold len in *. lia. }
    apply IH; [done|done|done|lia|lia|]. intros h' Ha' Hl'. rewrite <- app_assoc. apply HQ; [done|]. lia.
Qed.
End Split.

(** [str_split] on an ample heap. *)
Lemma wp_str_split (Q : list (list Z) -> bheap -> Prop) s t delim h : ample h -> cstring s t -> bytes s -> delim <> 0 ->
  (forall h', ample h' ->
     bh_live h' = bh_live h + Z.of_nat (length (pieces delim t [])) + (if decide (pieces delim t [] = []) then 0 else 1) ->
     Q ((fun k => k ++ [0]) <$> pieces delim t []) h') ->
  wp (str_split s delim) Q h.
Proof.
  intros Ha [Ht [r ->]] Hb Hd HQ. apply Forall_app in Hb as [Hb _]. unfold str_split.
  apply wp_bind. eapply wp_lift; [apply count_tokens_spec; [done|done|rewrite length_app; lia]|]. rewrite Z.add_0_l.
  apply wp_bind. destruct (decide (pieces delim t [] = [])) as [E|E].
  - rewrite E. eapply wp_step; [done|]. apply wp_split_loop; try done; [rewrite length_app; lia|by rewrite E|].
    intros h' Ha' Hl'. apply HQ; [done|]. rewrite Hl', E. cbn. lia.
  - assert (length (pieces delim t []) <> 0%nat) by (by destruct (pieces delim t [])).
    apply wp_bmalloc; [done|lia|]. intros b h1 Ha1 _ _ Hl1.
    apply wp_split_loop; [done|done|done|done|rewrite length_app; lia|lia|]. intros h' Ha' Hl'. apply HQ; [done|lia].
Qed.

(** [str_split] returns exactly the non-empty pieces of the string between
    delimiters, in order, each as its own terminated buffer; it allocates one
    buffer per piece and one for the array (none when there is no piece). *)
Theorem str_split_correct s t delim h : ample h -> cstring s t -> bytes s -> delim <> 0 -> length (pieces delim t []) <> 0%nat ->
  wp (str_split s delim) (fun tokens h' =>
    tokens = (fun k => k ++ [0]) <$> pieces delim t [] /\
    bh_live h' = bh_live h + Z.of_nat (length (pieces delim t [])) + 1) h.
Proof.
  intros Ha Hs Hb Hd Hn. apply (wp_str_split _ s t); [done..|]. intros h' _ Hl'.
  rewrite decide_False in Hl' by (by intros E; rewrite E in Hn). done.
Qed.

Definition demo_bheap : bheap := mk_bheap (fun _ _ => Some []) 0 0.

Lemma str_split_correct_witness :
  wp (str_split [47; 97; 98; 47; 47; 99; 0] 47) (fun tokens h' => tokens = [[97; 98; 0]; [99; 0]] /\ bh_live h' = 3) demo_bheap.
Proof.
  refine (wp_mono _ _ _ _ (str_split_correct _ [47; 97; 98; 47; 47; 99] 47 demo_bheap _ _ _ _ _) _).
  - intros n size. by eexists.
  - split; [by repeat constructor|]. by exists [].
  - repeat constructor; done.
  - done.
  - done.
  - cbv beta. intros tokens h' [-> ->]. done.
Defined.

(** ** Decimal notation *)

(** The decimal digits of [n < 10^k], most significant first; none for 0. *)
Fixpoint dec (k : nat) (n : Z) : list Z :=
  match k with
  | O => []
  | S k' => if n =? 0 then [] else dec k' (n / 10) ++ [n mod 10 + CH_0]
  end.
Definition undec (ds : list Z) : Z := fold_left (fun n d => 10 * n + (d - CH_0)) ds 0.

Lemma undec_snoc ds d : undec (ds ++ [d]) = 10 * undec ds + (d - CH_0).
Proof. unfold undec. by rewrite fold_left_app. Qed.

Lemma pow10_S k : 10 ^ Z.of_nat (S k) = 10 * 10 ^ Z.of_nat k.
Proof. rewrite Nat2Z.inj_succ, Z.pow_succ_r by lia. done. Qed.

Lemma dec_spec k n : 0 <= n < 10 ^ Z.of_nat k -> undec (dec k n) = n /\
  Forall (fun d => CH_0 <= d < CH_0 + 10) (dec k n) /\ (length (dec k n) <= k)%nat /\
  (0 < n -> 0 < len (dec k n) /\ 10 ^ (len (dec k n) - 1) <= n) /\ n < 10 ^ len (dec k n).
Proof.
  revert n. induction k as [|k IH]; intros n Hn; [unfold undec, len; cbn in *; split_and!; first [by apply Forall_nil_2|lia]|].
  rewrite pow10_S in Hn. cbn [dec]. destruct (Z.eqb_spec n 0) as [->|Hne]; [unfold undec, len; split_and!; first [by apply Forall_nil_2|cbn; lia]|].
  destruct (IH (n / 10) ltac:(divlia)) as (H1 & H2 & H3 & H4 & H5). unfold len in *.
  rewrite undec_snoc, H1, length_app. cbn [length]. unfold CH_0 in *. split_and!.
  - divlia.
  - apply Forall_app. split; [done|]. repeat constructor; divlia.
  - lia.
  - intros _. replace (Z.of_nat (length (dec k (n / 10)) + 1) - 1) with (Z.of_nat (length (dec k (n / 10)))) by lia.
    destruct (decide (n / 10 = 0)) as [E|E].
    + rewrite E. replace (dec k 0) with (@nil Z) by by destruct k. cbn. lia.
    + destruct H4 as [H4 H4']; [divlia|].
      replace (Z.of_nat (length (dec k (n / 10)))) with (Z.succ (Z.of_nat (length (dec k (n / 10))) - 1)) by lia.
      rewrite Z.pow_succ_r by lia. divlia.
  - rewrite Nat2Z.inj_add, Z.pow_add_r by lia. change (10 ^ Z.of_nat 1) with 10. divlia.
Qed.

Lemma dec_more k j n : 0 <= n < 10 ^ Z.of_nat k -> (k <= j)%nat -> dec j n = dec k n.
Proof.
  revert j n. induction k as [|k IH]; intros j n Hn Hj.
  - assert (n = 0) as -> by (cbn in Hn; lia). by destruct j.
  - destruct j as [|j]; [lia|]. rewrite pow10_S in Hn. cbn. destruct (n =? 0); [done|]. rewrite (IH j); [done|divlia|lia].
Qed.

(** Writing digits backwards. *)
Lemma digits_back_spec k fuel n ptr b : 0 <= n < 10 ^ Z.of_nat k -> Z.of_nat k <= ptr <= len b -> (k < fuel)%nat ->
  exists b', digits_back fuel n ptr b = OK (ptr - len (dec k n), b') /\ len b' = len b /\
    drop (Z.to_nat (ptr - len (dec k n))) b' = dec k n ++ drop (Z.to_nat ptr) b.
Proof.
  revert fuel n ptr b. induction k as [|k IH]; intros fuel n ptr b Hn Hp Hf; destruct fuel as [|fuel]; try lia; cbn [digits_back].
  { assert (n = 0) as -> by (cbn in Hn; lia). exists b. cbn. by rewrite Z.sub_0_r. }
  cbn [dec]. destruct (Z.eqb_spec n 0) as [->|Hne]; [exists b; cbn; by rewrite Z.sub_0_r|].
  rewrite pow10_S in Hn. rewrite (proj2 (Z.ltb_lt 0 n)), (proj2 (Z.ltb_lt 0 ptr)) by lia. cbn [andb].
  rewrite bset_ok by lia. cbn [obind].
  destruct (IH fuel (n / 10) (ptr - 1) (<[Z.to_nat (ptr - 1) := u8 (n mod 10 + CH_0)]> b)) as (b' & E & El & Ed);
    [divlia|unfold len in *; rewrite length_insert; lia|lia|].
  exists b'. rewrite E. unfold len in *. rewrite length_app. rewrite length_insert in El. cbn [length].
  split_and!; [do 2 f_equal; lia|done|].
  replace (ptr - Z.of_nat (length (dec k (n / 10)) + 1)) with (ptr - 1 - Z.of_nat (length (dec k (n / 10)))) by lia.
  rewrite Ed, <- app_assoc. f_equal.
  assert (Z.to_nat (ptr - 1) < length b)%nat as Hlt by lia.
  rewrite (drop_S _ (n mod 10 + CH_0)).
  - cbn. f_equal. rewrite drop_insert_lt by lia. f_equal. lia.
  - rewrite list_lookup_insert_eq by done. f_equal. apply wrap_id. unfold in_range, CH_0. divlia.
Qed.

(** [num_to_str_no_malloc] with a buffer of at least 21 bytes: every
    64-bit number is written in full, right-aligned and terminated, and the
    returned pointer is its first character: reading the digits back gives the
    number, and there is no leading zero. *)
Theorem num_to_str_no_malloc_correct num b : in_range 64 num -> 21 <= len b ->
  exists p b' ds, num_to_str_no_malloc num (Some b) (len b) = OK (Some (p, b')) /\ len b' = len b /\
    cstring (drop (Z.to_nat p) b') ds /\ undec ds = num /\
    Forall (fun d => CH_0 <= d < CH_0 + 10) ds /\ (num <> 0 -> hd 0 ds <> CH_0).
Proof.
  intros Hn Hb. unfold num_to_str_no_malloc. rewrite (proj2 (Z.ltb_ge _ 2)) by lia.
  rewrite bset_ok by lia. cbn [obind]. change (u8 0) with 0. set (b1 := <[_ := 0]> b).
  assert (len b1 = len b) as Eb1 by (unfold len, b1; by rewrite length_insert).
  assert (drop (Z.to_nat (len b - 1)) b1 = [0]) as Ed1.
  { rewrite (drop_S _ 0), drop_ge; [done|unfold len in *; lia|]. apply list_lookup_insert_eq. unfold len in *. lia. }
  clearbody b1. destruct (Z.eqb_spec num 0) as [->|Hne].
  - rewrite bset_ok by lia. cbn [obind]. change (u8 CH_0) with CH_0. eexists _, _, [CH_0]. split; [done|]. split_and!.
    + unfold len in *. by rewrite length_insert.
    + split; [by repeat constructor|]. exists [].
      rewrite (drop_S _ CH_0) by (apply list_lookup_insert_eq; unfold len in *; lia).
      rewrite drop_insert_lt by lia. replace (S (Z.to_nat (len b - 1 - 1))) with (Z.to_nat (len b - 1)) by lia. by rewrite Ed1.
    + done.
    + repeat constructor; unfold CH_0; lia.
    + done.
  - assert (0 <= num < 10 ^ Z.of_nat 20) as Hd by (unfold in_range in Hn; lia).
    destruct (digits_back_spec 20 21 num (len b - 1) b1 Hd) as (b' & -> & El & Ed); [lia|lia|].
    destruct (dec_spec 20 num Hd) as (U & F & _ & L & _). cbn [obind]. eexists _, b', (dec 20 num). split; [done|]. rewrite Ed1 in Ed.
    split_and!; [lia| |done|done|].
    + split; [|by exists []]. eapply Forall_impl; [exact F|]. unfold CH_0. cbn. lia.
    + intros _ Hh. destruct L as [L1 L2]; [unfold in_range in Hn; lia|]. destruct (dec 20 num) as [|d ds] eqn:E; [unfold len in L1; cbn in L1; lia|].
      cbn in Hh. subst d. apply Forall_cons in F as [_ F]. revert L2. rewrite <- U. clear -F. unfold undec, len. cbn.
      replace (CH_0 - CH_0) with 0 by lia.
      assert (forall a, 0 <= a -> fold_left (fun n d => 10 * n + (d - CH_0)) ds a < (a + 1) * 10 ^ Z.of_nat (length ds)) as Hlt.
      { induction F as [|x l Hx F IH]; intros a Ha; [cbn; lia|]. cbn [fold_left length]. rewrite pow10_S.
        specialize (IH (10 * a + (x - CH_0)) ltac:(lia)). nia. }
      specialize (Hlt 0 ltac:(lia)). replace (Z.of_nat (S (length ds)) - 1) with (Z.of_nat (length ds)) by lia.
      change (10 * 0 + 0) with 0. lia.
Qed.

Lemma num_to_str_no_malloc_correct_witness : exists p b' ds,
  num_to_str_no_malloc 1920 (Some (replicate 100 0)) (len (replicate 100 0)) = OK (Some (p, b')) /\
  len b' = len (replicate 100 0) /\ cstring (drop (Z.to_nat p) b') ds /\ undec ds = 1920 /\
    Forall (fun d => CH_0 <= d < CH_0 + 10) ds /\ (1920 <> 0 -> hd 0 ds <> CH_0).
Proof. apply (num_to_str_no_malloc_correct 1920 (replicate 100 0)); [done|vm_compute; done]. Defined.

(** ** num_to_str *)

Lemma digit_loop_spec k fuel tmp c : 0 < tmp < 10 ^ Z.of_nat k -> (k <= fuel)%nat ->
  digit_loop fuel tmp c = OK (c + len (dec k tmp)).
Proof.
  revert fuel tmp c. induction k as [|k IH]; intros fuel tmp c Hn Hf; [cbn in Hn; lia|].
  destruct fuel as [|fuel]; [lia|]. rewrite pow10_S in Hn. cbn [digit_loop dec]. rewrite Z.quot_div_nonneg by lia.
  rewrite (proj2 (Z.eqb_neq tmp 0)) by lia. unfold len. rewrite length_app. cbn [length].
  destruct (Z.ltb_spec 0 (tmp / 10)) as [Hp|Hp].
  - rewrite IH by (divlia || lia). unfold len. f_equal. lia.
  - assert (tmp / 10 = 0) as -> by divlia. replace (dec k 0) with (@nil Z) by by destruct k. cbn. done.
Qed.

Lemma put_digits_spec k fuel m i D neg r : 0 <= m < 10 ^ Z.of_nat k -> (k < fuel)%nat -> 0 <= i + neg -> 1 <= D ->
  len (dec k m) <= D - i <= len r ->
  put_digits fuel m i D neg 0 r =
  OK (take (Z.to_nat (D - i - len (dec k m))) r ++ dec k m ++ drop (Z.to_nat (D - i)) r).
Proof.
  revert fuel m i r. induction k as [|k IH]; intros fuel m i r Hm Hf Hi HD Hl; (destruct fuel as [|fuel]; [lia|]); cbn [put_digits].
  { assert (m = 0) as -> by (cbn in Hm; lia). cbn. unfold len. cbn. rewrite Z.sub_0_r. by rewrite take_drop. }
  cbn [dec] in *. destruct (Z.eqb_spec m 0) as [->|Hne].
  { unfold len in *. cbn in *. rewrite Z.sub_0_r. by rewrite take_drop. }
  rewrite pow10_S in Hm. unfold len in *. rewrite length_app in Hl |- *. cbn [length] in Hl |- *.
  rewrite bset_ok by (unfold len; lia). cbn [obind]. change (0 <? 0) with false.
  rewrite (proj2 (Z.eqb_neq 0 D)) by lia. cbn [Z.b2z]. rewrite (proj2 (Z.eqb_neq _ 0)) by lia.
  rewrite Z.rem_mod_nonneg, Z.quot_div_nonneg by lia.
  rewrite IH; [|divlia|lia|lia|lia|rewrite length_insert; unfold len; lia]. f_equal. unfold len.
  replace (D - (i + 1)) with (D - i - 1) by lia. set (j := Z.to_nat (D - i - 1)). set (w := u8 _).
  assert (w = m mod 10 + CH_0) as Ew by (apply wrap_id; unfold in_range, CH_0; divlia).
  replace (Z.to_nat (D - i)) with (S j) by lia.
  rewrite take_insert_ge by lia. rewrite (drop_S _ w) by (apply list_lookup_insert_eq; lia).
  rewrite drop_insert_lt, Ew by lia. rewrite <- app_assoc. cbn [app]. do 2 f_equal. lia.
Qed.

Definition sign (n : Z) : list Z := if n <? 0 then [CH_MINUS] else [].

(** [num_to_str] of a non-zero integer (below 2^63 in magnitude) allocates
    exactly the bytes it needs and fills them with the sign, the decimal
    digits (which read back give the number) and the terminator. *)
Theorem num_to_str_correct n h : ample h -> n <> 0 -> - 2 ^ 63 < n < 2 ^ 63 ->
  wp (num_to_str (inject_Z n)) (fun r h' =>
    r = sign n ++ dec 19 (Z.abs n) ++ [0] /\ undec (dec 19 (Z.abs n)) = Z.abs n /\ bh_live h' = bh_live h + 1 /\ ample h') h.
Proof.
  intros Ha Hn Hr. assert (0 < Z.abs n < 10 ^ Z.of_nat 19) as Hd by lia.
  destruct (dec_spec 19 (Z.abs n) ltac:(lia)) as (U & F & L19 & L & _). destruct L as [L1 _]; [lia|].
  unfold num_to_str. destruct (Qeq_dec (inject_Z n) 0) as [E|_]; [unfold Qeq in E; cbn in E; lia|].
  assert ((if Qlt_le_dec (inject_Z n) 0 then 1 else 0) = Z.b2z (n <? 0) /\
    (if Qlt_le_dec (inject_Z n) 0 then Qopp (inject_Z n) else inject_Z n) = inject_Z (Z.abs n)) as [-> ->].
  { destruct (Qlt_le_dec (inject_Z n) 0) as [Hq|Hq]; unfold Qlt, Qle in Hq; cbn in Hq; rewrite Z.mul_1_r in Hq.
    - rewrite (proj2 (Z.ltb_lt n 0)) by lia. rewrite Z.abs_neq by lia. done.
    - rewrite (proj2 (Z.ltb_ge n 0)) by lia. rewrite Z.abs_eq by lia. done. }
  assert (abs (inject_Z (Z.abs n)) = inject_Z (Z.abs n)) as ->.
  { unfold abs. destruct (Qlt_le_dec _ _) as [Hq|Hq]; [unfold Qlt in Hq; cbn in Hq; lia|done]. }
  assert (to_long (inject_Z (Z.abs n)) = OK (Z.abs n)) as El.
  { unfold to_long. cbn. rewrite Z.quot_1_r. rewrite (proj2 (Z.leb_le _ _)), (proj2 (Z.ltb_lt _ _)) by lia. done. }
  apply wp_bind. eapply wp_lift.
  { cbn [frac_loop]. rewrite El. cbn [obind]. destruct (Qeq_dec _ _) as [_|Hq]; [done|]. by destruct Hq. }
  apply wp_bind. eapply wp_lift; [exact El|]. apply wp_bind.
  eapply wp_lift; [apply (digit_loop_spec 19); [lia|lia]|]. rewrite Z.add_0_l. change (0 <? 0) with false.
  rewrite (proj2 (Z.eqb_neq 0 _)) by lia. cbn [Z.b2z]. rewrite !Z.add_0_r, !Z.sub_0_r.
  set (neg := Z.b2z (n <? 0)). set (D := len (dec 19 (Z.abs n))) in *.
  assert (0 <= neg <= 1 /\ len (sign n) = neg) as [Hneg Es] by (unfold neg, sign; by destruct (n <? 0)).
  apply wp_bind, wp_bmalloc; [done|lia|]. intros b h1 Ha1 Hb _ Hl. apply wp_bind, wp_ret, wp_bind.
  eapply wp_lift; [apply bset_ok; lia|]. apply wp_bind.
  set (b1 := <[_ := _]> b). assert (len b1 = len b) as Eb1 by (unfold len, b1; by rewrite length_insert).
  assert (drop (Z.to_nat (D + neg)) b1 = [0]) as Ed.
  { unfold b1. replace (D + neg + 1 - 1) with (D + neg) by lia. rewrite (drop_S _ (u8 0)), drop_ge; [done|rewrite length_insert; unfold len in *; lia|].
    apply list_lookup_insert_eq. unfold len in *. lia. }
  clearbody b1.
  assert (exists b2, (if neg =? 1 then bset b1 0 CH_MINUS else OK b1) = OK b2 /\ len b2 = len b1 /\
    take (Z.to_nat neg) b2 = sign n /\ drop (Z.to_nat (D + neg)) b2 = [0]) as (b2 & E2 & Eb2 & Et2 & Ed2).
  { unfold neg, sign in *. destruct (n <? 0) eqn:Hs; cbn [Z.b2z Z.eqb Pos.eqb].
    - rewrite bset_ok by lia. eexists. split; [done|]. split_and!; [unfold len; by rewrite length_insert| |].
      + destruct b1 as [|x b1']; [unfold len in *; cbn in *; lia|]. cbn. done.
      + rewrite drop_insert_lt by (unfold len in *; lia). done.
    - exists b1. done. }
  eapply wp_lift; [exact E2|]. eapply wp_lift.
  { apply (put_digits_spec 19); fold D; try lia; try done. }
  split_and!; [|done|lia|done]. fold D. replace (D - - neg - D) with neg by lia. replace (D - - neg) with (D + neg) by lia.
  by rewrite Et2, Ed2.
Qed.

Lemma num_to_str_correct_witness :
  wp (num_to_str (inject_Z (-42))) (fun r h' => r = [45; 52; 50; 0] /\ bh_live h' = 1) demo_bheap.
Proof.
  refine (wp_mono _ _ _ _ (num_to_str_correct (-42) demo_bheap _ _ _) _); [intros n size; by eexists|done|lia|].
  cbv beta. intros r h' (-> & _ & -> & _). done.
Defined.

(** [num_to_str] of 0.0625 is wrong: the digits after the point start with
    a zero that the code never writes, so the text is an uninitialised byte
    followed by 625 (here, on a heap filled with '?'). *)
Theorem num_to_str_drops_fraction_zeros :
  obind (num_to_str (1 # 16) (mk_bheap (fun _ _ => Some (replicate 10 63)) 0 0)) (fun '(r, _) => OK r)
  = OK [63; 54; 50; 53; 0].
Proof. reflexivity. Qed.
