(* ===== verification/StrLib.v ===== *)
(** * Allocating string functions

    [strdup], [str_concats] and [substr] on a heap with room: the buffer each
    returns and the number of buffers left allocated. *)
From S2P Require Import Prelude Util Str.

Lemma cstring_app t r : nonzero t -> cstring (t ++ 0 :: r) t.
Proof. intros Ht. split; [done|by exists r]. Qed.
Lemma bytes_snoc0 t : bytes t -> bytes (t ++ [0]).
Proof. intros Ht. apply Forall_app. split; [done|by repeat constructor]. Qed.
Lemma cstring_bytes s t : cstring s t -> bytes s -> bytes t.
Proof. by intros [_ [r ->]] [? _]%Forall_app. Qed.

Lemma of_string_bytes s : bytes (of_string s).
Proof.
  apply Forall_fmap, Forall_true. intros c. unfold in_range. cbn.
  pose proof (Ascii.N_ascii_bounded c). change (2 ^ 8) with 256. lia.
Qed.
Lemma cstr_bytes s : bytes (cstr s).
Proof. apply bytes_snoc0, of_string_bytes. Qed.

Lemma wp_bfree (Q : unit -> bheap -> Prop) h b : (forall h', bh_mal h' = bh_mal h -> bh_live h' = bh_live h - 1 -> Q tt h') -> wp (bfree (Some b)) Q h.
Proof. intros HQ. by apply HQ. Qed.

Lemma wp_strdup (Q : option (list Z) -> bheap -> Prop) h s t : ample h -> cstring s t -> bytes s -> len t <= MAX_STR ->
  (forall h', ample h' -> bh_live h' = bh_live h + 1 -> Q (Some (t ++ [0])) h') -> wp (strdup s) Q h.
Proof.
  intros Ha Hs Hb Hl HQ. pose proof (cstring_len _ _ Hs) as Hlen. unfold strdup.
  apply wp_bind. eapply wp_lift; [by apply strlen_ok|].
  rewrite wrap_id by (unfold in_range, len, MAX_STR in *; lia). apply wp_bind, wp_bmalloc; [done|unfold len; lia|].
  intros b h1 Ha1 Hlb _ Hlive. rewrite (proj2 (Z.eqb_neq _ 0)) by (unfold len; lia). apply wp_bind, wp_ret, wp_bind.
  eapply wp_lift; [apply bcopy_spec; [done|lia|lia|unfold len in *; lia|unfold len in *; lia]|]. apply wp_ret.
  change (Z.to_nat 0) with 0%nat. rewrite take_0, drop_0, (drop_ge b) by (unfold len in *; lia). cbn [app]. rewrite app_nil_r.
  replace (Z.to_nat (len t + 1)) with (length t + 1)%nat by (unfold len; lia).
  destruct Hs as [_ [r ->]]. rewrite take_app_add. by apply HQ.
Qed.

Lemma wp_concats_loop (Q : option (list Z) -> bheap -> Prop) h t ss ts : ample h -> nonzero t -> bytes t ->
  Forall2 (fun s u => cstring s u /\ bytes s) ss ts -> len (t ++ mjoin ts) <= MAX_STR ->
  (forall h', ample h' -> bh_live h' = bh_live h -> Q (Some (t ++ mjoin ts ++ [0])) h') ->
  wp (concats_loop (Some (t ++ [0])) ss) Q h.
Proof.
  intros Ha Ht Hb Hss. revert h t Ha Ht Hb. induction Hss as [|s u ss ts [Hs Hbs] Hss IH]; intros h t Ha Ht Hb Hl HQ; cbn [concats_loop].
  - cbn in HQ. by apply wp_ret, HQ.
  - change (mjoin (u :: ts)) with (u ++ mjoin ts) in *.
    assert (len t <= MAX_STR /\ len u <= MAX_STR) as [? ?] by (unfold len in *; rewrite !length_app in Hl; lia).
    apply wp_bind, wp_ret, wp_bind. eapply (wp_str_concat _ _ _ _ t u); [done|by apply cstring_app|done|by apply bytes_snoc0|done..|].
    intros b h1 Ha1 -> Hl1. apply wp_bind, wp_bfree. intros h2 Hm Hl2. rewrite app_assoc.
    apply IH; [intros n k; rewrite Hm; apply Ha1| | | |].
    + apply Forall_app. split; [done|apply Hs].
    + apply Forall_app. split; [done|by eapply cstring_bytes].
    + by rewrite <- app_assoc.
    + intros h' Ha' Hl'. rewrite <- app_assoc. assert (bh_live h' = bh_live h) by lia. specialize (HQ h' Ha' H1).
      by rewrite <- app_assoc in HQ.
Qed.

(** The concatenation of the texts, in one new buffer; the intermediate ones
    are freed. *)
Lemma wp_str_concats (Q : option (list Z) -> bheap -> Prop) h ss ts : ample h -> ss <> [] ->
  Forall2 (fun s u => cstring s u /\ bytes s) ss ts -> len (mjoin ts) <= MAX_STR ->
  (forall h', ample h' -> bh_live h' = bh_live h + 1 -> Q (Some (mjoin ts ++ [0])) h') ->
  wp (str_concats ss) Q h.
Proof.
  intros Ha Hne Hss Hl HQ. destruct Hss as [|s u ss ts [Hs Hbs] Hss]; [done|]. cbn [str_concats].
  change (mjoin (u :: ts)) with (u ++ mjoin ts) in *. rewrite <- app_assoc in HQ.
  apply wp_bind. eapply wp_strdup; [done|done|done|unfold len in *; rewrite length_app in Hl; lia|]. intros h1 Ha1 Hl1.
  apply (wp_concats_loop _ _ u ss ts); [done|apply Hs|by eapply cstring_bytes|done|done|].
  intros h' Ha' Hl'. apply HQ; [done|lia].
Qed.

(** ** Substrings *)

Lemma substr_loop_spec n dst s start i : 0 <= i -> 0 <= start -> i + Z.of_nat n <= len dst ->
  (forall k, i <= k < i + Z.of_nat n -> exists c, s !! Z.to_nat (start + k) = Some c /\ c <> 0 /\ in_range 8 c) ->
  substr_loop n dst s start i = OK (take (Z.to_nat i) dst ++ take n (drop (Z.to_nat (start + i)) s) ++ drop (Z.to_nat i + n) dst).
Proof.
  revert dst i. induction n as [|n IH]; intros dst i Hi Hst Hd Hs; cbn [substr_loop].
  - rewrite take_0, Nat.add_0_r. cbn. by rewrite take_drop.
  - destruct (Hs i ltac:(lia)) as (c & Hc & Hc0 & Hr). rewrite (bget_lookup s (start + i) c) by (done || lia). cbn [obind].
    rewrite bset_ok by lia. cbn [obind]. rewrite (proj2 (Z.eqb_neq c 0)), (wrap_id 8 c) by done.
    rewrite IH; [|lia|lia|unfold len in *; rewrite length_insert; lia|intros k Hk; apply Hs; lia].
    f_equal. rewrite (drop_S s c (Z.to_nat (start + i))) by done. cbn [take].
    replace (Z.to_nat (i + 1)) with (S (Z.to_nat i)) by lia. replace (Z.to_nat (start + (i + 1))) with (S (Z.to_nat (start + i))) by lia.
    rewrite (take_S_r _ _ c) by (apply list_lookup_insert_eq; unfold len in *; lia).
    rewrite take_insert_ge by lia. rewrite drop_insert_lt by lia.
    replace (S (Z.to_nat i) + n)%nat with (Z.to_nat i + S n)%nat by lia. by rewrite <- !app_assoc.
Qed.

(** [substr] of a part without terminators. *)
Lemma wp_substr (Q : option (list Z) -> bheap -> Prop) h a u b start size : ample h -> nonzero u -> bytes u ->
  start = len a -> size = len u -> len u < 2 ^ 63 ->
  (forall h', ample h' -> bh_live h' = bh_live h + 1 -> Q (Some (u ++ [0])) h') -> wp (substr (a ++ u ++ b) start size) Q h.
Proof.
  intros Ha Hu Hb -> -> Hl HQ. unfold substr. rewrite wrap_id by (unfold in_range, len in *; lia).
  apply wp_bind, wp_bmalloc; [done|unfold len; lia|]. intros buf h1 Ha1 Hlb _ Hlive. apply wp_bind, wp_ret, wp_bind.
  eapply wp_lift.
  { apply substr_loop_spec; [lia|unfold len; lia|unfold len in *; lia|]. intros k Hk.
    assert (k < len u) as Hk2 by (unfold len in *; lia). destruct (lookup_Z_lt u k) as [c Hc]; [unfold len in *; lia|].
    exists c. split_and!; [|exact (Forall_lookup_1 _ _ _ _ Hu Hc)|exact (Forall_lookup_1 _ _ _ _ Hb Hc)].
    replace (Z.to_nat (len a + k)) with (length a + Z.to_nat k)%nat by (unfold len; lia).
    rewrite lookup_app_r by lia. replace (length a + Z.to_nat k - length a)%nat with (Z.to_nat k) by lia.
    apply lookup_app_l_Some. done. }
  replace (Z.to_nat (len u)) with (length u) by (unfold len; lia).
  replace (Z.to_nat (len a + 0)) with (length a) by (unfold len; lia). change (Z.to_nat 0) with 0%nat.
  rewrite take_0, drop_app_length, take_app_length. cbn [app]. rewrite Nat.add_0_l.
  apply wp_bind. eapply wp_lift; [apply bset_ok; unfold len in *; rewrite length_app, length_drop; lia|]. apply wp_ret.
  replace (Z.to_nat (len u)) with (length u + 0)%nat by (unfold len; lia). rewrite insert_app_r.
  rewrite (drop_S buf (default 0 (buf !! length u))).
  - rewrite (drop_ge buf) by (unfold len in *; lia). by apply HQ.
  - destruct (buf !! length u) eqn:E; [done|]. apply lookup_ge_None in E. unfold len in *. lia.
Qed.
