(* ===== verification/HeapStatus.v ===== *)
(** * The allocator's listing (src/memory/allocator.c, [allocator_print_status])

    The free list is walked through the page tables and the size of each block
    is printed, with the number converted in a buffer on the stack. *)
From S2P Require Import Prelude Mem Pmm Vmm VmmTree VmmSpec VmmThms VmmAlloc Heap Allocator AllocInit Util Str.

(** The loop over the list, [buffer] reused for every block. *)
Fixpoint print_blocks (fuel : nat) (curr : Z) (buffer : list Z) : M alloc_state unit :=
  match fuel with
  | O => out_of_fuel
  | S fuel' =>
      if curr =? 0 then ret tt else
      let* size := in_vmm (blk_size curr) in
      let* size_str := lift (num_to_str_no_malloc size (Some buffer) (len buffer)) in
      match size_str with
      | None => undefined
      | Some (p, buffer) =>
          screen_print "  " ;;;
          screen_print (show (drop (Z.to_nat p) buffer)) ;;;
          screen_print "\n" ;;;
          let* next := in_vmm (blk_next curr) in
          print_blocks fuel' next buffer
      end
  end.

Definition allocator_print_status (fuel : nat) : M alloc_state unit :=
  require_init "Tried to print status before kernel heap initialized" (
  let* curr := in_vmm (ld64 (ad_free_list data)) in
  let* k := in_vmm (load_bool (ad_is_kernel data)) in
  let* curr := (if k : bool then in_vmm (ld64 (ad_free_list kernel_data)) else ret curr) in
  screen_print "Memory Blocks {\n" ;;;
  print_blocks fuel curr (replicate 100 0) ;;;
  screen_print "}\n").

(** ** What is printed *)

Definition said {S} `{Console S} (msgs : list string) (st : S) : S := fold_left (fun s m => emit m s) msgs st.

(** A decimal numeral of [n]. *)
Definition numeral (n : Z) (s : string) : Prop :=
  exists ds, s = show ds /\ undec ds = n /\ Forall (fun d => CH_0 <= d < CH_0 + 10) ds.
(** One line for each of the sizes. *)
Inductive size_lines : list Z -> list string -> Prop :=
| no_lines : size_lines [] []
| size_line n s ns ms : numeral n s -> size_lines ns ms -> size_lines (n :: ns) ("  "%string :: s :: "\n"%string :: ms).

Definition free_sizes (l : list tile) : list Z := t_size <$> filter (fun t => t_used t = false) l.

Lemma show_cstring s t : cstring s t -> show s = show t.
Proof.
  intros [Hz [r ->]]. induction Hz as [|c t Hc _ IH]; cbn; [done|]. rewrite (proj2 (Z.eqb_neq c 0)) by done. by rewrite IH.
Qed.

Lemma emit_lookup own st h msgs : mrepr own (avmm st) h -> mrepr own (avmm (said msgs st)) h.
Proof. revert st. induction msgs as [|m ms IH]; intros st Hr; [done|]. apply IH. by apply emit_mrepr. Qed.

(** The header of each free block holds its size. *)
Fixpoint sized (h : gmap Z Z) (fs ns : list Z) : Prop :=
  match fs, ns with
  | [], [] => True
  | a :: fs, n :: ns => (0 < a /\ h !! a = Some n) /\ sized h fs ns
  | _, _ => False
  end.
Lemma headers_sized h a l : 0 < a -> Forall tile_ok l -> headers h a l -> sized h (frees a l) (free_sizes l).
Proof.
  intros Ha Hl. revert a Ha. induction Hl as [|[s u] l [Hs _] _ IH]; intros a Ha; [done|]. intros [Hh Ht].
  unfold HDR, ALIGN in Hs. cbn in *. unfold free_sizes. destruct u; cbn; [by apply IH; [lia|]|].
  split; [done|]. by apply IH; [lia|].
Qed.

Lemma print_blocks_ok own h : forall fs ns c fuel buffer st, mrepr own (avmm st) h -> linked h c fs -> sized h fs ns ->
  Forall (in_range 64) ns -> (length fs < fuel)%nat -> len buffer = 100 ->
  wp (print_blocks fuel (default 0 (head fs)) buffer) (fun _ st' => exists ms, size_lines ns ms /\ st' = said ms st) st.
Proof.
  intros fs. induction fs as [|a fs IH]; intros [|n ns] c [|fuel] buffer st Hr Hl Hs Hn Hf Hb; cbn in Hf, Hs; try lia; try done.
  { apply wp_ret. exists []. by split; [constructor|]. }
  destruct Hs as [[Ha Hh] Hs], Hl as [_ Hl]. apply Forall_cons in Hn as [Hn0 Hn]. change (default 0 (head (a :: fs))) with a. cbn [print_blocks].
  rewrite (proj2 (Z.eqb_neq a 0)) by lia.
  apply wp_bind, wp_zoom, (wp_ld64 (H0 := mmu_mem own) _ _ _ _ _ Hr Hh).
  destruct (num_to_str_no_malloc_correct n buffer Hn0 ltac:(lia)) as (p & b' & ds & E & El & Hc & Hu & Hd & _).
  apply wp_bind. eapply wp_lift; [exact E|]. cbv beta iota. rewrite (show_cstring _ _ Hc).
  apply wp_bind, wp_modify, wp_bind, wp_modify, wp_bind, wp_modify, wp_bind, wp_zoom.
  set (st3 := emit _ (emit _ (emit _ (set_avmm (avmm st) st)))).
  assert (st3 = said ["  "; show ds; "\n"]%string st) as E3 by by destruct st.
  assert (mrepr own (avmm st3) h) as Hr3 by (rewrite E3; by apply emit_lookup).
  apply (wp_ld64 (H0 := mmu_mem own) _ _ _ _ _ Hr3 (linked_head _ _ _ Hl)).
  replace (set_avmm (avmm st3) st3) with st3 by by destruct st3. 
  eapply wp_mono; [apply (IH ns (a + 8)); [done..|lia|lia]|]. intros _ st' (ms & Hm & ->).
  exists ("  "%string :: show ds :: "\n"%string :: ms). split; [|by rewrite E3]. constructor; [|done]. by exists ds.
Qed.

Lemma free_sizes_range h flp lo l : heap_pre h flp lo l -> Forall (in_range 64) (free_sizes l).
Proof.
  intros [[Hlo _] Hhi Ht _ _ _ _]. assert (total l < 2 ^ 64) as Hl by lia. clear -Ht Hl. unfold free_sizes.
  induction Ht as [|[s u] l [Hs _] Ht IH]; [constructor|]. pose proof (total_nonneg _ Ht). unfold HDR, ALIGN in Hs. cbn in *.
  destruct u; cbn; [apply IH; lia|]. constructor; [unfold in_range; cbn; lia|apply IH; lia].
Qed.

Lemma set_avmm_id st : set_avmm (avmm st) st = st.
Proof. by destruct st. Qed.

(** The listing names exactly the free blocks of the current heap, in address
    order, and changes nothing but the screen. *)
Theorem allocator_print_status_correct own st h w lo l fuel :
  let d := if Z.land w 255 =? 0 then data else kernel_data in
  kernel_heap_initialized st = true -> mrepr own (avmm st) h -> h !! ad_is_kernel data = Some w ->
  is_Some (h !! ad_free_list data) -> heap_ok h d lo l -> (length (frees lo l) < fuel)%nat ->
  wp (allocator_print_status fuel) (fun _ st' => exists ms, size_lines (free_sizes l) ms /\
    st' = said ("Memory Blocks {\n"%string :: ms ++ ["}\n"%string]) st) st.
Proof.
  intros d Hi Hr Hw [v Hv] [Hp _] Hf. unfold allocator_print_status, require_init. apply wp_bind, wp_gets. rewrite Hi. cbn [negb].
  apply wp_bind, wp_zoom, (wp_ld64 (H0 := mmu_mem own) _ _ _ _ _ Hr Hv). rewrite set_avmm_id.
  apply wp_bind, wp_zoom, wp_bind, (wp_ld64 (H0 := mmu_mem own) _ _ _ _ _ Hr Hw), wp_ret. rewrite set_avmm_id.
  pose proof (linked_head _ _ _ (ho_linked _ _ _ _ Hp)) as Hh. apply wp_bind. apply (wp_mono _ (fun c st' => c = default 0 (head (frees lo l)) /\ st' = st)).
  { unfold d in Hh. destruct (_ =? 0); cbn [negb].
    - apply wp_ret. split; [|done]. unfold ad_free_list in Hv. congruence.
    - apply wp_zoom, (wp_ld64 (H0 := mmu_mem own) _ _ _ _ _ Hr Hh). by rewrite set_avmm_id. }
  intros _ _ [-> ->]. apply wp_bind, wp_modify, wp_bind.
  eapply wp_mono; [apply (print_blocks_ok own h _ (free_sizes l) d)|].
  - by apply emit_mrepr.
  - apply Hp.
  - apply headers_sized; apply Hp.
  - eapply free_sizes_range, Hp.
  - done.
  - done.
  - intros _ st' (ms & Hm & ->). apply wp_modify. exists ms. split; [done|]. unfold said. cbn [fold_left]. by rewrite fold_left_app.
Qed.
