(* ===== verification/Ata.v ===== *)
(** * The ATA disk driver (src/filesystem.c, lines 14 to 229)

    [read_sectors] and [write_sectors] drive the disk controller through I/O
    ports.  The controller is not part of the sources: it is any device with
    the documented PIO protocol ([AtaSpec]); [SimDisk] is one.  The theorems
    show that the port-level code implements a plain byte array. *)
From Stdlib Require Import QArith Qround.
From S2P Require Import Prelude Mem Util Str.
#[local] Open Scope Z_scope.

Definition ATA_DATA : Z := 0x1F0.
Definition ATA_SECTORS : Z := 0x1F2.
Definition ATA_LBA_LOW : Z := 0x1F3.
Definition ATA_LBA_MID : Z := 0x1F4.
Definition ATA_LBA_HIGH : Z := 0x1F5.
Definition ATA_DRIVE_SELECT : Z := 0x1F6.
Definition ATA_COMMAND_STATUS : Z := 0x1F7.
Definition ATA_STATUS_BUSY : Z := 0x80.
Definition ATA_STATUS_DATA_REQUEST_READY : Z := 0x08.
Definition ATA_DRIVE_SELECT_SLAVE : Z := 0xB0.
Definition ATA_DRIVE_SELECT_SLAVE_LBA : Z := 0xF0.
Definition SECTOR_SIZE : Z := 512.

(** ** I/O ports *)

Class Ports (D : Type) := {
  outb : Z -> Z -> D -> D;
  inb : Z -> D -> Z * D;
  outw : Z -> Z -> D -> D;
  inw : Z -> D -> Z * D
}.

Section Driver.
Context {D : Type} `{Ports D}.

Definition io_outb (port val : Z) : M D unit := modify (outb port (u8 val)).
Definition io_inb (port : Z) : M D Z := fun d => OK (inb port d).
Definition io_outw (port val : Z) : M D unit := modify (outw port (u16 val)).
Definition io_inw (port : Z) : M D Z := fun d => OK (inw port d).

Fixpoint wait_busy (fuel : nat) : M D unit :=
  match fuel with
  | O => out_of_fuel
  | S fuel' =>
      let* status := io_inb ATA_COMMAND_STATUS in
      if negb (Z.land status ATA_STATUS_BUSY =? 0) then wait_busy fuel' else ret tt
  end.
Fixpoint wait_data_request_ready (fuel : nat) : M D unit :=
  match fuel with
  | O => out_of_fuel
  | S fuel' =>
      let* status := io_inb ATA_COMMAND_STATUS in
      if Z.land status ATA_STATUS_DATA_REQUEST_READY =? 0 then wait_data_request_ready fuel' else ret tt
  end.

(** [const uint8_t count = ceil((double)size / SECTOR_SIZE);]: a result
    outside [uint8_t] makes the conversion undefined. *)
Definition sector_cnt (size : Z) : outcome Z :=
  obind (ceil (Qmake size 512)) (fun q =>
    let z := Z.quot (Qnum q) (QDen q) in if (0 <=? z) && (z <? 256) then OK z else UB).

(** The command block both directions write, [cmd] being 0x20 or 0x30. *)
Definition ata_command (lba count cmd : Z) : M D unit :=
  io_outb ATA_DRIVE_SELECT (Z.lor ATA_DRIVE_SELECT_SLAVE_LBA (Z.land (Z.shiftr lba 24) 15)) ;;;
  io_outb ATA_SECTORS count ;;;
  io_outb ATA_LBA_LOW (u8 lba) ;;;
  io_outb ATA_LBA_MID (u8 (Z.shiftr lba 8)) ;;;
  io_outb ATA_LBA_HIGH (u8 (Z.shiftr lba 16)) ;;;
  io_outb ATA_COMMAND_STATUS cmd.

(** [t[word_idx] = v] for a [uint16_t* t]. *)
Definition put16 (t : list Z) (word_idx v : Z) : outcome (list Z) :=
  obind (bset t (2 * word_idx) v) (fun t => bset t (2 * word_idx + 1) (Z.shiftr v 8)).
Definition get16 (s : list Z) (word_idx : Z) : outcome Z :=
  obind (bget s (2 * word_idx)) (fun lo => obind (bget s (2 * word_idx + 1)) (fun hi => OK (lo + 256 * hi))).

Fixpoint read_words (n : nat) (word_idx size : Z) (t : list Z) : M D (list Z) :=
  match n with
  | O => ret t
  | S n' =>
      let byte_idx := word_idx * 2 in
      let* data := io_inw ATA_DATA in
      let* t := lift (if byte_idx <? size then
                        if size <=? byte_idx + 1 then put16 t word_idx (Z.land data 0xFF)
                        else put16 t word_idx data
                      else OK t) in
      read_words n' (word_idx + 1) size t
  end.
Fixpoint read_secs (fuel n : nat) (j size : Z) (t : list Z) : M D (list Z) :=
  match n with
  | O => ret t
  | S n' =>
      wait_busy fuel ;;; wait_data_request_ready fuel ;;;
      let* t := read_words 256 (j * 256) size t in
      read_secs fuel n' (j + 1) size t
  end.
Definition read_sectors (fuel : nat) (sector_count lba : Z) (target : list Z) (size : Z) : M D (list Z) :=
  let* count := lift (sector_cnt size) in
  if (count <? 1) || (sector_count <=? u32 (lba + count)) then ret target else
  wait_busy fuel ;;;
  ata_command lba count 0x20 ;;;
  read_secs fuel (Z.to_nat count) 0 size target.

Fixpoint write_words (n : nat) (word_idx size : Z) (s : list Z) : M D unit :=
  match n with
  | O => ret tt
  | S n' =>
      let byte_idx := word_idx * 2 in
      (if byte_idx <? size then
         let* data := lift (if size <=? byte_idx + 1 then bget s byte_idx else get16 s word_idx) in
         io_outw ATA_DATA data
       else io_outw ATA_DATA 0) ;;;
      write_words n' (word_idx + 1) size s
  end.
Fixpoint write_secs (fuel n : nat) (j size : Z) (s : list Z) : M D unit :=
  match n with
  | O => ret tt
  | S n' =>
      wait_busy fuel ;;; wait_data_request_ready fuel ;;;
      write_words 256 (j * 256) size s ;;;
      write_secs fuel n' (j + 1) size s
  end.
Definition write_sectors (fuel : nat) (writable_drive : bool) (sector_count lba : Z) (src : list Z) (size : Z) : M D unit :=
  let* count := lift (sector_cnt size) in
  if negb writable_drive || (count <? 1) || (sector_count <=? u32 (lba + count)) then ret tt else
  wait_busy fuel ;;;
  ata_command lba count 0x30 ;;;
  write_secs fuel (Z.to_nat count) 0 size src.
End Driver.

(** ** The controller's documented behaviour *)

Inductive ata_mode := Idle | Reading (addr words : Z) | Writing (addr words : Z).
Definition xfer_next (rd : bool) (addr words : Z) : ata_mode :=
  if words =? 1 then Idle else if rd then Reading (addr + 2) (words - 1) else Writing (addr + 2) (words - 1).

Class AtaSpec (D : Type) `{Ports D} := {
  contents : D -> mem;
  mode : D -> ata_mode;
  polls : D -> nat;                 (* status reads that still answer busy *)
  max_polls : nat;
  polls_max d : (polls d <= max_polls)%nat;
  (** status register *)
  status_spec d : let (s, d') := inb ATA_COMMAND_STATUS d in
    contents d' = contents d /\ mode d' = mode d /\ polls d' = pred (polls d) /\
    (Z.land s ATA_STATUS_BUSY = 0 <-> polls d = 0%nat) /\
    (polls d = 0%nat -> mode d <> Idle -> Z.land s ATA_STATUS_DATA_REQUEST_READY <> 0);
  (** READ SECTORS and WRITE SECTORS, 28-bit LBA, second drive *)
  command_spec d lba count rd : mode d = Idle -> polls d = 0%nat -> 0 <= lba < 2 ^ 28 -> 1 <= count < 256 ->
    let d' := outb ATA_COMMAND_STATUS (if rd : bool then 0x20 else 0x30)
      (outb ATA_LBA_HIGH (u8 (Z.shiftr lba 16)) (outb ATA_LBA_MID (u8 (Z.shiftr lba 8))
      (outb ATA_LBA_LOW (u8 lba) (outb ATA_SECTORS count
      (outb ATA_DRIVE_SELECT (Z.lor ATA_DRIVE_SELECT_SLAVE_LBA (Z.land (Z.shiftr lba 24) 15)) d))))) in
    contents d' = contents d /\
    mode d' = if rd then Reading (512 * lba) (256 * count) else Writing (512 * lba) (256 * count);
  (** data register *)
  inw_spec d a n : mode d = Reading a n -> 0 < n -> polls d = 0%nat ->
    let (v, d') := inw ATA_DATA d in
    v = rd16 (contents d) a /\ contents d' = contents d /\ mode d' = xfer_next true a n /\
    ((n - 1) mod 256 <> 0 -> polls d' = 0%nat);
  outw_spec d a n v : mode d = Writing a n -> 0 < n -> polls d = 0%nat -> in_range 16 v ->
    let d' := outw ATA_DATA v d in
    contents d' = wr16 (contents d) a v /\ mode d' = xfer_next false a n /\
    ((n - 1) mod 256 <> 0 -> polls d' = 0%nat)
}.

(** ** Sector counts *)

Lemma sector_cnt_spec size : 0 <= size < 2 ^ 39 ->
  sector_cnt size = let c := (size + 511) / 512 in if c <? 256 then OK c else UB.
Proof.
  intros Hs. unfold sector_cnt.
  destruct (ceil_ok (Qmake size 512)) as (q & -> & Hq); [unfold Qlt, int_min; cbn; lia|unfold Qlt, int_max; cbn; lia|].
  cbn [obind]. unfold Qceiling, Qfloor in Hq. cbn [Qopp Qnum Qden] in Hq.
  replace (- (- size / 512)) with ((size + 511) / 512) in Hq by divlia.
  set (c := (size + 511) / 512) in *. assert (0 <= c) by (unfold c; divlia).
  assert (Z.quot (Qnum q) (QDen q) = c) as ->.
  { unfold Qeq, inject_Z in Hq. cbn in Hq. rewrite Z.mul_1_r in Hq. rewrite Hq. apply Z.quot_mul. done. }
  rewrite (proj2 (Z.leb_le 0 c)) by lia. done.
Qed.

(** ** The polling loops *)

Section Proofs.
Context {D : Type} `{AtaSpec D}.

Lemma wp_wait_busy (Q : unit -> D -> Prop) fuel d : (max_polls < fuel)%nat ->
  (forall d', contents d' = contents d -> mode d' = mode d -> polls d' = 0%nat -> Q tt d') -> wp (wait_busy fuel) Q d.
Proof.
  intros Hf. assert (polls d < fuel)%nat as Hp by (pose proof (polls_max d); lia). clear Hf. revert d Hp.
  induction fuel as [|fuel IH]; intros d Hp HQ; [lia|]. cbn [wait_busy]. apply wp_bind.
  unfold io_inb, wp. pose proof (status_spec d) as Hs. destruct (inb ATA_COMMAND_STATUS d) as [s d'].
  destruct Hs as (Hc & Hm & Hpo & Hb & _). destruct (Z.eqb_spec (Z.land s ATA_STATUS_BUSY) 0) as [E|E]; cbn [negb].
  - apply Hb in E. apply HQ; [done|done|lia].
  - assert (polls d <> 0%nat) by tauto. apply IH; [lia|]. intros d2 ???. apply HQ; [congruence..|done].
Qed.

Lemma wp_wait_drq (Q : unit -> D -> Prop) fuel d : (0 < fuel)%nat -> polls d = 0%nat -> mode d <> Idle ->
  (forall d', contents d' = contents d -> mode d' = mode d -> polls d' = 0%nat -> Q tt d') ->
  wp (wait_data_request_ready fuel) Q d.
Proof.
  intros Hf Hp Hm HQ. destruct fuel as [|fuel]; [lia|]. cbn [wait_data_request_ready]. apply wp_bind.
  unfold io_inb, wp. pose proof (status_spec d) as Hs. destruct (inb ATA_COMMAND_STATUS d) as [s d'].
  destruct Hs as (Hc & Hm' & Hpo & _ & Hd). rewrite (proj2 (Z.eqb_neq _ 0)) by auto. apply HQ; [done|done|lia].
Qed.

Lemma wp_command (Q : unit -> D -> Prop) d lba count rd : mode d = Idle -> polls d = 0%nat -> 0 <= lba < 2 ^ 28 ->
  1 <= count < 256 ->
  (forall d', contents d' = contents d ->
     mode d' = (if rd : bool then Reading (512 * lba) (256 * count) else Writing (512 * lba) (256 * count)) -> Q tt d') ->
  wp (ata_command lba count (if rd then 0x20 else 0x30)) Q d.
Proof.
  intros Hm Hp Hl Hc HQ. destruct (command_spec d lba count rd Hm Hp Hl Hc) as [Ec Em].
  unfold ata_command, io_outb. do 5 apply wp_bind, wp_modify. apply wp_modify.
  rewrite (wrap_id 8 count), !wrap_wrap by (unfold in_range; lia).
  assert (u8 (Z.lor ATA_DRIVE_SELECT_SLAVE_LBA (Z.land (Z.shiftr lba 24) 15)) =
          Z.lor ATA_DRIVE_SELECT_SLAVE_LBA (Z.land (Z.shiftr lba 24) 15)) as ->.
  { apply wrap_id. change 15 with (Z.ones 4). rewrite Z.land_ones by lia.
    pose proof (Z.mod_pos_bound (Z.shiftr lba 24) (2 ^ 4) ltac:(lia)) as Hb. set (x := _ mod _) in *. clearbody x.
    assert (x = 0 \/ x = 1 \/ x = 2 \/ x = 3 \/ x = 4 \/ x = 5 \/ x = 6 \/ x = 7 \/ x = 8 \/ x = 9 \/ x = 10 \/ x = 11 \/
      x = 12 \/ x = 13 \/ x = 14 \/ x = 15) as Hx by lia. clear -Hx. by repeat destruct Hx as [->|Hx]; subst. }
  replace (u8 (if rd then 0x20 else 0x30)) with (if rd then 0x20 else 0x30) by by destruct rd. by apply HQ.
Qed.
End Proofs.

(** ** Reading *)

(** [t] holds the disk's bytes from [A] on up to word [w] of a transfer of
    [size] bytes into [t0]; an odd transfer clears one byte more. *)
Definition read_upto (m : mem) (A size : Z) (t0 : list Z) (w : Z) (t : list Z) : Prop :=
  length t = length t0 /\ forall b : nat, t !! b =
    if decide (Z.of_nat b < 2 * w /\ Z.of_nat b < size) then Some (rd8 m (A + Z.of_nat b))
    else if decide (Z.of_nat b = size /\ size < 2 * w /\ size mod 2 = 1) then Some 0 else t0 !! b.

Lemma rd16_bytes m a : u8 (rd16 m a) = rd8 m a /\ u8 (Z.shiftr (rd16 m a) 8) = rd8 m (a + 1) /\
  Z.land (rd16 m a) 0xFF = rd8 m a.
Proof.
  change (rd16 m a) with (rd8 m a + 256 * (rd8 m (a + 1) + 256 * 0)).
  pose proof (rd8_range m a). pose proof (rd8_range m (a + 1)).
  rewrite Z.shiftr_div_pow2 by lia. change 255 with (Z.ones 8). rewrite Z.land_ones by lia. unfold wrap.
  change (2 ^ 8) with 256. split_and!; divlia.
Qed.

Lemma put16_lookup t w v : 0 <= w -> 2 * w + 2 <= len t -> exists t', put16 t w v = OK t' /\ length t' = length t /\
  forall b : nat, t' !! b = if decide (Z.of_nat b = 2 * w) then Some (u8 v)
    else if decide (Z.of_nat b = 2 * w + 1) then Some (u8 (Z.shiftr v 8)) else t !! b.
Proof.
  unfold len. intros Hw Hl. unfold put16. rewrite bset_ok by (unfold len; lia). cbn [obind].
  rewrite bset_ok by (unfold len; rewrite length_insert; lia). eexists. split; [done|]. split; [by rewrite !length_insert|].
  intros b. destruct (decide (Z.of_nat b = 2 * w)) as [E|E].
  - rewrite list_lookup_insert_ne by lia. replace b with (Z.to_nat (2 * w)) by lia. apply list_lookup_insert_eq. lia.
  - destruct (decide (Z.of_nat b = 2 * w + 1)) as [E'|E'].
    + replace b with (Z.to_nat (2 * w + 1)) by lia. apply list_lookup_insert_eq. rewrite length_insert. lia.
    + by rewrite !list_lookup_insert_ne by lia.
Qed.

(** The effect of storing one word. *)
Lemma read_step m A size t0 w t : 0 <= w -> 0 <= size -> size + size mod 2 <= len t0 -> read_upto m A size t0 w t ->
  exists t', (if w * 2 <? size then
     if size <=? w * 2 + 1 then put16 t w (Z.land (rd16 m (A + 2 * w)) 0xFF) else put16 t w (rd16 m (A + 2 * w))
   else OK t) = OK t' /\ read_upto m A size t0 (w + 1) t'.
Proof.
  intros Hw Hs Hl [El Ht]. destruct (rd16_bytes m (A + 2 * w)) as (B0 & B1 & B2). unfold len in *.
  destruct (Z.ltb_spec (w * 2) size) as [Hlt|Hge].
  - destruct (Z.leb_spec size (w * 2 + 1)) as [Hle|Hgt].
    + rewrite B2. destruct (put16_lookup t w (rd8 m (A + 2 * w))) as (t' & -> & El' & Ht'); [done|unfold len; divlia|].
      exists t'. split; [done|]. split; [congruence|]. intros b. rewrite Ht', Ht. clear Ht Ht' B0 B1 B2.
      pose proof (rd8_range m (A + 2 * w)) as Hr.
      repeat case_decide; try done; try divlia.
      * f_equal. rewrite wrap_id by (unfold in_range; lia). f_equal. lia.
      * f_equal. rewrite Z.shiftr_div_pow2 by lia. change (2 ^ 8) with 256. rewrite Z.div_small by lia. done.
    + destruct (put16_lookup t w (rd16 m (A + 2 * w))) as (t' & -> & El' & Ht'); [done|unfold len; divlia|].
      exists t'. split; [done|]. split; [congruence|]. intros b. rewrite Ht', Ht, B0, B1. clear Ht Ht' B0 B1 B2.
      repeat case_decide; try done; try divlia; f_equal; f_equal; lia.
  - exists t. split; [done|]. split; [done|]. intros b. rewrite Ht. clear Ht B0 B1 B2. repeat case_decide; try done; divlia.
Qed.

(** The mode of a transfer of [words] words, over when none is left. *)
Definition xfer (rd : bool) (a words : Z) : ata_mode :=
  if words =? 0 then Idle else if rd then Reading a words else Writing a words.
Lemma xfer_pos rd a n : n <> 0 -> xfer rd a n = if rd then Reading a n else Writing a n.
Proof. intros Hn. unfold xfer. by rewrite (proj2 (Z.eqb_neq n 0)). Qed.
Lemma xfer_next_eq rd a n : xfer_next rd a n = xfer rd (a + 2) (n - 1).
Proof.
  unfold xfer_next, xfer. destruct (Z.eqb_spec n 1) as [->|]; [done|]. by rewrite (proj2 (Z.eqb_neq (n - 1) 0)) by lia.
Qed.

Section Read.
Context {D : Type} `{AtaSpec D}.
Context (m : mem) (A size : Z) (t0 : list Z) (Hsize : 0 <= size) (Hroom : size + size mod 2 <= len t0).

Lemma wp_read_words (Q : list Z -> D -> Prop) n w t d left : 0 <= w -> contents d = m ->
  mode d = xfer true (A + 2 * w) (Z.of_nat n + 256 * left) -> (n <= 256)%nat -> 0 <= left -> (n <> 0%nat -> polls d = 0%nat) ->
  read_upto m A size t0 w t ->
  (forall t' d', contents d' = m -> mode d' = xfer true (A + 2 * (w + Z.of_nat n)) (256 * left) ->
     read_upto m A size t0 (w + Z.of_nat n) t' -> Q t' d') ->
  wp (read_words n w size t) Q d.
Proof using Hsize Hroom.
  revert w t d. induction n as [|n IH]; intros w t d Hw Hc Hm Hn Hleft Hp Ht HQ; cbn [read_words].
  { apply wp_ret. apply HQ; [done|by rewrite Z.add_0_r|by rewrite Z.add_0_r]. }
  apply wp_bind. unfold io_inw, wp.
  pose proof (inw_spec d (A + 2 * w) (Z.of_nat (S n) + 256 * left)) as Hi.
  rewrite xfer_pos in Hm by lia. specialize (Hi Hm ltac:(lia) (Hp ltac:(done))).
  destruct (inw ATA_DATA d) as [v d1]. destruct Hi as (-> & Hc1 & Hm1 & Hp1). rewrite Hc.
  change (wp (let* t1 := lift (if w * 2 <? size then if size <=? w * 2 + 1 then put16 t w (Z.land (rd16 m (A + 2 * w)) 255)
    else put16 t w (rd16 m (A + 2 * w)) else OK t) in read_words n (w + 1) size t1) Q d1).
  destruct (read_step m A size t0 w t Hw Hsize Hroom Ht) as (t1 & E & Ht1). apply wp_bind. eapply wp_step; [unfold lift; by rewrite E|].
  apply IH; [lia|congruence| |lia|done| |done|].
  - rewrite Hm1, xfer_next_eq. f_equal; lia.
  - intros Hn0. apply Hp1. divlia.
  - intros t' d' Hc' Hm' Ht'. apply HQ; [done| |by replace (w + Z.of_nat (S n)) with (w + 1 + Z.of_nat n) by lia].
    rewrite Hm'. f_equal. lia.
Qed.

Lemma wp_read_secs (Q : list Z -> D -> Prop) fuel n j t d : (max_polls < fuel)%nat -> 0 <= j -> contents d = m ->
  mode d = xfer true (A + 512 * j) (256 * Z.of_nat n) -> read_upto m A size t0 (256 * j) t ->
  (forall t' d', contents d' = m -> mode d' = Idle -> read_upto m A size t0 (256 * (j + Z.of_nat n)) t' -> Q t' d') ->
  wp (read_secs fuel n j size t) Q d.
Proof using Hsize Hroom.
  intros Hf. revert j t d. induction n as [|n IH]; intros j t d Hj Hc Hm Ht HQ; cbn [read_secs].
  { apply wp_ret. apply HQ; [done|done|]. by rewrite Z.add_0_r. }
  apply wp_bind, wp_wait_busy; [done|]. intros d1 Hc1 Hm1 Hp1.
  apply wp_bind, wp_wait_drq; [lia|done|rewrite Hm1, Hm, xfer_pos by lia; done|]. intros d2 Hc2 Hm2 Hp2.
  apply wp_bind. eapply (wp_read_words _ 256 (j * 256) t d2 (Z.of_nat n)); [lia|congruence| |lia|lia|done|by replace (j * 256) with (256 * j) by lia|].
  - rewrite Hm2, Hm1, Hm. f_equal; lia.
  - intros t' d' Hc' Hm' Ht'. apply IH; [lia|done| | |].
    + rewrite Hm'. f_equal; lia.
    + by replace (256 * (j + 1)) with (j * 256 + Z.of_nat 256) by lia.
    + intros t3 d3 Hc3 Hm3 Ht3. apply HQ; [done|done|]. by replace (j + Z.of_nat (S n)) with (j + 1 + Z.of_nat n) by lia.
Qed.
End Read.

(** What a read of [size] bytes at sector [lba] leaves in the target buffer. *)
Definition disk_read (m : mem) (lba size : Z) (target : list Z) : list Z :=
  rd_bytes (Z.to_nat size) m (512 * lba) ++ (if size mod 2 =? 1 then [0] else [])
  ++ drop (Z.to_nat (size + size mod 2)) target.

Lemma lookup_rd_bytes n m a i : (i < n)%nat -> rd_bytes n m a !! i = Some (rd8 m (a + Z.of_nat i)).
Proof.
  revert a i. induction n as [|n IH]; intros a i Hi; [lia|]. destruct i as [|i]; cbn; [by rewrite Z.add_0_r|].
  rewrite IH by lia. do 2 f_equal. lia.
Qed.

Lemma read_upto_eq m lba size t0 w t : 0 <= size -> size + size mod 2 <= len t0 -> size < 2 * w \/ size = 2 * w ->
  read_upto m (512 * lba) size t0 w t -> t = disk_read m lba size t0.
Proof.
  intros Hs Hl Hw [El Ht]. apply list_eq. intros b. rewrite Ht. clear Ht. unfold disk_read, len in *.
  pose proof (length_rd_bytes (Z.to_nat size) m (512 * lba)) as Lr.
  destruct (decide (Z.of_nat b < size)) as [Hb|Hb].
  - rewrite decide_True by lia. rewrite lookup_app_l by lia. by rewrite lookup_rd_bytes by lia.
  - rewrite decide_False by lia. rewrite lookup_app_r by lia. rewrite Lr.
    destruct (Z.eqb_spec (size mod 2) 1) as [Ho|Ho].
    + destruct (decide (Z.of_nat b = size)) as [E|E].
      * rewrite decide_True by divlia. by replace (b - Z.to_nat size)%nat with 0%nat by lia.
      * rewrite decide_False by lia. rewrite lookup_app_r by (cbn; lia). cbn [length]. rewrite lookup_drop. f_equal. lia.
    + rewrite decide_False by lia. cbn [app]. rewrite lookup_drop. f_equal. divlia.
Qed.

(** ** Writing *)

(** The sectors written: the data padded with zeros. *)
Definition padded (size : Z) (src : list Z) : list Z :=
  take (Z.to_nat size) src ++ replicate (Z.to_nat ((size + 511) / 512 * 512 - size)) 0.
Definition disk_write (m : mem) (lba size : Z) (src : list Z) : mem := blit m (512 * lba) (padded size src).

Lemma blit_app m a l1 l2 : blit m a (l1 ++ l2) = blit (blit m a l1) (a + len l1) l2.
Proof.
  revert m a. induction l1 as [|x l IH]; intros m a; cbn [app].
  - unfold len. cbn. by rewrite Z.add_0_r.
  - change (blit (wr8 m a x) (a + 1) (l ++ l2) = blit (blit (wr8 m a x) (a + 1) l) (a + len (x :: l)) l2).
    rewrite IH. f_equal. unfold len. cbn. lia.
Qed.

Lemma wr16_blit m a lo hi : in_range 8 lo -> in_range 8 hi -> wr16 m a (lo + 256 * hi) = blit m a [lo; hi].
Proof.
  unfold in_range. intros Hl Hh.
  change (wr16 m a (lo + 256 * hi)) with (wr8 (wr8 m a (lo + 256 * hi)) (a + 1) ((lo + 256 * hi) / 256)).
  change (blit m a [lo; hi]) with (wr8 (wr8 m a lo) (a + 1) hi). unfold wr8, wrap. change (2 ^ 8) with 256.
  replace ((lo + 256 * hi) mod 256) with (lo mod 256) by divlia. by replace ((lo + 256 * hi) / 256) with hi by divlia.
Qed.

Lemma padded_lookup size src b : 0 <= size <= len src -> (Z.of_nat b < (size + 511) / 512 * 512) ->
  padded size src !! b = if decide (Z.of_nat b < size) then src !! b else Some 0.
Proof.
  unfold len. intros Hs Hb. unfold padded. case_decide.
  - rewrite lookup_app_l by (rewrite length_take; lia). apply lookup_take_lt. lia.
  - rewrite lookup_app_r by (rewrite length_take; lia). apply lookup_replicate_2. rewrite length_take. lia.
Qed.

Section Write.
Context {D : Type} `{AtaSpec D}.
Context (A size : Z) (src : list Z) (Hsize : 0 <= size <= len src) (Hbytes : bytes src).
Let P := padded size src.

(** One word, as the code fetches it. *)
Lemma write_word w : 0 <= w -> 2 * w + 2 <= (size + 511) / 512 * 512 -> exists lo hi,
  P !! Z.to_nat (2 * w) = Some lo /\ P !! Z.to_nat (2 * w + 1) = Some hi /\ in_range 8 lo /\ in_range 8 hi /\
  (if w * 2 <? size then
     let* data := lift (if size <=? w * 2 + 1 then bget src (w * 2) else get16 src w) in io_outw (D := D) ATA_DATA data
   else io_outw ATA_DATA 0) = io_outw ATA_DATA (lo + 256 * hi).
Proof using Hsize Hbytes.
  intros Hw Hl. unfold P. rewrite !padded_lookup by (done || lia).
  assert (forall i, 0 <= i < size -> exists c, src !! Z.to_nat i = Some c /\ bget src i = OK c /\ in_range 8 c) as Hsrc.
  { intros i Hi. destruct (lookup_Z_lt src i) as [c Hc]; [unfold len in *; lia|]. exists c. split; [done|].
    split; [by apply bget_lookup; [lia|]|]. by eapply Forall_lookup_1. }
  destruct (Z.ltb_spec (w * 2) size) as [H1|H1].
  - destruct (Hsrc (2 * w)) as (lo & Hlo & Glo & Rlo); [lia|]. exists lo. destruct (Z.leb_spec size (w * 2 + 1)) as [H2|H2].
    + exists 0. rewrite decide_True, decide_False by lia. split_and!; [done|done|done|unfold in_range; lia|].
      replace (w * 2) with (2 * w) by lia. rewrite Glo. by rewrite Z.mul_0_r, Z.add_0_r.
    + destruct (Hsrc (2 * w + 1)) as (hi & Hhi & Ghi & Rhi); [lia|]. exists hi. rewrite !decide_True by lia. split_and!; [done..|].
      unfold get16. rewrite Glo. cbn [obind]. rewrite Ghi. done.
  - exists 0, 0. rewrite !decide_False by lia. split_and!; try done; unfold in_range; lia.
Qed.

Lemma wp_write_words (Q : unit -> D -> Prop) n w d left m : 0 <= w -> contents d = blit m A (take (Z.to_nat (2 * w)) P) ->
  mode d = xfer false (A + 2 * w) (Z.of_nat n + 256 * left) -> (n <= 256)%nat -> 0 <= left -> (n <> 0%nat -> polls d = 0%nat) ->
  2 * (w + Z.of_nat n) <= (size + 511) / 512 * 512 ->
  (forall d', contents d' = blit m A (take (Z.to_nat (2 * (w + Z.of_nat n))) P) ->
     mode d' = xfer false (A + 2 * (w + Z.of_nat n)) (256 * left) -> Q tt d') ->
  wp (write_words n w size src) Q d.
Proof using Hsize Hbytes.
  revert w d. induction n as [|n IH]; intros w d Hw Hc Hm Hn Hleft Hp Hl HQ; cbn [write_words].
  { apply wp_ret. rewrite Z.add_0_r in HQ. by apply HQ. }
  destruct (write_word w Hw ltac:(lia)) as (lo & hi & Plo & Phi & Rlo & Rhi & ->). unfold in_range in Rlo, Rhi.
  apply wp_bind, wp_modify. rewrite (wrap_id 16) by (unfold in_range; lia). rewrite xfer_pos in Hm by lia.
  destruct (outw_spec d _ _ (lo + 256 * hi) Hm ltac:(lia) (Hp ltac:(done)) ltac:(unfold in_range; lia)) as (Hc1 & Hm1 & Hp1).
  rewrite xfer_next_eq in Hm1. apply IH; [lia| | |lia|done| |lia|].
  - rewrite Hc1, Hc, wr16_blit by (unfold in_range; lia).
    replace (Z.to_nat (2 * (w + 1))) with (S (S (Z.to_nat (2 * w)))) by lia.
    assert (take (S (S (Z.to_nat (2 * w)))) P = take (Z.to_nat (2 * w)) P ++ [lo; hi]) as ->.
    { rewrite (take_S_r P _ hi) by (by replace (S (Z.to_nat (2 * w))) with (Z.to_nat (2 * w + 1)) by lia).
      rewrite (take_S_r P _ lo) by done. by rewrite <- app_assoc. }
    rewrite blit_app. f_equal. unfold len. rewrite length_take. apply lookup_lt_Some in Plo. lia.
  - rewrite Hm1. f_equal; lia.
  - intros Hn0. apply Hp1. divlia.
  - intros d' Hc' Hm'. replace (w + 1 + Z.of_nat n) with (w + Z.of_nat (S n)) in Hc', Hm' by lia. by apply HQ.
Qed.

Lemma wp_write_secs (Q : unit -> D -> Prop) fuel n j d m : (max_polls < fuel)%nat -> 0 <= j ->
  contents d = blit m A (take (Z.to_nat (512 * j)) P) ->
  mode d = xfer false (A + 512 * j) (256 * Z.of_nat n) -> j + Z.of_nat n = (size + 511) / 512 ->
  (forall d', contents d' = blit m A P -> mode d' = Idle -> Q tt d') ->
  wp (write_secs fuel n j size src) Q d.
Proof using Hsize Hbytes.
  intros Hf. revert j d. induction n as [|n IH]; intros j d Hj Hc Hm Hn HQ; cbn [write_secs].
  { apply wp_ret. apply HQ; [|done]. rewrite Hc. f_equal. apply take_ge. unfold P, padded, len in *.
    rewrite length_app, length_take, length_replicate. assert (size <= (size + 511) / 512 * 512) by divlia. lia. }
  apply wp_bind, wp_wait_busy; [done|]. intros d1 Hc1 Hm1 Hp1.
  apply wp_bind, wp_wait_drq; [lia|done|rewrite Hm1, Hm, xfer_pos by lia; done|]. intros d2 Hc2 Hm2 Hp2.
  apply wp_bind. apply (wp_write_words _ 256 (j * 256) d2 (Z.of_nat n) m); [lia| | |lia|lia|done|lia|].
  - rewrite Hc2, Hc1, Hc. do 2 f_equal. lia.
  - rewrite Hm2, Hm1, Hm. f_equal; lia.
  - intros d' Hc' Hm'. apply IH; [lia| | |lia|done].
    + rewrite Hc'. do 2 f_equal. lia.
    + rewrite Hm'. f_equal; lia.
Qed.
End Write.

(** ** The port-level driver implements a byte array *)

(** Whether a transfer of [size] bytes at [lba] takes place: at least one
    sector, and below the last sector of the disk. *)
Definition transfers (sector_count lba size : Z) : bool :=
  (1 <=? (size + 511) / 512) && (u32 (lba + (size + 511) / 512) <? sector_count).

(** C26: [read_sectors] with at most 255 sectors, on any controller that
    follows the PIO protocol and any amount of busy polling within its bound:
    it terminates, leaves the disk unchanged and idle, and the target buffer
    holds exactly the disk's bytes at sector [lba] (an odd size also clears
    the byte after it); when nothing is to be read or the range reaches the
    last sector, the buffer is left as it was. *)
Theorem read_sectors_correct {D} `{AtaSpec D} d sector_count lba target size fuel :
  (max_polls < fuel)%nat -> mode d = Idle -> 0 <= lba < 2 ^ 28 -> 0 <= size <= 255 * 512 ->
  size + size mod 2 <= len target ->
  wp (read_sectors fuel sector_count lba target size) (fun t d' =>
    contents d' = contents d /\ mode d' = Idle /\
    t = if transfers sector_count lba size then disk_read (contents d) lba size target else target) d.
Proof.
  intros Hf Hm Hl Hs Hroom. unfold read_sectors. apply wp_bind. rewrite sector_cnt_spec by lia. cbv zeta.
  set (c := (size + 511) / 512). assert (0 <= c < 256) as Hc by (unfold c; divlia).
  rewrite (proj2 (Z.ltb_lt c 256)) by lia. eapply wp_step; [done|]. unfold transfers. fold c.
  destruct (Z.ltb_spec c 1), (Z.leb_spec 1 c); try lia; cbn [orb andb]; [by apply wp_ret|].
  destruct (Z.leb_spec sector_count (u32 (lba + c))), (Z.ltb_spec (u32 (lba + c)) sector_count); try lia; [by apply wp_ret|].
  apply wp_bind, wp_wait_busy; [done|]. intros d1 Hc1 Hm1 Hp1. apply wp_bind.
  apply (wp_command _ d1 lba c true); [congruence|done|done|lia|]. intros d2 Hc2 Hm2.
  apply (wp_read_secs (contents d) (512 * lba) size target (proj1 Hs) Hroom _ fuel _ 0 target d2); [done|lia|congruence| | |].
  - rewrite Hm2, xfer_pos by lia. f_equal; lia.
  - split; [done|]. intros b. rewrite !decide_False by lia. done.
  - intros t' d' Hc' Hm' Ht'. split_and!; [done|done|]. eapply read_upto_eq; [lia|done| |exact Ht'].
    rewrite Z2Nat.id by lia. unfold c. divlia.
Qed.

(** C27: [write_sectors] with at most 255 sectors, on any such controller:
    it terminates and leaves the disk idle with the data written from sector
    [lba] on, padded with zeros to whole sectors, and every other byte
    unchanged; on a read-only drive, for an empty transfer or one that reaches
    the last sector, the disk is unchanged. *)
Theorem write_sectors_correct {D} `{AtaSpec D} d writable sector_count lba src size fuel :
  (max_polls < fuel)%nat -> mode d = Idle -> 0 <= lba < 2 ^ 28 -> 0 <= size <= 255 * 512 -> size <= len src -> bytes src ->
  wp (write_sectors fuel writable sector_count lba src size) (fun _ d' => mode d' = Idle /\
    contents d' = if writable && transfers sector_count lba size then disk_write (contents d) lba size src else contents d) d.
Proof.
  intros Hf Hm Hl Hs Hroom Hb. unfold write_sectors. apply wp_bind. rewrite sector_cnt_spec by lia. cbv zeta.
  set (c := (size + 511) / 512). assert (0 <= c < 256) as Hc by (unfold c; divlia).
  rewrite (proj2 (Z.ltb_lt c 256)) by lia. eapply wp_step; [done|]. unfold transfers. fold c.
  destruct writable; cbn [negb orb andb]; [|by apply wp_ret].
  destruct (Z.ltb_spec c 1), (Z.leb_spec 1 c); try lia; cbn [orb andb]; [by apply wp_ret|].
  destruct (Z.leb_spec sector_count (u32 (lba + c))), (Z.ltb_spec (u32 (lba + c)) sector_count); try lia; [by apply wp_ret|].
  apply wp_bind, wp_wait_busy; [done|]. intros d1 Hc1 Hm1 Hp1. apply wp_bind.
  apply (wp_command _ d1 lba c false); [congruence|done|done|lia|]. intros d2 Hc2 Hm2.
  apply (wp_write_secs (512 * lba) size src (conj (proj1 Hs) Hroom) Hb _ fuel _ 0 d2 (contents d)); [done|lia| | |unfold c in *; lia|done].
  - transitivity (contents d); [congruence|done].
  - rewrite Hm2, xfer_pos by lia. f_equal; lia.
Qed.

(** A transfer of more than 255 sectors (130,560 bytes) has no defined
    meaning: the sector count is kept in a [uint8_t]. *)
Theorem large_transfer_undefined {D} `{Ports D} fuel sector_count lba target size (d : D) :
  255 * 512 < size < 2 ^ 39 -> read_sectors fuel sector_count lba target size d = UB /\
  forall w, write_sectors fuel w sector_count lba target size d = UB.
Proof.
  intros Hs. unfold read_sectors, write_sectors, bind, lift. rewrite sector_cnt_spec by lia. cbv zeta.
  rewrite (proj2 (Z.ltb_ge _ 256)) by divlia. done.
Qed.

(** ** A controller that follows the protocol *)

Record sim_disk := mk_sim {
  sd_contents : mem; sd_mode : ata_mode; sd_sel : Z; sd_cnt : Z; sd_low : Z; sd_mid : Z; sd_high : Z }.

Definition sim_outb (port v : Z) (d : sim_disk) : sim_disk :=
  let '(mk_sim m md s c l i h) := d in
  if port =? ATA_DRIVE_SELECT then mk_sim m md v c l i h
  else if port =? ATA_SECTORS then mk_sim m md s v l i h
  else if port =? ATA_LBA_LOW then mk_sim m md s c v i h
  else if port =? ATA_LBA_MID then mk_sim m md s c l v h
  else if port =? ATA_LBA_HIGH then mk_sim m md s c l i v
  else if port =? ATA_COMMAND_STATUS then
    let addr := 512 * (l + 256 * i + 65536 * h + 16777216 * Z.land s 15) in
    mk_sim m (xfer (v =? 0x20) addr (256 * c)) s c l i h
  else d.
Definition sim_inb (port : Z) (d : sim_disk) : Z * sim_disk :=
  (match sd_mode d with Idle => 0x40 | _ => 0x48 end, d).
Definition sim_outw (port v : Z) (d : sim_disk) : sim_disk :=
  match sd_mode d with
  | Writing a n => mk_sim (wr16 (sd_contents d) a v) (xfer_next false a n) (sd_sel d) (sd_cnt d) (sd_low d) (sd_mid d) (sd_high d)
  | _ => d
  end.
Definition sim_inw (port : Z) (d : sim_disk) : Z * sim_disk :=
  match sd_mode d with
  | Reading a n => (rd16 (sd_contents d) a,
      mk_sim (sd_contents d) (xfer_next true a n) (sd_sel d) (sd_cnt d) (sd_low d) (sd_mid d) (sd_high d))
  | _ => (0, d)
  end.

#[global] Instance sim_ports : Ports sim_disk := {
  outb := sim_outb; inb := sim_inb; outw := sim_outw; inw := sim_inw }.

Lemma lba_parts lba : 0 <= lba < 2 ^ 28 ->
  u8 lba + 256 * u8 (Z.shiftr lba 8) + 65536 * u8 (Z.shiftr lba 16)
  + 16777216 * Z.land (Z.lor ATA_DRIVE_SELECT_SLAVE_LBA (Z.land (Z.shiftr lba 24) 15)) 15 = lba.
Proof.
  intros Hl. rewrite Z.land_lor_distr_l. change (Z.land ATA_DRIVE_SELECT_SLAVE_LBA 15) with 0. rewrite Z.lor_0_l.
  rewrite <- Z.land_assoc, Z.land_diag. change 15 with (Z.ones 4). rewrite Z.land_ones, !Z.shiftr_div_pow2 by lia.
  unfold wrap. change (2 ^ 8) with 256. change (2 ^ 16) with 65536. change (2 ^ 24) with 16777216. change (2 ^ 4) with 16. divlia.
Qed.

#[global, program] Instance sim_spec : AtaSpec sim_disk := {
  contents := sd_contents; mode := sd_mode; polls := fun _ => 0%nat; max_polls := 0%nat }.
Next Obligation. done. Qed.
Next Obligation. intros d. cbn. split_and!; try done; destruct (sd_mode d); done. Qed.
Next Obligation.
  intros [m md s c l i h] lba count rd Hm Hp Hl Hc. cbn in *. split; [done|].
  rewrite lba_parts by lia. destruct rd; cbn; by rewrite xfer_pos by lia.
Qed.
Next Obligation. intros d a n Hm Hn _. cbn in *. unfold sim_inw. rewrite Hm. done. Qed.
Next Obligation. intros d a n v Hm Hn _ Hv. cbn in *. unfold sim_outw. rewrite Hm. done. Qed.

Definition demo_disk : sim_disk := mk_sim (blit ∅ (512 * 3) [1; 2; 3]) Idle 0 0 0 0 0.

Lemma read_sectors_correct_witness :
  wp (read_sectors 1 100 3 (replicate 8 9) 3) (fun t d' => t = [1; 2; 3; 0; 9; 9; 9; 9] /\ mode d' = Idle) demo_disk.
Proof.
  refine (wp_mono _ _ _ _ (read_sectors_correct demo_disk 100 3 (replicate 8 9) 3 1 _ _ _ _ _) _);
    [cbn; lia|done|lia|lia|vm_compute; done|].
  cbv beta. intros t d' (_ & Hm & ->). split; [vm_compute; reflexivity|done].
Defined.

Lemma write_sectors_correct_witness :
  wp (write_sectors 1 true 100 5 [7; 8; 9] 3) (fun _ d' => mode d' = Idle /\
    sd_contents d' = disk_write (sd_contents demo_disk) 5 3 [7; 8; 9]) demo_disk.
Proof.
  refine (wp_mono _ _ _ _ (write_sectors_correct demo_disk true 100 5 [7; 8; 9] 3 1 _ _ _ _ _ _) _);
    [cbn; lia|done|lia|lia|vm_compute; done|repeat constructor; done|].
  cbv beta. intros _ d' [Hm Hc]. split; [done|]. exact Hc.
Defined.

Lemma large_transfer_undefined_witness : read_sectors (D := sim_disk) 1 65535 3 [] 131072 demo_disk = UB /\
  forall w, write_sectors (D := sim_disk) 1 w 65535 3 [] 131072 demo_disk = UB.
Proof. apply (large_transfer_undefined 1 65535 3 [] 131072 demo_disk). lia. Defined.
