(* ===== verification/Fs.v ===== *)
(** * The filesystem (src/filesystem.c, filesystem.h)

    Files and directories over a table of 640 entries in sectors 1 to 20.  The
    disk is the byte array that [Ata] shows the driver to implement; buffers
    come from the heap of [Str].  [file_table] is the in-memory table, null
    between operations. *)
From S2P Require Import Prelude Mem Util Str Ata.

Definition FILE_NAME_LENGTH : Z := 60.
Definition FILE : Z := 0.
Definition DIRECTORY : Z := 1.
Definition ROOT_DIRECTORY : Z := 2.
Definition MAGIC_NUMBER : Z := 0xE17A9055.
Definition FILE_TABLE_SECTORS : Z := 20.
Definition ENTRIES_PER_SECTOR : Z := SECTOR_SIZE / 16.
Definition FILE_TABLE_ENTRIES : Z := ENTRIES_PER_SECTOR * FILE_TABLE_SECTORS.
Definition FILE_TABLE_SIZE : Z := FILE_TABLE_SECTORS * SECTOR_SIZE.
Definition DIR_ENTRY_SIZE : Z := 64.
Definition SLASH : Z := 47.

(** ** Data *)

Record file_entry_t := mk_entry { magic_number : Z; type : Z; start_sector : Z; size : Z }.
#[global] Instance file_entry_eq : EqDecision file_entry_t.
Proof. solve_decision. Defined.

Record file_metadata_t := mk_meta { md_size : Z; md_type : Z; md_name : list Z }.

Record fs_state := mk_fs {
  disk : mem;
  sector_count : Z;
  writable_drive : bool;
  file_table : option (list file_entry_t);
  fheap : bheap;
  fconsole : list (list Z)
}.

(** Little-endian numbers and the packed structures. *)
Definition le (bs : list Z) : Z := foldr (fun b n => b + 256 * n) 0 bs.
Fixpoint unle (n : nat) (v : Z) : list Z :=
  match n with O => [] | S n' => u8 v :: unle n' (v / 256) end.

Definition decode_entry (bs : list Z) : file_entry_t :=
  mk_entry (le (take 4 bs)) (le (take 4 (drop 4 bs))) (le (take 4 (drop 8 bs))) (le (take 4 (drop 12 bs))).
Definition encode_entry (e : file_entry_t) : list Z :=
  unle 4 (magic_number e) ++ unle 4 (type e) ++ unle 4 (start_sector e) ++ unle 4 (size e).
Fixpoint decode_table (n : nat) (bs : list Z) : list file_entry_t :=
  match n with O => [] | S n' => decode_entry (take 16 bs) :: decode_table n' (drop 16 bs) end.
Definition encode_table (t : list file_entry_t) : list Z := t ≫= encode_entry.

(** The superblock, packed: magic, version, sectors, table start and size, block size. *)
Definition superblock (sc : Z) : list Z :=
  unle 4 MAGIC_NUMBER ++ unle 2 1 ++ unle 4 sc ++ unle 4 1 ++ unle 4 FILE_TABLE_SECTORS ++ unle 2 SECTOR_SIZE.

(** ** State *)

Definition set_table (t : option (list file_entry_t)) (st : fs_state) : fs_state :=
  mk_fs (disk st) (sector_count st) (writable_drive st) t (fheap st) (fconsole st).
Definition set_heap (h : bheap) (st : fs_state) : fs_state :=
  mk_fs (disk st) (sector_count st) (writable_drive st) (file_table st) h (fconsole st).
Definition set_disk (m : mem) (st : fs_state) : fs_state :=
  mk_fs m (sector_count st) (writable_drive st) (file_table st) (fheap st) (fconsole st).
Definition in_heap {A} (m : M bheap A) : M fs_state A := zoom fheap set_heap m.

(** Console output is a sequence of byte strings. *)
Definition print_bytes (s : list Z) : M fs_state unit :=
  modify (fun st => mk_fs (disk st) (sector_count st) (writable_drive st) (file_table st) (fheap st) (s :: fconsole st)).
Definition print (s : string) : M fs_state unit := print_bytes (of_string s ++ [0]).

(** [file_table[i]]; null or an index past the table is undefined. *)
Definition ft_get (i : Z) : M fs_state file_entry_t := fun st =>
  match file_table st with
  | Some t => if i <? 0 then UB else match t !! Z.to_nat i with Some e => OK (e, st) | None => UB end
  | None => UB
  end.
Definition ft_set (i : Z) (e : file_entry_t) : M fs_state unit := fun st =>
  match file_table st with
  | Some t => if (i <? 0) || (Z.of_nat (length t) <=? i) then UB else OK (tt, set_table (Some (<[Z.to_nat i := e]> t)) st)
  | None => UB
  end.

(** The driver on a buffer that may be null. *)
Definition read_secs_to (lba : Z) (target : option (list Z)) (sz : Z) : M fs_state (option (list Z)) :=
  let* _ := lift (sector_cnt sz) in
  let* st := get in
  if transfers (sector_count st) lba sz then
    let* t := deref target in
    if Z.of_nat (length t) <? sz + sz mod 2 then undefined
    else ret (Some (disk_read (disk st) lba sz t))
  else ret target.
Definition write_secs_from (lba : Z) (src : option (list Z)) (sz : Z) : M fs_state unit :=
  let* _ := lift (sector_cnt sz) in
  let* st := get in
  if writable_drive st && transfers (sector_count st) lba sz then
    let* s := deref src in
    if Z.of_nat (length s) <? sz then undefined
    else modify (set_disk (disk_write (disk st) lba sz s))
  else ret tt.

(** ** The table *)

Definition init_superblock : M fs_state unit :=
  let* st := get in
  write_secs_from 0 (Some (superblock (sector_count st))) 20 ;;;
  print "[filesystem] wrote superblock
".

Definition free_file_table : M fs_state unit :=
  let* st := get in
  in_heap (bfree (match file_table st with Some _ => Some [] | None => None end)) ;;;
  modify (set_table None).

Definition load_file_table : M fs_state unit :=
  let* st := get in
  (if file_table st is Some _ then free_file_table else ret tt) ;;;
  let* buf := in_heap (bmalloc FILE_TABLE_SIZE) in
  let* buf := read_secs_to 1 buf FILE_TABLE_SIZE in
  modify (set_table (decode_table (Z.to_nat FILE_TABLE_ENTRIES) <$> buf)).

(** [write_sectors(1, file_table, FILE_TABLE_SIZE)] *)
Definition save_file_table : M fs_state unit :=
  let* st := get in
  write_secs_from 1 (encode_table <$> file_table st) FILE_TABLE_SIZE.

Fixpoint find_root_loop (n : nat) (i : Z) : M fs_state (option Z) :=
  match n with
  | O => ret None
  | S n' =>
      let* e := ft_get i in
      if negb (magic_number e =? MAGIC_NUMBER) then find_root_loop n' (i + 1)
      else if type e =? ROOT_DIRECTORY then ret (Some i) else find_root_loop n' (i + 1)
  end.
Definition find_root : M fs_state (option Z) := find_root_loop (Z.to_nat FILE_TABLE_ENTRIES) 0.

Definition empty_entry : file_entry_t := mk_entry 0 0 0 0.

Definition ensure_root : M fs_state unit :=
  load_file_table ;;;
  print "[filesystem] searching for root
" ;;;
  let* r := find_root in
  match r with
  | Some _ => print "[filesystem] found root
"
  | None =>
      print "[filesystem] root wasn't found, creating root...
" ;;;
      (let* st := get in let* _ := deref (file_table st) in ret tt) ;;;
      modify (set_table (Some (replicate (Z.to_nat FILE_TABLE_ENTRIES) empty_entry))) ;;;
      print "[filesystem] deleted file table
" ;;;
      ft_set 0 (mk_entry MAGIC_NUMBER ROOT_DIRECTORY (1 + FILE_TABLE_SECTORS) 0) ;;;
      print "[filesystem] created root entry
" ;;;
      save_file_table ;;;
      print "[filesystem] saved new file table with root
" ;;;
      free_file_table
  end.

(** ** Paths *)

Fixpoint valid_loop (s : list Z) (i len component_len : Z) : outcome bool :=
  let finish := OK (negb ((component_len =? 0) && (1 <? len))) in
  match s with
  | [] => if i <? len then UB else finish
  | c :: s' =>
      if i <? len then
        if c =? SLASH then
          if component_len =? 0 then OK false else valid_loop s' (i + 1) len 0
        else if c =? 0 then OK false
        else if FILE_NAME_LENGTH <? component_len + 1 then OK false
        else valid_loop s' (i + 1) len (component_len + 1)
      else finish
  end.
Definition is_valid_path (path : option (list Z)) : outcome bool :=
  match path with
  | None => OK false
  | Some p =>
      obind (bget p 0) (fun c0 => if negb (c0 =? SLASH) then OK false else
      obind (strlen p) (fun n =>
        let len := u64 n in
        if len =? 0 then OK false else valid_loop (drop 1 p) 1 len 0))
  end.

(** [dir_entries[j]]: its name (with what follows it in memory) and index. *)
Definition de_name (buf : list Z) (j : Z) : list Z := drop (Z.to_nat (DIR_ENTRY_SIZE * j)) buf.
Definition de_index (buf : list Z) (j : Z) : outcome Z :=
  let b := take 4 (drop (Z.to_nat (DIR_ENTRY_SIZE * j + FILE_NAME_LENGTH)) buf) in
  if (length b =? 4)%nat then OK (le b) else UB.

Fixpoint find_in_dir (n : nat) (j : Z) (buf : option (list Z)) (part : list Z) (is_last_part : bool) : M fs_state (option Z) :=
  match n with
  | O => ret None
  | S n' =>
      let* b := deref buf in
      let* eq := lift (strcmp (de_name b j) part) in
      if negb eq then find_in_dir n' (j + 1) buf part is_last_part else
      let* file_index := lift (de_index b j) in
      let* e := ft_get file_index in
      if negb (magic_number e =? MAGIC_NUMBER) then find_in_dir n' (j + 1) buf part is_last_part else
      if negb ((type e =? DIRECTORY) || is_last_part) then find_in_dir n' (j + 1) buf part is_last_part else
      ret (Some file_index)
  end.

Fixpoint resolve_parts (parts : list (list Z)) (current_index : Z) : M fs_state (option Z) :=
  match parts with
  | [] => ret (Some current_index)
  | part :: parts' =>
      let is_last_part := match parts' with [] => true | _ => false end in
      let* dir := ft_get current_index in
      if size dir =? 0 then ret None else
      let* buf := in_heap (bmalloc (size dir)) in
      let* buf := read_secs_to (start_sector dir) buf (size dir) in
      let* found := find_in_dir (Z.to_nat (size dir / DIR_ENTRY_SIZE)) 0 buf part is_last_part in
      in_heap (bfree buf) ;;;
      match found with
      | None => ret None
      | Some i => resolve_parts parts' i
      end
  end.

Definition resolve_path (path : list Z) : M fs_state (option Z) :=
  let* n := lift (strlen path) in
  if n =? 0 then ret None else
  let* c0 := lift (bget path 0) in
  if negb (c0 =? SLASH) then ret None else
  let* path_parts := in_heap (str_split path SLASH) in
  let* root := find_root in
  match root with
  | None => ret None
  | Some root_index => resolve_parts path_parts root_index
  end.

Definition split_path (path : list Z) : M fs_state (list Z * list Z) :=
  let* slash := lift (strrchr path SLASH) in
  let* last_slash_idx := deref slash in
  let* n := lift (strlen path) in
  let name_size := u64 (n - last_slash_idx) in
  let* name := in_heap (bmalloc name_size) in
  let* dir_path := in_heap (bmalloc (last_slash_idx + 2)) in
  let* b := deref name in
  let* name := lift (bcopy (Z.to_nat name_size) b 0 path (last_slash_idx + 1)) in
  let* d := deref dir_path in
  let* d := lift (bcopy (Z.to_nat (last_slash_idx + 1)) d 0 path 0) in
  let* d := lift (bset d (last_slash_idx + 1) 0) in
  ret (d, name).

(** ** Reading *)

(** The prefix the reading operations share: the entry of a valid path. *)
Definition with_file {A} (path : list Z) (fail : A) (k : file_entry_t -> M fs_state A) : M fs_state A :=
  let* valid := lift (is_valid_path (Some path)) in
  if negb valid then ret fail else
  load_file_table ;;;
  let* r := resolve_path path in
  match r with
  | None => free_file_table ;;; ret fail
  | Some file_index =>
      let* file_entry := ft_get file_index in
      if negb (magic_number file_entry =? MAGIC_NUMBER) then free_file_table ;;; ret fail
      else k file_entry
  end.

(** The result is the buffer [data_out] points to afterwards. *)
Definition filesystem_read_file (path : list Z) (data_out : option (list Z)) : M fs_state (bool * option (list Z)) :=
  with_file path (false, data_out) (fun e =>
    let* d := read_secs_to (start_sector e) data_out (size e) in
    free_file_table ;;; ret (true, d)).

(** [memcpy(dst, name, min(strlen(name) + 1, FILE_NAME_LENGTH)); dst[FILE_NAME_LENGTH - 1] = 0] *)
Definition put_name (dst : list Z) (off : Z) (name : list Z) : outcome (list Z) :=
  obind (strlen name) (fun n =>
  obind (bcopy (Z.to_nat (Z.min (n + 1) FILE_NAME_LENGTH)) dst off name 0) (fun d =>
  bset d (off + (FILE_NAME_LENGTH - 1)) 0)).

Definition filesystem_read_file_metadata (path : list Z) (metadata_out : file_metadata_t)
  : M fs_state (bool * file_metadata_t) :=
  with_file path (false, metadata_out) (fun e =>
    let* (dir_path, name) := split_path path in
    let* nm := lift (put_name (md_name metadata_out) 0 name) in
    free_file_table ;;; ret (true, mk_meta (size e) (type e) nm)).

Definition filesystem_file_exists (path : list Z) : M fs_state bool :=
  with_file path false (fun _ => free_file_table ;;; ret true).

(** ** Free space *)

(** Indices of the live entries, in table order. *)
Fixpoint live_entries (i : Z) (t : list file_entry_t) : list Z :=
  match t with
  | [] => []
  | e :: t' => if magic_number e =? MAGIC_NUMBER then i :: live_entries (i + 1) t' else live_entries (i + 1) t'
  end.

(** Insertion of [key] into the sorted part of [order]: the C loop moves the
    larger ones up from the end and stops at the first that is not larger. *)
Fixpoint insert_rev (t : list file_entry_t) (key : Z) (rev_sorted : list Z) : list Z :=
  let sector i := match t !! Z.to_nat i with Some e => start_sector e | None => 0 end in
  match rev_sorted with
  | [] => [key]
  | x :: l => if sector key <? sector x then x :: insert_rev t key l else key :: rev_sorted
  end.
Definition sort_entries (t : list file_entry_t) (order : list Z) : list Z :=
  rev (foldl (fun acc key => insert_rev t key acc) [] order).

Definition sectors_of (sz : Z) : Z := u32 (u64 (sz + SECTOR_SIZE - 1) / SECTOR_SIZE).

(** The scan of the gaps between files; [prev_end] is where the last one ended. *)
Fixpoint gap_loop (t : list file_entry_t) (order : list Z) (needed prev_end : Z) : outcome (Z + Z) :=
  match order with
  | [] => OK (inr prev_end)
  | i :: order' =>
      match t !! Z.to_nat i with
      | None => UB
      | Some e =>
          if size e =? 0 then gap_loop t order' needed prev_end else
          let gap := if prev_end <? start_sector e then u32 (start_sector e - prev_end) else 0 in
          if needed <=? gap then OK (inl prev_end)
          else gap_loop t order' needed (u32 (start_sector e + u32 (size e + SECTOR_SIZE - 1) / SECTOR_SIZE))
      end
  end.

Definition find_space_for_file (file_size : Z) : M fs_state (option Z) :=
  let* st := get in
  let* t := deref (file_table st) in
  let order := sort_entries t (live_entries 0 t) in
  let sectors_needed := sectors_of file_size in
  let* r := lift (gap_loop t order sectors_needed (FILE_TABLE_ENTRIES + 1)) in
  match r with
  | inl s => ret (Some s)
  | inr prev_end =>
      let trailing_gap := u32 (sector_count st - 1 - prev_end) in
      if sectors_needed <=? trailing_gap then ret (Some prev_end) else ret None
  end.

(** ** Moving entries (not called by the other operations) *)

Fixpoint shift_up (n : nat) (i : Z) : M fs_state unit :=
  match n with
  | O => ret tt
  | S n' => (let* e := ft_get (i - 1) in ft_set i e) ;;; shift_up n' (i - 1)
  end.
Definition shift_file_entries_forward (idx_start : Z) : M fs_state unit :=
  shift_up (Z.to_nat (FILE_TABLE_ENTRIES - 1 - idx_start)) (FILE_TABLE_ENTRIES - 1) ;;;
  ft_set idx_start empty_entry ;;;
  save_file_table.
Definition shift_file_entries_backward (idx_start : Z) : M fs_state unit :=
  let i0 := Z.max (idx_start - 1) 0 in
  for_loop (Z.to_nat (FILE_TABLE_ENTRIES - 1 - i0)) i0 (fun i => let* e := ft_get (i + 1) in ft_set i e) ;;;
  ft_set (FILE_TABLE_ENTRIES - 1) empty_entry ;;;
  save_file_table.

(** ** Writing *)

Definition set_magic (m : Z) (e : file_entry_t) : file_entry_t := mk_entry m (type e) (start_sector e) (size e).
Definition ft_set_magic (i m : Z) : M fs_state unit := let* e := ft_get i in ft_set i (set_magic m e).

Definition edit_file (file_entry_idx : Z) (data : option (list Z)) (sz : Z) : M fs_state bool :=
  let* e := ft_get file_entry_idx in
  if negb (magic_number e =? MAGIC_NUMBER) then ret false else
  ft_set_magic file_entry_idx 0 ;;;
  let* space := find_space_for_file sz in
  match space with
  | None => ft_set_magic file_entry_idx MAGIC_NUMBER ;;; ret false
  | Some file_start_sector =>
      ft_set_magic file_entry_idx MAGIC_NUMBER ;;;
      (let* e := ft_get file_entry_idx in
       ft_set file_entry_idx (mk_entry (magic_number e) (type e) file_start_sector (u32 sz))) ;;;
      write_secs_from file_start_sector data sz ;;;
      save_file_table ;;;
      ret true
  end.

Definition add_file_to_dir (dir_file_entry_idx file_entry_idx : Z) (name : list Z) : M fs_state bool :=
  let* d := ft_get dir_file_entry_idx in
  let entries_count := size d / DIR_ENTRY_SIZE + 1 in
  let* entries := in_heap (bmalloc (u64 (entries_count * DIR_ENTRY_SIZE))) in
  let* entries := (if 0 <? size d then read_secs_to (start_sector d) entries (size d) else ret entries) in
  let* b := deref entries in
  let off := (entries_count - 1) * DIR_ENTRY_SIZE in
  let* b := lift (bcopy 4 b (off + FILE_NAME_LENGTH) (unle 4 file_entry_idx) 0) in
  let* b := lift (put_name b off name) in
  let* success := edit_file dir_file_entry_idx (Some b) (u64 (entries_count * DIR_ENTRY_SIZE)) in
  in_heap (bfree (Some b)) ;;;
  ret success.

(** The entries other than [file_entry_idx], copied to the front of [new]. *)
Fixpoint copy_others (n : nat) (i j : Z) (old new : option (list Z)) (file_entry_idx : Z) : M fs_state (option (list Z)) :=
  match n with
  | O => ret new
  | S n' =>
      let* o := deref old in
      let* idx := lift (de_index o i) in
      if negb (idx =? file_entry_idx) then
        let* b := deref new in
        let* b := lift (bcopy (Z.to_nat DIR_ENTRY_SIZE) b (DIR_ENTRY_SIZE * j) o (DIR_ENTRY_SIZE * i)) in
        copy_others n' (i + 1) (j + 1) old (Some b) file_entry_idx
      else copy_others n' (i + 1) j old new file_entry_idx
  end.
Definition remove_file_from_dir (dir_file_entry_idx file_entry_idx : Z) : M fs_state bool :=
  let* d := ft_get dir_file_entry_idx in
  let old_entries_count := size d / DIR_ENTRY_SIZE in
  let* old_entries := in_heap (bmalloc (old_entries_count * DIR_ENTRY_SIZE)) in
  let* old_entries := (if 0 <? size d then read_secs_to (start_sector d) old_entries (size d) else ret old_entries) in
  let new_entries_count := u64 (old_entries_count - 1) in
  let* new_entries := in_heap (bmalloc (u64 (new_entries_count * DIR_ENTRY_SIZE))) in
  let* new_entries := copy_others (Z.to_nat old_entries_count) 0 0 old_entries new_entries file_entry_idx in
  let* success := edit_file dir_file_entry_idx new_entries (u64 (new_entries_count * DIR_ENTRY_SIZE)) in
  in_heap (bfree old_entries) ;;;
  in_heap (bfree new_entries) ;;;
  ret success.

Fixpoint slot_loop (n : nat) (i : Z) : M fs_state Z :=
  match n with
  | O => ret (u32 (-1))
  | S n' => let* e := ft_get i in
            if negb (magic_number e =? MAGIC_NUMBER) then ret i else slot_loop n' (i + 1)
  end.
Definition find_file_entry_slot : M fs_state Z := slot_loop (Z.to_nat FILE_TABLE_ENTRIES) 0.

Definition filesystem_write_file (path : list Z) (data : option (list Z)) (ty sz : Z) : M fs_state bool :=
  let* valid := lift (is_valid_path (Some path)) in
  if negb valid then ret false else
  let* exists_ := filesystem_file_exists path in
  load_file_table ;;;
  if exists_ then
    let* r := resolve_path path in
    match r with
    | None => free_file_table ;;; ret false
    | Some current =>
        let* e := ft_get current in
        if negb (type e =? FILE) then free_file_table ;;; ret false else
        let* success := edit_file current data sz in
        free_file_table ;;; ret success
    end
  else
    let* space := find_space_for_file sz in
    match space with
    | None => free_file_table ;;; ret false
    | Some file_start_sector =>
        let* file_entry_idx := find_file_entry_slot in
        if file_entry_idx =? u32 (-1) then free_file_table ;;; ret false else
        ft_set file_entry_idx (mk_entry MAGIC_NUMBER ty file_start_sector (u32 sz)) ;;;
        let* (dir_path, name) := split_path path in
        let* dir := resolve_path dir_path in
        match dir with
        | None => in_heap (bfree (Some name)) ;;; in_heap (bfree (Some dir_path)) ;;; free_file_table ;;; ret false
        | Some dir_idx =>
            let* ok := add_file_to_dir dir_idx file_entry_idx name in
            if negb ok then
              in_heap (bfree (Some name)) ;;; in_heap (bfree (Some dir_path)) ;;; free_file_table ;;; ret false
            else
              in_heap (bfree (Some name)) ;;; in_heap (bfree (Some dir_path)) ;;;
              write_secs_from file_start_sector data sz ;;;
              free_file_table ;;; ret true
        end
    end.

Definition filesystem_create_directory (path : list Z) : M fs_state bool :=
  filesystem_write_file path (Some [0]) DIRECTORY 0.

(** ** Deleting and moving *)

Definition filesystem_delete_file (path : list Z) : M fs_state bool :=
  let* valid := lift (is_valid_path (Some path)) in
  if negb valid then ret false else
  load_file_table ;;;
  let* r := resolve_path path in
  match r with
  | None => free_file_table ;;; ret false
  | Some file_entry_idx =>
      let* (dir_path, name) := split_path path in
      let* dir := resolve_path dir_path in
      match dir with
      | None => in_heap (bfree (Some dir_path)) ;;; in_heap (bfree (Some name)) ;;; free_file_table ;;; ret false
      | Some dir_idx =>
          let* ok := remove_file_from_dir dir_idx file_entry_idx in
          if negb ok then
            in_heap (bfree (Some dir_path)) ;;; in_heap (bfree (Some name)) ;;; free_file_table ;;; ret false
          else
            ft_set_magic file_entry_idx 0 ;;;
            save_file_table ;;;
            free_file_table ;;; ret true
      end
  end.

Fixpoint delete_directory_entries_recursive (fuel : nat) (dir_idx : Z) : M fs_state unit :=
  match fuel with
  | O => out_of_fuel
  | S fuel' =>
      let* dir := ft_get dir_idx in
      if size dir =? 0 then ret tt else
      let* entries := in_heap (bmalloc (size dir)) in
      let* entries := read_secs_to (start_sector dir) entries (size dir) in
      for_loop (Z.to_nat (size dir / DIR_ENTRY_SIZE)) 0 (fun i =>
        let* b := deref entries in
        let* idx := lift (de_index b i) in
        let* e := ft_get idx in
        if negb (magic_number e =? MAGIC_NUMBER) then ret tt else
        (if type e =? DIRECTORY then delete_directory_entries_recursive fuel' idx else ret tt) ;;;
        ft_set_magic idx 0) ;;;
      in_heap (bfree entries)
  end.

Definition filesystem_delete_directory (fuel : nat) (path : list Z) : M fs_state bool :=
  let* valid := lift (is_valid_path (Some path)) in
  if negb valid then ret false else
  load_file_table ;;;
  let* r := resolve_path path in
  match r with
  | None => free_file_table ;;; ret false
  | Some dir_idx =>
      let* e := ft_get dir_idx in
      if negb (type e =? DIRECTORY) then free_file_table ;;; ret false else
      delete_directory_entries_recursive fuel dir_idx ;;;
      let* (dir_path, name) := split_path path in
      let* parent := resolve_path dir_path in
      match parent with
      | None => in_heap (bfree (Some dir_path)) ;;; in_heap (bfree (Some name)) ;;; free_file_table ;;; ret false
      | Some parent_idx =>
          let* ok := remove_file_from_dir parent_idx dir_idx in
          if negb ok then
            in_heap (bfree (Some dir_path)) ;;; in_heap (bfree (Some name)) ;;; free_file_table ;;; ret false
          else
            ft_set_magic dir_idx 0 ;;;
            save_file_table ;;;
            in_heap (bfree (Some dir_path)) ;;; in_heap (bfree (Some name)) ;;; free_file_table ;;; ret true
      end
  end.

Definition filesystem_move_file (path new_path : list Z) : M fs_state bool :=
  let* v1 := lift (is_valid_path (Some path)) in
  if negb v1 then ret false else
  let* v2 := lift (is_valid_path (Some new_path)) in
  if negb v2 then ret false else
  let* (dir_path, name) := split_path path in
  let* (new_dir_path, new_name) := split_path new_path in
  load_file_table ;;;
  let cleanup :=
    in_heap (bfree (Some dir_path)) ;;; in_heap (bfree (Some name)) ;;;
    in_heap (bfree (Some new_dir_path)) ;;; in_heap (bfree (Some new_name)) ;;; free_file_table in
  let* f := resolve_path path in
  match f with
  | None => cleanup ;;; ret false
  | Some file_entry_idx =>
      let* d := resolve_path dir_path in
      match d with
      | None => cleanup ;;; ret false
      | Some dir_idx =>
          let* nd := resolve_path new_dir_path in
          match nd with
          | None => cleanup ;;; ret false
          | Some new_dir_idx =>
              remove_file_from_dir dir_idx file_entry_idx ;;;
              add_file_to_dir new_dir_idx file_entry_idx new_name ;;;
              cleanup ;;; ret true
          end
      end
  end.

(** ** Listing and printing *)

(** [listings[i]] for every directory entry. *)
Fixpoint list_loop (n : nat) (i : Z) (b : list Z) : M fs_state (list file_metadata_t) :=
  match n with
  | O => ret []
  | S n' =>
      let* idx := lift (de_index b i) in
      let* e := ft_get idx in
      let name := take (Z.to_nat FILE_NAME_LENGTH) (de_name b i) in
      let* name := lift (bset name (FILE_NAME_LENGTH - 1) 0) in
      let* rest := list_loop n' (i + 1) b in
      ret (mk_meta (size e) (type e) name :: rest)
  end.

(** [metadata] starts as an uninitialised structure on the stack. *)
Definition filesystem_list_dir (stack : file_metadata_t) (path : list Z) : M fs_state (option (list file_metadata_t)) :=
  let* valid := lift (is_valid_path (Some path)) in
  if negb valid then ret None else
  let* e := filesystem_file_exists path in
  if negb e then ret None else
  let* (ok, metadata) := filesystem_read_file_metadata path stack in
  if negb ok then ret None else
  if md_size metadata <? DIR_ENTRY_SIZE then ret None else
  let* entries := in_heap (bmalloc (md_size metadata)) in
  let* (ok, entries) := filesystem_read_file path entries in
  if negb ok then in_heap (bfree entries) ;;; ret None else
  let entries_count := md_size metadata / DIR_ENTRY_SIZE in
  let* listings := in_heap (bmalloc (entries_count * 72)) in
  load_file_table ;;;
  let* b := deref entries in
  let* _ := deref listings in
  let* l := list_loop (Z.to_nat entries_count) 0 b in
  free_file_table ;;;
  ret (Some l).


(** [msg = str_concats(strs, n); screen_print(msg); free(msg);] *)
Definition print_concats (strs : list (list Z)) : M fs_state unit :=
  let* msg := in_heap (str_concats strs) in
  let* m := deref msg in
  print_bytes m ;;;
  in_heap (bfree msg).

Fixpoint print_tree_recursive (fuel : nat) (dir_index depth : Z) : M fs_state unit :=
  match fuel with
  | O => out_of_fuel
  | S fuel' =>
      let* dir := ft_get dir_index in
      if size dir =? 0 then ret tt else
      let* entries := in_heap (bmalloc (size dir)) in
      let* entries := read_secs_to (start_sector dir) entries (size dir) in
      for_loop (Z.to_nat (size dir / DIR_ENTRY_SIZE)) 0 (fun i =>
        let* b := deref entries in
        let* idx := lift (de_index b i) in
        let* entry := ft_get idx in
        if negb (magic_number entry =? MAGIC_NUMBER) then ret tt else
        for_loop (Z.to_nat depth) 0 (fun _ => print "  ") ;;;
        let is_dir := (type entry =? DIRECTORY) || (type entry =? ROOT_DIRECTORY) in
        let* idx_str := in_heap (num_to_str (QArith_base.inject_Z idx)) in
        print_concats [cstr (if is_dir then "[DIR] " else "[FILE] "); de_name b i; cstr " (idx "; idx_str; cstr ")
"] ;;;
        in_heap (bfree (Some idx_str)) ;;;
        if is_dir then print_tree_recursive fuel' idx (depth + 1) else ret tt) ;;;
      in_heap (bfree entries)
  end.

Fixpoint print_entries (n : nat) (i : Z) : M fs_state unit :=
  match n with
  | O => ret tt
  | S n' =>
      let* e := ft_get i in
      if negb (magic_number e =? MAGIC_NUMBER) then ret tt else
      let* id := in_heap (num_to_str (QArith_base.inject_Z i)) in
      let* sector := in_heap (num_to_str (QArith_base.inject_Z (start_sector e))) in
      let* sz := in_heap (num_to_str (QArith_base.inject_Z (size e))) in
      let* msg := in_heap (str_concats [cstr "Id: "; id; cstr "
"; cstr "Sector: "; sector; cstr "
"; cstr "Size: "; sz; cstr "

"]) in
      let* m := deref msg in
      print_bytes m ;;;
      in_heap (bfree (Some id)) ;;; in_heap (bfree (Some sector)) ;;; in_heap (bfree (Some sz)) ;;; in_heap (bfree msg) ;;;
      print_entries n' (i + 1)
  end.

Definition filesystem_print_state (fuel : nat) (include_entries : bool) : M fs_state unit :=
  load_file_table ;;;
  print "------ Filesystem State ------
" ;;;
  (if include_entries then
     print "File Entries:
" ;;; print_entries (Z.to_nat FILE_TABLE_ENTRIES) 0
   else ret tt) ;;;
  print "Filesystem Tree:
" ;;;
  let* r := find_root in
  match r with
  | Some root_index => print_tree_recursive fuel root_index 0
  | None => print "No root directory found
"
  end ;;;
  print "------------------------------
" ;;;
  free_file_table.
