(* ===== verification/FsThms.v ===== *)
(** * Theorems about paths, free space and the file table *)
From Stdlib Require Import Sorting.Sorted Permutation.
From S2P Require Import Prelude Mem Util Str Ata Fs.

(** ** Valid paths *)

(** A path component: 1 to 60 characters, none of them a slash. *)
Definition component (c : list Z) : Prop := 1 <= len c <= FILE_NAME_LENGTH /\ Forall (fun x => x <> SLASH) c.
Definition join (cs : list (list Z)) : list Z := cs ≫= (fun c => SLASH :: c).
Definition path_syntax (t : list Z) : Prop := t = [SLASH] \/ exists cs, cs <> [] /\ t = join cs /\ Forall component cs.

(** [valid_loop] on the characters left, [k] of the current component read. *)
Fixpoint seg_ok (k : Z) (t : list Z) : bool :=
  match t with
  | [] => negb (k =? 0)
  | c :: t' => if c =? SLASH then negb (k =? 0) && seg_ok 0 t'
               else (k + 1 <=? FILE_NAME_LENGTH) && seg_ok (k + 1) t'
  end.

Lemma seg_ok_syntax t k : 0 <= k <= FILE_NAME_LENGTH -> seg_ok k t = true <->
  exists c cs, t = c ++ join cs /\ Forall (fun x => x <> SLASH) c /\ 1 <= k + len c <= FILE_NAME_LENGTH /\ Forall component cs.
Proof.
  unfold len. revert k. induction t as [|x t IH]; intros k Hk; cbn [seg_ok].
  - rewrite negb_true_iff, Z.eqb_neq. split.
    + intros Hne. exists [], []. split_and!; try done; cbn; lia.
    + intros (c & cs & E & _ & Hl & _). symmetry in E. apply app_nil in E as [-> _]. cbn in Hl. lia.
  - destruct (Z.eqb_spec x SLASH) as [->|Hne].
    + rewrite andb_true_iff, negb_true_iff, Z.eqb_neq, IH by (unfold FILE_NAME_LENGTH; lia). split.
      * intros (Hk0 & c & cs & -> & Hc & Hl & Hcs). exists [], (c :: cs). cbn. split_and!; try done; try lia.
        apply Forall_cons_2; [split; [unfold len; lia|done]|done].
      * intros (c & cs & E & Hc & Hl & Hcs). destruct c as [|y c].
        -- destruct cs as [|d cs]; [done|]. cbn in E. injection E as ->. apply Forall_cons in Hcs as [[Hd Hd'] Hcs].
           cbn in Hl. split; [lia|]. exists d, cs. unfold len in Hd. split_and!; [done|done|lia|lia|done].
        -- cbn in E. injection E as <- _. by apply Forall_inv in Hc.
    + rewrite andb_true_iff, Z.leb_le. split.
      * intros [Hk1 Ht]. apply IH in Ht as (c & cs & -> & Hc & Hl & Hcs); [|lia]. exists (x :: c), cs. cbn.
        split_and!; try done; try lia. by apply Forall_cons_2.
      * intros (c & cs & E & Hc & Hl & Hcs). destruct c as [|y c].
        -- destruct cs as [|d cs]; [done|]. cbn in E. by injection E as -> _.
        -- cbn in E. injection E as -> ->. apply Forall_cons in Hc as [_ Hc]. cbn in Hl. split; [lia|].
           apply IH; [lia|]. exists c, cs. split_and!; [done|done|lia|lia|done].
Qed.

Lemma valid_loop_spec t r i n k : nonzero t -> 0 < i -> 0 <= k <= FILE_NAME_LENGTH -> n = i + len t -> (1 < n) ->
  valid_loop (t ++ 0 :: r) i n k = OK (seg_ok k t).
Proof.
  unfold len. intros Ht. revert i k. induction Ht as [|c t Hc Ht IH]; intros i k Hi Hk Hn H1; cbn [app valid_loop seg_ok length] in *.
  - rewrite (proj2 (Z.ltb_ge i n)), (proj2 (Z.ltb_lt 1 n)) by lia. by rewrite andb_true_r.
  - rewrite (proj2 (Z.ltb_lt i n)) by lia. destruct (c =? SLASH).
    + destruct (k =? 0); [done|]. cbn. apply IH; try lia; unfold FILE_NAME_LENGTH; lia.
    + rewrite (proj2 (Z.eqb_neq c 0)) by done. rewrite Z.ltb_antisym. destruct (Z.leb_spec (k + 1) FILE_NAME_LENGTH); cbn; [|done].
      apply IH; lia.
Qed.

Lemma valid_loop_long t r i n k : nonzero t -> i + len t < n -> valid_loop (t ++ 0 :: r) i n k = OK false.
Proof.
  unfold len. intros Ht. revert i k. induction Ht as [|c t Hc Ht IH]; intros i k Hn; cbn [app valid_loop length] in *.
  - by rewrite (proj2 (Z.ltb_lt i n)) by lia.
  - rewrite (proj2 (Z.ltb_lt i n)) by lia. rewrite (proj2 (Z.eqb_neq c 0)) by done. destruct (c =? SLASH), (k =? 0); try done.
    + apply IH. lia.
    + destruct (_ <? _); [done|]. apply IH. lia.
    + destruct (_ <? _); [done|]. apply IH. lia.
Qed.

Lemma is_valid_path_ok p t : cstring p t -> len t < 2 ^ 63 ->
  exists b, is_valid_path (Some p) = OK b /\ (b = true <-> len t <= MAX_STR /\ path_syntax t).
Proof.
  intros Hp Hlen. pose proof (strlen_spec _ _ Hp) as Hstr. destruct Hp as [Ht [r ->]]. cbn [is_valid_path].
  assert (forall x y, bget (x :: y) 0 = OK x) as Hget by done.
  assert (forall cs : list (list Z), match join cs with [] => True | c :: _ => c = SLASH end) as Hjoin by by intros [].
  assert (forall c t', c <> SLASH -> ~ path_syntax (c :: t')) as Hnot.
  { intros c t' Hc [[= -> _]|(cs & Hne & E & _)]; [done|]. specialize (Hjoin cs). by rewrite <- E in Hjoin. }
  destruct t as [|c t].
  { cbn [app]. rewrite Hget. cbn [obind]. exists false. split; [done|]. split; [done|]. intros [_ [?|(cs & Hne & E & _)]]; [done|].
    by destruct cs. }
  cbn [app]. rewrite Hget. cbn [obind]. destruct (Z.eqb_spec c SLASH) as [->|Hne]; cbn [negb].
  2: { exists false. split; [done|]. split; [done|]. intros [_ H]. by apply Hnot in H. }
  cbn [app] in Hstr. rewrite Hstr. cbn [obind]. apply Forall_cons in Ht as [_ Ht].
  destruct (Z.leb_spec (len (SLASH :: t)) MAX_STR) as [Hle|Hgt].
  - rewrite wrap_id by (unfold in_range, len, MAX_STR in *; lia). rewrite (proj2 (Z.eqb_neq _ 0)) by (unfold len; cbn; lia).
    cbn [drop]. destruct (decide (t = [])) as [->|Hte].
    { exists true. split; [done|]. split; [|done]. intros _. split; [done|]. by left. }
    rewrite (valid_loop_spec t r 1 _ 0); [|done|lia|unfold FILE_NAME_LENGTH; lia|unfold len; cbn; lia|unfold len; cbn; destruct t; [done|cbn; lia]].
    eexists. split; [done|]. rewrite seg_ok_syntax by (unfold FILE_NAME_LENGTH; lia). split.
    + intros (d & cs & -> & Hd & Hl & Hcs). split; [done|]. right. exists (d :: cs). split_and!; [done|done|].
      apply Forall_cons_2; [split; [lia|done]|done].
    + intros [_ [[= ->]|(cs & Hne & E & Hcs)]]; [done|]. destruct cs as [|d cs]; [done|]. cbn in E. injection E as ->.
      apply Forall_cons in Hcs as [[Hd Hd'] Hcs]. exists d, cs. split_and!; [done|done|lia|lia|done].
  - exists false. cbv zeta. change (u64 (-1)) with (2 ^ 64 - 1). rewrite (proj2 (Z.eqb_neq _ 0)) by lia.
    change (drop 1 (SLASH :: t ++ 0 :: r)) with (t ++ 0 :: r). rewrite valid_loop_long; [|done|unfold len in *; cbn in Hlen; lia]. split; [done|]. split; [done|]. lia.
Qed.

(** [is_valid_path] accepts exactly the path "/" and the non-empty
    sequences of "/component" whose components have 1 to 60 characters, of at
    most 1001 characters in all; every other terminated string is rejected. *)
Theorem is_valid_path_correct p t : cstring p t -> len t < 2 ^ 63 ->
  exists b, is_valid_path (Some p) = OK b /\ (b = true <-> len t <= MAX_STR /\ path_syntax t).
Proof. apply is_valid_path_ok. Qed.

Lemma is_valid_path_correct_witness : exists b, is_valid_path (Some (cstr "/a/bc")) = OK b /\
  (b = true <-> len (of_string "/a/bc") <= MAX_STR /\ path_syntax (of_string "/a/bc")).
Proof. apply (is_valid_path_correct (cstr "/a/bc") (of_string "/a/bc")); [split; [by repeat constructor|by exists []]|done]. Defined.

(** ** Free space *)

Definition live (t : list file_entry_t) (i : Z) (e : file_entry_t) : Prop :=
  0 <= i /\ t !! Z.to_nat i = Some e /\ magic_number e = MAGIC_NUMBER.
Definition file_sectors (e : file_entry_t) : Z := (size e + 511) / 512.
Definition file_end (e : file_entry_t) : Z := start_sector e + file_sectors e.

(** Live files that hold data lie after the reserved area, inside the disk,
    and do not overlap. *)
Record layout (sc : Z) (t : list file_entry_t) : Prop := {
  lay_len : length t = Z.to_nat FILE_TABLE_ENTRIES;
  lay_in : forall i e, live t i e -> 0 <= size e < 2 ^ 32 - 512 /\
    (size e <> 0 -> FILE_TABLE_ENTRIES + 1 <= start_sector e /\ file_end e <= sc - 1);
  lay_disj : forall i j e f, live t i e -> live t j f -> i <> j -> size e <> 0 -> size f <> 0 ->
    file_end e <= start_sector f \/ file_end f <= start_sector e
}.

Lemma live_entries_elem t a i : i ∈ live_entries a t <->
  exists k e, i = a + Z.of_nat k /\ t !! k = Some e /\ magic_number e = MAGIC_NUMBER.
Proof.
  revert a. induction t as [|x t IH]; intros a; cbn [live_entries].
  - rewrite elem_of_nil. split; [done|]. by intros (k & e & _ & E & _).
  - assert (i ∈ live_entries (a + 1) t <-> exists k e, i = a + Z.of_nat (S k) /\ (x :: t) !! S k = Some e /\ magic_number e = MAGIC_NUMBER) as IH'.
    { rewrite IH. split; intros (k & e & -> & E & ?); exists k, e; (split; [lia|done]). }
    destruct (Z.eqb_spec (magic_number x) MAGIC_NUMBER) as [Hm|Hm]; [rewrite elem_of_cons|]; rewrite IH'; split.
    + intros [->|(k & e & E)]; [exists O, x; rewrite Z.add_0_r; done|eauto].
    + intros ([|k] & e & -> & E & ?); [left; lia|right; eauto].
    + intros (k & e & E). eauto.
    + intros ([|k] & e & -> & E & Hme); [cbn in E; simplify_eq|eauto].
Qed.
Lemma live_entries_live t i : i ∈ live_entries 0 t <-> exists e, live t i e.
Proof.
  rewrite live_entries_elem. split.
  - intros (k & e & -> & E & ?). exists e. split; [lia|]. by replace (Z.to_nat (0 + Z.of_nat k)) with k by lia.
  - intros (e & ? & E & ?). exists (Z.to_nat i), e. split; [lia|done].
Qed.
Lemma live_entries_NoDup t a : NoDup (live_entries a t).
Proof.
  revert a. induction t as [|x t IH]; intros a; cbn [live_entries]; [constructor|].
  destruct (_ =? _); [|done]. constructor; [|done]. intros (k & e & E & _)%live_entries_elem. lia.
Qed.

(** *** The insertion sort *)

Section Sort.
Context (t : list file_entry_t).
Definition sect (i : Z) : Z := match t !! Z.to_nat i with Some e => start_sector e | None => 0 end.

Lemma insert_rev_perm k l : Permutation (insert_rev t k l) (k :: l).
Proof.
  induction l as [|x l IH]; cbn [insert_rev]; [done|]. case_bool; [|done]. rewrite IH. apply perm_swap.
Qed.
Lemma insert_rev_sorted k l : StronglySorted (fun i j => sect j <= sect i) l ->
  StronglySorted (fun i j => sect j <= sect i) (insert_rev t k l).
Proof.
  induction 1 as [|x l Hs IH Hall]; cbn [insert_rev]; fold (sect k); [by repeat constructor|]. fold (sect x).
  destruct (Z.ltb_spec (sect k) (sect x)).
  - constructor; [done|]. apply Forall_forall. intros y Hy. rewrite insert_rev_perm in Hy.
    apply elem_of_cons in Hy as [->|Hy]; [lia|]. by eapply Forall_forall in Hall.
  - constructor; [by constructor|]. apply Forall_cons_2; [lia|]. eapply Forall_impl; [exact Hall|]. cbn. lia.
Qed.

Lemma rev_sorted l : StronglySorted (fun i j => sect j <= sect i) l -> StronglySorted (fun i j => sect i <= sect j) (rev l).
Proof.
  induction 1 as [|x l Hs IH Hall]; cbn [rev]; [constructor|].
  assert (forall m, StronglySorted (fun i j => sect i <= sect j) m -> Forall (fun y => sect y <= sect x) m ->
    StronglySorted (fun i j => sect i <= sect j) (m ++ [x])) as Happ.
  { induction 1 as [|y m Hm IHm Hy]; intros Hf; cbn; [by repeat constructor|]. apply Forall_cons in Hf as [? ?].
    constructor; [by apply IHm|]. apply Forall_app. split; [done|]. by apply Forall_cons_2. }
  apply Happ; [done|]. apply Forall_forall. intros y Hy. rewrite <- (Permutation_rev l) in Hy. by eapply Forall_forall in Hall.
Qed.

Lemma sort_entries_spec l : Permutation (sort_entries t l) l /\ StronglySorted (fun i j => sect i <= sect j) (sort_entries t l).
Proof.
  unfold sort_entries.
  assert (forall acc, StronglySorted (fun i j => sect j <= sect i) acc ->
    Permutation (foldl (fun acc key => insert_rev t key acc) acc l) (l ++ acc) /\
    StronglySorted (fun i j => sect j <= sect i) (foldl (fun acc key => insert_rev t key acc) acc l)) as Hf.
  { induction l as [|k l IH]; intros acc Hs; cbn [foldl]; [done|].
    destruct (IH (insert_rev t k acc) (insert_rev_sorted k acc Hs)) as [P S]. split; [|done].
    rewrite P, insert_rev_perm. cbn. by rewrite Permutation_middle. }
  destruct (Hf [] (SSorted_nil _)) as [P S]. rewrite app_nil_r in P. split; [|by apply rev_sorted].
  by rewrite <- P at 2; rewrite <- Permutation_rev.
Qed.
End Sort.

(** *** The gaps *)

(** The sectors [s, s + n) are apart from the live files of [order]. *)
Definition clear_of (t : list file_entry_t) (order : list Z) (s n : Z) : Prop :=
  forall i e, i ∈ order -> live t i e -> size e <> 0 -> s + n <= start_sector e \/ file_end e <= s.

Lemma sect_live t i e : live t i e -> sect t i = start_sector e.
Proof. intros (_ & E & _). unfold sect. by rewrite E. Qed.

Lemma gap_loop_sound sc t needed : layout sc t -> sc < 2 ^ 16 -> 0 <= needed -> forall order p,
  (forall i, i ∈ order -> exists e, live t i e) -> NoDup order ->
  StronglySorted (fun i j => sect t i <= sect t j) order -> 0 <= p <= sc - 1 ->
  (forall i e, i ∈ order -> live t i e -> size e <> 0 -> p <= start_sector e) ->
  exists r, gap_loop t order needed p = OK r /\
    match r with
    | inl s => p <= s /\ s + needed <= sc - 1 /\ clear_of t order s needed
    | inr q => p <= q <= sc - 1 /\ clear_of t order q needed /\
        forall s, p <= s -> clear_of t order s needed -> q <= s
    end.
Proof.
  intros Hlay Hsc Hn order. induction order as [|i order IH]; intros p Hlive Hnd Hsort Hp Hstart; cbn [gap_loop].
  { exists (inr p). split; [done|]. split_and!; [lia|lia|by intros i e Hi%elem_of_nil|done]. }
  destruct (Hlive i ltac:(left)) as [e He]. pose proof He as (_ & Et & _). rewrite Et.
  inversion_clear Hnd as [|? ? Hni Hnd']. inversion_clear Hsort as [|? ? Hsort' Hall]. rewrite Forall_forall in Hall.
  assert (forall j, j ∈ order -> exists f, live t j f) as Hlive' by (intros j Hj; apply Hlive; by right).
  assert (forall s, clear_of t (i :: order) s needed -> clear_of t order s needed) as Htail by (intros s Hs j f Hj; apply Hs; by right).
  destruct (Z.eqb_spec (size e) 0) as [Hz|Hz].
  { destruct (IH p Hlive' Hnd' Hsort' Hp) as (r & E & Hr); [intros j f Hj; apply Hstart; by right|]. exists r. split; [done|].
    assert (forall s, clear_of t order s needed -> clear_of t (i :: order) s needed) as Hc.
    { intros s Hs j f [->|Hj]%elem_of_cons Hf Hf0; [|by apply (Hs j)].
      pose proof Hf as (_ & E' & _). congruence. }
    destruct r; naive_solver. }
  destruct (lay_in _ _ Hlay i e He) as [Hsz Hin]. destruct (Hin Hz) as [Hlow Hend]. unfold file_end, file_sectors in Hend.
  pose proof (Hstart i e ltac:(left) He Hz) as Hps. unfold SECTOR_SIZE.
  assert ((if p <? start_sector e then u32 (start_sector e - p) else 0) = start_sector e - p) as ->.
  { destruct (Z.ltb_spec p (start_sector e)); [|lia]. apply wrap_id. unfold in_range. divlia. }
  destruct (Z.leb_spec needed (start_sector e - p)).
  - exists (inl p). split; [done|]. split_and!; [lia|divlia|]. intros j f [->|Hj]%elem_of_cons Hf Hf0.
    + pose proof Hf as (_ & E' & _). replace f with e by congruence. left. lia.
    + left. specialize (Hall j Hj). rewrite (sect_live _ _ _ He), (sect_live _ _ _ Hf) in Hall. lia.
  - assert (u32 (start_sector e + u32 (size e + 512 - 1) / 512) = file_end e) as ->.
    { unfold file_end, file_sectors. replace (size e + 512 - 1) with (size e + 511) by lia.
      rewrite (wrap_id 32 (size e + 511)) by (unfold in_range; lia). apply wrap_id. unfold in_range. divlia. }
    destruct (IH (file_end e) Hlive' Hnd' Hsort') as (r & E & Hr).
    + unfold file_end, file_sectors. divlia.
    + intros j f Hj Hf Hf0. assert (i <> j) as Hij by (intros ->; done).
      specialize (Hall j Hj). rewrite (sect_live _ _ _ He), (sect_live _ _ _ Hf) in Hall.
      destruct (lay_disj _ _ Hlay i j e f He Hf Hij Hz Hf0) as [?|Hd]; [done|].
      unfold file_end, file_sectors in *. destruct (lay_in _ _ Hlay j f Hf) as [? _]. divlia.
    + exists r. split; [done|].
      assert (forall s, file_end e <= s -> clear_of t order s needed -> clear_of t (i :: order) s needed) as Hc.
      { intros s Hs Hcl j f [->|Hj]%elem_of_cons Hf Hf0; [|by apply (Hcl j)].
        pose proof Hf as (_ & E' & _). replace f with e by congruence. by right. }
      assert (p <= file_end e) by (unfold file_end, file_sectors; divlia).
      destruct r as [s|q]; [destruct Hr as (? & ? & ?); split_and!; [lia|lia|apply Hc; done || lia]|].
      destruct Hr as (? & ? & Hmin). split_and!; [lia|lia|apply Hc; done || lia|]. intros s Hs Hcl. apply Hmin; [|by apply Htail].
      destruct (Hcl i e ltac:(left) He Hz); lia.
Qed.

Lemma sectors_of_eq sz : 0 <= sz < 2 ^ 32 -> sectors_of sz = (sz + 511) / 512.
Proof.
  intros Hs. unfold sectors_of, SECTOR_SIZE. replace (sz + 512 - 1) with (sz + 511) by lia.
  rewrite (wrap_id 64) by (unfold in_range; lia). apply wrap_id. unfold in_range. divlia.
Qed.

Lemma find_space_ok st t sz : file_table st = Some t -> layout (sector_count st) t ->
  FILE_TABLE_ENTRIES + 2 <= sector_count st < 2 ^ 16 -> 0 <= sz < 2 ^ 32 ->
  exists r, find_space_for_file sz st = OK (r, st) /\
    match r with
    | None => forall s, FILE_TABLE_ENTRIES + 1 <= s ->
        (forall i e, live t i e -> size e <> 0 -> s + (sz + 511) / 512 <= start_sector e \/ file_end e <= s) ->
        sector_count st - 1 < s + (sz + 511) / 512
    | Some s => FILE_TABLE_ENTRIES + 1 <= s /\ s + (sz + 511) / 512 <= sector_count st - 1 /\
        forall i e, live t i e -> size e <> 0 -> s + (sz + 511) / 512 <= start_sector e \/ file_end e <= s
    end.
Proof.
  intros Et Hlay Hsc Hsz. unfold find_space_for_file, bind, get, deref. cbn [obind]. rewrite Et.
  change (ret t st) with (@OK (list file_entry_t * fs_state) (t, st)). cbn [obind].
  rewrite (sectors_of_eq sz) by lia. set (n := (sz + 511) / 512). assert (0 <= n < 2 ^ 24) as Hn by (unfold n; divlia).
  destruct (sort_entries_spec t (live_entries 0 t)) as [Hperm Hsorted].
  destruct (gap_loop_sound _ t n Hlay ltac:(lia) ltac:(lia) (sort_entries t (live_entries 0 t)) (FILE_TABLE_ENTRIES + 1))
    as (r & -> & Hr).
  - intros i Hi. rewrite Hperm in Hi. by apply live_entries_live in Hi.
  - rewrite Hperm. apply live_entries_NoDup.
  - done.
  - change FILE_TABLE_ENTRIES with 640 in *. lia.
  - intros i e _ He Hz. by apply (lay_in _ _ Hlay i e He).
  - cbn [lift obind].
    assert (forall s, clear_of t (sort_entries t (live_entries 0 t)) s n ->
      forall i e, live t i e -> size e <> 0 -> s + n <= start_sector e \/ file_end e <= s) as Hall.
    { intros s Hs i e He Hz. apply (Hs i e); [|done|done]. rewrite Hperm. apply live_entries_live. eauto. }
    destruct r as [s|q].
    + exists (Some s). split; [done|]. destruct Hr as (? & ? & ?). split_and!; [done|done|]. by apply Hall.
    + destruct Hr as (Hq & Hcl & Hmin). rewrite (wrap_id 32) by (change FILE_TABLE_ENTRIES with 640 in *; unfold in_range; lia).
      case_bool; reflect_Z.
      * exists (Some q). split; [done|]. split_and!; [lia|lia|]. by apply Hall.
      * exists None. split; [done|]. intros s Hs Hfree. specialize (Hmin s Hs ltac:(by intros i e _; apply Hfree)). lia.
Qed.

(** [find_space_for_file] is sound and complete: on a disk of at least 642 sectors whose
    live files do not overlap, it terminates, changes nothing, and any region
    it returns starts after the reserved sectors, ends before the last sector
    of the disk and is disjoint from the data of every live file; it fails only
    when there is no such region. *)
Theorem find_space_for_file_sound st t sz : file_table st = Some t -> layout (sector_count st) t ->
  FILE_TABLE_ENTRIES + 2 <= sector_count st < 2 ^ 16 -> 0 <= sz < 2 ^ 32 ->
  exists r, find_space_for_file sz st = OK (r, st) /\
    match r with
    | None => forall s, FILE_TABLE_ENTRIES + 1 <= s ->
        (forall i e, live t i e -> size e <> 0 -> s + (sz + 511) / 512 <= start_sector e \/ file_end e <= s) ->
        sector_count st - 1 < s + (sz + 511) / 512
    | Some s => FILE_TABLE_ENTRIES + 1 <= s /\ s + (sz + 511) / 512 <= sector_count st - 1 /\
        forall i e, live t i e -> size e <> 0 -> s + (sz + 511) / 512 <= start_sector e \/ file_end e <= s
    end.
Proof. apply find_space_ok. Qed.

(** A small table: the root, one file of two sectors, and free entries. *)
Definition demo_table : list file_entry_t :=
  mk_entry MAGIC_NUMBER ROOT_DIRECTORY 641 64 :: mk_entry MAGIC_NUMBER FILE 643 600 :: replicate 638 empty_entry.
Definition demo_fs : fs_state := mk_fs ∅ 2000 true (Some demo_table) demo_bheap [].

Lemma demo_live i e : live demo_table i e ->
  i = 0 /\ e = mk_entry MAGIC_NUMBER ROOT_DIRECTORY 641 64 \/ i = 1 /\ e = mk_entry MAGIC_NUMBER FILE 643 600.
Proof.
  intros (Hi & E & Hm). destruct (Z.to_nat i) as [|[|k]] eqn:Ek.
  - left. split; [lia|]. by injection E as <-.
  - right. split; [lia|]. by injection E as <-.
  - change (replicate 638 empty_entry !! k = Some e) in E. apply lookup_replicate in E as [-> _]. done.
Qed.

Lemma demo_layout : layout 2000 demo_table.
Proof.
  constructor.
  - reflexivity.
  - intros i e [[_ ->]|[_ ->]]%demo_live; unfold file_end, file_sectors; cbn; split; try lia; intros _; vm_compute; split; done.
  - intros i j e f [[-> ->]|[-> ->]]%demo_live [[-> ->]|[-> ->]]%demo_live Hij _ _; try done; unfold file_end, file_sectors; vm_compute; [left|right]; done.
Qed.

Lemma find_space_for_file_sound_witness : exists r, find_space_for_file 512 demo_fs = OK (r, demo_fs) /\
  match r with
  | None => forall s, FILE_TABLE_ENTRIES + 1 <= s ->
      (forall i e, live demo_table i e -> size e <> 0 -> s + (512 + 511) / 512 <= start_sector e \/ file_end e <= s) ->
      sector_count demo_fs - 1 < s + (512 + 511) / 512
  | Some s => FILE_TABLE_ENTRIES + 1 <= s /\ s + (512 + 511) / 512 <= sector_count demo_fs - 1 /\
      forall i e, live demo_table i e -> size e <> 0 -> s + (512 + 511) / 512 <= start_sector e \/ file_end e <= s
  end.
Proof. apply (find_space_for_file_sound demo_fs demo_table 512); [reflexivity|exact demo_layout|vm_compute; split; done|lia]. Defined.

(** On a disk of at most 641 sectors the computation of the space after
    the last file wraps around: with no file stored, [find_space_for_file]
    returns sector 641, which lies outside the disk, for a file of any size up
    to a gigabyte. *)
Theorem find_space_small_disk st t sz : file_table st = Some t -> live_entries 0 t = [] ->
  0 <= sector_count st <= FILE_TABLE_ENTRIES + 1 -> 0 <= sz <= 2 ^ 30 ->
  find_space_for_file sz st = OK (Some (FILE_TABLE_ENTRIES + 1), st).
Proof.
  intros Et Hl Hsc Hsz. unfold find_space_for_file, bind, get, deref. cbn [obind]. rewrite Et.
  change (ret t st) with (@OK (list file_entry_t * fs_state) (t, st)). cbn [obind]. rewrite Hl.
  change (sort_entries t []) with (@nil Z). cbn [gap_loop lift obind].
  assert (sectors_of sz <= 2 ^ 22) as Hn.
  { rewrite sectors_of_eq by lia. divlia. }
  rewrite (proj2 (Z.leb_le _ _)); [done|].
  change (FILE_TABLE_ENTRIES + 1) with 641 in *. unfold wrap. rewrite <- (Z_mod_plus_full _ 1). rewrite Z.mod_small by lia. lia.
Qed.

Lemma find_space_small_disk_witness :
  find_space_for_file 512 (mk_fs ∅ 600 true (Some (replicate 640 empty_entry)) demo_bheap [])
  = OK (Some 641, mk_fs ∅ 600 true (Some (replicate 640 empty_entry)) demo_bheap []).
Proof. apply (find_space_small_disk (mk_fs ∅ 600 true (Some (replicate 640 empty_entry)) demo_bheap []) (replicate 640 empty_entry) 512); done || (vm_compute; split; done). Defined.
