(* ===== verification/FsEdit.v ===== *)
(** * Theorems about the file table and [edit_file]

    The codec of the table, what saving and loading it does to the disk, and
    the operation every change of a file goes through: [edit_file] replaces
    the data of one entry and leaves the data of all other files alone. *)
From S2P Require Import Prelude Mem Util Str Ata Fs FsThms.

(** ** Encoding of numbers, entries and the table *)

Lemma le_unle n v : le (unle n v) = v mod 2 ^ (8 * Z.of_nat n).
Proof.
  revert v. induction n as [|n IH]; intros v; cbn [unle le foldr].
  - change (2 ^ (8 * Z.of_nat 0)) with 1. by rewrite Z.mod_1_r.
  - change (foldr _ _ _) with (le (unle n (v / 256))). rewrite IH.
    replace (8 * Z.of_nat (S n)) with (8 + 8 * Z.of_nat n) by lia. rewrite Z.pow_add_r by lia.
    unfold wrap. change (2 ^ 8) with 256. rewrite Z.rem_mul_r by lia. lia.
Qed.
Lemma length_unle n v : length (unle n v) = n.
Proof. revert v. induction n; intros; cbn; auto. Qed.
Lemma bytes_unle n v : bytes (unle n v).
Proof. revert v. induction n as [|n IH]; intros; cbn; constructor; [apply wrap_range; lia|apply IH]. Qed.
Lemma le_range bs : bytes bs -> 0 <= le bs < 2 ^ (8 * Z.of_nat (length bs)).
Proof.
  induction 1 as [|b bs Hb Hbs IH]; [done|]. cbn [le foldr length]. change (foldr _ _ bs) with (le bs).
  replace (8 * Z.of_nat (S (length bs))) with (8 + 8 * Z.of_nat (length bs)) by lia. rewrite Z.pow_add_r by lia.
  unfold in_range in Hb. change (2 ^ 8) with 256 in *. lia.
Qed.

(** The fields are [uint32_t]. *)
Definition entry_ok (e : file_entry_t) : Prop :=
  in_range 32 (magic_number e) /\ in_range 32 (type e) /\ in_range 32 (start_sector e) /\ in_range 32 (size e).

Lemma length_encode_entry e : length (encode_entry e) = 16%nat.
Proof. unfold encode_entry. by rewrite !length_app, !length_unle. Qed.
Lemma decode_encode_entry e : entry_ok e -> decode_entry (encode_entry e) = e.
Proof.
  intros (H1 & H2 & H3 & H4). unfold decode_entry, encode_entry.
  assert (forall v rest, in_range 32 v -> le (take 4 (unle 4 v ++ rest)) = v) as Htake.
  { intros v rest Hv. rewrite take_app_le by (by rewrite length_unle). rewrite take_ge by (by rewrite length_unle).
    rewrite le_unle. by apply Z.mod_small. }
  assert (forall n v rest, drop (4 + n) (unle 4 v ++ rest) = drop n rest) as Hdrop.
  { intros n v rest. rewrite drop_app_ge by (rewrite length_unle; lia). rewrite length_unle. f_equal. lia. }
  rewrite Htake by done. rewrite (Hdrop 0%nat), (Hdrop 4%nat), (Hdrop 8%nat), (Hdrop 0%nat), (Hdrop 4%nat), (Hdrop 0%nat), !drop_0.
  rewrite !Htake by done. rewrite <- (app_nil_r (unle 4 (size e))), Htake by done. by destruct e.
Qed.
Lemma decode_entry_ok bs : bytes bs -> (16 <= length bs)%nat -> entry_ok (decode_entry bs).
Proof.
  intros Hb Hl.
  assert (forall n, (n + 4 <= length bs)%nat -> in_range 32 (le (take 4 (drop n bs)))) as Hn.
  { intros n Hn. pose proof (le_range (take 4 (drop n bs))) as Hr. rewrite length_take, length_drop in Hr.
    rewrite Nat.min_l in Hr by lia. apply Hr. by apply Forall_take, Forall_drop. }
  split_and!; cbn; [apply (Hn 0%nat)|apply Hn..]; lia.
Qed.

Lemma decode_encode_table t rest : Forall entry_ok t -> decode_table (length t) (encode_table t ++ rest) = t.
Proof.
  induction 1 as [|e t He Ht IH]; [done|]. cbn [length decode_table]. unfold encode_table. cbn [mbind list_bind].
  change (mbind encode_entry t) with (encode_table t). rewrite <- app_assoc.
  rewrite take_app_le, take_ge, decode_encode_entry by (rewrite ?length_encode_entry; done).
  rewrite drop_app_ge, length_encode_entry, Nat.sub_diag, drop_0 by (by rewrite length_encode_entry). by rewrite IH.
Qed.
Lemma length_encode_table t : length (encode_table t) = (16 * length t)%nat.
Proof.
  induction t as [|e t IH]; [done|]. unfold encode_table. cbn [mbind list_bind length].
  change (mbind encode_entry t) with (encode_table t). rewrite length_app, IH, length_encode_entry. lia.
Qed.
Lemma bytes_encode_table t : bytes (encode_table t).
Proof.
  induction t as [|e t IH]; [constructor|]. unfold encode_table. cbn [mbind list_bind].
  apply Forall_app. split; [|exact IH]. unfold encode_entry. rewrite !Forall_app. split_and!; apply bytes_unle.
Qed.
Lemma length_decode_table n bs : length (decode_table n bs) = n.
Proof. revert bs. induction n; intros; cbn; auto. Qed.
Lemma decode_table_ok n bs : bytes bs -> (16 * n <= length bs)%nat -> Forall entry_ok (decode_table n bs).
Proof.
  revert bs. induction n as [|n IH]; intros bs Hb Hl; cbn [decode_table]; [constructor|].
  apply Forall_cons_2; [apply decode_entry_ok|apply IH].
  - by apply Forall_take.
  - rewrite length_take. lia.
  - by apply Forall_drop.
  - rewrite length_drop. lia.
Qed.

(** ** The disk *)

(** The bytes an entry stands for, and the table the disk holds. *)
Definition file_bytes (m : mem) (e : file_entry_t) : list Z := rd_bytes (Z.to_nat (size e)) m (512 * start_sector e).
Definition disk_table (m : mem) : list file_entry_t :=
  decode_table (Z.to_nat FILE_TABLE_ENTRIES) (rd_bytes (Z.to_nat FILE_TABLE_SIZE) m 512).
Definition MAX_FILE : Z := 255 * 512.

Lemma bytes_rd_bytes n m a : bytes (rd_bytes n m a).
Proof. revert a. induction n as [|n IH]; intros; cbn; constructor; [apply rd8_range|apply IH]. Qed.
Lemma disk_table_ok m : Forall entry_ok (disk_table m).
Proof. apply decode_table_ok; [apply bytes_rd_bytes|]. by rewrite length_rd_bytes. Qed.
Lemma length_disk_table m : length (disk_table m) = Z.to_nat FILE_TABLE_ENTRIES.
Proof. apply length_decode_table. Qed.

Lemma length_padded sz src : 0 <= sz <= len src -> len (padded sz src) = 512 * ((sz + 511) / 512).
Proof.
  unfold padded, len. intros Hs. rewrite length_app, length_take, length_replicate. divlia.
Qed.
Lemma rd8_disk_write_out m lba sz src b : 0 <= sz <= len src ->
  b < 512 * lba \/ 512 * (lba + (sz + 511) / 512) <= b -> rd8 (disk_write m lba sz src) b = rd8 m b.
Proof.
  intros Hs Hb. unfold disk_write. rewrite rd8_blit, decide_False; [done|].
  change (Z.of_nat (length (padded sz src))) with (len (padded sz src)). rewrite length_padded by done. lia.
Qed.
Lemma rd_bytes_disk_write m lba sz src : bytes src -> 0 <= sz <= len src ->
  rd_bytes (Z.to_nat sz) (disk_write m lba sz src) (512 * lba) = take (Z.to_nat sz) src.
Proof.
  intros Hb Hs. unfold disk_write, padded. rewrite blit_app.
  assert (length (take (Z.to_nat sz) src) = Z.to_nat sz) as Hl by (rewrite length_take; unfold len in *; lia).
  etransitivity; [|apply (rd_bytes_blit m (512 * lba)); by apply (Forall_take _ (Z.to_nat sz))].
  rewrite Hl. apply rd_bytes_ext. intros b Hb'. rewrite rd8_blit, decide_False; [done|]. unfold len. rewrite Hl. lia.
Qed.

(** A write outside the sectors of a file keeps its bytes. *)
Lemma file_bytes_disk_write m lba sz src e : 0 <= sz <= len src -> 0 <= size e ->
  (size e <> 0 -> file_end e <= lba \/ lba + (sz + 511) / 512 <= start_sector e) ->
  file_bytes (disk_write m lba sz src) e = file_bytes m e.
Proof.
  intros Hs He Ho. unfold file_bytes. apply rd_bytes_ext. intros b Hb. apply rd8_disk_write_out; [done|].
  unfold file_end, file_sectors in Ho. divlia.
Qed.
Lemma disk_table_disk_write m lba sz src : 0 <= sz <= len src -> FILE_TABLE_SECTORS + 1 <= lba ->
  disk_table (disk_write m lba sz src) = disk_table m.
Proof.
  intros Hs Hl. unfold disk_table. f_equal. apply rd_bytes_ext. intros b Hb. apply rd8_disk_write_out; [done|].
  change FILE_TABLE_SIZE with 10240 in Hb. change FILE_TABLE_SECTORS with 20 in Hl. lia.
Qed.
Lemma disk_table_save m t : length t = Z.to_nat FILE_TABLE_ENTRIES -> Forall entry_ok t ->
  disk_table (disk_write m 1 FILE_TABLE_SIZE (encode_table t)) = t.
Proof.
  intros Hl Ht. unfold disk_table. change 512 with (512 * 1) at 1.
  assert (len (encode_table t) = FILE_TABLE_SIZE) as E by (unfold len; rewrite length_encode_table, Hl; done).
  rewrite rd_bytes_disk_write by (rewrite ?E; done || apply bytes_encode_table).
  rewrite take_ge by (unfold len in E; lia). rewrite <- Hl, <- (app_nil_r (encode_table t)). by apply decode_encode_table.
Qed.

(** ** Driver calls of the filesystem *)

Definition drive_ok (st : fs_state) : Prop :=
  writable_drive st = true /\ FILE_TABLE_ENTRIES + 2 <= sector_count st < 2 ^ 16.

Lemma sector_cnt_ok sz : 0 <= sz <= MAX_FILE -> sector_cnt sz = OK ((sz + 511) / 512).
Proof.
  intros Hs. unfold MAX_FILE in Hs. rewrite sector_cnt_spec by lia. cbv zeta. by rewrite (proj2 (Z.ltb_lt _ 256)) by divlia.
Qed.
Lemma transfers_in sc lba sz : 0 < sz <= MAX_FILE -> 0 <= lba -> lba + (sz + 511) / 512 <= sc - 1 -> sc < 2 ^ 16 ->
  transfers sc lba sz = true.
Proof.
  intros Hs Hl He Hsc. unfold transfers, MAX_FILE in *. rewrite (wrap_id 32) by (unfold in_range; divlia).
  rewrite (proj2 (Z.leb_le 1 _)), (proj2 (Z.ltb_lt _ sc)) by divlia. done.
Qed.
Lemma transfers_zero sc lba : transfers sc lba 0 = false.
Proof. done. Qed.

Lemma write_secs_ok st lba src sz : drive_ok st -> 0 <= sz <= MAX_FILE -> sz <= len (default [] src) -> 0 <= lba ->
  lba + (sz + 511) / 512 <= sector_count st - 1 ->
  write_secs_from lba src sz st = OK (tt, set_disk (disk_write (disk st) lba sz (default [] src)) st).
Proof.
  intros [Hw Hsc] Hs Hlen Hl He. unfold write_secs_from. rewrite sector_cnt_ok by done.
  unfold lift, bind, get. cbn [obind]. rewrite Hw. destruct (decide (sz = 0)) as [->|Hz].
  - rewrite transfers_zero. cbn. by destruct st.
  - rewrite transfers_in by (done || lia). cbn [andb]. destruct src as [d|]; cbn [default] in *; [|unfold len in Hlen; cbn in Hlen; lia].
    cbn. change (Z.of_nat (length d)) with (len d). by rewrite (proj2 (Z.ltb_ge (len d) sz)).
Qed.
Lemma save_ok st t : drive_ok st -> file_table st = Some t -> length t = Z.to_nat FILE_TABLE_ENTRIES ->
  save_file_table st = OK (tt, set_disk (disk_write (disk st) 1 FILE_TABLE_SIZE (encode_table t)) st).
Proof.
  intros Hd Et Hl. unfold save_file_table, bind, get. cbn [obind]. rewrite Et. cbn [fmap option_fmap option_map].
  apply (write_secs_ok st 1 (Some (encode_table t))); [done|done| |done|].
  - change (FILE_TABLE_SIZE <= len (encode_table t)). unfold len. rewrite length_encode_table, Hl. done.
  - destruct Hd as [_ Hsc]. change FILE_TABLE_ENTRIES with 640 in Hsc. change ((FILE_TABLE_SIZE + 511) / 512) with 20. lia.
Qed.
Lemma read_secs_ok st lba b sz : drive_ok st -> 0 <= sz <= MAX_FILE -> sz + sz mod 2 <= len b -> 0 <= lba ->
  (sz <> 0 -> lba + (sz + 511) / 512 <= sector_count st - 1) ->
  read_secs_to lba (Some b) sz st = OK (Some (disk_read (disk st) lba sz b), st).
Proof.
  intros [Hw Hsc] Hs Hlen Hl He. unfold read_secs_to. rewrite sector_cnt_ok by done.
  unfold lift, bind, get. cbn [obind]. destruct (decide (sz = 0)) as [->|Hz].
  - rewrite transfers_zero. done.
  - rewrite transfers_in by (done || lia). cbn. change (Z.of_nat (length b)) with (len b).
    by rewrite (proj2 (Z.ltb_ge (len b) _)).
Qed.

(** ** Table accesses *)

Lemma ft_get_ok st t i e : file_table st = Some t -> 0 <= i -> t !! Z.to_nat i = Some e -> ft_get i st = OK (e, st).
Proof. intros Et Hi E. unfold ft_get. rewrite Et, (proj2 (Z.ltb_ge i 0)) by lia. by rewrite E. Qed.
Lemma ft_set_ok st t i e : file_table st = Some t -> 0 <= i < Z.of_nat (length t) ->
  ft_set i e st = OK (tt, set_table (Some (<[Z.to_nat i := e]> t)) st).
Proof.
  intros Et Hi. unfold ft_set. rewrite Et, (proj2 (Z.ltb_ge i 0)), (proj2 (Z.leb_gt _ i)) by lia. done.
Qed.
Lemma ft_set_magic_ok st t i e m : file_table st = Some t -> 0 <= i -> t !! Z.to_nat i = Some e ->
  ft_set_magic i m st = OK (tt, set_table (Some (<[Z.to_nat i := set_magic m e]> t)) st).
Proof.
  intros Et Hi E. unfold ft_set_magic. erewrite bind_step by (by eapply ft_get_ok). apply ft_set_ok; [done|].
  apply lookup_lt_Some in E. lia.
Qed.

Lemma set_table_set_table x y st : set_table x (set_table y st) = set_table x st.
Proof. done. Qed.
Lemma set_table_id t st : file_table st = Some t -> set_table (Some t) st = st.
Proof. intros <-. by destruct st. Qed.

(** ** Layout under replacement of one entry *)

Lemma live_insert t i e j f : 0 <= i < Z.of_nat (length t) -> live (<[Z.to_nat i := e]> t) j f ->
  (j = i /\ f = e /\ magic_number e = MAGIC_NUMBER) \/ (j <> i /\ live t j f).
Proof.
  intros Hi (Hj & E & Hm). destruct (decide (j = i)) as [->|Hne].
  - left. rewrite list_lookup_insert_eq in E by lia. by injection E as <-.
  - right. rewrite list_lookup_insert_ne in E by lia. done.
Qed.
Lemma live_insert_ne t i e j f : i <> j -> 0 <= i -> live t j f -> live (<[Z.to_nat i := e]> t) j f.
Proof. intros Hne Hi (Hj & E & Hm). split; [done|]. by rewrite list_lookup_insert_ne by lia. Qed.

(** Killing an entry keeps the layout. *)
Lemma layout_kill sc t i e : layout sc t -> 0 <= i < Z.of_nat (length t) -> magic_number e <> MAGIC_NUMBER ->
  layout sc (<[Z.to_nat i := e]> t).
Proof.
  intros [Hl Hin Hd] Hi Hm. constructor.
  - by rewrite length_insert.
  - intros j f [(-> & -> & ?)|[? ?]]%live_insert; [done| |done]. by apply (Hin j).
  - intros j k f g [(-> & -> & ?)|[? ?]]%live_insert [(-> & -> & ?)|[? ?]]%live_insert; try done. by apply Hd.
Qed.
(** An entry whose sectors are free of the other files keeps the layout. *)
Lemma layout_put sc t i e : layout sc t -> 0 <= i < Z.of_nat (length t) -> 0 <= size e <= MAX_FILE ->
  (size e <> 0 -> FILE_TABLE_ENTRIES + 1 <= start_sector e /\ file_end e <= sc - 1) ->
  (forall j f, j <> i -> live t j f -> size f <> 0 -> file_end e <= start_sector f \/ file_end f <= start_sector e) ->
  layout sc (<[Z.to_nat i := e]> t).
Proof.
  unfold MAX_FILE. intros [Hl Hin Hd] Hi Hs Hreg Hfree. constructor.
  - by rewrite length_insert.
  - intros j f [(-> & -> & ?)|[? ?]]%live_insert; [split; [lia|done]| |done]. by apply (Hin j).
  - intros j k f g [(-> & -> & ?)|[? ?]]%live_insert [(-> & -> & ?)|[? ?]]%live_insert Hjk Hf Hg; try done.
    + by apply (Hfree k g).
    + destruct (Hfree j f) as [?|?]; [done..|by right|by left].
    + by apply (Hd j k f g).
Qed.

(** ** [edit_file] *)

(** The data of the other live files. *)
Definition others_kept (t : list file_entry_t) (i : Z) (m m' : mem) : Prop :=
  forall j f, j <> i -> live t j f -> file_bytes m' f = file_bytes m f.

(** What [edit_file] of entry [i] leaves behind: on success the table, in
    memory and on the disk, has the entry at a new place whose bytes are the
    new data; on failure nothing changed, and the new data need more sectors
    than the old. *)
Definition edited (st : fs_state) (t : list file_entry_t) (i : Z) (e : file_entry_t) (src : option (list Z)) (sz : Z)
  (ok : bool) (st' : fs_state) : Prop :=
  if ok then exists s m', let e' := mk_entry MAGIC_NUMBER (type e) s sz in let t' := <[Z.to_nat i := e']> t in
    st' = set_disk m' (set_table (Some t') st) /\ disk_table m' = t' /\ Forall entry_ok t' /\
    layout (sector_count st) t' /\ file_bytes m' e' = take (Z.to_nat sz) (default [] src) /\ others_kept t i (disk st) m'
  else st' = st /\ (size e <> 0 -> file_sectors e < (sz + 511) / 512).

Lemma live_idx sc t i e : layout sc t -> live t i e -> 0 <= i < FILE_TABLE_ENTRIES.
Proof. intros [Hl _ _] (Hi & E & _). apply lookup_lt_Some in E. lia. Qed.

Lemma file_bytes_save sc m t e : layout sc t -> length t = Z.to_nat FILE_TABLE_ENTRIES -> 0 <= size e ->
  (size e <> 0 -> FILE_TABLE_ENTRIES + 1 <= start_sector e) ->
  file_bytes (disk_write m 1 FILE_TABLE_SIZE (encode_table t)) e = file_bytes m e.
Proof.
  intros Hlay Hl Hs Hlow. apply file_bytes_disk_write.
  - unfold len. rewrite length_encode_table, Hl. done.
  - done.
  - intros Hz. right. specialize (Hlow Hz). change FILE_TABLE_ENTRIES with 640 in Hlow.
    change ((FILE_TABLE_SIZE + 511) / 512) with 20. lia.
Qed.

(** Storing an entry with its data, then the table, in either order of the
    two in-memory updates: the common end of [edit_file]. *)
Lemma store_file_ok sc m t i e' src sz : layout sc t -> Forall entry_ok t -> 0 <= i < FILE_TABLE_ENTRIES ->
  bytes src -> 0 <= sz <= MAX_FILE -> sz <= len src -> sc < 2 ^ 16 ->
  magic_number e' = MAGIC_NUMBER -> in_range 32 (type e') -> size e' = sz ->
  FILE_TABLE_ENTRIES + 1 <= start_sector e' -> file_end e' <= sc - 1 ->
  (forall j f, j <> i -> live t j f -> size f <> 0 -> file_end e' <= start_sector f \/ file_end f <= start_sector e') ->
  let t' := <[Z.to_nat i := e']> t in
  let m' := disk_write (disk_write m (start_sector e') sz src) 1 FILE_TABLE_SIZE (encode_table t') in
  disk_table m' = t' /\ Forall entry_ok t' /\ layout sc t' /\ file_bytes m' e' = take (Z.to_nat sz) src /\ others_kept t i m m'.
Proof.
  intros Hlay Hok Hi Hb Hsz Hlen Hsc Hm Hty Es Hlow Hend Hfree t' m'.
  pose proof (lay_len _ _ Hlay) as Hl.
  assert (layout sc t') as Hlay'.
  { apply layout_put; [done|lia|by rewrite Es|done|done]. }
  assert (Forall entry_ok t') as Hok'.
  { apply Forall_insert; [done|]. unfold MAX_FILE, file_end, file_sectors in *. split_and!; [by rewrite Hm|done| |].
    - change FILE_TABLE_ENTRIES with 640 in Hlow. unfold in_range. divlia.
    - unfold in_range. lia. }
  assert (length t' = Z.to_nat FILE_TABLE_ENTRIES) as Hl' by apply (lay_len _ _ Hlay').
  split_and!; [by apply disk_table_save|done|done| |].
  - unfold m'. rewrite (file_bytes_save sc) by (done || lia). unfold file_bytes. rewrite Es. apply rd_bytes_disk_write; [done|lia].
  - intros j f Hj Hf. destruct (lay_in _ _ Hlay j f Hf) as [Hfs Hflow]. unfold m'.
    rewrite (file_bytes_save sc) by (done || lia || (intros Hz; apply (Hflow Hz))).
    apply file_bytes_disk_write; [lia|lia|]. intros Hz. unfold file_end, file_sectors in *. rewrite Es in *.
    destruct (Hfree j f Hj Hf Hz) as [?|?]; [by right|by left].
Qed.

Lemma edit_file_ok st t i e src sz : drive_ok st -> file_table st = Some t -> layout (sector_count st) t ->
  Forall entry_ok t -> live t i e -> bytes (default [] src) -> 0 <= sz <= MAX_FILE -> sz <= len (default [] src) ->
  wp (edit_file i src sz) (edited st t i e src sz) st.
Proof.
  intros Hd Et Hlay Hok He Hb Hsz Hlen. pose proof He as (Hi0 & E & Hm). pose proof (live_idx _ _ _ _ Hlay He) as Hi.
  pose proof (lay_len _ _ Hlay) as Hl. unfold edit_file.
  apply wp_bind. eapply wp_step; [by eapply ft_get_ok|]. rewrite Hm, Z.eqb_refl. cbn [negb].
  apply wp_bind. eapply wp_step; [by eapply ft_set_magic_ok|]. set (t0 := <[Z.to_nat i := set_magic 0 e]> t).
  set (st0 := set_table (Some t0) st).
  assert (layout (sector_count st0) t0) as Hlay0 by (apply layout_kill; [done|lia|done]).
  assert (t0 !! Z.to_nat i = Some (set_magic 0 e)) as E0 by (apply list_lookup_insert_eq; lia).
  assert (set_magic MAGIC_NUMBER (set_magic 0 e) = e) as Eback by (rewrite <- Hm; by destruct e).
  assert (<[Z.to_nat i := e]> t0 = t) as Erest by (unfold t0; rewrite list_insert_insert_eq; by apply list_insert_id).
  destruct (find_space_ok st0 t0 sz eq_refl Hlay0) as (r & Er & Hr).
  { apply Hd. } { unfold MAX_FILE in Hsz. lia. }
  apply wp_bind. eapply wp_step; [exact Er|]. destruct r as [s|].
  - apply wp_bind. eapply wp_step; [by eapply ft_set_magic_ok|]. rewrite Eback, Erest.
    change (set_table (Some t) st0) with (set_table (Some t) st). rewrite (set_table_id t st Et).
    apply wp_bind, wp_bind. eapply wp_step; [by eapply ft_get_ok|]. rewrite Hm, (wrap_id 32) by (unfold in_range, MAX_FILE in *; lia).
    eapply wp_step; [eapply ft_set_ok; [done|lia]|]. set (e' := mk_entry _ _ _ _). set (t' := <[Z.to_nat i := e']> t).
    destruct Hr as (Hlow & Hend & Hfree).
    apply wp_bind. eapply wp_step; [apply write_secs_ok; [done..|change FILE_TABLE_ENTRIES with 640 in Hlow; lia|done]|].
    apply wp_bind. eapply wp_step; [eapply save_ok; [done|done|unfold t'; by rewrite length_insert]|]. apply wp_ret.
    eexists s, _. split; [reflexivity|].
    eapply (store_file_ok _ (disk st) t i e'); try done.
    + apply Hd.
    + eapply Forall_lookup_1 in Hok as (_ & ? & _); [|exact E]. done.
    + intros j f Hj Hf Hz. apply (Hfree j f); [|done]. apply live_insert_ne; [done|done|done].
  - apply wp_bind. eapply wp_step; [by eapply ft_set_magic_ok|]. rewrite Eback, Erest. apply wp_ret.
    change (set_table (Some t) st0) with (set_table (Some t) st). split; [by apply set_table_id|]. intros Hz.
    destruct (lay_in _ _ Hlay i e He) as [_ [Hlow Hend]%(fun H => H Hz)]. apply Z.nle_gt. intros Hle.
    specialize (Hr (start_sector e) Hlow). unfold file_end in Hend. cbn [sector_count set_table st0] in Hr.
    assert (sector_count st - 1 < start_sector e + (sz + 511) / 512) as Hno; [|lia]. apply Hr.
    intros j f [(-> & -> & Hmf)|[Hj Hf]]%live_insert Hfz; [done| |lia].
    destruct (lay_disj _ _ Hlay j i f e Hf He Hj Hfz Hz) as [?|?]; [by right|left]. unfold file_end in *. lia.
Qed.
