(* ===== verification/FsPath.v ===== *)
(** * Path resolution

    The abstract view of a filesystem: the table and, for every directory, its
    listing of names and entry numbers.  [presolve] is path lookup on that
    view; [resolve_path] is shown to compute it. *)
From S2P Require Import Prelude Mem Util Str Ata Fs FsThms FsEdit.

(** ** The abstract view *)

Abbreviation listing := (list (list Z * Z)).
Definition is_dir (e : file_entry_t) : Prop := type e = DIRECTORY \/ type e = ROOT_DIRECTORY.
#[global] Instance is_dir_dec e : Decision (is_dir e).
Proof. unfold is_dir. apply _. Defined.

(** [bs] is an array of [dir_entry_t] holding the listing [l]. *)
Fixpoint dir_is (bs : list Z) (l : listing) : Prop :=
  match l with
  | [] => bs = []
  | (nm, i) :: l' => exists pad rest, bs = nm ++ 0 :: pad ++ unle 4 i ++ rest /\
      nonzero nm /\ len nm + 1 + len pad = FILE_NAME_LENGTH /\ in_range 32 i /\ dir_is rest l'
  end.

(** The number of the first entry that is a live root. *)
Fixpoint root_of (t : list file_entry_t) (i : Z) : option Z :=
  match t with
  | [] => None
  | e :: t' => if (magic_number e =? MAGIC_NUMBER) && (type e =? ROOT_DIRECTORY) then Some i else root_of t' (i + 1)
  end.

(** The first usable entry with the name [part]. *)
Definition usable (t : list file_entry_t) (is_last : bool) (i : Z) : bool :=
  match t !! Z.to_nat i with
  | Some e => (magic_number e =? MAGIC_NUMBER) && ((type e =? DIRECTORY) || is_last)
  | None => false
  end.
Fixpoint find_name (t : list file_entry_t) (l : listing) (part : list Z) (is_last : bool) : option Z :=
  match l with
  | [] => None
  | (nm, i) :: l' => if bool_decide (nm = part) && usable t is_last i then Some i else find_name t l' part is_last
  end.
Definition is_nil {A} (l : list A) : bool := match l with [] => true | _ => false end.
Fixpoint presolve (t : list file_entry_t) (dirs : gmap Z listing) (parts : list (list Z)) (cur : Z) : option Z :=
  match parts with
  | [] => Some cur
  | part :: parts' =>
      match find_name t (dirs !!! cur) part (is_nil parts') with
      | None => None
      | Some i => presolve t dirs parts' i
      end
  end.

(** Under the table [t], the disk [m] of [sc] sectors holds the listings [dirs]:
    files lie apart, directories are arrays of entries that name live files,
    each under one name in one directory, the root is entry [root] and no
    directory names a root. *)
Record fs_view (sc : Z) (m : mem) (t : list file_entry_t) (dirs : gmap Z listing) (root : Z) : Prop := {
  wf_layout : layout sc t;
  wf_size : forall i e, live t i e -> size e <= MAX_FILE;
  wf_dir : forall i e, live t i e -> is_dir e -> dir_is (file_bytes m e) (dirs !!! i);
  wf_named : forall i e, live t i e -> is_dir e -> Forall (fun x => exists f, live t x.2 f) (dirs !!! i);
  wf_nodup : forall i e, live t i e -> is_dir e -> NoDup (dirs !!! i).*2 /\ NoDup (dirs !!! i).*1;
  wf_unique : forall i j e f k, live t i e -> is_dir e -> live t j f -> is_dir f -> i <> j ->
    k ∈ (dirs !!! i).*2 -> k ∉ (dirs !!! j).*2;
  wf_root : root_of t 0 = Some root;
  wf_top : forall i e k f, live t i e -> is_dir e -> k ∈ (dirs !!! i).*2 -> live t k f -> type f <> ROOT_DIRECTORY
}.
(** What reading directories needs: the names lead into the table, to entries
    in use or not. *)
Record fs_scan (sc : Z) (m : mem) (t : list file_entry_t) (dirs : gmap Z listing) (root : Z) : Prop := {
  sn_layout : layout sc t;
  sn_size : forall i e, live t i e -> size e <= MAX_FILE;
  sn_dir : forall i e, live t i e -> is_dir e -> dir_is (file_bytes m e) (dirs !!! i);
  sn_named : forall i e, live t i e -> is_dir e -> Forall (fun x => 0 <= x.2 /\ is_Some (t !! Z.to_nat x.2)) (dirs !!! i);
  sn_nodup : forall i e, live t i e -> is_dir e -> NoDup (dirs !!! i).*2;
  sn_root : root_of t 0 = Some root
}.
Lemma view_scan sc m t dirs root : fs_view sc m t dirs root -> fs_scan sc m t dirs root.
Proof.
  intros [H1 H2 H3 H4 H5 _ H7 _]. constructor; [done..| | |done].
  - intros i e He Hd. eapply Forall_impl; [by apply (H4 i e)|]. intros x (f & ? & E & _). split; [done|by rewrite E].
  - intros i e He Hd. by apply (H5 i e).
Qed.
(** ... and [t] is the table stored in its sectors. *)
Definition fs_wf (sc : Z) (m : mem) (t : list file_entry_t) (dirs : gmap Z listing) (root : Z) : Prop :=
  disk_table m = t /\ fs_view sc m t dirs root.

(** ** Directory contents *)

Lemma dir_is_length bs l : dir_is bs l -> len bs = DIR_ENTRY_SIZE * Z.of_nat (length l).
Proof.
  revert bs. induction l as [|[nm i] l IH]; intros bs; cbn [dir_is].
  - by intros ->.
  - intros (pad & rest & -> & _ & Hl & _ & Hr%IH). unfold len in *. repeat (rewrite length_app || rewrite length_cons).
    rewrite length_unle. change FILE_NAME_LENGTH with 60 in Hl. change DIR_ENTRY_SIZE with 64 in *. lia.
Qed.
Lemma dir_is_snoc bs l nm i pad : dir_is bs l -> nonzero nm -> len nm + 1 + len pad = FILE_NAME_LENGTH -> in_range 32 i ->
  dir_is (bs ++ nm ++ 0 :: pad ++ unle 4 i) (l ++ [(nm, i)]).
Proof.
  revert bs. induction l as [|[nm' i'] l IH]; intros bs; cbn [dir_is app].
  - intros -> Hn Hl Hi. exists pad, []. split_and!; [by rewrite app_nil_r|done..].
  - intros (pad' & rest & -> & ? & ? & ? & Hr) Hn Hl Hi. exists pad', (rest ++ nm ++ 0 :: pad ++ unle 4 i).
    split_and!; [|done..|by apply IH]. repeat (rewrite <- app_assoc || cbn [app]). done.
Qed.

Lemma length_file_bytes m e : 0 <= size e -> len (file_bytes m e) = size e.
Proof. intros. unfold file_bytes, len. rewrite length_rd_bytes. lia. Qed.

(** One entry read through the C accessors. *)
Lemma dir_entry_head bs j nm i pad rest : 0 <= j ->
  drop (Z.to_nat (DIR_ENTRY_SIZE * j)) bs = nm ++ 0 :: pad ++ unle 4 i ++ rest -> nonzero nm ->
  len nm + 1 + len pad = FILE_NAME_LENGTH -> in_range 32 i ->
  cstring (de_name bs j) nm /\ de_index bs j = OK i /\ drop (Z.to_nat (DIR_ENTRY_SIZE * (j + 1))) bs = rest.
Proof.
  intros Hj E Hn Hl Hi. unfold de_name, de_index. change DIR_ENTRY_SIZE with 64 in *. change FILE_NAME_LENGTH with 60 in *.
  assert (drop (Z.to_nat (64 * j + 60)) bs = unle 4 i ++ rest) as E60.
  { replace (Z.to_nat (64 * j + 60)) with (Z.to_nat (64 * j) + 60)%nat by lia. rewrite <- drop_drop, E.
    replace 60%nat with (length (nm ++ 0 :: pad)) by (rewrite length_app, length_cons; unfold len in Hl; lia).
    replace (nm ++ 0 :: pad ++ unle 4 i ++ rest) with ((nm ++ 0 :: pad) ++ unle 4 i ++ rest) by (by rewrite <- app_assoc).
    apply drop_app_length. }
  split_and!.
  - split; [done|]. rewrite E. eauto.
  - rewrite E60, take_app_le, take_ge by (by rewrite length_unle). rewrite length_unle. cbn [Nat.eqb].
    rewrite le_unle. f_equal. by apply Z.mod_small.
  - replace (Z.to_nat (64 * (j + 1))) with (Z.to_nat (64 * j + 60) + 4)%nat by lia. rewrite <- drop_drop, E60.
    change 4%nat with (length (unle 4 i)) at 1. apply drop_app_length.
Qed.

Lemma strcmp_short s1 s2 t1 t2 : cstring s1 t1 -> cstring s2 t2 -> len t1 <= MAX_STR -> strcmp s1 s2 = OK (bool_decide (t1 = t2)).
Proof. intros H1 H2 Hl. rewrite (strcmp_spec _ _ _ _ H1 H2). by rewrite (proj2 (Z.leb_le _ _)). Qed.

Lemma find_in_dir_ok st t l part bs j is_last : file_table st = Some t -> 0 <= j ->
  dir_is (drop (Z.to_nat (DIR_ENTRY_SIZE * j)) bs) l -> Forall (fun x => 0 <= x.2 /\ is_Some (t !! Z.to_nat x.2)) l -> nonzero part ->
  find_in_dir (length l) j (Some bs) (part ++ [0]) is_last st = OK (find_name t l part is_last, st).
Proof.
  intros Et Hj Hd Hl Hp. revert j Hj Hd. induction l as [|[nm i] l IH]; intros j Hj Hd; [done|].
  cbn [dir_is] in Hd. destruct Hd as (pad & rest & E & Hn & Hlen & Hi & Hr). apply Forall_cons in Hl as [(Hf0 & f & Hf) Hl].
  destruct (dir_entry_head _ _ _ _ _ _ Hj E Hn Hlen Hi) as (Hname & Hidx & Hnext). cbn [snd] in *.
  cbn [find_in_dir length find_name]. unfold deref, lift. rewrite bind_step with (a := bs) (s1 := st) by done.
  rewrite (strcmp_short _ (part ++ [0]) _ part Hname); [|split; [done|by exists []]|change FILE_NAME_LENGTH with 60 in Hlen; unfold len, MAX_STR in *; lia].
  rewrite bind_step with (a := bool_decide (nm = part)) (s1 := st) by done.
  assert (find_in_dir (length l) (j + 1) (Some bs) (part ++ [0]) is_last st = OK (find_name t l part is_last, st)) as IH'
    by (apply IH; [done|lia|by rewrite Hnext]).
  destruct (bool_decide (nm = part)); cbn [negb andb]; [|exact IH'].
  rewrite Hidx, bind_step with (a := i) (s1 := st) by done.
  rewrite (bind_step _ _ _ f st) by (by eapply ft_get_ok). unfold usable. rewrite Hf.
  destruct (magic_number f =? MAGIC_NUMBER), ((type f =? DIRECTORY) || is_last); cbn [negb andb]; done.
Qed.

(** ** Heap calls *)

Lemma set_heap_set_heap h h' st : set_heap h (set_heap h' st) = set_heap h st.
Proof. done. Qed.
Lemma wp_in_bmalloc (Q : option (list Z) -> fs_state -> Prop) st n : ample (fheap st) -> 0 < n ->
  (forall b h, ample h -> len b = n -> bytes b -> Q (Some b) (set_heap h st)) -> wp (in_heap (bmalloc n)) Q st.
Proof. intros Ha Hn HQ. apply wp_zoom, wp_bmalloc; [done|done|]. intros b h' ? ? ? _. by apply HQ. Qed.
Lemma wp_in_bfree (Q : unit -> fs_state -> Prop) st p : ample (fheap st) ->
  (forall h, ample h -> Q tt (set_heap h st)) -> wp (in_heap (bfree p)) Q st.
Proof. intros Ha HQ. apply wp_zoom. destruct p; by apply HQ. Qed.

(** ** [resolve_path] *)

Lemma find_root_loop_ok st t n i : file_table st = Some t -> 0 <= i -> length t = (Z.to_nat i + n)%nat ->
  find_root_loop n i st = OK (root_of (drop (Z.to_nat i) t) i, st).
Proof.
  intros Et. revert i. induction n as [|n IH]; intros i Hi Hl; cbn [find_root_loop].
  - by rewrite drop_ge by lia.
  - destruct (lookup_Z_lt t i ltac:(lia)) as [e E]. rewrite (bind_step _ _ _ e st) by (by eapply ft_get_ok).
    rewrite (drop_S t e) by done. cbn [root_of]. replace (S (Z.to_nat i)) with (Z.to_nat (i + 1)) by lia.
    destruct (magic_number e =? MAGIC_NUMBER), (type e =? ROOT_DIRECTORY); cbn [negb andb]; try done; apply IH; lia.
Qed.
Lemma find_root_ok st t : file_table st = Some t -> length t = Z.to_nat FILE_TABLE_ENTRIES ->
  find_root st = OK (root_of t 0, st).
Proof. intros Et Hl. unfold find_root. by rewrite (find_root_loop_ok st t). Qed.

Lemma root_of_live t i r : root_of t i = Some r -> 0 <= i -> exists e, i <= r /\ t !! Z.to_nat (r - i) = Some e /\
  magic_number e = MAGIC_NUMBER /\ type e = ROOT_DIRECTORY.
Proof.
  revert i. induction t as [|e t IH]; intros i; cbn [root_of]; [done|]. case_bool; reflect_Z.
  - intros [= ->] _. exists e. rewrite Z.sub_diag. done.
  - intros Hr Hi. destruct (IH _ Hr) as (f & ? & E & ?); [lia|]. exists f. split; [lia|]. split; [|done].
    by replace (Z.to_nat (r - i)) with (S (Z.to_nat (r - (i + 1)))) by lia.
Qed.
Lemma sn_root_live sc m t dirs root : fs_scan sc m t dirs root -> exists e, live t root e /\ type e = ROOT_DIRECTORY.
Proof.
  intros Hwf. destruct (root_of_live _ _ _ (sn_root _ _ _ _ _ Hwf)) as (e & ? & E & ? & ?); [done|].
  rewrite Z.sub_0_r in E. by exists e.
Qed.
Lemma wf_root_live sc m t dirs root : fs_view sc m t dirs root -> exists e, live t root e /\ is_dir e.
Proof. intros (e & He & Hty)%view_scan%sn_root_live. exists e. split; [done|by right]. Qed.

Lemma find_name_usable t l part last i : find_name t l part last = Some i -> usable t last i = true /\ i ∈ l.*2.
Proof.
  induction l as [|[nm k] l IH]; cbn [find_name fmap list_fmap]; [done|]. case_bool.
  - intros [= ->]. apply andb_true_iff in Heqb as [_ ?]. split; [done|left].
  - intros [? ?]%IH. split; [done|by right].
Qed.
Lemma usable_live t last i : usable t last i = true -> 0 <= i -> exists e, live t i e /\ (last = false -> type e = DIRECTORY).
Proof.
  unfold usable. destruct (t !! Z.to_nat i) as [e|] eqn:E; [|done]. intros [?%Z.eqb_eq Hty]%andb_true_iff Hi.
  exists e. split; [done|]. intros ->. rewrite orb_false_r in Hty. by apply Z.eqb_eq.
Qed.

(** Reading a whole directory file. *)
Lemma disk_read_file m e b : 0 <= size e -> size e mod 2 = 0 -> len b = size e -> disk_read m (start_sector e) (size e) b = file_bytes m e.
Proof.
  intros Hs He Hl. unfold disk_read. rewrite He, Z.add_0_r. rewrite drop_ge by (unfold len in Hl; lia). cbn. by rewrite app_nil_r.
Qed.

Section Resolve.
Context (t : list file_entry_t) (dirs : gmap Z listing) (root sc : Z) (m : mem).
Context (Hwf : fs_scan sc m t dirs root).

(** The state during an operation: table loaded, heap with room. *)
Definition loaded (st : fs_state) : Prop :=
  drive_ok st /\ file_table st = Some t /\ sector_count st = sc /\ disk st = m /\ ample (fheap st).
Lemma loaded_heap st h : loaded st -> ample h -> loaded (set_heap h st).
Proof using. intros (? & ? & ? & ? & _) Ha. done. Qed.

Lemma scan_shape i e : live t i e -> is_dir e ->
  0 <= size e <= MAX_FILE /\ size e = DIR_ENTRY_SIZE * Z.of_nat (length (dirs !!! i)) /\
  (size e <> 0 -> 0 <= start_sector e /\ start_sector e + (size e + 511) / 512 <= sc - 1).
Proof using Hwf.
  intros He Hd. pose proof (sn_size _ _ _ _ _ Hwf i e He). destruct (lay_in _ _ (sn_layout _ _ _ _ _ Hwf) i e He) as [Hs Hin].
  pose proof (dir_is_length _ _ (sn_dir _ _ _ _ _ Hwf i e He Hd)) as Hl. rewrite length_file_bytes in Hl by lia.
  split_and!; [lia|lia|done|]. intros Hz. destruct (Hin Hz) as [Hlow Hend]. change FILE_TABLE_ENTRIES with 640 in Hlow.
  unfold file_end, file_sectors in Hend. lia.
Qed.

(** [malloc] of a buffer and a read of the whole directory into it. *)
Lemma scan_read_dir (Q : option (list Z) -> fs_state -> Prop) st i e : loaded st -> live t i e -> is_dir e -> size e <> 0 ->
  (forall h, ample h -> Q (Some (file_bytes m e)) (set_heap h st)) ->
  wp (let* buf := in_heap (bmalloc (size e)) in read_secs_to (start_sector e) buf (size e)) Q st.
Proof using Hwf.
  intros Hst He Hd Hz HQ. destruct (scan_shape i e He Hd) as (Hs & El & Hreg). destruct (Hreg Hz) as [H0 Hend].
  destruct Hst as (Hdr & Et & Esc & Em & Ha). change DIR_ENTRY_SIZE with 64 in El.
  apply wp_bind, wp_in_bmalloc; [done|lia|]. intros b h Ha' Hb _.
  eapply wp_step; [apply read_secs_ok; [done|done|divlia|done|cbn; lia]|]. cbn [disk set_heap]. rewrite Em.
  rewrite disk_read_file by (lia || divlia). by apply HQ.
Qed.

Lemma scan_resolve_parts (Q : option Z -> fs_state -> Prop) parts cur st : loaded st -> Forall nonzero parts ->
  (parts <> [] -> exists e, live t cur e /\ is_dir e) ->
  (forall h, ample h -> Q (presolve t dirs parts cur) (set_heap h st)) ->
  wp (resolve_parts ((fun k => k ++ [0]) <$> parts) cur) Q st.
Proof using Hwf.
  intros Hst Hp. revert cur st Hst. induction Hp as [|part parts Hpart Hparts IH]; intros cur st Hst Hcur HQ; cbn [fmap list_fmap resolve_parts presolve].
  { apply wp_ret. destruct Hst as (_ & _ & _ & _ & Ha). specialize (HQ _ Ha). by destruct st. }
  destruct (Hcur ltac:(done)) as (e & He & Hdir). pose proof Hst as (Hdr & Et & Esc & Em & Ha). pose proof He as (Hc0 & Ee & _).
  apply wp_bind. eapply wp_step; [by eapply ft_get_ok|]. destruct (scan_shape cur e He Hdir) as (Hs & El & _).
  cbn [presolve] in HQ. destruct (Z.eqb_spec (size e) 0) as [Hz|Hz].
  { assert (dirs !!! cur = []) as Ed.
    { destruct (dirs !!! cur); [done|]. cbn [length] in El. change DIR_ENTRY_SIZE with 64 in El. lia. }
    rewrite Ed in HQ. cbn [find_name] in HQ. apply wp_ret. specialize (HQ _ Ha). by destruct st. }
  eapply wp_ext; [symmetry; apply bind_assoc|]. apply wp_bind.
  eapply (scan_read_dir _ _ cur); [done..|]. intros h Hh. apply wp_bind.
  assert (size e / DIR_ENTRY_SIZE = Z.of_nat (length (dirs !!! cur))) as -> by (rewrite El; change DIR_ENTRY_SIZE with 64; divlia).
  rewrite Nat2Z.id.
  assert ((match (fun k : list Z => k ++ [0]) <$> parts with [] => true | _ :: _ => false end) = is_nil parts) as -> by by destruct parts.
  eapply wp_step; [apply (find_in_dir_ok _ t); [done|done| | |done]|].
  { by apply (sn_dir _ _ _ _ _ Hwf). } { by apply (sn_named _ _ _ _ _ Hwf cur e). }
  apply wp_bind, wp_in_bfree; [done|]. intros h2 Hh2. rewrite set_heap_set_heap.
  destruct (find_name t (dirs !!! cur) part (is_nil parts)) as [i|] eqn:Ef; [|apply wp_ret; by apply HQ].
  apply IH; [by apply loaded_heap| |intros h3 Hh3; rewrite set_heap_set_heap; by apply HQ].
  intros Hne. apply find_name_usable in Ef as [Hu (x & -> & Hx)%list_elem_of_fmap].
  pose proof (sn_named _ _ _ _ _ Hwf cur e He Hdir) as Hn. rewrite Forall_forall in Hn. destruct (Hn x Hx) as [Hf _].
  apply usable_live in Hu as (g & Hg & Hty); [|done]. exists g. split; [done|]. left. apply Hty. by destruct parts.
Qed.
End Resolve.
Lemma dir_shape t dirs root sc m : fs_view sc m t dirs root -> forall i e, live t i e -> is_dir e ->
  0 <= size e <= MAX_FILE /\ size e = DIR_ENTRY_SIZE * Z.of_nat (length (dirs !!! i)) /\
  (size e <> 0 -> 0 <= start_sector e /\ start_sector e + (size e + 511) / 512 <= sc - 1).
Proof. intros Hv. by apply (scan_shape t dirs root sc m (view_scan _ _ _ _ _ Hv)). Qed.

(** ** Path texts *)

Lemma pieces_token d c rest cur : Forall (fun x => x <> d) c -> pieces d (c ++ rest) cur = pieces d rest (cur ++ c).
Proof.
  intros Hc. revert cur. induction Hc as [|x c Hx Hc IH]; intros cur; cbn [app pieces]; [by rewrite app_nil_r|].
  rewrite (proj2 (Z.eqb_neq x d)) by done. rewrite IH. by rewrite <- app_assoc.
Qed.
(** A non-empty piece without slashes, of any length. *)
Definition word (c : list Z) : Prop := c <> [] /\ Forall (fun x => x <> SLASH) c.
Lemma component_ne c : component c -> word c.
Proof. intros [Hl ?]. split; [|done]. intros ->. unfold len in Hl. cbn in Hl. lia. Qed.
Lemma pieces_words cs suffix : Forall word cs -> suffix = [] \/ suffix = [SLASH] -> pieces SLASH (join cs ++ suffix) [] = cs.
Proof.
  intros Hcs Hsuf. assert (forall cur, pieces SLASH suffix cur = match cur with [] => [] | _ => [cur] end) as Hend.
  { intros [|x cur]; destruct Hsuf as [->| ->]; done. }
  assert (forall cur, pieces SLASH (join cs ++ suffix) cur = match cur with [] => cs | _ => cur :: cs end) as Hall.
  { induction Hcs as [|c cs [Hne Hc] Hcs IH]; intros cur; [apply Hend|].
    unfold join. cbn [mbind list_bind app]. change (mbind _ cs) with (join cs). cbn [pieces]. rewrite Z.eqb_refl.
    rewrite <- app_assoc, pieces_token by done. cbn [app]. rewrite IH. by destruct c, cur. }
  apply Hall.
Qed.
Lemma pieces_join cs suffix : Forall component cs -> suffix = [] \/ suffix = [SLASH] -> pieces SLASH (join cs ++ suffix) [] = cs.
Proof. intros Hcs. apply pieces_words. eapply Forall_impl; [exact Hcs|apply component_ne]. Qed.
(** Every piece is such a word, with characters of the text. *)
Lemma pieces_Forall (P : Z -> Prop) t cur : Forall P t -> Forall P cur -> Forall (fun x => x <> SLASH) cur ->
  Forall (fun c => word c /\ Forall P c) (pieces SLASH t cur).
Proof.
  intros Ht. revert cur. induction Ht as [|c t Hc Ht IH]; intros cur Hcur Hs; cbn [pieces].
  - destruct cur as [|x cur]; [apply Forall_nil_2|]. apply Forall_cons_2; [done|apply Forall_nil_2].
  - destruct (Z.eqb_spec c SLASH) as [->|Hne].
    + destruct cur as [|x cur]; [|apply Forall_cons_2; [done|]]; apply IH; apply Forall_nil_2.
    + apply IH; apply Forall_app; (split; [done|by apply Forall_singleton]).
Qed.
Lemma pieces_nonzero d u cur : nonzero u -> nonzero cur -> Forall nonzero (pieces d u cur).
Proof.
  intros Hu. revert cur. induction Hu as [|c u Hc Hu IH]; intros cur Hcur; cbn [pieces].
  - destruct cur; [apply Forall_nil_2|apply Forall_cons_2; [done|apply Forall_nil_2]].
  - destruct (c =? d).
    + destruct cur; [by apply IH|]. constructor; [done|]. apply IH. constructor.
    + apply IH. apply Forall_app. split; [done|]. by repeat constructor.
Qed.

Lemma scan_resolve_path (Q : option Z -> fs_state -> Prop) t dirs root sc m st p u : fs_scan sc m t dirs root -> loaded t sc m st ->
  cstring p (SLASH :: u) -> bytes p -> len (SLASH :: u) <= MAX_STR ->
  (forall h, ample h -> Q (presolve t dirs (pieces SLASH (SLASH :: u) []) root) (set_heap h st)) ->
  wp (resolve_path p) Q st.
Proof.
  intros Hwf Hst Hp Hb Hl HQ. pose proof Hst as (Hdr & Et & Esc & Em & Ha). unfold resolve_path.
  apply wp_bind. eapply wp_lift; [by eapply strlen_ok|]. rewrite (proj2 (Z.eqb_neq _ 0)) by (unfold len; cbn; lia).
  apply wp_bind. eapply wp_lift; [apply bget_lookup; [done|]; by eapply (cstring_lookup _ _ 0%nat)|]. rewrite Z.eqb_refl. cbn [negb].
  apply wp_bind. unfold in_heap at 1. apply wp_zoom. eapply wp_str_split; [done|done|done|done|]. intros h Hh _.
  apply wp_bind. eapply wp_step; [eapply find_root_ok; [done|by apply (lay_len _ _ (sn_layout _ _ _ _ _ Hwf))]|].
  rewrite (sn_root _ _ _ _ _ Hwf). destruct Hp as [Hnz _].
  eapply scan_resolve_parts; [done|by apply loaded_heap|apply pieces_nonzero; [done|apply Forall_nil_2]| |].
  - intros _. destruct (sn_root_live _ _ _ _ _ Hwf) as (e & He & Hty). exists e. split; [done|by right].
  - intros h2 Hh2. rewrite set_heap_set_heap. by apply HQ.
Qed.

(** ** Loading and dropping the table *)

Lemma wp_free_table (Q : unit -> fs_state -> Prop) st : ample (fheap st) ->
  (forall h, ample h -> Q tt (set_table None (set_heap h st))) -> wp free_file_table Q st.
Proof.
  intros Ha HQ. unfold free_file_table. apply wp_bind, wp_get, wp_bind, wp_in_bfree; [done|]. intros h Hh. apply wp_modify. by apply HQ.
Qed.
Lemma wp_load_table (Q : unit -> fs_state -> Prop) st : drive_ok st -> ample (fheap st) ->
  (forall h, ample h -> Q tt (set_table (Some (disk_table (disk st))) (set_heap h st))) -> wp load_file_table Q st.
Proof.
  intros Hd Ha HQ. unfold load_file_table. apply wp_bind, wp_get, wp_bind.
  assert (forall h x, ample h -> wp (let* buf := in_heap (bmalloc FILE_TABLE_SIZE) in
    let* buf := read_secs_to 1 buf FILE_TABLE_SIZE in
    modify (set_table (decode_table (Z.to_nat FILE_TABLE_ENTRIES) <$> buf))) Q (set_table x (set_heap h st))) as Hrest.
  { intros h x Hh. apply wp_bind, wp_in_bmalloc; [done|done|]. intros b h2 Hh2 Hb _. apply wp_bind.
    eapply wp_step.
    { apply read_secs_ok; [done|done|by rewrite Hb|done|]. intros _. destruct Hd as [_ Hsc]. change FILE_TABLE_ENTRIES with 640 in Hsc.
      change ((FILE_TABLE_SIZE + 511) / 512) with 20. cbn. lia. }
    apply wp_modify. cbn [fmap option_fmap option_map].
    assert (disk_read (disk st) 1 FILE_TABLE_SIZE b = rd_bytes (Z.to_nat FILE_TABLE_SIZE) (disk st) 512) as E.
    { unfold disk_read. change (FILE_TABLE_SIZE mod 2) with 0. rewrite drop_ge by (unfold len in Hb; lia). cbn [Z.eqb app]. by rewrite app_nil_r. }
    change (disk (set_heap _ _)) with (disk st). rewrite E. by apply (HQ h2). }
  destruct (file_table st) eqn:Et.
  - apply wp_free_table; [done|]. intros h Hh. by apply Hrest.
  - apply wp_ret. specialize (Hrest (fheap st) None Ha). by destruct st; cbn in *; subst.
Qed.
Lemma loaded_load sc m t dirs root st h : fs_wf sc m t dirs root -> drive_ok st -> sector_count st = sc -> disk st = m ->
  ample h -> loaded t sc m (set_table (Some (disk_table (disk st))) (set_heap h st)).
Proof. intros Hwf Hd Hs Hm Hh. split_and!; [done| |done..]. cbn. destruct Hwf as [<- _]. by rewrite Hm. Qed.
