(* ===== verification/FsWrite.v ===== *)
(** * Reading and writing files by path

    [filesystem_read_file], [filesystem_file_exists] and
    [filesystem_write_file] on a well-formed filesystem: what they return, and
    that writing keeps the filesystem well formed and every other file's data. *)
From S2P Require Import Prelude Mem Util Str Ata Fs FsThms FsEdit FsPath.

(** ** Paths *)

(** [p] is the C string of the path with the components [cs]. *)
Definition path_text (cs : list (list Z)) : list Z := match cs with [] => [SLASH] | _ => join cs end.
Definition is_path (p : list Z) (cs : list (list Z)) : Prop :=
  cstring p (path_text cs) /\ bytes p /\ Forall component cs /\ len (path_text cs) <= MAX_STR.

Lemma path_text_slash cs : exists u, path_text cs = SLASH :: u.
Proof. destruct cs as [|c cs]; [by exists []|]. cbn. eauto. Qed.
Lemma path_pieces cs : Forall component cs -> pieces SLASH (path_text cs) [] = cs.
Proof.
  intros Hcs. destruct cs as [|c cs]; [done|]. cbn [path_text]. rewrite <- (app_nil_r (join _)). apply pieces_join; [done|by left].
Qed.
Lemma is_path_valid p cs : is_path p cs -> is_valid_path (Some p) = OK true.
Proof.
  intros (Hp & _ & Hcs & Hl). destruct (is_valid_path_ok p _ Hp) as (b & -> & Hb).
  - unfold MAX_STR in Hl. lia.
  - f_equal. apply Hb. split; [done|]. destruct cs as [|c cs]; [by left|right]. by exists (c :: cs).
Qed.

Lemma scan_resolve (Q : option Z -> fs_state -> Prop) t dirs root sc m st p cs : fs_scan sc m t dirs root -> loaded t sc m st ->
  is_path p cs -> (forall h, ample h -> Q (presolve t dirs cs root) (set_heap h st)) -> wp (resolve_path p) Q st.
Proof.
  intros Hv Hst (Hp & Hb & Hcs & Hl) HQ. destruct (path_text_slash cs) as [u E]. rewrite E in *.
  eapply scan_resolve_path; [done..|]. intros h Hh. rewrite <- E, path_pieces by done. by apply HQ.
Qed.
Lemma wp_resolve (Q : option Z -> fs_state -> Prop) t dirs root sc m st p cs : fs_view sc m t dirs root -> loaded t sc m st ->
  is_path p cs -> (forall h, ample h -> Q (presolve t dirs cs root) (set_heap h st)) -> wp (resolve_path p) Q st.
Proof. intros Hv%view_scan. by apply scan_resolve. Qed.

(** ** What resolution returns *)

Lemma live_fun t i e f : live t i e -> live t i f -> e = f.
Proof. intros (_ & Ee & _) (_ & Ef & _). rewrite Ee in Ef. by injection Ef. Qed.
Lemma find_name_live sc m t dirs root cur e part last i : fs_view sc m t dirs root -> live t cur e -> is_dir e ->
  find_name t (dirs !!! cur) part last = Some i -> exists f, live t i f /\ (last = false -> type f = DIRECTORY).
Proof.
  intros Hv He Hd [Hu (x & -> & Hx)%list_elem_of_fmap]%find_name_usable.
  pose proof (wf_named _ _ _ _ _ Hv cur e He Hd) as Hn. rewrite Forall_forall in Hn. destruct (Hn x Hx) as (f & Hf & _).
  by apply usable_live.
Qed.
Lemma presolve_live sc m t dirs root parts cur e i : fs_view sc m t dirs root -> live t cur e -> (parts <> [] -> is_dir e) ->
  presolve t dirs parts cur = Some i -> exists f, live t i f.
Proof.
  intros Hv. revert cur e. induction parts as [|part parts IH]; intros cur e He Hd; cbn [presolve].
  - intros [= <-]. eauto.
  - destruct (find_name _ _ _ _) as [k|] eqn:Ef; [|done].
    eapply find_name_live in Ef as (f & Hf & Hty); [|done..|by apply Hd]. apply (IH k f Hf).
    intros Hne. left. apply Hty. by destruct parts.
Qed.
Lemma resolve_live sc m t dirs root parts i : fs_view sc m t dirs root -> presolve t dirs parts root = Some i -> exists f, live t i f.
Proof. intros Hv. destruct (wf_root_live _ _ _ _ _ Hv) as (e & He & Hd). by eapply presolve_live. Qed.

(** ** Reading *)

Section Read.
Context (t : list file_entry_t) (dirs : gmap Z listing) (root sc : Z) (m : mem) (Hwf : fs_wf sc m t dirs root).

(** Between operations: the drive is there, the heap has room. *)
Definition ready (st : fs_state) : Prop := drive_ok st /\ sector_count st = sc /\ disk st = m /\ ample (fheap st).

(** An operation that only reads leaves the table dropped and the rest as it was. *)
Definition done_reading (st st' : fs_state) : Prop := exists h, ample h /\ st' = set_table None (set_heap h st).

Lemma wp_with_file {A} (Q : A -> fs_state -> Prop) st p cs fail k : ready st -> is_path p cs ->
  (presolve t dirs cs root = None -> forall st', done_reading st st' -> Q fail st') ->
  (forall i e h, presolve t dirs cs root = Some i -> live t i e -> ample h ->
     let st1 := set_table (Some t) (set_heap h st) in loaded t sc m st1 -> wp (k e) Q st1) ->
  wp (with_file p fail k) Q st.
Proof using Hwf.
  intros (Hd & Hsc & Hm & Ha) Hp Hno Hyes. destruct Hwf as [Ht Hv]. unfold with_file.
  apply wp_bind. eapply wp_lift; [by eapply is_path_valid|]. cbn [negb]. apply wp_bind, wp_load_table; [done|done|]. intros h Hh.
  assert (loaded t sc m (set_table (Some (disk_table (disk st))) (set_heap h st))) as Hst by (by eapply loaded_load).
  apply wp_bind. eapply wp_resolve; [done..|]. intros h2 Hh2. rewrite Hm, Ht in *.
  destruct (presolve t dirs cs root) as [i|] eqn:Er.
  - destruct (resolve_live _ _ _ _ _ _ _ Hv Er) as [e He]. pose proof He as (Hi & Ee & Hmag).
    apply wp_bind. eapply wp_step; [by eapply (ft_get_ok _ t)|]. rewrite Hmag, Z.eqb_refl. cbn [negb]. by apply (Hyes i e h2).
  - apply wp_bind, wp_free_table; [done|]. intros h3 Hh3. apply wp_ret, Hno; [done|]. by exists h3.
Qed.

Lemma wp_file_exists (Q : bool -> fs_state -> Prop) st p cs : ready st -> is_path p cs ->
  (forall st', done_reading st st' -> Q (bool_decide (is_Some (presolve t dirs cs root))) st') ->
  wp (filesystem_file_exists p) Q st.
Proof using Hwf.
  intros Hst Hp HQ. unfold filesystem_file_exists. eapply wp_with_file; [done..| |].
  - intros E st' Hst'. rewrite E in HQ. by apply HQ.
  - intros i e h E _ Hh st1 _. rewrite E in HQ. apply wp_bind, wp_free_table; [done|]. intros h2 Hh2. apply wp_ret, HQ. by exists h2.
Qed.

Lemma wp_read_file (Q : bool * option (list Z) -> fs_state -> Prop) st p cs b : ready st -> is_path p cs ->
  (forall st', done_reading st st' ->
     match presolve t dirs cs root with
     | None => Q (false, Some b) st'
     | Some i => forall e, live t i e -> size e + size e mod 2 <= len b -> Q (true, Some (disk_read m (start_sector e) (size e) b)) st'
     end) ->
  (forall i e, presolve t dirs cs root = Some i -> live t i e -> size e + size e mod 2 <= len b) ->
  wp (filesystem_read_file p (Some b)) Q st.
Proof using Hwf.
  intros Hst Hp HQ Hfit. unfold filesystem_read_file. eapply wp_with_file; [done..| |].
  - intros E st' Hst'. specialize (HQ st' Hst'). by rewrite E in HQ.
  - intros i e h E He Hh st1 Hl. destruct Hwf as [_ Hv]. pose proof (wf_size _ _ _ _ _ Hv i e He) as Hmax.
    destruct (lay_in _ _ (wf_layout _ _ _ _ _ Hv) i e He) as [Hs Hin]. pose proof Hl as (Hd & _ & Esc & Em & _).
    assert (in_range 32 (start_sector e)) as Hss.
    { pose proof (disk_table_ok m) as Hok. rewrite (proj1 Hwf) in Hok. destruct He as (_ & Ee & _).
      by eapply Forall_lookup_1 in Hok as (_ & _ & ? & _). }
    apply wp_bind. eapply wp_step.
    { apply read_secs_ok; [done|lia|by eapply Hfit|unfold in_range in Hss; lia|]. intros Hz. destruct (Hin Hz) as [_ Hend].
      rewrite Esc. exact Hend. }
    apply wp_bind, wp_free_table; [done|]. intros h2 Hh2. apply wp_ret. rewrite Em.
    specialize (HQ (set_table None (set_heap h2 st)) ltac:(by exists h2)). rewrite E in HQ. apply (HQ e He). by eapply Hfit.
Qed.
End Read.

Lemma take_disk_read m e b : 0 <= size e -> take (Z.to_nat (size e)) (disk_read m (start_sector e) (size e) b) = file_bytes m e.
Proof.
  intros Hs. unfold disk_read, file_bytes. rewrite take_app_le by (by rewrite length_rd_bytes). apply take_ge. by rewrite length_rd_bytes.
Qed.

(** ** Replacing the data of an existing file *)

Lemma find_name_ext t t' l part last : (forall k, k ∈ l.*2 -> usable t' last k = usable t last k) ->
  find_name t' l part last = find_name t l part last.
Proof.
  induction l as [|[nm k] l IH]; intros Hu; [done|]. cbn [find_name fmap list_fmap] in *. rewrite Hu by left.
  rewrite IH; [done|]. intros j Hj. apply Hu. by right.
Qed.
(** An entry of the same kind is used in the same way. *)
Lemma usable_insert t i e e' last k : 0 <= i -> 0 <= k -> t !! Z.to_nat i = Some e -> magic_number e' = magic_number e -> type e' = type e ->
  usable (<[Z.to_nat i := e']> t) last k = usable t last k.
Proof.
  intros Hi Hk E Hm Hty. unfold usable. destruct (decide (i = k)) as [->|Hne].
  - rewrite list_lookup_insert_eq by (by apply lookup_lt_Some in E). by rewrite E, Hm, Hty.
  - by rewrite list_lookup_insert_ne by lia.
Qed.
Lemma named_nonneg sc m t dirs root cur e k : fs_view sc m t dirs root -> live t cur e -> is_dir e -> k ∈ (dirs !!! cur).*2 ->
  exists f, live t k f.
Proof.
  intros Hv He Hd (x & -> & Hx)%list_elem_of_fmap. pose proof (wf_named _ _ _ _ _ Hv cur e He Hd) as Hn.
  rewrite Forall_forall in Hn. by apply Hn.
Qed.
Lemma presolve_ext sc m t dirs root t' dirs' parts cur e : fs_view sc m t dirs root -> live t cur e -> (parts <> [] -> is_dir e) ->
  (forall i f part last, live t i f -> is_dir f -> find_name t' (dirs' !!! i) part last = find_name t (dirs !!! i) part last) ->
  presolve t' dirs' parts cur = presolve t dirs parts cur.
Proof.
  intros Hv He Hd Hsame. revert cur e He Hd. induction parts as [|part parts IH]; intros cur e He Hd; [done|]. cbn [presolve].
  specialize (Hd ltac:(done)). rewrite (Hsame cur e) by done. destruct (find_name t _ _ _) as [k|] eqn:Ef; [|done].
  eapply find_name_live in Ef as (f & Hf & Hty); [|done..]. apply (IH k f Hf). intros Hne. left. apply Hty. by destruct parts.
Qed.

Lemma root_of_insert t i j e e' : t !! j = Some e -> magic_number e' = magic_number e -> type e' = type e ->
  root_of (<[j := e']> t) i = root_of t i.
Proof.
  intros E Hm Hty. revert i j E. induction t as [|x t IH]; intros i [|j] E; try done; cbn in E.
  - injection E as ->. cbn [insert list_insert root_of]. by rewrite Hm, Hty.
  - cbn [insert list_insert root_of]. by rewrite IH.
Qed.

Lemma view_edit_file sc m m' t dirs root i e s sz : fs_view sc m t dirs root -> live t i e -> type e = FILE -> sz <= MAX_FILE ->
  let t' := <[Z.to_nat i := mk_entry MAGIC_NUMBER FILE s sz]> t in
  layout sc t' -> others_kept t i m m' ->
  fs_view sc m' t' dirs root /\ forall parts, presolve t' dirs parts root = presolve t dirs parts root.
Proof.
  intros Hv He Hty Hsz t' Hlay' Hkept. pose proof He as (Hi & E & Hm). pose proof (live_idx _ _ _ _ (wf_layout _ _ _ _ _ Hv) He) as Hix.
  pose proof (lay_len _ _ (wf_layout _ _ _ _ _ Hv)) as Hl.
  assert (forall j f, live t' j f -> is_dir f -> j <> i /\ live t j f) as Hdirs.
  { intros j f [(-> & -> & ?)|[? ?]]%live_insert Hf; [by destruct Hf|done|lia]. }
  assert (forall j f, live t j f -> exists f', live t' j f') as Hlive.
  { intros j f Hf. destruct (decide (i = j)) as [->|Hne]; [|eauto using live_insert_ne].
    eexists. split; [done|]. split; [apply list_lookup_insert_eq; lia|done]. }
  split.
  - constructor; [done| | | | | | |].
    + intros j f [(-> & -> & ?)|[? ?]]%live_insert; [done| |lia]. by apply (wf_size _ _ _ _ _ Hv j).
    + intros j f Hf Hd. destruct (Hdirs j f Hf Hd) as [Hne Hf']. rewrite (Hkept j f) by done. by apply (wf_dir _ _ _ _ _ Hv).
    + intros j f Hf Hd. destruct (Hdirs j f Hf Hd) as [Hne Hf']. eapply Forall_impl; [by apply (wf_named _ _ _ _ _ Hv j f)|].
      intros x [g Hg]. by eapply Hlive.
    + intros j f Hf Hd. destruct (Hdirs j f Hf Hd) as [Hne Hf']. by apply (wf_nodup _ _ _ _ _ Hv j f).
    + intros j k f g x Hf Hd Hg Hgd. apply (wf_unique _ _ _ _ _ Hv j k f g); by apply Hdirs || done.
    + unfold t'. rewrite (root_of_insert _ _ _ e) by done. by apply (wf_root _ _ _ _ _ Hv).
    + intros j f k g Hf Hd Hk [(-> & -> & ?)|[? ?]]%live_insert; [done| |lia]. apply (wf_top _ _ _ _ _ Hv j f k); first [by apply Hdirs|done].
  - intros parts. destruct (wf_root_live _ _ _ _ _ Hv) as (r & Hr & Hd). eapply presolve_ext; [done..|].
    intros j f part last Hf Hfd. apply find_name_ext. intros k Hk. destruct (named_nonneg _ _ _ _ _ _ _ _ Hv Hf Hfd Hk) as (g & Hk0 & _).
    by eapply usable_insert.
Qed.

(** ** Adding a name to a directory *)

Lemma put_entry_ok fb tail name nm idx : len tail = DIR_ENTRY_SIZE -> bytes fb -> bytes tail -> bytes name ->
  cstring name nm -> len nm < FILE_NAME_LENGTH ->
  exists pad, len nm + 1 + len pad = FILE_NAME_LENGTH /\ bytes (fb ++ nm ++ 0 :: pad ++ unle 4 idx) /\
    obind (bcopy 4 (fb ++ tail) (len fb + FILE_NAME_LENGTH) (unle 4 idx) 0) (fun b => put_name b (len fb) name)
    = OK (fb ++ nm ++ 0 :: pad ++ unle 4 idx).
Proof.
  change DIR_ENTRY_SIZE with 64. change FILE_NAME_LENGTH with 60. intros Ht Hfb Hbt Hbn Hname Hn.
  pose proof Hname as [Hnz [r Er]]. set (n := length nm). assert (len nm = Z.of_nat n) as En by done.
  set (pad0 := drop (S n) (take 60 tail)). assert (length pad0 = (59 - n)%nat) as Lp.
  { unfold pad0. rewrite length_drop, length_take. unfold len in Ht. lia. }
  assert (bytes nm) as Hbm by (rewrite Er in Hbn; by apply Forall_app in Hbn as [? _]).
  assert (bytes pad0) as Hbp by (by apply Forall_drop, Forall_take).
  (* the index *)
  rewrite bcopy_spec by (try done; try apply bytes_unle; unfold len in *; rewrite ?length_app, ?length_unle; lia).
  cbn [obind]. rewrite drop_0, (take_ge (unle 4 idx)) by (by rewrite length_unle).
  replace (Z.to_nat (len fb + 60)) with (length fb + 60)%nat by (unfold len; lia).
  rewrite take_app_add, (drop_ge (fb ++ tail)) by (rewrite length_app; unfold len in *; lia). rewrite app_nil_r.
  (* the name *)
  unfold put_name. rewrite (strlen_ok _ _ Hname) by (unfold MAX_STR; lia). cbn [obind]. change FILE_NAME_LENGTH with 60.
  rewrite Z.min_l by lia. replace (Z.to_nat (len nm + 1)) with (S n) by lia.
  assert (len ((fb ++ take 60 tail) ++ unle 4 idx) = len fb + 64) as Lb.
  { unfold len in *. rewrite !length_app, length_take, length_unle. lia. }
  pose proof (cstring_len _ _ Hname) as Ln. rewrite bcopy_spec by (done || lia || (unfold len in *; lia)).
  cbn [obind]. rewrite drop_0, Er. replace (Z.to_nat (len fb)) with (length fb) by (unfold len; lia).
  rewrite <- app_assoc, take_app_length, drop_app_add, drop_app_le by (rewrite length_take; unfold len in *; lia).
  fold pad0. replace (take (S n) (nm ++ 0 :: r)) with (nm ++ [0]) by (unfold n; rewrite <- Nat.add_1_r, take_app_add; done).
  rewrite <- app_assoc. cbn [app].
  rewrite bset_ok by (unfold len in *; rewrite !length_app; cbn [length]; rewrite length_app, length_unle, Lp; lia).
  replace (Z.to_nat (len fb + (60 - 1))) with (length fb + (length nm + (59 - n)))%nat by (unfold len; lia).
  rewrite !insert_app_r. destruct (decide (n = 59%nat)) as [E|E].
  - rewrite E in *. destruct pad0; [|done]. exists []. cbn [app length len insert list_insert Nat.sub] in *. split_and!; [unfold len in *; cbn; lia| |done].
    unfold bytes in *. rewrite !Forall_app, Forall_cons. split_and!; [done|done|done|apply bytes_unle].
  - replace (59 - n)%nat with (S (58 - n)) by lia. change (<[S (58 - n)%nat := u8 0]> (0 :: pad0 ++ unle 4 idx)) with (0 :: <[(58 - n)%nat := u8 0]> (pad0 ++ unle 4 idx)).
    rewrite insert_app_l by lia. exists (<[(58 - n)%nat := u8 0]> pad0). split_and!; [|unfold bytes in *; rewrite !Forall_app, Forall_cons, Forall_app|done].
    + unfold len. rewrite length_insert, Lp. lia.
    + split_and!; [done|done|done|by apply Forall_insert|apply bytes_unle].
Qed.

(** [add_file_to_dir] under a table in memory that may be newer than the
    disk's; it can only fail when the listing needs one more sector. *)
Lemma wp_add_file (Q : bool -> fs_state -> Prop) t dirs root sc m st d de idx name nm : fs_view sc m t dirs root -> loaded t sc m st ->
  Forall entry_ok t -> live t d de -> is_dir de -> in_range 32 idx -> bytes name -> cstring name nm -> len nm < FILE_NAME_LENGTH ->
  Z.of_nat (length (dirs !!! d)) < FILE_TABLE_ENTRIES ->
  (forall h, ample h -> (8 | Z.of_nat (length (dirs !!! d))) -> Q false (set_heap h st)) ->
  (forall h s m' pad, ample h ->
     let l := dirs !!! d in let sz := DIR_ENTRY_SIZE * (Z.of_nat (length l) + 1) in
     let de' := mk_entry MAGIC_NUMBER (type de) s sz in let t' := <[Z.to_nat d := de']> t in
     disk_table m' = t' -> Forall entry_ok t' -> layout sc t' -> others_kept t d m m' ->
     len nm + 1 + len pad = FILE_NAME_LENGTH ->
     file_bytes m' de' = file_bytes m de ++ nm ++ 0 :: pad ++ unle 4 idx ->
     Q true (set_disk m' (set_table (Some t') (set_heap h st)))) ->
  wp (add_file_to_dir d idx name) Q st.
Proof.
  intros Hv Hst Hok He Hd Hidx Hbn Hname Hn Hroom HF HQ. pose proof He as (Hd0 & E & Hm). pose proof Hst as (Hdr & Et & Esc & Em & Ha).
  destruct (dir_shape _ _ _ _ _ Hv d de He Hd) as (Hs & El & Hreg). set (l := dirs !!! d) in *.
  unfold add_file_to_dir. apply wp_bind. eapply wp_step; [by eapply ft_get_ok|].
  assert (size de / DIR_ENTRY_SIZE = Z.of_nat (length l)) as -> by (rewrite El; change DIR_ENTRY_SIZE with 64; divlia).
  change DIR_ENTRY_SIZE with 64 in *. change FILE_TABLE_ENTRIES with 640 in *. change FILE_NAME_LENGTH with 60 in *.
  assert (u64 ((Z.of_nat (length l) + 1) * 64) = 64 * (Z.of_nat (length l) + 1)) as ->.
  { rewrite wrap_id by (unfold in_range; lia). lia. }
  apply wp_bind, wp_in_bmalloc; [done|lia|]. intros b h Hh Hb Hbb. apply wp_bind.
  set (tail := drop (Z.to_nat (size de)) b). assert (len tail = 64) as Ltail by (unfold tail, len in *; rewrite length_drop; lia).
  assert (wp (if 0 <? size de then read_secs_to (start_sector de) (Some b) (size de) else ret (Some b))
    (fun r s => r = Some (file_bytes m de ++ tail) /\ s = set_heap h st) (set_heap h st)) as Hread.
  { destruct (Z.ltb_spec 0 (size de)).
    - eapply wp_step; [apply read_secs_ok; [done|lia|unfold len in *; divlia|lia|cbn; rewrite Esc; apply Hreg]|].
      split; [|done]. cbn [disk set_heap]. rewrite Em. unfold disk_read, file_bytes, tail.
      replace (size de mod 2) with 0 by divlia. by rewrite Z.add_0_r.
    - apply wp_ret. split; [|done]. unfold tail, file_bytes. by replace (size de) with 0 by lia. }
  eapply wp_mono; [exact Hread|]. intros r ? [-> ->]. apply wp_bind, wp_ret. change (64 * _) with (64 * (Z.of_nat (length l) + 1)).
  assert (len (file_bytes m de) = (Z.of_nat (length l) + 1 - 1) * 64) as Lf by (rewrite length_file_bytes by lia; lia).
  destruct (put_entry_ok (file_bytes m de) tail name nm idx) as (pad & Hpad & Hbytes & Eput);
    [done|apply bytes_rd_bytes|by apply Forall_drop|done..|].
  rewrite Lf in Eput. change FILE_NAME_LENGTH with 60 in Eput, Hpad. apply obind_OK in Eput as (b1 & E1 & E2).
  apply wp_bind. eapply wp_lift; [exact E1|]. apply wp_bind. eapply wp_lift; [exact E2|].
  set (nb := file_bytes m de ++ nm ++ 0 :: pad ++ unle 4 idx) in *.
  assert (len nb = 64 * (Z.of_nat (length l) + 1)) as Lnb.
  { unfold nb, len in *. rewrite !length_app. cbn [length]. rewrite length_app, length_unle. lia. }
  apply wp_bind. eapply wp_mono.
  { apply (edit_file_ok (set_heap h st) t d de (Some nb)); [done|done|cbn; rewrite Esc; apply (wf_layout _ _ _ _ _ Hv)|done|done|done| |].
    - unfold MAX_FILE. lia.
    - cbn. lia. }
  intros ok st2 Hed. cbv beta. apply wp_bind. destruct ok; cbn [edited] in Hed.
  - destruct Hed as (s & m' & -> & Htab & Hok' & Hlay' & Hdata & Hkept). apply wp_in_bfree; [done|]. intros h2 Hh2. apply wp_ret.
    apply (HQ h2 s m' pad); try done.
    + cbn in Hlay'. by rewrite Esc in Hlay'.
    + cbn in Hkept. by rewrite Em in Hkept.
    + rewrite Hdata. apply take_ge. fold nb. unfold len in Lnb. lia.
  - destruct Hed as [-> Hmore]. apply wp_in_bfree; [done|]. intros h2 Hh2. apply wp_ret. apply HF; [done|]. unfold file_sectors in Hmore.
    fold l. apply Z.mod_divide; [done|]. destruct (decide (size de = 0)) as [Hz|Hz]; [|specialize (Hmore Hz)]; divlia.
Qed.

(** ** A new entry, its name, its data: the views in between *)

Lemma live_new t i old e' j f : t !! Z.to_nat i = Some old -> magic_number old <> MAGIC_NUMBER -> 0 <= i -> live t j f ->
  i <> j /\ live (<[Z.to_nat i := e']> t) j f.
Proof.
  intros Eo Hm Hi Hf. assert (i <> j) as Hne by (intros ->; destruct Hf as (_ & E & ?); congruence).
  split; [done|]. by apply live_insert_ne.
Qed.
Lemma root_of_new t i j old e' : t !! j = Some old -> magic_number old <> MAGIC_NUMBER -> type e' <> ROOT_DIRECTORY ->
  root_of (<[j := e']> t) i = root_of t i.
Proof.
  intros E Hm Hty. revert i j E. induction t as [|x t IH]; intros i [|j] E; try done; cbn in E.
  - injection E as ->. change (<[0%nat := e']> (old :: t)) with (e' :: t). cbn [root_of].
    rewrite (proj2 (Z.eqb_neq (type e') _)), (proj2 (Z.eqb_neq (magic_number old) _)) by done. by rewrite andb_false_r.
  - change (<[S j := e']> (x :: t)) with (x :: <[j := e']> t). cbn [root_of]. by rewrite IH.
Qed.

Section NewFile.
Context (sc : Z) (t : list file_entry_t) (dirs : gmap Z listing) (root : Z).

(** The entry in a free slot, not named yet. *)
Lemma view_new_entry m i old e' : fs_view sc m t dirs root -> 0 <= i < FILE_TABLE_ENTRIES ->
  t !! Z.to_nat i = Some old -> magic_number old <> MAGIC_NUMBER ->
  type e' = FILE \/ type e' = DIRECTORY /\ size e' = 0 -> 0 <= size e' <= MAX_FILE ->
  layout sc (<[Z.to_nat i := e']> t) -> fs_view sc m (<[Z.to_nat i := e']> t) (<[i := []]> dirs) root.
Proof using.
  intros Hv Hi Eo Hm Hty Hs Hlay. pose proof (lay_len _ _ (wf_layout _ _ _ _ _ Hv)) as Hl.
  assert (forall j f, live (<[Z.to_nat i := e']> t) j f -> (j = i /\ f = e') \/ (j <> i /\ live t j f)) as Hcase.
  { intros j f [(-> & -> & ?)|?]%live_insert; [by left|by right|lia]. }
  assert (is_dir e' -> size e' = 0) as Hempty.
  { intros [Hd|Hd]; destruct Hty as [Hf|[Hf ?]]; done || (rewrite Hf in Hd; done). }
  constructor; [done| | | | | | |].
  - intros j f [(-> & ->)|[? Hf]]%Hcase; [lia|]. by apply (wf_size _ _ _ _ _ Hv j).
  - intros j f [(-> & ->)|[? Hf]]%Hcase Hd.
    + rewrite lookup_total_insert_eq. cbn [dir_is]. unfold file_bytes. by rewrite Hempty.
    + rewrite lookup_total_insert_ne by done. by apply (wf_dir _ _ _ _ _ Hv).
  - intros j f [(-> & ->)|[? Hf]]%Hcase Hd.
    + rewrite lookup_total_insert_eq. constructor.
    + rewrite lookup_total_insert_ne by done. eapply Forall_impl; [by apply (wf_named _ _ _ _ _ Hv j f)|].
      intros x [g Hg]. exists g. by destruct (live_new t i old e' x.2 g) as [_ ?]; [done|done|lia|done|].
  - intros j f [(-> & ->)|[? Hf]]%Hcase Hd.
    + rewrite lookup_total_insert_eq. by split; constructor.
    + rewrite lookup_total_insert_ne by done. by apply (wf_nodup _ _ _ _ _ Hv j f).
  - intros j k f g x [(-> & ->)|[? Hf]]%Hcase Hd [(-> & ->)|[? Hg]]%Hcase Hgd Hne; try done;
      rewrite ?lookup_total_insert_eq, ?lookup_total_insert_ne by done; [by intros ?%elem_of_nil|by intros _ ?%elem_of_nil|].
    by apply (wf_unique _ _ _ _ _ Hv j k f g).
  - rewrite (root_of_new _ _ _ old); [by apply (wf_root _ _ _ _ _ Hv)|done|done|]. destruct Hty as [->|[-> _]]; done.
  - intros j f k g [(-> & ->)|[? Hf]]%Hcase Hd.
    + rewrite lookup_total_insert_eq. by intros ?%elem_of_nil.
    + rewrite lookup_total_insert_ne by done. intros Hk [(-> & ->)|[? Hg]]%Hcase; [destruct Hty as [->|[-> _]]; done|].
      by apply (wf_top _ _ _ _ _ Hv j f k).
Qed.

(** Its name at the end of the listing of directory [d]. *)
Lemma view_named m m' d de s idx e nm pad : fs_view sc m t dirs root -> live t d de -> is_dir de -> live t idx e -> type e <> ROOT_DIRECTORY ->
  (forall j f, live t j f -> is_dir f -> idx ∉ (dirs !!! j).*2) -> nm ∉ (dirs !!! d).*1 -> in_range 32 idx -> nonzero nm -> len nm + 1 + len pad = FILE_NAME_LENGTH ->
  Z.of_nat (length (dirs !!! d)) < FILE_TABLE_ENTRIES ->
  let l := dirs !!! d in let de' := mk_entry MAGIC_NUMBER (type de) s (DIR_ENTRY_SIZE * (Z.of_nat (length l) + 1)) in
  let t' := <[Z.to_nat d := de']> t in
  layout sc t' -> others_kept t d m m' -> file_bytes m' de' = file_bytes m de ++ nm ++ 0 :: pad ++ unle 4 idx ->
  fs_view sc m' t' (<[d := l ++ [(nm, idx)]]> dirs) root.
Proof using.
  intros Hv Hde Hdir He Htop Hnew Hfresh Hidx Hnz Hpad Hroom l de' t' Hlay Hkept Hbytes. fold l in Hroom. pose proof Hde as (Hd0 & Ed & Hmd).
  pose proof (live_idx _ _ _ _ (wf_layout _ _ _ _ _ Hv) Hde) as Hdi. pose proof (lay_len _ _ (wf_layout _ _ _ _ _ Hv)) as Hl.
  change FILE_TABLE_ENTRIES with 640 in *.
  assert (forall j f, live t' j f -> (j = d /\ f = de') \/ (j <> d /\ live t j f)) as Hcase.
  { intros j f [(-> & -> & ?)|?]%live_insert; [by left|by right|lia]. }
  assert (forall j f, live t j f -> exists f', live t' j f') as Hlive.
  { intros j f Hf. destruct (decide (d = j)) as [->|Hne]; [|eauto using live_insert_ne].
    eexists. split; [done|]. split; [apply list_lookup_insert_eq; lia|done]. }
  constructor; [done| | | | | | |].
  - intros j f [(-> & ->)|[? Hf]]%Hcase; [cbn; change DIR_ENTRY_SIZE with 64; unfold MAX_FILE; lia|]. by apply (wf_size _ _ _ _ _ Hv j).
  - intros j f [(-> & ->)|[? Hf]]%Hcase Hd.
    + rewrite lookup_total_insert_eq, Hbytes. apply dir_is_snoc; [|done..]. by apply (wf_dir _ _ _ _ _ Hv).
    + rewrite lookup_total_insert_ne, (Hkept j f) by done. by apply (wf_dir _ _ _ _ _ Hv).
  - intros j f [(-> & ->)|[? Hf]]%Hcase Hd.
    + rewrite lookup_total_insert_eq. apply Forall_app. split; [|apply Forall_cons_2; [by eapply Hlive|apply Forall_nil_2]].
      eapply Forall_impl; [by apply (wf_named _ _ _ _ _ Hv d de)|]. intros x [g Hg]. by eapply Hlive.
    + rewrite lookup_total_insert_ne by done. eapply Forall_impl; [by apply (wf_named _ _ _ _ _ Hv j f)|].
      intros x [g Hg]. by eapply Hlive.
  - intros j f [(-> & ->)|[? Hf]]%Hcase Hd.
    + rewrite lookup_total_insert_eq, !fmap_app. destruct (wf_nodup _ _ _ _ _ Hv d de Hde Hdir) as [Hnd1 Hnd2].
      split; apply NoDup_app; (split_and!; [done| |apply NoDup_singleton]); intros x Hx ->%list_elem_of_singleton; [exact (Hnew d de Hde Hdir Hx)|exact (Hfresh Hx)].
    + rewrite lookup_total_insert_ne by done. by apply (wf_nodup _ _ _ _ _ Hv j f).
  - intros j k f g x Hf Hd Hg Hgd Hne.
    assert (forall a b u v, live t' a u -> is_dir u -> live t' b v -> is_dir v -> a <> b ->
      x ∈ (dirs !!! a).*2 -> x ∈ (dirs !!! b).*2 -> False) as Hold.
    { assert (forall a u, live t' a u -> is_dir u -> exists u', live t a u' /\ is_dir u') as Hback.
      { intros a u [(-> & ->)|[? Hu]]%Hcase Hud; [by exists de|by exists u]. }
      intros a b u v Hu Hud Hw Hwd Hab. destruct (Hback a u Hu Hud) as (u' & ? & ?), (Hback b v Hw Hwd) as (v' & ? & ?).
      by apply (wf_unique _ _ _ _ _ Hv a b u' v'). }
    assert (forall a, x ∈ ((<[d := l ++ [(nm, idx)]]> dirs) !!! a).*2 -> x ∈ (dirs !!! a).*2 \/ a = d /\ x = idx) as Hsplit.
    { intros a. destruct (decide (d = a)) as [<-|Hda]; [|rewrite lookup_total_insert_ne by done; by left].
      rewrite lookup_total_insert_eq, fmap_app, elem_of_app. intros [?|Hx]; [by left|right]. by apply list_elem_of_singleton in Hx. }
    assert (forall a u, live t' a u -> is_dir u -> idx ∉ (dirs !!! a).*2) as Hno.
    { intros a u [(-> & ->)|[? Hu]]%Hcase Hud; [by apply (Hnew d de)|by apply (Hnew a u)]. }
    intros [Hx|[Ej Ex]]%Hsplit [Hy|[Ek Ey]]%Hsplit; subst; [by eapply (Hold j k f g)|by eapply (Hno j f)|by eapply (Hno k g)|done].
  - unfold t'. rewrite (root_of_insert _ _ _ de); [by apply (wf_root _ _ _ _ _ Hv)|done|by rewrite Hmd|done].
  - assert (forall k g, live t' k g -> exists g', live t k g' /\ type g' = type g) as Hback.
    { intros k g [(-> & ->)|[? Hg]]%Hcase; [by exists de|by exists g]. }
    intros j f k g Hf Hd Hk (g' & Hg & <-)%Hback.
    assert (k ∈ (dirs !!! j).*2 \/ k = idx) as [Hk'| ->].
    { destruct (decide (d = j)) as [<-|Hne]; [|rewrite lookup_total_insert_ne in Hk by done; by left].
      rewrite lookup_total_insert_eq, fmap_app, elem_of_app in Hk. destruct Hk as [?|Hk]; [by left|right]. by apply list_elem_of_singleton in Hk. }
    + assert (exists f', live t j f' /\ is_dir f') as (f' & ? & ?) by (apply Hcase in Hf as [(-> & ->)|[? Hf]]; eauto).
      by apply (wf_top _ _ _ _ _ Hv j f' k).
    + destruct Hg as (_ & E1 & _), He as (_ & E2 & _). congruence.
Qed.

(** Its data, in its own sectors. *)
Lemma view_data m i e data : fs_view sc m t dirs root -> live t i e -> ~ is_dir e \/ size e = 0 -> size e <= len data -> bytes data ->
  let m' := disk_write m (start_sector e) (size e) data in
  (size e <> 0 -> disk_table m' = disk_table m) /\ fs_view sc m' t dirs root /\ others_kept t i m m' /\ file_bytes m' e = take (Z.to_nat (size e)) data.
Proof using.
  intros Hv He Hnd Hlen Hb m'. pose proof (wf_layout _ _ _ _ _ Hv) as Hlay. destruct (lay_in _ _ Hlay i e He) as [Hs Hin].
  assert (others_kept t i m m') as Hkept.
  { intros j f Hj Hf. destruct (lay_in _ _ Hlay j f Hf) as [Hfs _]. unfold m'. destruct (decide (size e = 0)) as [E0|Hz]; [by rewrite E0|].
    apply file_bytes_disk_write; [lia|lia|]. intros Hfz.
    destruct (lay_disj _ _ Hlay j i f e Hf He Hj Hfz Hz) as [?|?]; [by left|right; done]. }
  split_and!; [| |done|].
  - intros Hz. destruct (Hin Hz) as [Hlow _]. apply disk_table_disk_write; [lia|].
    change FILE_TABLE_ENTRIES with 640 in Hlow. change FILE_TABLE_SECTORS with 20. lia.
  - destruct Hv as [H1 H2 H3 H4 H5 H6 H7 H8]. constructor; [done|done| |done..].
    intros j f Hf Hd. destruct (decide (j = i)) as [->|Hne]; [|rewrite (Hkept j f) by done; by apply H3].
    assert (f = e) as -> by (destruct Hf as (_ & E1 & _), He as (_ & E2 & _); congruence).
    destruct Hnd as [?|Hz]; [done|]. unfold m'. rewrite Hz. by apply H3.
  - apply rd_bytes_disk_write; [done|lia].
Qed.
End NewFile.

(** ** Resolution after a name was added *)

(** The walk to a directory: every component must be a directory. *)
Fixpoint pwalk (t : list file_entry_t) (dirs : gmap Z listing) (parts : list (list Z)) (cur : Z) : option Z :=
  match parts with
  | [] => Some cur
  | part :: parts' =>
      match find_name t (dirs !!! cur) part false with
      | None => None
      | Some i => pwalk t dirs parts' i
      end
  end.

Lemma presolve_snoc t dirs ds n cur : presolve t dirs (ds ++ [n]) cur =
  match pwalk t dirs ds cur with None => None | Some d => find_name t (dirs !!! d) n true end.
Proof.
  revert cur. induction ds as [|c ds IH]; intros cur; cbn [app presolve pwalk is_nil]; [by destruct (find_name _ _ _ _)|].
  replace (is_nil (ds ++ [n])) with false by by destruct ds. destruct (find_name _ _ _ _); [apply IH|done].
Qed.
Lemma find_name_dir t l part i : find_name t l part true = Some i -> usable t false i = true -> find_name t l part false = Some i.
Proof.
  induction l as [|[nm k] l IH]; cbn [find_name]; [done|]. destruct (bool_decide (nm = part)); cbn [andb]; [|done].
  intros Hf Hu. destruct (usable t true k) eqn:Ek; [injection Hf as ->; by rewrite Hu|].
  replace (usable t false k) with false; [by apply IH|]. unfold usable in Ek |- *. revert Ek. destruct (t !! Z.to_nat k) as [f|]; [|done].
  by destruct (magic_number f =? MAGIC_NUMBER), (type f =? DIRECTORY).
Qed.
Lemma pwalk_presolve t dirs ds cur d : presolve t dirs ds cur = Some d -> ds = [] \/ usable t false d = true ->
  pwalk t dirs ds cur = Some d.
Proof.
  intros Hp [->|Hu]; [done|]. revert cur Hp. induction ds as [|c ds IH]; intros cur; cbn [presolve pwalk]; [done|].
  destruct (find_name _ _ _ _) as [i|] eqn:Ef; [|done]. destruct ds as [|c' ds]; cbn [is_nil] in Ef.
  - cbn [presolve]. intros [= ->]. by rewrite (find_name_dir _ _ _ _ Ef Hu).
  - intros Hp. rewrite Ef. by apply IH.
Qed.
Lemma find_name_app t l l' part last : find_name t (l ++ l') part last =
  match find_name t l part last with Some i => Some i | None => find_name t l' part last end.
Proof. induction l as [|[nm k] l IH]; cbn [app find_name]; [done|]. by destruct (_ && _). Qed.
Lemma pwalk_mono sc m t dirs root t' dirs' ds cur e d : fs_view sc m t dirs root -> live t cur e -> is_dir e ->
  (forall j f part i, live t j f -> is_dir f -> find_name t (dirs !!! j) part false = Some i -> find_name t' (dirs' !!! j) part false = Some i) ->
  pwalk t dirs ds cur = Some d -> pwalk t' dirs' ds cur = Some d.
Proof.
  intros Hv He Hd Hm. revert cur e He Hd. induction ds as [|c ds IH]; intros cur e He Hd; cbn [pwalk]; [done|].
  destruct (find_name t _ _ _) as [i|] eqn:Ef; [|done]. rewrite (Hm cur e c i) by done.
  eapply find_name_live in Ef as (f & Hf & Hty); [|done..]. apply (IH i f Hf). left. by apply Hty.
Qed.

(** ** Splitting the path, finding a slot *)

Lemma strrchr_loop_last a n r i last : nonzero a -> nonzero n -> Forall (fun x => x <> SLASH) n ->
  strrchr_loop (a ++ SLASH :: n ++ 0 :: r) SLASH i last = OK (Some (i + len a)).
Proof.
  intros Ha Hn Hs. unfold len. revert i last. induction Ha as [|c a Hc Ha IH]; intros i last; cbn [app strrchr_loop length].
  - rewrite Z.eqb_refl. change (SLASH =? 0) with false. cbv iota. rewrite Z.add_0_r.
    enough (forall k, strrchr_loop (n ++ 0 :: r) SLASH k (Some i) = OK (Some i)) as -> by done.
    induction Hn as [|x n Hx Hn IHn]; intros k; cbn [app strrchr_loop]; [done|]. apply Forall_cons in Hs as [Hxs Hs].
    rewrite (proj2 (Z.eqb_neq x 0)), (proj2 (Z.eqb_neq x SLASH)) by done. by apply IHn.
  - rewrite (proj2 (Z.eqb_neq c 0)) by done. rewrite IH. do 2 f_equal. lia.
Qed.

Lemma path_text_snoc ds n : path_text (ds ++ [n]) = join ds ++ SLASH :: n.
Proof.
  assert (join (ds ++ [n]) = join ds ++ SLASH :: n) as E by (unfold join; rewrite bind_app; cbn; by rewrite app_nil_r).
  by destruct ds.
Qed.

Lemma wp_split_at (Q : list Z * list Z -> fs_state -> Prop) st p a n : ample (fheap st) -> cstring p (a ++ SLASH :: n) -> bytes p ->
  len (a ++ SLASH :: n) <= MAX_STR -> Forall (fun x => x <> SLASH) n ->
  (forall h, ample h -> Q (a ++ [SLASH; 0], n ++ [0]) (set_heap h st)) -> wp (split_path p) Q st.
Proof.
  intros Ha Hp Hb Hl Hns HQ. pose proof Hp as [Hnz [r Er]]. apply Forall_app in Hnz as [Hnj Hnz]. apply Forall_cons in Hnz as [_ Hnn].
  rewrite Er in Hb.
  assert (length p = (length a + 1 + length n + 1 + length r)%nat) as Lp by (rewrite Er; rewrite !length_app; cbn; rewrite ?length_app; cbn; lia).
  unfold split_path. apply wp_bind. eapply wp_lift.
  { rewrite Er, <- app_assoc. cbn [app]. by apply strrchr_loop_last. }
  apply wp_bind, wp_ret. rewrite Z.add_0_l. apply wp_bind. eapply wp_lift; [by eapply strlen_ok|].
  assert (u64 (len (a ++ SLASH :: n) - len a) = len n + 1) as ->.
  { unfold len, MAX_STR in *. rewrite length_app in *. cbn [length] in *. rewrite wrap_id; [lia|]. unfold in_range. lia. }
  apply wp_bind, wp_in_bmalloc; [done|unfold len; lia|]. intros b h Hh Hlb _. apply wp_bind, wp_in_bmalloc; [done|unfold len; lia|].
  intros b2 h2 Hh2 Hlb2 _. rewrite set_heap_set_heap. apply wp_bind, wp_ret, wp_bind. eapply wp_lift.
  { rewrite Er. apply bcopy_spec; [done|lia|unfold len; lia|unfold len in *; lia|]. rewrite <- Er. unfold len. rewrite Lp. lia. }
  apply wp_bind, wp_ret, wp_bind. eapply wp_lift.
  { rewrite Er. apply bcopy_spec; [done|lia|lia|unfold len in *; lia|]. rewrite <- Er. unfold len. rewrite Lp. lia. }
  apply wp_bind. eapply wp_lift.
  { apply bset_ok. unfold len in *. rewrite !length_app, !length_take, !length_drop, !length_app. cbn [length]. lia. }
  apply wp_ret. change (Z.to_nat 0) with 0%nat. rewrite !take_0, drop_0. cbn [app Nat.add].
  assert (take (Z.to_nat (len n + 1)) (drop (Z.to_nat (len a + 1)) ((a ++ SLASH :: n) ++ 0 :: r)) ++ drop (Z.to_nat (len n + 1)) b = n ++ [0]) as ->.
  { rewrite (drop_ge b) by (unfold len in *; lia). rewrite app_nil_r, <- app_assoc.
    replace (Z.to_nat (len a + 1)) with (length a + 1)%nat by (unfold len; lia). rewrite drop_app_add. cbn [app drop].
    replace (Z.to_nat (len n + 1)) with (length n + 1)%nat by (unfold len; lia). by rewrite drop_0, take_app_add. }
  assert (<[Z.to_nat (len a + 1) := u8 0]> (take (Z.to_nat (len a + 1)) ((a ++ SLASH :: n) ++ 0 :: r) ++ drop (Z.to_nat (len a + 1)) b2) = a ++ [SLASH; 0]) as ->.
  { replace (Z.to_nat (len a + 1)) with (length a + 1)%nat by (unfold len; lia). rewrite <- app_assoc, take_app_add. cbn [app take].
    destruct (drop (length a + 1) b2) as [|x y] eqn:Ed.
    - apply (f_equal length) in Ed. rewrite length_drop in Ed. unfold len in *. cbn in Ed. lia.
    - assert (y = []) as -> by (apply (f_equal length) in Ed; rewrite length_drop in Ed; unfold len in *; cbn in Ed; destruct y; [done|cbn in Ed; lia]).
      rewrite <- app_assoc. replace (length a + 1)%nat with (length a + 1)%nat by done. rewrite insert_app_r. done. }
  by apply HQ.
Qed.

Lemma wp_split_path (Q : list Z * list Z -> fs_state -> Prop) st p ds n : ample (fheap st) -> is_path p (ds ++ [n]) ->
  (forall h, ample h -> Q (join ds ++ [SLASH; 0], n ++ [0]) (set_heap h st)) -> wp (split_path p) Q st.
Proof.
  intros Ha (Hp & Hb & Hcs & Hl) HQ. rewrite path_text_snoc in *. apply Forall_app in Hcs as [_ Hn%Forall_inv].
  apply component_ne in Hn as [_ Hns]. by apply (wp_split_at _ _ _ (join ds) n).
Qed.

(** Resolving the directory part that [split_path] produced. *)
Lemma scan_resolve_dir (Q : option Z -> fs_state -> Prop) t dirs root sc m st p ds n : fs_scan sc m t dirs root -> loaded t sc m st ->
  is_path p (ds ++ [n]) -> (forall h, ample h -> Q (presolve t dirs ds root) (set_heap h st)) ->
  wp (resolve_path (join ds ++ [SLASH; 0])) Q st.
Proof.
  intros Hv Hst (Hpc & Hpb & Hcs & Hpl) HQ. rewrite path_text_snoc in *. apply Forall_app in Hcs as [Hcds _].
  pose proof Hpc as [Hnz [rr Err]]. apply Forall_app in Hnz as [Hnj _].
  assert (bytes (join ds)) as Hbj by (rewrite Err in Hpb; by apply Forall_app in Hpb as [[? _]%Forall_app _]).
  assert (exists u, join ds ++ [SLASH] = SLASH :: u) as [u Eu] by (destruct ds; cbn; eauto).
  eapply (scan_resolve_path _ t dirs root sc m _ _ u); [done|done| | | |].
  - rewrite <- Eu. split; [apply Forall_app; split; [done|by repeat constructor]|]. exists []. by rewrite <- app_assoc.
  - apply Forall_app. split; [done|by repeat constructor].
  - rewrite <- Eu. unfold len in *. rewrite length_app in *. cbn [length] in *. lia.
  - intros h Hh. rewrite <- Eu, pieces_join by (done || by right). by apply HQ.
Qed.
Lemma wp_resolve_dir (Q : option Z -> fs_state -> Prop) t dirs root sc m st p ds n : fs_view sc m t dirs root -> loaded t sc m st ->
  is_path p (ds ++ [n]) -> (forall h, ample h -> Q (presolve t dirs ds root) (set_heap h st)) ->
  wp (resolve_path (join ds ++ [SLASH; 0])) Q st.
Proof. intros Hv%view_scan. by apply scan_resolve_dir. Qed.

Lemma slot_loop_ok st t n i : file_table st = Some t -> 0 <= i -> length t = (Z.to_nat i + n)%nat ->
  exists r, slot_loop n i st = OK (r, st) /\
    (r = u32 (-1) \/ i <= r < i + Z.of_nat n /\ exists e, t !! Z.to_nat r = Some e /\ magic_number e <> MAGIC_NUMBER).
Proof.
  intros Et. revert i. induction n as [|n IH]; intros i Hi Hl; cbn [slot_loop]; [eexists; by split; [|left]|].
  destruct (lookup_Z_lt t i ltac:(lia)) as [e E]. rewrite (bind_step _ _ _ e st) by (by eapply ft_get_ok).
  destruct (Z.eqb_spec (magic_number e) MAGIC_NUMBER) as [Hm|Hm]; cbn [negb].
  - destruct (IH (i + 1)) as (r & -> & Hr); [lia|lia|]. exists r. split; [done|]. destruct Hr as [?|[? ?]]; [by left|right; split; [lia|done]].
  - exists i. split; [done|]. right. split; [lia|]. eauto.
Qed.

Lemma presolve_mono sc m t dirs root t' dirs' parts cur e i : fs_view sc m t dirs root -> live t cur e -> is_dir e ->
  (forall j f part last k, live t j f -> is_dir f -> find_name t (dirs !!! j) part last = Some k -> find_name t' (dirs' !!! j) part last = Some k) ->
  presolve t dirs parts cur = Some i -> presolve t' dirs' parts cur = Some i.
Proof.
  intros Hv He Hd Hm. revert cur e He Hd. induction parts as [|c parts IH]; intros cur e He Hd; cbn [presolve]; [done|].
  destruct (find_name t _ _ _) as [k|] eqn:Ef; [|done]. rewrite (Hm cur e c _ k) by done.
  eapply find_name_live in Ef as (f & Hf & Hty); [|done..]. destruct parts as [|c' parts]; [done|].
  apply (IH k f Hf). left. by apply Hty.
Qed.

Lemma find_name_none t l nm : find_name t l nm true = None -> Forall (fun x => exists f, live t x.2 f) l -> nm ∉ l.*1.
Proof.
  intros Hf Hl. induction Hl as [|[nm' k] l (f & _ & E & Hm) Hl IH]; [by intros ?%elem_of_nil|]. cbn [find_name] in Hf.
  unfold usable in Hf. cbn [snd] in E. rewrite E, Hm, orb_true_r in Hf. rewrite Z.eqb_refl, andb_true_r in Hf.
  case_bool_decide as Hne; [done|]. cbn. rewrite elem_of_cons. intros [->|Hin]; [done|]. by apply IH.
Qed.

Lemma room_for sc m t dirs root d de idx : fs_view sc m t dirs root -> live t d de -> is_dir de ->
  idx ∉ (dirs !!! d).*2 -> 0 <= idx < FILE_TABLE_ENTRIES -> Z.of_nat (length (dirs !!! d)) < FILE_TABLE_ENTRIES.
Proof.
  intros Hv Hde Hdir Hnew Hi.
  assert (NoDup (idx :: (dirs !!! d).*2)) as Hnd by (constructor; [done|by apply (wf_nodup _ _ _ _ _ Hv d de)]).
  assert (idx :: (dirs !!! d).*2 ⊆+ seqZ 0 FILE_TABLE_ENTRIES) as Hlen%submseteq_length.
  - apply NoDup_submseteq; [done|]. intros x Hx. apply elem_of_seqZ. apply elem_of_cons in Hx as [->|Hx]; [lia|].
    destruct (named_nonneg _ _ _ _ _ _ _ _ Hv Hde Hdir Hx) as (g & Hg).
    pose proof (live_idx _ _ _ _ (wf_layout _ _ _ _ _ Hv) Hg). lia.
  - cbn [length] in Hlen. rewrite length_fmap, length_seqZ in Hlen. lia.
Qed.
Lemma listing_room sc m t dirs root d de idx old : fs_view sc m t dirs root -> live t d de -> is_dir de ->
  t !! Z.to_nat idx = Some old -> magic_number old <> MAGIC_NUMBER -> 0 <= idx < FILE_TABLE_ENTRIES ->
  idx ∉ (dirs !!! d).*2 /\ Z.of_nat (length (dirs !!! d)) < FILE_TABLE_ENTRIES.
Proof.
  intros Hv Hde Hdir Eo Hm Hi. assert (idx ∉ (dirs !!! d).*2) as Hnew; [|split; [done|by eapply room_for]].
  intros Hin. destruct (named_nonneg _ _ _ _ _ _ _ _ Hv Hde Hdir Hin) as (g & _ & E & ?). congruence.
Qed.

(** ** The state after a write *)

(** [p] now names an entry [i] with the data; every path that resolved still
    resolves to the same entry, and every other plain file keeps its bytes. *)
Definition stored (sc : Z) (m : mem) (t : list file_entry_t) (dirs : gmap Z listing) (root : Z)
  (cs : list (list Z)) (data : list Z) (ty sz : Z) (m' : mem) : Prop :=
  exists t' dirs' i e', fs_wf sc m' t' dirs' root /\
    presolve t' dirs' cs root = Some i /\ live t' i e' /\ type e' = ty /\ size e' = sz /\
    file_bytes m' e' = take (Z.to_nat sz) data /\
    (forall parts j, presolve t dirs parts root = Some j -> presolve t' dirs' parts root = Some j) /\
    (forall j f, live t j f -> ~ is_dir f -> j <> i -> live t' j f /\ file_bytes m' f = file_bytes m f).

Section Named.
Context (sc : Z) (m : mem) (t : list file_entry_t) (dirs : gmap Z listing) (root : Z) (Hv : fs_view sc m t dirs root).
Context (ds : list (list Z)) (nm : list Z) (d : Z) (de : file_entry_t).
Context (Hpar : presolve t dirs ds root = Some d) (Hde : live t d de) (Hkind : ds = [] \/ type de = DIRECTORY).

Lemma parent_dir : is_dir de /\ pwalk t dirs ds root = Some d.
Proof using Hv Hpar Hde Hkind.
  destruct (wf_root_live _ _ _ _ _ Hv) as (r & Hr & Hrd). pose proof Hde as (_ & Ed & Hmd). split.
  - destruct Hkind as [->|?]; [|by left]. injection Hpar as ->. destruct Hr as (_ & Er & _).
    assert (de = r) as -> by congruence. done.
  - apply pwalk_presolve; [done|]. destruct Hkind as [?|Hty]; [by left|right]. unfold usable. by rewrite Ed, Hmd, Hty.
Qed.

(** The new entry, named and with its data. *)
Lemma new_file_stored idx old e' s m2 pad data : presolve t dirs (ds ++ [nm]) root = None ->
  t !! Z.to_nat idx = Some old -> magic_number old <> MAGIC_NUMBER -> 0 <= idx < FILE_TABLE_ENTRIES ->
  magic_number e' = MAGIC_NUMBER -> type e' = FILE \/ type e' = DIRECTORY /\ size e' = 0 -> 0 <= size e' <= MAX_FILE ->
  size e' <= len data -> bytes data -> nonzero nm -> len nm + 1 + len pad = FILE_NAME_LENGTH ->
  let t1 := <[Z.to_nat idx := e']> t in let l := dirs !!! d in
  let de' := mk_entry MAGIC_NUMBER (type de) s (DIR_ENTRY_SIZE * (Z.of_nat (length l) + 1)) in
  let t2 := <[Z.to_nat d := de']> t1 in
  layout sc t1 -> layout sc t2 -> disk_table m2 = t2 -> others_kept t1 d m m2 ->
  file_bytes m2 de' = file_bytes m de ++ nm ++ 0 :: pad ++ unle 4 idx ->
  stored sc m t dirs root (ds ++ [nm]) data (type e') (size e') (disk_write m2 (start_sector e') (size e') data).
Proof using Hv Hpar Hde Hkind.
  intros Hnone Eo Hold Hi Hme Hty Hs Hlen Hb Hnz Hpad t1 l de' t2 Hlay1 Hlay2 Htab Hkept Hbytes.
  destruct parent_dir as [Hdir Hwalk]. destruct (listing_room _ _ _ _ _ _ _ _ _ Hv Hde Hdir Eo Hold Hi) as [Hnew Hroom].
  pose proof (lay_len _ _ (wf_layout _ _ _ _ _ Hv)) as Hl. pose proof Hde as (Hd0 & Ed & Hmd).
  destruct (live_new t idx old e' d de Eo Hold ltac:(lia) Hde) as [Hne Hde1]. fold t1 in Hde1.
  assert (live t1 idx e') as Hlive1 by (split; [lia|]; split; [apply list_lookup_insert_eq; lia|done]).
  assert (live t2 idx e') as Hlive2 by (by apply live_insert_ne).
  assert (fs_view sc m t1 (<[idx := []]> dirs) root) as Hv1 by (by eapply view_new_entry).
  set (dirs1 := <[idx := []]> dirs) in *. assert (dirs1 !!! d = l) as Ed1 by (unfold dirs1; by rewrite lookup_total_insert_ne).
  set (dirs2 := <[d := l ++ [(nm, idx)]]> dirs1).
  assert (fs_view sc m2 t2 dirs2 root) as Hv2.
  { unfold dirs2, t2, de'. rewrite <- Ed1. eapply (view_named sc t1 dirs1 root m m2 d de s idx e' nm pad); try done.
    - destruct Hty as [->|[-> _]]; done.
    - intros j f [(-> & -> & ?)|[Hji Hf]]%live_insert Hfd; [| |lia].
      + unfold dirs1. rewrite lookup_total_insert_eq. by intros ?%elem_of_nil.
      + unfold dirs1. rewrite lookup_total_insert_ne by done. intros (g & _ & Eg & ?)%(named_nonneg _ _ _ _ _ _ _ _ Hv Hf Hfd).
        rewrite Eo in Eg. injection Eg as ->. done.
    - rewrite Ed1. rewrite presolve_snoc, Hwalk in Hnone. eapply find_name_none; [exact Hnone|].
      by apply (wf_named _ _ _ _ _ Hv d de).
    - unfold FILE_TABLE_ENTRIES in Hi. unfold in_range. change (ENTRIES_PER_SECTOR * FILE_TABLE_SECTORS) with 640 in Hi. lia.
    - by rewrite Ed1.
    - by rewrite Ed1.
    - by rewrite Ed1. }
  destruct (view_data sc t2 dirs2 root m2 idx e' data Hv2 Hlive2) as (Htab3 & Hv3 & Hkept3 & Hdata); [|done|done|].
  { destruct Hty as [Hf|[_ ?]]; [left|by right]. intros [Hd|Hd]; by rewrite Hf in Hd. }
  assert (forall last k, k <> idx -> 0 <= k -> usable t2 last k = usable t last k) as Huse.
  { intros last k Hk Hk0. unfold t2. rewrite (usable_insert t1 d de de'); [|done|done|apply Hde1|by rewrite Hmd|done].
    unfold usable, t1. by rewrite list_lookup_insert_ne by lia. }
  assert (forall j f part last k, live t j f -> is_dir f -> find_name t (dirs !!! j) part last = Some k ->
            find_name t2 (dirs2 !!! j) part last = Some k) as Hmono.
  { intros j f part last k Hf Hfd Hk.
    assert (find_name t2 (dirs !!! j) part last = Some k) as Hk'.
    { rewrite <- Hk. apply find_name_ext. intros x Hx. destruct (named_nonneg _ _ _ _ _ _ _ _ Hv Hf Hfd Hx) as (g & Hg).
      destruct (live_new t idx old e' x g Eo Hold ltac:(lia) Hg) as [Hxi _]. apply Huse; [done|apply Hg]. }
    destruct (live_new t idx old e' j f Eo Hold ltac:(lia) Hf) as [Hji _]. unfold dirs2. destruct (decide (d = j)) as [<-|Hdj].
    - rewrite lookup_total_insert_eq, find_name_app. fold l in Hk'. by rewrite Hk'.
    - rewrite lookup_total_insert_ne by done. unfold dirs1. by rewrite lookup_total_insert_ne. }
  exists t2, dirs2, idx, e'. split_and!; [split; [|done]| |done|done|done|done| |].
  - destruct (decide (size e' = 0)) as [E0|Hz]; [by rewrite E0|by rewrite Htab3].
  - destruct (wf_root_live _ _ _ _ _ Hv) as (r & Hr & Hrd). rewrite presolve_snoc in *. rewrite Hwalk in Hnone.
    assert (pwalk t2 dirs2 ds root = Some d) as ->.
    { eapply pwalk_mono; [exact Hv|exact Hr|exact Hrd| |exact Hwalk]. intros j f part i Hf Hfd. by apply (Hmono j f). }
    unfold dirs2. rewrite lookup_total_insert_eq, find_name_app.
    fold l in Hnone. rewrite (find_name_ext t t2), Hnone.
    + cbn [find_name]. rewrite bool_decide_eq_true_2 by done. unfold usable. destruct Hlive2 as (_ & -> & ->). by rewrite orb_true_r.
    + intros x Hx. destruct (named_nonneg _ _ _ _ _ _ _ _ Hv Hde Hdir Hx) as (g & Hg).
      destruct (live_new t idx old e' x g Eo Hold ltac:(lia) Hg) as [Hxi _]. apply Huse; [done|apply Hg].
  - intros parts j Hj. destruct (wf_root_live _ _ _ _ _ Hv) as (r & Hr & Hrd). eapply presolve_mono; [exact Hv|exact Hr|exact Hrd|exact Hmono|exact Hj].
  - intros j f Hf Hnd Hj. assert (d <> j) as Hdj
      by (intros <-; destruct Hf as (_ & Ef & _); rewrite Ed in Ef; injection Ef as <-; exact (Hnd Hdir)).
    destruct (live_new t idx old e' j f Eo Hold ltac:(lia) Hf) as [_ Hf1]. fold t1 in Hf1.
    assert (live t2 j f) as Hf2 by (by apply live_insert_ne). split; [done|]. rewrite (Hkept3 j f), (Hkept j f) by done. done.
Qed.
End Named.

(** ** [filesystem_write_file] *)

(** The end of every write: the drive is as before, nothing is left loaded. *)
Definition finished (sc : Z) (P : mem -> Prop) (st' : fs_state) : Prop :=
  drive_ok st' /\ sector_count st' = sc /\ ample (fheap st') /\ file_table st' = None /\ P (disk st').

(** What a write leaves on the disk; an existing file keeps its type. *)
Definition written (sc : Z) (m : mem) (t : list file_entry_t) (dirs : gmap Z listing) (root : Z)
  (cs : list (list Z)) (data : list Z) (ty sz : Z) (ok : bool) (m' : mem) : Prop :=
  if ok then stored sc m t dirs root cs data (if presolve t dirs cs root then FILE else ty) sz m' else m' = m.

Lemma wp_free_table_ret {A} (Q : A -> fs_state -> Prop) (a : A) st : ample (fheap st) ->
  (forall h, ample h -> Q a (set_table None (set_heap h st))) -> wp (free_file_table ;;; ret a) Q st.
Proof. intros Ha HQ. apply wp_bind, wp_free_table; [done|]. intros h Hh. apply wp_ret. by apply HQ. Qed.

Section Write.
Context (sc : Z) (m : mem) (t : list file_entry_t) (dirs : gmap Z listing) (root : Z) (Hwf : fs_wf sc m t dirs root).
Context (p : list Z) (ds : list (list Z)) (nm : list Z) (Hp : is_path p (ds ++ [nm])) (Hnm : len nm < FILE_NAME_LENGTH).
Context (data : list Z) (ty sz : Z) (Hb : bytes data) (Hsz : 0 <= sz <= MAX_FILE) (Hlen : sz <= len data).

(** An existing file. *)
Lemma wp_overwrite st i e : loaded t sc m st -> presolve t dirs (ds ++ [nm]) root = Some i -> live t i e -> type e = FILE ->
  wp (let* success := edit_file i (Some data) sz in free_file_table ;;; ret success)
     (fun ok => finished sc (written sc m t dirs root (ds ++ [nm]) data ty sz ok)) st.
Proof using Hwf Hp Hnm Hb Hsz Hlen.
  intros (Hd & Et & Esc & Em & Ha) Hr He Hty. destruct Hwf as [Htab Hv]. apply wp_bind. eapply wp_mono.
  { apply (edit_file_ok st t i e (Some data)); [done|done|by rewrite Esc; apply (wf_layout _ _ _ _ _ Hv)| |done..].
    rewrite <- Htab. apply disk_table_ok. }
  intros ok st' Hed. unfold written. rewrite Hr. destruct ok; cbn [edited] in Hed.
  - destruct Hed as (s & m' & -> & Htab' & _ & Hlay' & Hdata & Hkept). rewrite Hty, Esc, Em in *.
    destruct (view_edit_file sc m m' t dirs root i e s sz) as [Hv' Hpath]; try done; [lia|].
    apply wp_free_table_ret; [done|]. intros h Hh. split_and!; try done.
    exists (<[Z.to_nat i := mk_entry MAGIC_NUMBER FILE s sz]> t), dirs, i, (mk_entry MAGIC_NUMBER FILE s sz).
    pose proof (live_idx _ _ _ _ (wf_layout _ _ _ _ _ Hv) He) as Hi. pose proof (lay_len _ _ (wf_layout _ _ _ _ _ Hv)) as Hl.
    split_and!; [done|by rewrite Hpath| |done|done|done| |].
    + split; [lia|]. split; [apply list_lookup_insert_eq; lia|done].
    + intros parts j Hj. by rewrite Hpath.
    + intros j f Hf _ Hj. split; [apply live_insert_ne; [done|lia|done]|]. by apply (Hkept j).
  - destruct Hed as [-> _]. apply wp_free_table_ret; [done|]. intros h Hh. by split_and!.
Qed.

(** A new file in the directory [d]. *)
Lemma wp_create st d de : loaded t sc m st -> presolve t dirs (ds ++ [nm]) root = None ->
  presolve t dirs ds root = Some d -> live t d de -> ds = [] \/ type de = DIRECTORY ->
  ty = FILE \/ ty = DIRECTORY /\ sz = 0 ->
  wp (let* space := find_space_for_file sz in
      match space with
      | None => free_file_table ;;; ret false
      | Some file_start_sector =>
          let* file_entry_idx := find_file_entry_slot in
          if file_entry_idx =? u32 (-1) then free_file_table ;;; ret false else
          ft_set file_entry_idx (mk_entry MAGIC_NUMBER ty file_start_sector (u32 sz)) ;;;
          let* (dir_path, name) := split_path p in
          let* dir := resolve_path dir_path in
          match dir with
          | None => in_heap (bfree (Some name)) ;;; in_heap (bfree (Some dir_path)) ;;; free_file_table ;;; ret false
          | Some dir_idx =>
              let* ok := add_file_to_dir dir_idx file_entry_idx name in
              if negb ok then
                in_heap (bfree (Some name)) ;;; in_heap (bfree (Some dir_path)) ;;; free_file_table ;;; ret false
              else
                in_heap (bfree (Some name)) ;;; in_heap (bfree (Some dir_path)) ;;;
                write_secs_from file_start_sector (Some data) sz ;;;
                free_file_table ;;; ret true
          end
      end) (fun ok => finished sc (written sc m t dirs root (ds ++ [nm]) data ty sz ok)) st.
Proof using Hwf Hp Hnm Hb Hsz Hlen.
  intros Hst Hnone Hpar Hde Hkind Hty. pose proof Hst as (Hd & Et & Esc & Em & Ha). destruct Hwf as [Htab Hv].
  pose proof (wf_layout _ _ _ _ _ Hv) as Hlay. pose proof (lay_len _ _ Hlay) as Hl.
  assert (Forall entry_ok t) as Hok by (rewrite <- Htab; apply disk_table_ok).
  destruct (parent_dir _ _ _ _ _ Hv _ _ _ Hpar Hde Hkind) as [Hdir Hwalk].
  assert (forall h st', ample h -> st' = set_table None (set_heap h st) -> finished sc (written sc m t dirs root (ds ++ [nm]) data ty sz false) st') as Hfail
    by (intros h st' Hh ->; by split_and!).
  destruct (find_space_ok st t sz) as (r & Er & Hr); [done|by rewrite Esc|apply Hd|unfold MAX_FILE in Hsz; lia|].
  apply wp_bind. eapply wp_step; [exact Er|].
  destruct r as [s|]; [|apply wp_free_table_ret; [done|]; intros h Hh; by eapply Hfail].
  destruct Hr as (Hlow & Hend & Hfree). rewrite Esc in Hend.
  destruct (slot_loop_ok st t (Z.to_nat FILE_TABLE_ENTRIES) 0) as (idx & Eslot & Hslot); [done|done|done|].
  apply wp_bind. eapply wp_step; [exact Eslot|]. destruct (Z.eqb_spec idx (u32 (-1))) as [_|Hsome].
  { apply wp_free_table_ret; [done|]. intros h Hh. by eapply Hfail. }
  destruct Hslot as [?|(Hi & old & Eo & Hold)]; [done|]. rewrite Z.add_0_l, Z2Nat.id in Hi by done.
  rewrite (wrap_id 32) by (unfold in_range, MAX_FILE in *; lia). set (e' := mk_entry MAGIC_NUMBER ty s sz).
  apply wp_bind. eapply wp_step; [eapply ft_set_ok; [done|lia]|]. set (t1 := <[Z.to_nat idx := e']> t).
  assert (type e' = FILE \/ type e' = DIRECTORY /\ size e' = 0) as Hty' by done.
  assert (layout sc t1) as Hlay1.
  { apply layout_put; [done|lia|done|done|]. intros j f Hj Hf Hz. apply (Hfree j f); done. }
  assert (fs_view sc m t1 (<[idx := []]> dirs) root) as Hv1 by (by eapply view_new_entry).
  assert (Forall entry_ok t1) as Hok1.
  { apply Forall_insert; [done|]. change FILE_TABLE_ENTRIES with 640 in *. destruct Hd as [_ Hsc]. unfold MAX_FILE in Hsz.
    split_and!; cbn; unfold in_range; [done|destruct Hty as [->|[-> _]]; done|divlia|lia]. }
  set (st1 := set_table (Some t1) st). assert (loaded t1 sc m st1) as Hst1 by done.
  destruct (live_new t idx old e' d de Eo Hold ltac:(lia) Hde) as [Hne Hde1]. fold t1 in Hde1.
  destruct (listing_room _ _ _ _ _ _ _ _ _ Hv Hde Hdir Eo Hold Hi) as [Hnew Hroom].
  assert (presolve t1 (<[idx := []]> dirs) ds root = Some d) as Hpar1.
  { destruct (wf_root_live _ _ _ _ _ Hv) as (r & Hr & Hrd).
    rewrite (presolve_ext _ _ _ _ _ t1 (<[idx := []]> dirs) ds root r Hv Hr (fun _ => Hrd)); [done|].
    intros j f part last Hf Hfd. destruct (live_new t idx old e' j f Eo Hold ltac:(lia) Hf) as [Hji _].
    rewrite lookup_total_insert_ne by done. apply find_name_ext. intros k Hk.
    destruct (named_nonneg _ _ _ _ _ _ _ _ Hv Hf Hfd Hk) as (g & Hg). destruct (live_new t idx old e' k g Eo Hold ltac:(lia) Hg) as [Hki _].
    unfold usable, t1. destruct Hg as [Hk0 _]. by rewrite list_lookup_insert_ne by lia. }
  apply wp_bind, (wp_split_path _ _ _ ds nm); [done|done|]. intros h Hh. apply wp_bind.
  assert (nonzero nm /\ bytes nm) as [Hnn Hbn].
  { destruct Hp as ([Hnz [rr Err]] & Hpb & _). rewrite path_text_snoc in *. rewrite Err in Hpb.
    apply Forall_app in Hnz as [_ [_ ?]%Forall_cons]. by apply Forall_app in Hpb as [[_ [_ ?]%Forall_cons]%Forall_app _]. }
  eapply (wp_resolve_dir _ t1 (<[idx := []]> dirs) root sc m _ p ds nm); [done|by apply loaded_heap|done|].
  intros h2 Hh2. rewrite Hpar1, set_heap_set_heap.
  apply wp_bind. eapply (wp_add_file _ t1 (<[idx := []]> dirs) root sc m _ d de idx _ nm);
    [done|by apply loaded_heap|done|done|done| | |split; [done|by exists []]|done| | |].
  { change FILE_TABLE_ENTRIES with 640 in Hi. unfold in_range. lia. }
  { apply Forall_app. split; [done|by repeat constructor]. }
  { by rewrite lookup_total_insert_ne. }
  - intros h3 Hh3 _. cbn [negb]. apply wp_bind, wp_in_bfree; [done|]. intros h4 Hh4. apply wp_bind, wp_in_bfree; [done|]. intros h5 Hh5.
    apply wp_free_table_ret; [done|]. intros h6 Hh6. by apply (Hfail h6).
  - rewrite lookup_total_insert_ne by done. cbv zeta. intros h3 s2 m2 pad Hh3 Htab2 _ Hlay2 Hkept Hpad Hbytes. cbn [negb].
    apply wp_bind, wp_in_bfree; [done|]. intros h4 Hh4. apply wp_bind, wp_in_bfree; [done|]. intros h5 Hh5.
    apply wp_bind. eapply wp_step.
    { apply write_secs_ok; [done|done|done|change FILE_TABLE_ENTRIES with 640 in Hlow; lia|cbn; rewrite Esc; done]. }
    apply wp_free_table_ret; [done|]. intros h6 Hh6. split_and!; try done.
    unfold written. rewrite Hnone. cbn [disk set_disk set_table set_heap default from_option id].
    apply (new_file_stored sc m t dirs root Hv ds nm d de Hpar Hde Hkind idx old e' s2 m2 pad data); done.
Qed.

(** Writing to a path whose directory exists. *)
Lemma wp_write_file st d de : ready sc m st ->
  presolve t dirs ds root = Some d -> live t d de -> ds = [] \/ type de = DIRECTORY ->
  ty = FILE \/ ty = DIRECTORY /\ sz = 0 ->
  wp (filesystem_write_file p (Some data) ty sz) (fun ok => finished sc (written sc m t dirs root (ds ++ [nm]) data ty sz ok)) st.
Proof using Hwf Hp Hnm Hb Hsz Hlen.
  intros Hst Hpar Hde Hkind Hty. pose proof Hst as (Hd & Hsc & Hm & Ha). unfold filesystem_write_file.
  apply wp_bind. eapply wp_lift; [by eapply is_path_valid|]. cbn [negb]. apply wp_bind.
  eapply (wp_file_exists t dirs root sc m Hwf); [done..|]. intros st' (h & Hh & ->).
  apply wp_bind, wp_load_table; [done|done|]. intros h2 Hh2. cbn [disk set_table set_heap]. rewrite Hm, (proj1 Hwf).
  set (st2 := set_table (Some t) _). assert (loaded t sc m st2) as Hl by by split_and!.
  destruct (presolve t dirs (ds ++ [nm]) root) as [i|] eqn:Er.
  - rewrite bool_decide_eq_true_2 by eauto. apply wp_bind. eapply wp_resolve; [apply Hwf|done|done|].
    intros h3 Hh3. rewrite Er. destruct (resolve_live _ _ _ _ _ _ _ (proj2 Hwf) Er) as [e He]. pose proof He as (Hi & Ee & _).
    apply wp_bind. eapply wp_step; [by eapply (ft_get_ok _ t)|]. destruct (Z.eqb_spec (type e) FILE) as [Hf|Hf]; cbn [negb].
    + eapply wp_overwrite; [by apply loaded_heap|done..].
    + apply wp_free_table_ret; [done|]. intros h4 Hh4. by split_and!.
  - rewrite bool_decide_eq_false_2 by (by intros []). by eapply wp_create.
Qed.
End Write.
