(* ===== verification/FsDelete.v ===== *)
(** * Deleting files

    [remove_file_from_dir] and [filesystem_delete_file] on a well-formed
    filesystem: the name is gone, every other path and file is as before. *)
From S2P Require Import Prelude Mem Util Str Ata Fs FsThms FsEdit FsPath FsWrite.

(** ** Removing one entry from an array of directory entries *)

Definition without (i : Z) (l : listing) : listing := filter (fun x => x.2 <> i) l.
#[global] Arguments without : simpl never.

Lemma without_cons i nm k l : without i ((nm, k) :: l) = if decide (k = i) then without i l else (nm, k) :: without i l.
Proof. unfold without. rewrite filter_cons. cbn. by repeat case_decide. Qed.
Lemma without_id i l : i ∉ l.*2 -> without i l = l.
Proof.
  induction l as [|[nm k] l IH]; [done|]. cbn. rewrite not_elem_of_cons. intros [Hk Hl]. rewrite without_cons, decide_False by done.
  by rewrite IH.
Qed.
Lemma length_without i l : NoDup l.*2 -> i ∈ l.*2 -> length l = S (length (without i l)).
Proof.
  induction l as [|[nm k] l IH]; cbn; [by intros _ ?%elem_of_nil|]. rewrite NoDup_cons. intros [Hk Hl] Hi. rewrite without_cons.
  case_decide as E; [subst; by rewrite without_id|]. cbn. f_equal. apply elem_of_cons in Hi as [?|Hi]; [done|by apply IH].
Qed.
Lemma without_elem i l x : x ∈ without i l <-> x ∈ l /\ x.2 <> i.
Proof. unfold without. rewrite list_elem_of_filter. tauto. Qed.
Lemma without_idx i l k : k ∈ (without i l).*2 -> k ∈ l.*2 /\ k <> i.
Proof. intros (x & -> & [Hx ?]%without_elem)%list_elem_of_fmap. split; [|done]. by apply list_elem_of_fmap_2. Qed.
Lemma without_sublist i l : sublist (without i l) l.
Proof. apply sublist_filter. Qed.

(** The loop copies the blocks of the other entries one after the other. *)
Lemma wp_copy_others (Q : option (list Z) -> fs_state -> Prop) i o l pre j b st : 0 <= j ->
  dir_is (drop (Z.to_nat (DIR_ENTRY_SIZE * j)) o) l -> bytes o ->
  let n := Z.of_nat (length pre) in
  DIR_ENTRY_SIZE * (n + Z.of_nat (length (without i l))) = len (default [] b) -> bytes (default [] b) ->
  dir_is (take (Z.to_nat (DIR_ENTRY_SIZE * n)) (default [] b)) pre ->
  (forall b', bytes (default [] b') -> dir_is (default [] b') (pre ++ without i l) -> Q b' st) ->
  wp (copy_others (length l) j n (Some o) b i) Q st.
Proof.
  change DIR_ENTRY_SIZE with 64. intros Hj Hd Hbo. revert j Hj pre b Hd. induction l as [|[nm k] l IH]; intros j Hj pre b Hd n Hlen Hbb Hpre HQ.
  { change (without i []) with (@nil (list Z * Z)) in *. cbn [length copy_others] in *. apply wp_ret, HQ; [done|]. rewrite app_nil_r.
    rewrite take_ge in Hpre by (unfold len in Hlen; lia). done. }
  cbn [dir_is] in Hd. destruct Hd as (pad & rest & E & Hn & Hpad & Hk & Hr).
  destruct (dir_entry_head _ _ _ _ _ _ Hj E Hn Hpad Hk) as (_ & Hidx & Hnext).
  change DIR_ENTRY_SIZE with 64 in Hnext. cbn [length copy_others]. apply wp_bind, wp_ret, wp_bind.
  eapply wp_lift; [exact Hidx|]. rewrite without_cons in *. destruct (decide (k = i)) as [->|Hne].
  - rewrite Z.eqb_refl. cbn [negb]. change n with (Z.of_nat (length pre)). apply IH; [lia|by rewrite Hnext|done..].
  - rewrite (proj2 (Z.eqb_neq k i)) by done. cbn [negb]. cbn [length] in Hlen.
    destruct b as [b|]; [|unfold len in Hlen; cbn in Hlen; lia]. change (default [] (Some b)) with b in *.
    apply wp_bind, wp_ret, wp_bind. change DIR_ENTRY_SIZE with 64 in *. change FILE_NAME_LENGTH with 60 in *.
    set (blk := nm ++ 0 :: pad ++ unle 4 k). assert (length blk = 64%nat) as Lblk.
    { unfold blk. rewrite length_app. cbn [length]. rewrite length_app, length_unle. unfold len in Hpad. lia. }
    assert (take 64 (drop (Z.to_nat (64 * j)) o) = blk) as Eblk.
    { rewrite E. replace (nm ++ 0 :: pad ++ unle 4 k ++ rest) with (blk ++ rest) by (unfold blk; rewrite <- app_assoc; cbn; by rewrite <- app_assoc).
      by rewrite take_app_le, take_ge by lia. }
    assert (64 * j + 64 <= len o) as Ho.
    { apply (f_equal length) in Eblk. rewrite length_take, length_drop in Eblk. unfold len. lia. }
    eapply wp_lift; [apply bcopy_spec; [done|lia|lia|unfold len in *; lia|unfold len in *; lia]|].
    change (Z.to_nat 64) with 64%nat. rewrite Eblk. set (b2 := _ ++ blk ++ _).
    assert (length b2 = length b) as Lb2.
    { unfold b2. rewrite !length_app, length_take, length_drop, Lblk. unfold len in Hlen. lia. }
    replace (n + 1) with (Z.of_nat (length (pre ++ [(nm, k)]))) by (rewrite length_app; cbn; lia).
    apply (IH (j + 1)); [lia|by rewrite Hnext| | | |].
    + change (default [] (Some b2)) with b2. unfold len in *. rewrite length_app, Lb2. cbn [length]. lia.
    + change (default [] (Some b2)) with b2. unfold b2. apply Forall_app. split; [by apply Forall_take|]. apply Forall_app. split; [|by apply Forall_drop].
      rewrite <- Eblk. by apply Forall_take, Forall_drop.
    + change (default [] (Some b2)) with b2. rewrite length_app. cbn [length].
      replace (Z.to_nat (64 * Z.of_nat (length pre + 1))) with (Z.to_nat (64 * n) + length blk)%nat by lia.
      assert (take (Z.to_nat (64 * n) + length blk) b2 = take (Z.to_nat (64 * n)) b ++ blk) as ->.
      { unfold b2. rewrite app_assoc, take_app_le, take_ge; [done|..]; rewrite length_app, length_take; unfold len in Hlen; lia. }
      unfold blk. by apply dir_is_snoc.
    + intros b' Hb' Hd'. apply HQ; [done|]. by rewrite <- app_assoc in Hd'.
Qed.

(** [remove_file_from_dir] of an entry the directory names: the shorter
    listing fits at least where the old one was. *)
Lemma wp_remove_file (Q : bool -> fs_state -> Prop) t dirs root sc m st d de i : fs_scan sc m t dirs root -> loaded t sc m st ->
  Forall entry_ok t -> live t d de -> is_dir de -> i ∈ (dirs !!! d).*2 ->
  (forall h s m', ample h ->
     let l' := without i (dirs !!! d) in let de' := mk_entry MAGIC_NUMBER (type de) s (DIR_ENTRY_SIZE * Z.of_nat (length l')) in
     let t' := <[Z.to_nat d := de']> t in
     disk_table m' = t' -> Forall entry_ok t' -> layout sc t' -> others_kept t d m m' -> dir_is (file_bytes m' de') l' ->
     Q true (set_disk m' (set_table (Some t') (set_heap h st)))) ->
  wp (remove_file_from_dir d i) Q st.
Proof.
  intros Hv Hst Hok He Hd Hin HQ. pose proof He as (Hd0 & E & Hm). pose proof Hst as (Hdr & Et & Esc & Em & Ha).
  destruct (scan_shape _ _ _ _ _ Hv d de He Hd) as (Hs & El & Hreg). pose proof (sn_nodup _ _ _ _ _ Hv d de He Hd) as Hnd.
  pose proof (length_without _ _ Hnd Hin) as Hlw. pose proof (sn_dir _ _ _ _ _ Hv d de He Hd) as Hdir.
  set (l := dirs !!! d) in *. set (l' := without i l) in *.
  unfold remove_file_from_dir. apply wp_bind. eapply wp_step; [by eapply ft_get_ok|].
  assert (size de / DIR_ENTRY_SIZE = Z.of_nat (length l)) as -> by (rewrite El; change DIR_ENTRY_SIZE with 64; divlia).
  change DIR_ENTRY_SIZE with 64 in *. rewrite (proj2 (Z.ltb_lt 0 (size de))) by lia.
  replace (Z.of_nat (length l) * 64) with (size de) by lia.
  eapply wp_ext; [symmetry; apply bind_assoc|]. apply wp_bind. eapply (scan_read_dir _ _ _ _ _ Hv _ _ d de); [done..|lia|].
  intros h Hh. rewrite (wrap_id 64 (Z.of_nat (length l) - 1)) by (unfold in_range, MAX_FILE in *; lia).
  rewrite (wrap_id 64) by (unfold in_range, MAX_FILE in *; lia).
  replace ((Z.of_nat (length l) - 1) * 64) with (64 * Z.of_nat (length l')) by lia.
  assert (wp (in_heap (bmalloc (64 * Z.of_nat (length l')))) (fun b s => exists h, ample h /\ s = set_heap h st /\
     len (default [] b) = 64 * Z.of_nat (length l') /\ bytes (default [] b)) (set_heap h st)) as Hnew.
  { destruct (decide (length l' = 0%nat)) as [E0|E0].
    - rewrite E0. eapply wp_step; [done|]. exists h. split_and!; [done|done|done|constructor].
    - apply wp_in_bmalloc; [done|lia|]. intros b h2 Hh2 Hb Hbb. exists h2. done. }
  apply wp_bind. eapply wp_mono; [exact Hnew|]. intros b ? (h2 & Hh2 & -> & Lb & Hbb). apply wp_bind.
  rewrite Nat2Z.id.
  apply (wp_copy_others _ i (file_bytes m de) l [] 0 b); [done|done|apply bytes_rd_bytes|cbn [length]; change DIR_ENTRY_SIZE with 64; fold l'; lia|done|done|].
  cbn [app]. fold l'. intros nb Hnb Hdnb. pose proof (dir_is_length _ _ Hdnb) as Lnb. change DIR_ENTRY_SIZE with 64 in Lnb.
  apply wp_bind. eapply wp_mono.
  { apply (edit_file_ok (set_heap h2 st) t d de nb); [done|done|cbn; rewrite Esc; apply (sn_layout _ _ _ _ _ Hv)|done|done|done| |].
    - unfold MAX_FILE in *. lia.
    - lia. }
  intros ok st2 Hed. cbv beta. apply wp_bind. destruct ok; cbn [edited] in Hed.
  - destruct Hed as (s & m' & -> & Htab & Hok' & Hlay' & Hdata & Hkept). apply wp_in_bfree; [done|]. intros h3 Hh3.
    apply wp_bind, wp_in_bfree; [done|]. intros h4 Hh4. apply wp_ret. cbn in Hlay', Hkept. rewrite Esc in Hlay'. rewrite Em in Hkept.
    apply (HQ h4 s m'); try done. rewrite Hdata, take_ge by (unfold len in Lnb; lia). done.
  - destruct Hed as [_ Hmore]. exfalso. revert Hmore. unfold file_sectors. intros Hmore. specialize (Hmore ltac:(lia)). divlia.
Qed.

(** ** The views after a removal *)


Lemma find_name_without t t' i l part last k : (forall x, x ∈ l.*2 -> x <> i -> usable t' last x = usable t last x) ->
  k <> i -> find_name t l part last = Some k -> find_name t' (without i l) part last = Some k.
Proof.
  intros Hu Hk. induction l as [|[nm x] l IH]; [done|]. cbn [find_name]. rewrite without_cons.
  assert (forall y, y ∈ l.*2 -> y <> i -> usable t' last y = usable t last y) as Hu' by (intros y Hy; apply Hu; by right).
  case_decide as E; [subst x|cbn [find_name]; rewrite (Hu x) by (done || left)].
  - case_bool; [by intros [= ->]|by apply IH].
  - case_bool; [done|by apply IH].
Qed.

Lemma find_name_in t l part last k : find_name t l part last = Some k -> (part, k) ∈ l.
Proof.
  induction l as [|[nm x] l IH]; cbn [find_name]; [done|]. case_bool; [|intros ?; right; by apply IH].
  intros [= ->]. apply andb_true_iff in Heqb as [->%bool_decide_eq_true _]. left.
Qed.

(** *** A name taken out of a directory *)

Section Unname.
Context (sc : Z) (m : mem) (t : list file_entry_t) (dirs : gmap Z listing) (root : Z) (Hv : fs_view sc m t dirs root).
Context (d : Z) (de : file_entry_t) (i : Z) (Hde : live t d de) (Hdir : is_dir de) (Hin : i ∈ (dirs !!! d).*2).
Context (s : Z) (m' : mem).

Let l' := without i (dirs !!! d).
Let de' := mk_entry MAGIC_NUMBER (type de) s (DIR_ENTRY_SIZE * Z.of_nat (length l')).
Let t1 := <[Z.to_nat d := de']> t.
Let dirs' := <[d := l']> dirs.
Context (Hlay1 : layout sc t1) (Hkept : others_kept t d m m') (Hbytes : dir_is (file_bytes m' de') l').

Lemma un_live j f : live t1 j f <-> (j = d /\ f = de') \/ (j <> d /\ live t j f).
Proof using Hv Hde.
  pose proof (lay_len _ _ (wf_layout _ _ _ _ _ Hv)) as Hl. pose proof (live_idx _ _ _ _ (wf_layout _ _ _ _ _ Hv) Hde) as Hd.
  change FILE_TABLE_ENTRIES with 640 in *. split.
  - intros [(-> & -> & _)|?]%live_insert; [by left|by right|lia].
  - intros [(-> & ->)|[Hjd Hf]]; [split; [lia|]; split; [apply list_lookup_insert_eq; lia|done]|]. apply live_insert_ne; [done|lia|done].
Qed.
Lemma un_dir j f : live t1 j f -> is_dir f -> exists f0, live t j f0 /\ is_dir f0.
Proof using Hv Hde Hdir. intros [(-> & ->)|[_ Hf]]%un_live Hd; [by exists de|by exists f]. Qed.
(** Nothing names the entry any more. *)
Lemma un_named j f x : live t1 j f -> is_dir f -> x ∈ (dirs' !!! j).*2 -> x ∈ (dirs !!! j).*2 /\ x <> i.
Proof using Hv Hde Hdir Hin.
  intros Hf Hd. unfold dirs'. destruct (decide (d = j)) as [<-|Hne].
  - rewrite lookup_total_insert_eq. apply without_idx.
  - rewrite lookup_total_insert_ne by done. intros Hx. split; [done|]. intros ->. destruct (un_dir j f Hf Hd) as (f0 & Hf0 & Hd0).
    by apply (wf_unique _ _ _ _ _ Hv d j de f0 i Hde Hdir Hf0 Hd0 Hne Hin).
Qed.

Lemma un_view : fs_view sc m' t1 dirs' root.
Proof using All.
  pose proof un_live as Hl. constructor; [done| | | | | | |].
  - intros j f [(-> & ->)|[Hjd Hf]]%Hl; [|by apply (wf_size _ _ _ _ _ Hv j)].
    pose proof (wf_size _ _ _ _ _ Hv d de Hde). destruct (dir_shape _ _ _ _ _ Hv d de Hde Hdir) as (_ & El & _).
    destruct (wf_nodup _ _ _ _ _ Hv d de Hde Hdir) as [Hnd _]. pose proof (length_without _ _ Hnd Hin) as Hlw. fold l' in Hlw.
    unfold de'. cbn [size]. change DIR_ENTRY_SIZE with 64 in *. lia.
  - intros j f [(-> & ->)|[Hjd Hf]]%Hl Hd; unfold dirs'.
    + by rewrite lookup_total_insert_eq.
    + rewrite lookup_total_insert_ne, (Hkept j f) by done. by apply (wf_dir _ _ _ _ _ Hv).
  - intros j f Hf Hd. apply Forall_forall. intros x Hx.
    destruct (un_named j f x.2 Hf Hd) as [Hx2 _]; [by apply list_elem_of_fmap_2|]. destruct (un_dir j f Hf Hd) as (f0 & Hf0 & Hd0).
    destruct (named_nonneg _ _ _ _ _ _ _ _ Hv Hf0 Hd0 Hx2) as (g & Hg). destruct (decide (x.2 = d)) as [E|E].
    + exists de'. apply Hl. by left.
    + exists g. apply Hl. by right.
  - intros j f Hf Hd. destruct (un_dir j f Hf Hd) as (f0 & Hf0 & Hd0). destruct (wf_nodup _ _ _ _ _ Hv j f0 Hf0 Hd0) as [H1 H2].
    unfold dirs'. destruct (decide (d = j)) as [<-|Hne]; [|by rewrite lookup_total_insert_ne]. rewrite lookup_total_insert_eq.
    split; eapply sublist_NoDup; [exact H1|apply fmap_sublist, without_sublist|exact H2|apply fmap_sublist, without_sublist].
  - intros j k f g x Hf Hd Hg Hgd Hne [Hx _]%(un_named j f) [Hy _]%(un_named k g); [|done..].
    destruct (un_dir j f Hf Hd) as (f0 & ? & ?), (un_dir k g Hg Hgd) as (g0 & ? & ?).
    by apply (wf_unique _ _ _ _ _ Hv j k f0 g0 x).
  - destruct Hde as (_ & E2 & Hmd). unfold t1. rewrite (root_of_insert _ _ _ de); [by apply (wf_root _ _ _ _ _ Hv)|done|by rewrite Hmd|done].
  - intros j f k g Hf Hd [Hk _]%(un_named j f) Hg; [|done..]. destruct (un_dir j f Hf Hd) as (f0 & ? & ?).
    apply Hl in Hg as [(-> & ->)|[_ Hg]]; [apply (wf_top _ _ _ _ _ Hv j f0 d de)|apply (wf_top _ _ _ _ _ Hv j f0 k g)]; done.
Qed.

Lemma un_usable last x : 0 <= x -> usable t1 last x = usable t last x.
Proof using Hde. intros Hx. destruct Hde as (Hd0 & E & Hmd). apply (usable_insert t d de); [done|done|done|by rewrite Hmd|done]. Qed.

(** Every path to another entry resolves as before. *)
Lemma un_find j f part last k : live t j f -> is_dir f -> k <> i ->
  find_name t (dirs !!! j) part last = Some k -> find_name t1 (dirs' !!! j) part last = Some k.
Proof using Hv Hde Hdir Hin.
  intros Hf Hd Hk Hfind. assert (forall x, x ∈ (dirs !!! j).*2 -> usable t1 last x = usable t last x) as Hu.
  { intros x Hx. destruct (named_nonneg _ _ _ _ _ _ _ _ Hv Hf Hd Hx) as (g & Hx0 & _). by apply un_usable. }
  unfold dirs'. destruct (decide (d = j)) as [<-|Hne].
  - rewrite lookup_total_insert_eq. apply (find_name_without t); [|done|done]. intros x Hx _. by apply Hu.
  - rewrite lookup_total_insert_ne by done. by rewrite (find_name_ext t t1).
Qed.
Context (Hplain : forall e, live t i e -> ~ is_dir e).
Lemma un_inner j f part k : live t j f -> is_dir f -> find_name t (dirs !!! j) part false = Some k -> k <> i.
Proof using Hv Hplain.
  intros Hf Hd Hk ->. destruct (find_name_live _ _ _ _ _ _ _ _ _ _ Hv Hf Hd Hk) as (g & Hg & Hty). apply (Hplain g Hg). left. by apply Hty.
Qed.
Lemma un_walk parts cur f k : live t cur f -> is_dir f -> pwalk t dirs parts cur = Some k -> pwalk t1 dirs' parts cur = Some k.
Proof using Hv Hde Hdir Hin Hplain.
  intros Hf Hd. eapply pwalk_mono; [exact Hv|exact Hf|exact Hd|]. intros j g part x Hg Hgd Hx.
  apply (un_find j g); [done|done| |done]. by apply (un_inner j g part).
Qed.
Lemma un_paths parts cur f j : live t cur f -> is_dir f -> j <> i ->
  presolve t dirs parts cur = Some j -> presolve t1 dirs' parts cur = Some j.
Proof using Hv Hde Hdir Hin Hplain.
  intros Hf Hd Hj. destruct parts as [|c parts _] using rev_ind; [done|]. rewrite !presolve_snoc.
  destruct (pwalk t dirs parts cur) as [k|] eqn:Hw; [|done]. rewrite (un_walk parts cur f k Hf Hd Hw).
  assert (exists g, live t k g /\ is_dir g) as (g & Hg & Hgd).
  { clear -Hv Hf Hd Hw. revert cur f Hf Hd Hw. induction parts as [|c' parts IH]; intros cur f Hf Hd; cbn [pwalk]; [intros [= <-]; eauto|].
    destruct (find_name t (dirs !!! cur) c' false) as [x|] eqn:Ef; [|done].
    destruct (find_name_live _ _ _ _ _ _ _ _ _ _ Hv Hf Hd Ef) as (g & Hg & Hty). apply (IH x g Hg). left. by apply Hty. }
  by apply (un_find k g).
Qed.
Lemma un_gone ds nm : pwalk t dirs ds root = Some d -> (nm, i) ∈ dirs !!! d -> presolve t1 dirs' (ds ++ [nm]) root = None.
Proof using Hv Hde Hdir Hin Hplain.
  intros Hw Hi. destruct (wf_root_live _ _ _ _ _ Hv) as (r & Hroot & Hrd).
  rewrite presolve_snoc, (un_walk ds root r d Hroot Hrd Hw). unfold dirs'. rewrite lookup_total_insert_eq.
  destruct (find_name t1 l' nm true) as [k|] eqn:Ef; [|done]. exfalso. apply find_name_in in Ef. apply without_elem in Ef as [Hk Hki].
  destruct (wf_nodup _ _ _ _ _ Hv d de Hde Hdir) as [_ Hn]. apply list_elem_of_lookup in Hk as [a Ha]. apply list_elem_of_lookup in Hi as [b Hb].
  assert (a = b) as -> by (eapply NoDup_lookup; [exact Hn|by rewrite list_lookup_fmap, Ha|by rewrite list_lookup_fmap, Hb]).
  rewrite Ha in Hb. injection Hb as ->. done.
Qed.
End Unname.

(** *** An entry nothing names becomes free *)

Lemma root_of_kill t k e a : t !! k = Some e -> type e <> ROOT_DIRECTORY -> root_of (<[k := set_magic 0 e]> t) a = root_of t a.
Proof.
  intros E Hty. revert k a E. induction t as [|x t IH]; intros [|k] a E; try done.
  - injection E as ->. change (<[0%nat := set_magic 0 e]> (e :: t)) with (set_magic 0 e :: t). cbn [root_of set_magic magic_number].
    rewrite (proj2 (Z.eqb_neq (type e) ROOT_DIRECTORY)) by done. by rewrite andb_false_r.
  - change (<[S k := set_magic 0 e]> (x :: t)) with (x :: <[k := set_magic 0 e]> t). cbn [root_of]. by rewrite IH.
Qed.

Lemma view_kill sc m m' t dirs root i e : fs_view sc m t dirs root -> live t i e -> ~ is_dir e ->
  (forall j f, live t j f -> is_dir f -> i ∉ (dirs !!! j).*2) ->
  let t' := <[Z.to_nat i := set_magic 0 e]> t in
  (forall j f, live t' j f -> file_bytes m' f = file_bytes m f) ->
  fs_view sc m' t' dirs root /\ (forall j f, live t' j f <-> j <> i /\ live t j f) /\
  forall parts, presolve t' dirs parts root = presolve t dirs parts root.
Proof.
  intros Hv He Hfile Hno t' Hsame. pose proof He as (Hi0 & Ee & Hm). pose proof (live_idx _ _ _ _ (wf_layout _ _ _ _ _ Hv) He) as Hi.
  pose proof (lay_len _ _ (wf_layout _ _ _ _ _ Hv)) as Hl.
  assert (forall j f, live t' j f <-> j <> i /\ live t j f) as Hlive.
  { intros j f. split; [|intros [Hj Hf]; apply live_insert_ne; [done|lia|done]]. intros [(-> & -> & ?)|?]%live_insert; [done|done|lia]. }
  split_and!; [constructor|done|].
  - apply layout_kill; [apply Hv|lia|done].
  - intros j f [_ Hf]%Hlive. by apply (wf_size _ _ _ _ _ Hv j).
  - intros j f Hf Hd. rewrite (Hsame j f Hf). apply Hlive in Hf as [_ Hf]. by apply (wf_dir _ _ _ _ _ Hv).
  - intros j f [_ Hf]%Hlive Hd. apply Forall_forall. intros x Hx. assert (x.2 ∈ (dirs !!! j).*2) as Hx2 by by apply list_elem_of_fmap_2.
    destruct (named_nonneg _ _ _ _ _ _ _ _ Hv Hf Hd Hx2) as (g & Hg). exists g. apply Hlive. split; [|done]. intros E. rewrite E in Hx2.
    by apply (Hno j f).
  - intros j f [_ Hf]%Hlive. by apply (wf_nodup _ _ _ _ _ Hv j f).
  - intros j k f g x [_ Hf]%Hlive Hd [_ Hg]%Hlive. by apply (wf_unique _ _ _ _ _ Hv j k f g).
  - unfold t'. rewrite root_of_kill; [apply Hv|done|]. intros ?. apply Hfile. by right.
  - intros j f k g [_ Hf]%Hlive Hd Hk [_ Hg]%Hlive. by apply (wf_top _ _ _ _ _ Hv j f k g).
  - intros parts. destruct (wf_root_live _ _ _ _ _ Hv) as (r & Hr & Hrd). eapply presolve_ext; [exact Hv|exact Hr|done|].
    intros j f part last Hf Hd. apply find_name_ext. intros k Hk. unfold usable, t'.
    destruct (named_nonneg _ _ _ _ _ _ _ _ Hv Hf Hd Hk) as (g & Hk0 & _). rewrite list_lookup_insert_ne; [done|].
    intros E. assert (i = k) as -> by lia. by apply (Hno j f).
Qed.

(** ** [filesystem_delete_file] *)

Lemma find_name_any t l part k : NoDup l.*1 -> find_name t l part false = Some k -> find_name t l part true = Some k.
Proof.
  induction l as [|[nm x] l IH]; cbn [find_name fmap list_fmap]; [done|]. rewrite NoDup_cons. intros [Hn Hl].
  case_bool_decide as E; cbn [andb]; [|by apply IH]. subst nm. destruct (usable t false x) eqn:Hu.
  - intros [= ->]. replace (usable t true k) with true; [done|]. unfold usable in *. destruct (t !! Z.to_nat k) as [f|]; [|done].
    destruct (magic_number f =? MAGIC_NUMBER); [|done]. by rewrite orb_true_r.
  - intros Hf%find_name_in. by apply (list_elem_of_fmap_2 fst) in Hf.
Qed.
Lemma pwalk_dir sc m t dirs root ds cur e d : fs_view sc m t dirs root -> live t cur e -> is_dir e -> pwalk t dirs ds cur = Some d ->
  presolve t dirs ds cur = Some d /\ exists de, live t d de /\ is_dir de.
Proof.
  intros Hv. revert cur e. induction ds as [|c ds IH]; intros cur e He Hd; cbn [pwalk presolve]; [intros [= <-]; eauto|].
  destruct (find_name t (dirs !!! cur) c false) as [k|] eqn:Ef; [|done]. intros Hp.
  destruct (find_name_live _ _ _ _ _ _ _ _ _ _ Hv He Hd Ef) as (f & Hf & Hty). specialize (Hty eq_refl).
  destruct (IH k f Hf ltac:(by left) Hp) as [Hp' Hde]. split; [|done]. destruct ds as [|c' ds]; cbn [is_nil]; [|by rewrite Ef].
  destruct (wf_nodup _ _ _ _ _ Hv cur e He Hd) as [_ Hn]. by rewrite (find_name_any _ _ _ _ Hn Ef).
Qed.

(** The file [i] at path [cs] is gone, everything else is as before. *)
Definition removed (sc : Z) (m : mem) (t : list file_entry_t) (dirs : gmap Z listing) (root : Z)
  (cs : list (list Z)) (i : Z) (m' : mem) : Prop :=
  exists t' dirs', fs_wf sc m' t' dirs' root /\ presolve t' dirs' cs root = None /\ (forall f, ~ live t' i f) /\
    (forall parts j, presolve t dirs parts root = Some j -> j <> i -> presolve t' dirs' parts root = Some j) /\
    (forall j f, live t j f -> ~ is_dir f -> j <> i -> live t' j f /\ file_bytes m' f = file_bytes m f).

Section DeleteFile.
Context (sc : Z) (m : mem) (t : list file_entry_t) (dirs : gmap Z listing) (root : Z) (Hwf : fs_wf sc m t dirs root).
Context (ds : list (list Z)) (nm : list Z) (i : Z) (e : file_entry_t).
Context (Hr : presolve t dirs (ds ++ [nm]) root = Some i) (He : live t i e) (Hfile : ~ is_dir e).

Lemma delete_parent : exists d de, pwalk t dirs ds root = Some d /\ presolve t dirs ds root = Some d /\ live t d de /\ is_dir de /\
  (nm, i) ∈ dirs !!! d.
Proof using Hwf Hr.
  destruct Hwf as [_ Hv]. rewrite presolve_snoc in Hr. destruct (pwalk t dirs ds root) as [d|] eqn:Hw; [|done].
  destruct (wf_root_live _ _ _ _ _ Hv) as (r & Hroot & Hrd).
  destruct (pwalk_dir _ _ _ _ _ _ _ _ _ Hv Hroot Hrd Hw) as (Hp & de & Hde & Hdd). exists d, de. split_and!; try done.
  by eapply find_name_in.
Qed.

Lemma delete_stored d de s m1 : pwalk t dirs ds root = Some d -> live t d de -> is_dir de -> (nm, i) ∈ dirs !!! d ->
  let l' := without i (dirs !!! d) in let de' := mk_entry MAGIC_NUMBER (type de) s (DIR_ENTRY_SIZE * Z.of_nat (length l')) in
  let t1 := <[Z.to_nat d := de']> t in let t2 := <[Z.to_nat i := set_magic 0 e]> t1 in
  Forall entry_ok t1 -> layout sc t1 -> others_kept t d m m1 -> dir_is (file_bytes m1 de') l' ->
  length t2 = Z.to_nat FILE_TABLE_ENTRIES /\
  removed sc m t dirs root (ds ++ [nm]) i (disk_write m1 1 FILE_TABLE_SIZE (encode_table t2)).
Proof using All.
  intros Hw Hde Hdd Hin l' de' t1 t2 Hok1 Hlay1 Hkept Hbytes. destruct Hwf as [Htab Hv].
  assert (i ∈ (dirs !!! d).*2) as Hin2 by (by apply (list_elem_of_fmap_2 snd) in Hin).
  assert (i <> d) as Hne by (intros ->; apply Hfile; by rewrite (live_fun _ _ _ _ He Hde)).
  assert (forall f, live t i f -> ~ is_dir f) as Hplain by (intros f Hf; by rewrite <- (live_fun _ _ _ _ He Hf)).
  pose proof (un_live sc m t dirs root Hv d de i Hde s) as Hl1. fold l' de' t1 in Hl1.
  pose proof (un_view sc m t dirs root Hv d de i Hde Hdd Hin2 s m1 Hlay1 Hkept Hbytes) as Hv1. fold l' de' t1 in Hv1.
  assert (live t1 i e) as He1 by (apply Hl1; by right).
  assert (length t2 = Z.to_nat FILE_TABLE_ENTRIES) as Hl2 by (unfold t2; rewrite length_insert; apply Hlay1). split; [done|].
  set (m2 := disk_write _ _ _ _).
  assert (forall j f, live t1 j f -> file_bytes m2 f = file_bytes m1 f) as Hsame.
  { intros j f Hf. destruct (lay_in _ _ Hlay1 j f Hf) as [Hs Hlow]. apply (file_bytes_save sc); [|done|lia|]; [|intros Hz; by apply Hlow].
    apply layout_kill; [done| |done]. destruct He1 as (Hi0 & E1 & _). apply lookup_lt_Some in E1. lia. }
  destruct (view_kill sc m1 m2 t1 _ root i e Hv1 He1 Hfile) as (Hv2 & Hl & Hpaths).
  { intros j f Hf Hd Hj. by apply (un_named sc m t dirs root Hv d de i Hde Hdd Hin2 s j f i Hf Hd) in Hj as [_ ?]. }
  { intros j f Hf. apply (Hsame j). destruct He1 as (Hi0 & E1 & _). apply live_insert in Hf as [(_ & -> & ?)|[_ ?]]; [done|done|].
    apply lookup_lt_Some in E1. lia. }
  fold t2 in Hv2, Hl, Hpaths. destruct (wf_root_live _ _ _ _ _ Hv) as (r & Hroot & Hrd).
  exists t2, (<[d := l']> dirs). split_and!; [split; [|done]| | | |].
  - apply disk_table_save; [done|]. apply Forall_insert; [done|]. destruct He1 as (_ & Ee & _).
    eapply Forall_lookup_1 in Hok1 as (_ & ? & ? & ?); [|exact Ee]. by split_and!.
  - rewrite Hpaths. by apply (un_gone sc m t dirs root Hv d de i Hde Hdd Hin2 s Hplain).
  - intros f Hf. by apply Hl in Hf as [? _].
  - intros parts j Hj Hji. rewrite Hpaths. by apply (un_paths sc m t dirs root Hv d de i Hde Hdd Hin2 s Hplain parts root r).
  - intros j f Hf Hnd Hji. assert (j <> d) as Hjd by (intros ->; apply Hnd; by rewrite (live_fun _ _ _ _ Hf Hde)).
    assert (live t1 j f) as Hf1 by (apply Hl1; by right). split; [by apply Hl|]. rewrite (Hsame j f Hf1). by apply (Hkept j f).
Qed.

Lemma wp_delete_file st p : ready sc m st -> is_path p (ds ++ [nm]) ->
  wp (filesystem_delete_file p)
     (fun ok st' => ok = true /\ finished sc (removed sc m t dirs root (ds ++ [nm]) i) st') st.
Proof using All.
  intros Hst Hp. pose proof Hst as (Hd & Hsc & Hm & Ha). destruct delete_parent as (d & de & Hw & Hpar & Hde & Hdd & Hin).
  pose proof (proj2 Hwf) as Hv. unfold filesystem_delete_file.
  apply wp_bind. eapply wp_lift; [by eapply is_path_valid|]. cbn [negb]. apply wp_bind, wp_load_table; [done|done|]. intros h Hh.
  assert (loaded t sc m (set_table (Some (disk_table (disk st))) (set_heap h st))) as Hl by (by eapply loaded_load).
  apply wp_bind. eapply wp_resolve; [done..|]. intros h2 Hh2. rewrite Hr. rewrite Hm, (proj1 Hwf) in *.
  apply wp_bind, (wp_split_path _ _ _ ds nm); [done|done|]. intros h3 Hh3. apply wp_bind.
  eapply wp_resolve_dir; [done|by apply loaded_heap|done|]. intros h4 Hh4. rewrite Hpar, set_heap_set_heap.
  assert (i ∈ (dirs !!! d).*2) as Hin2 by (by apply (list_elem_of_fmap_2 snd) in Hin).
  apply wp_bind. eapply (wp_remove_file _ t dirs root sc m _ d de i); [by apply view_scan|by apply loaded_heap| |done|done|done|].
  { rewrite <- (proj1 Hwf). apply disk_table_ok. }
  - cbv zeta. intros h5 s m1 Hh5 Htab1 Hok1 Hlay1 Hkept Hbytes. cbn [negb].
    assert (i <> d) as Hne by (intros ->; apply Hfile; by rewrite (live_fun _ _ _ _ He Hde)).
    destruct (delete_stored d de s m1) as [Hlen Hrem]; [done..|].
    pose proof He as (Hi0 & Ee & _). pose proof Hde as (Hd0 & _).
    apply wp_bind. eapply wp_step; [eapply ft_set_magic_ok; [done|done|rewrite list_lookup_insert_ne by lia; exact Ee]|].
    apply wp_bind. eapply wp_step; [eapply save_ok; [done|done|exact Hlen]|].
    apply wp_free_table_ret; [done|]. intros h6 Hh6. split; [done|]. by split_and!.
Qed.
End DeleteFile.
