(* ===== verification/FsOps.v ===== *)
(** * The filesystem operations: main theorems

    On a well-formed disk ([fs_wf]) writing, reading back, deleting and
    creating the root do what they promise; the last part shows inputs on
    which the operations do not. *)
From S2P Require Import Prelude Mem Util Str Ata Fs FsThms FsEdit FsPath FsWrite FsDelete.

(** [Forall] on an explicit list. *)
Ltac each := repeat (apply Forall_cons_2 || apply Forall_nil_2); try done.

(** ** A disk with one file

    Entry 0 is the root directory, which names entry 1, the file "/a". *)
Definition demo_dir : list Z := [97] ++ 0 :: replicate 58 0 ++ unle 4 1.
Definition demo_root : file_entry_t := mk_entry MAGIC_NUMBER ROOT_DIRECTORY 641 64.
Definition demo_file : file_entry_t := mk_entry MAGIC_NUMBER FILE 642 3.
Definition demo_tab : list file_entry_t := demo_root :: demo_file :: replicate 638 empty_entry.
Definition demo_mem : mem :=
  disk_write (disk_write (disk_write ∅ 641 64 demo_dir) 642 3 [1; 2; 3]) 1 FILE_TABLE_SIZE (encode_table demo_tab).
Definition demo_dirs : gmap Z listing := {[ 0 := [([97], 1)] ]}.
Definition demo_st : fs_state := mk_fs demo_mem 2000 true None demo_bheap [].

Lemma demo_tab_live i e : live demo_tab i e -> i = 0 /\ e = demo_root \/ i = 1 /\ e = demo_file.
Proof.
  intros (Hi & E & Hm). destruct (Z.to_nat i) as [|[|k]] eqn:Ek.
  - left. split; [lia|]. by injection E as <-.
  - right. split; [lia|]. by injection E as <-.
  - change (replicate 638 empty_entry !! k = Some e) in E. apply lookup_replicate in E as [-> _]. done.
Qed.
Lemma demo_ok : Forall entry_ok demo_tab.
Proof.
  unfold demo_tab. apply Forall_cons_2; [by vm_compute|]. apply Forall_cons_2; [by vm_compute|]. apply Forall_replicate. by vm_compute.
Qed.
Lemma demo_layout2 : layout 2000 demo_tab.
Proof.
  constructor; [done| |].
  - intros i e [[-> ->]|[-> ->]]%demo_tab_live; (split; [by vm_compute|intros _; by vm_compute]).
  - intros i j e f [[-> ->]|[-> ->]]%demo_tab_live [[-> ->]|[-> ->]]%demo_tab_live Hij _ _; try done; [left|right]; by vm_compute.
Qed.
Lemma demo_wf : fs_wf 2000 demo_mem demo_tab demo_dirs 0.
Proof.
  split; [apply disk_table_save; [done|apply demo_ok]|].
  assert (forall i e, live demo_tab i e -> is_dir e -> i = 0 /\ e = demo_root) as Hd.
  { intros i e [[-> ->]|[-> ->]]%demo_tab_live Hdir; [done|]. destruct Hdir as [H|H]; by vm_compute in H. }
  assert (demo_dirs !!! 0 = [([97], 1)]) as E0 by apply lookup_total_singleton_eq.
  constructor; [apply demo_layout2| | | | | |done|].
  - intros i e [[-> ->]|[-> ->]]%demo_tab_live; by vm_compute.
  - intros i e Hl Hdir. destruct (Hd i e Hl Hdir) as [-> ->]. rewrite E0. exists (replicate 58 0), []. split_and!; [by vm_compute|by each|done..].
  - intros i e Hl Hdir. destruct (Hd i e Hl Hdir) as [-> ->]. rewrite E0. apply Forall_cons_2; [|apply Forall_nil_2]. by exists demo_file.
  - intros i e Hl Hdir. destruct (Hd i e Hl Hdir) as [-> ->]. rewrite E0. split; apply NoDup_singleton.
  - intros i j e f k Hi He Hj Hf Hne. destruct (Hd i e Hi He) as [-> _], (Hd j f Hj Hf) as [-> _]. done.
  - intros i e k f Hi He Hk Hf. destruct (Hd i e Hi He) as [-> _]. rewrite E0 in Hk. apply list_elem_of_singleton in Hk as ->.
    apply demo_tab_live in Hf as [[? _]|[_ ->]]; done.
Qed.
Lemma demo_ready : ready 2000 demo_mem demo_st.
Proof. split_and!; [by split; [done|vm_compute; split; done]|done|done|by intros n k; eexists]. Qed.

Lemma one_part_path c : component [c] -> in_range 8 c -> c <> 0 -> is_path [SLASH; c; 0] [[c]].
Proof.
  intros Hc Hr Hz. split_and!; [split; [by each|by exists []]|by each|by each|done].
Qed.
Lemma demo_path_a : is_path (cstr "/a") ([] ++ [[97]]).
Proof. apply one_part_path; [split; [done|by each]|done|done]. Qed.
Lemma demo_path_b : is_path (cstr "/b") ([] ++ [[98]]).
Proof. apply one_part_path; [split; [done|by each]|done|done]. Qed.
Lemma demo_root_live : live demo_tab 0 demo_root.
Proof. done. Qed.

(** ** Editing *)

(** [edit_file] on a table whose live files do not overlap: it either
    fails, because the new data need more sectors than the old, and changes
    nothing, or the entry's data are the new bytes at a
    place apart from all other files, the table with that entry is the one in
    memory and on the disk, the layout is again free of overlaps, and every
    byte of every other live file is unchanged. *)
Theorem edit_file_correct st t i e src sz : drive_ok st -> file_table st = Some t -> layout (sector_count st) t ->
  Forall entry_ok t -> live t i e -> bytes (default [] src) -> 0 <= sz <= MAX_FILE -> sz <= len (default [] src) ->
  wp (edit_file i src sz) (edited st t i e src sz) st.
Proof. apply edit_file_ok. Qed.

Lemma edit_file_correct_witness :
  wp (edit_file 1 (Some [7; 8; 9; 10]) 4) (edited (set_table (Some demo_tab) demo_st) demo_tab 1 demo_file (Some [7; 8; 9; 10]) 4)
    (set_table (Some demo_tab) demo_st).
Proof.
  apply (edit_file_correct (set_table (Some demo_tab) demo_st) demo_tab 1 demo_file (Some [7; 8; 9; 10]) 4);
    [apply demo_ready|done|apply demo_layout2|apply demo_ok|done|by each|done|done].
Defined.

(** ** Writing *)

(** C1: [filesystem_write_file] to a path whose directory exists (and whose
    last component has at most 59 characters) either fails and leaves the
    whole disk unchanged, or leaves a well-formed filesystem in which the path
    names an entry with exactly the bytes written, every path that resolved
    before resolves to the same entry, and every other plain file has its old
    entry and its old bytes. *)
Theorem filesystem_write_file_correct sc m t dirs root st p ds nm data ty sz d de : fs_wf sc m t dirs root -> ready sc m st ->
  is_path p (ds ++ [nm]) -> len nm < FILE_NAME_LENGTH ->
  presolve t dirs ds root = Some d -> live t d de -> ds = [] \/ type de = DIRECTORY ->
  ty = FILE \/ ty = DIRECTORY /\ sz = 0 -> bytes data -> 0 <= sz <= MAX_FILE -> sz <= len data ->
  wp (filesystem_write_file p (Some data) ty sz) (fun ok => finished sc (written sc m t dirs root (ds ++ [nm]) data ty sz ok)) st.
Proof. intros. by eapply wp_write_file. Qed.

Lemma filesystem_write_file_correct_witness :
  wp (filesystem_write_file (cstr "/b") (Some [5; 6]) FILE 2)
     (fun ok => finished 2000 (written 2000 demo_mem demo_tab demo_dirs 0 ([] ++ [[98]]) [5; 6] FILE 2 ok)) demo_st.
Proof.
  apply (filesystem_write_file_correct 2000 demo_mem demo_tab demo_dirs 0 demo_st (cstr "/b") [] [98] [5; 6] FILE 2 0 demo_root);
    [apply demo_wf|apply demo_ready|apply demo_path_b|done|done|apply demo_root_live|by left|by left|by each|done|done].
Defined.

(** C15: reading a file right after a successful write returns exactly the
    bytes written; a failed write changes nothing on the disk. *)
Theorem write_read_roundtrip sc m t dirs root st p ds nm data sz d de buf : fs_wf sc m t dirs root -> ready sc m st ->
  is_path p (ds ++ [nm]) -> len nm < FILE_NAME_LENGTH ->
  presolve t dirs ds root = Some d -> live t d de -> ds = [] \/ type de = DIRECTORY ->
  bytes data -> 0 <= sz <= MAX_FILE -> sz <= len data -> sz + sz mod 2 <= len buf ->
  wp (let* ok := filesystem_write_file p (Some data) FILE sz in
      if ok then let* r := filesystem_read_file p (Some buf) in ret (Some r) else ret None)
     (fun r st' => match r with
        | Some (found, out) => found = true /\ exists o, out = Some o /\ take (Z.to_nat sz) o = take (Z.to_nat sz) data
        | None => disk st' = m
        end) st.
Proof.
  intros Hwf Hst Hp Hnm Hpar Hde Hk Hb Hsz Hlen Hbuf. apply wp_bind. eapply wp_mono; [by eapply wp_write_file; try done; left|].
  intros ok st' (Hd & Esc & Ha & _ & Hw). destruct ok; [|by apply wp_ret].
  destruct Hw as (t' & dirs' & i & e & Hwf' & Hr & He & _ & Es & Hbytes & _ & _). apply wp_bind.
  assert (forall j f, presolve t' dirs' (ds ++ [nm]) root = Some j -> live t' j f -> f = e) as Hsame.
  { intros j f Hj (_ & Ef & _). rewrite Hr in Hj. injection Hj as <-. destruct He as (_ & Ee & _). rewrite Ee in Ef. by injection Ef as ->. }
  eapply (wp_read_file t' dirs' root sc (disk st')); [done|by split_and!|done| |].
  - intros st2 _. rewrite Hr. intros f Hf _. rewrite (Hsame i f Hr Hf). apply wp_ret. split; [done|]. eexists. split; [done|].
    rewrite <- Es, take_disk_read by lia. by rewrite Es.
  - intros j f Hj Hf. rewrite (Hsame j f Hj Hf), Es. done.
Qed.

Lemma write_read_roundtrip_witness :
  wp (let* ok := filesystem_write_file (cstr "/b") (Some [5; 6; 7]) FILE 3 in
      if ok then let* r := filesystem_read_file (cstr "/b") (Some [0; 0; 0; 0]) in ret (Some r) else ret None)
     (fun r st' => match r with
        | Some (found, out) => found = true /\ exists o, out = Some o /\ take (Z.to_nat 3) o = take (Z.to_nat 3) [5; 6; 7]
        | None => disk st' = demo_mem
        end) demo_st.
Proof.
  apply (write_read_roundtrip 2000 demo_mem demo_tab demo_dirs 0 demo_st (cstr "/b") [] [98] [5; 6; 7] 3 0 demo_root [0; 0; 0; 0]);
    [apply demo_wf|apply demo_ready|apply demo_path_b|done|done|apply demo_root_live|by left|by each|done|done|by vm_compute].
Defined.

(** ** Deleting *)

(** C20: [filesystem_delete_file] of an existing plain file succeeds and
    leaves a well-formed filesystem in which the path no longer resolves, the
    entry is free, every path to another entry resolves as before, and every
    other plain file has its old bytes. *)
Theorem filesystem_delete_file_correct sc m t dirs root st p ds nm i e : fs_wf sc m t dirs root -> ready sc m st ->
  is_path p (ds ++ [nm]) -> presolve t dirs (ds ++ [nm]) root = Some i -> live t i e -> ~ is_dir e ->
  wp (filesystem_delete_file p) (fun ok st' => ok = true /\ finished sc (removed sc m t dirs root (ds ++ [nm]) i) st') st.
Proof. intros. by eapply wp_delete_file. Qed.

Lemma demo_file_plain : ~ is_dir demo_file.
Proof. intros [H|H]; by vm_compute in H. Qed.
Lemma filesystem_delete_file_correct_witness :
  wp (filesystem_delete_file (cstr "/a"))
     (fun ok st' => ok = true /\ finished 2000 (removed 2000 demo_mem demo_tab demo_dirs 0 ([] ++ [[97]]) 1) st') demo_st.
Proof.
  apply (filesystem_delete_file_correct 2000 demo_mem demo_tab demo_dirs 0 demo_st (cstr "/a") [] [97] 1 demo_file);
    [apply demo_wf|apply demo_ready|apply demo_path_a|done|done|apply demo_file_plain].
Defined.

(** ** The root directory *)

Definition fresh_root : file_entry_t := mk_entry MAGIC_NUMBER ROOT_DIRECTORY (1 + FILE_TABLE_SECTORS) 0.
Definition fresh_tab : list file_entry_t := fresh_root :: replicate 639 empty_entry.

Lemma fresh_live i e : live fresh_tab i e -> i = 0 /\ e = fresh_root.
Proof.
  intros (Hi & E & Hm). destruct (Z.to_nat i) as [|k] eqn:Ek; [split; [lia|by injection E as <-]|].
  change (replicate 639 empty_entry !! k = Some e) in E. apply lookup_replicate in E as [-> _]. done.
Qed.
Lemma fresh_wf sc m : disk_table m = fresh_tab -> fs_wf sc m fresh_tab ∅ 0.
Proof.
  intros Ht. split; [exact Ht|]. clear Ht. assert ((∅ : gmap Z listing) !!! 0 = []) as E0 by done. constructor.
  - constructor; [done| |].
    + intros i e [-> ->]%fresh_live. split; [by vm_compute|]. intros Hz. exfalso. apply Hz. reflexivity.
    + intros i j e f [-> ->]%fresh_live [-> ->]%fresh_live. done.
  - intros i e [-> ->]%fresh_live. by vm_compute.
  - intros i e [-> ->]%fresh_live _. by rewrite E0.
  - intros i e [-> ->]%fresh_live _. rewrite E0. apply Forall_nil_2.
  - intros i e [-> ->]%fresh_live _. rewrite E0. split; constructor.
  - intros i j e f k [-> _]%fresh_live _ [-> _]%fresh_live. done.
  - done.
  - intros i e k f [-> ->]%fresh_live _. rewrite E0. by intros ?%elem_of_nil.
Qed.

Lemma ensure_root_ok st : drive_ok st -> ample (fheap st) ->
  wp ensure_root (fun _ st' => drive_ok st' /\ sector_count st' = sector_count st /\ ample (fheap st') /\
    match root_of (disk_table (disk st)) 0 with
    | Some _ => disk st' = disk st
    | None => fs_wf (sector_count st) (disk st') fresh_tab ∅ 0
    end) st.
Proof.
  intros Hd Ha. unfold ensure_root. apply wp_bind, wp_load_table; [done|done|]. intros h Hh. set (t := disk_table (disk st)).
  apply wp_bind, wp_modify, wp_bind. eapply wp_step; [apply (find_root_ok _ t); [done|apply length_disk_table]|].
  destruct (root_of t 0) as [r|]; [by apply wp_modify|].
  apply wp_bind, wp_modify, wp_bind, wp_bind, wp_get, wp_bind, wp_ret, wp_ret, wp_bind, wp_modify, wp_bind, wp_modify, wp_bind.
  eapply wp_step; [eapply ft_set_ok; [done|vm_compute; split; done]|]. apply wp_bind, wp_modify, wp_bind.
  eapply wp_step; [eapply (save_ok _ fresh_tab); done|]. apply wp_bind, wp_modify, wp_free_table; [done|]. intros h2 Hh2.
  split_and!; [done..|]. apply fresh_wf. apply disk_table_save; [done|].
  apply Forall_cons_2; [by vm_compute|]. apply Forall_replicate. by vm_compute.
Qed.

(** [ensure_root]: a disk whose table has a root directory is left as it
    is; any other disk is formatted, that is, it becomes a well-formed
    filesystem whose only live entry is an empty root directory. *)
Theorem ensure_root_correct st : drive_ok st -> ample (fheap st) ->
  wp ensure_root (fun _ st' => drive_ok st' /\ sector_count st' = sector_count st /\ ample (fheap st') /\
    match root_of (disk_table (disk st)) 0 with
    | Some _ => disk st' = disk st
    | None => fs_wf (sector_count st) (disk st') fresh_tab ∅ 0
    end) st.
Proof. apply ensure_root_ok. Qed.

Definition blank_st : fs_state := mk_fs ∅ 2000 true None demo_bheap [].
Lemma ensure_root_correct_witness :
  wp ensure_root (fun _ st' => drive_ok st' /\ sector_count st' = sector_count blank_st /\ ample (fheap st') /\
    match root_of (disk_table (disk blank_st)) 0 with
    | Some _ => disk st' = disk blank_st
    | None => fs_wf (sector_count blank_st) (disk st') fresh_tab ∅ 0
    end) blank_st.
Proof. apply (ensure_root_correct blank_st); [by split; [done|vm_compute; split; done]|by intros n k; eexists]. Defined.

(** ** Inputs the operations mishandle *)

(** [write; exists; size of another file]. *)
Definition write_then_look (p q : string) (data : list Z) : M fs_state (bool * bool * Z * Z) :=
  let* ok := filesystem_write_file (cstr p) (Some data) FILE (len data) in
  let* e := filesystem_file_exists (cstr p) in
  let* (_, md) := filesystem_read_file_metadata (cstr q) (mk_meta 0 0 (replicate 60 0)) in
  ret (ok, e, md_size md, md_type md).
Definition result_of {A} (m : M fs_state A) (st : fs_state) : outcome A := obind (m st) (fun r => OK (fst r)).
Definition long_name : string := "/bbbbbbbbbbbbbbbbbbbbbbbbbbbbbbbbbbbbbbbbbbbbbbbbbbbbbbbbbbbb".

