(* ===== verification/FsList.v ===== *)
(** * Metadata and listings

    [filesystem_read_file_metadata] and [filesystem_list_dir] on a well-formed
    filesystem: they describe the entries as the table and the directory hold
    them, and leave the disk alone. *)
From S2P Require Import Prelude Mem Util Str StrLib Ata Fs FsThms FsEdit FsPath FsWrite FsOps.

(** ** Metadata *)

Lemma put_name_ok dst name nm : len dst = FILE_NAME_LENGTH -> cstring name nm -> bytes name -> len nm <= MAX_STR ->
  exists d, put_name dst 0 name = OK d.
Proof.
  intros Hd Hn Hb Hl. unfold put_name. rewrite (strlen_ok _ _ Hn) by done. cbn [obind].
  pose proof (cstring_len _ _ Hn). assert (0 <= len nm) by (unfold len; lia). unfold FILE_NAME_LENGTH in *.
  rewrite bcopy_spec; [|done|lia|lia|lia|lia]. cbn [obind]. eexists. apply bset_ok.
  unfold len in *. rewrite !length_app, length_take, length_take, !length_drop. lia.
Qed.

(** A path is a directory part, a slash and a name; for the root both are empty. *)
Lemma path_text_split cs : Forall component cs -> exists a n, path_text cs = a ++ SLASH :: n /\ Forall (fun x => x <> SLASH) n.
Proof.
  intros Hcs. destruct cs as [|nm ds _] using rev_ind; [exists [], []; split; [done|constructor]|].
  exists (join ds), nm. split; [apply path_text_snoc|]. apply Forall_app in Hcs as [_ Hn%Forall_inv]. by apply component_ne in Hn as [_ ?].
Qed.

Section Listing.
Context (t : list file_entry_t) (dirs : gmap Z listing) (root sc : Z) (m : mem) (Hwf : fs_wf sc m t dirs root).

(** [filesystem_read_file_metadata] of a path that names an entry. *)
Lemma wp_read_metadata (Q : bool * file_metadata_t -> fs_state -> Prop) st p cs meta i e : ready sc m st ->
  is_path p cs -> presolve t dirs cs root = Some i -> live t i e -> len (md_name meta) = FILE_NAME_LENGTH ->
  (forall n st', done_reading st st' -> Q (true, mk_meta (size e) (type e) n) st') ->
  wp (filesystem_read_file_metadata p meta) Q st.
Proof using Hwf.
  intros Hst Hp Hr He Hmeta HQ. unfold filesystem_read_file_metadata. eapply (wp_with_file t dirs root sc m Hwf); [done|done| |].
  - intros E. by rewrite Hr in E.
  - intros j f h Hj Hf Hh st1 Hl. rewrite Hr in Hj. injection Hj as <-. pose proof (live_fun _ _ _ _ He Hf) as <-.
    destruct Hp as (Hpc & Hb & Hcs & Hmax). destruct (path_text_split cs Hcs) as (a & nm & E & Hns). rewrite E in *.
    apply wp_bind, (wp_split_at _ _ _ a nm); [done..|]. intros h2 Hh2.
    pose proof Hpc as [Hnz [rr Err]]. rewrite Err in Hb.
    apply Forall_app in Hnz as [_ [_ Hnn]%Forall_cons]. apply Forall_app in Hb as [[_ [_ Hbn]%Forall_cons]%Forall_app _].
    destruct (put_name_ok (md_name meta) (nm ++ [0]) nm) as [d Ed];
      [done|by apply cstring_app|by apply bytes_snoc0|unfold len in *; rewrite length_app in Hmax; cbn in Hmax; lia|].
    apply wp_bind. eapply wp_lift; [exact Ed|]. apply wp_bind, wp_free_table; [done|]. intros h3 Hh3. apply wp_ret, HQ. by exists h3.
Qed.

(** ** The listing of a directory *)

(** The metadata of a directory entry: the table's size and type, the name. *)
Definition described (x : list Z * Z) (md : file_metadata_t) : Prop :=
  exists e, live t x.2 e /\ md_size md = size e /\ md_type md = type e /\ cstring (md_name md) x.1 /\ len (md_name md) = FILE_NAME_LENGTH.

(** Closing the name's field keeps a name that fits. *)
Lemma closed_name nm pad rest : nonzero nm -> len nm + 1 + len pad = FILE_NAME_LENGTH ->
  exists n, bset (take (Z.to_nat FILE_NAME_LENGTH) (nm ++ 0 :: pad ++ rest)) (FILE_NAME_LENGTH - 1) 0 = OK n /\
    cstring n nm /\ len n = FILE_NAME_LENGTH.
Proof using.
  change FILE_NAME_LENGTH with 60. intros Hn Hl.
  replace (nm ++ 0 :: pad ++ rest) with ((nm ++ 0 :: pad) ++ rest) by by rewrite <- app_assoc.
  assert (length (nm ++ 0 :: pad) = 60%nat) as L by (rewrite length_app; cbn; unfold len in Hl; lia).
  rewrite take_app_le, take_ge by lia. rewrite bset_ok by (unfold len; lia). eexists. split; [done|]. split.
  - split; [done|]. change (Z.to_nat (60 - 1)) with 59%nat. change (u8 0) with 0. destruct pad as [|x pad].
    + exists []. replace 59%nat with (length nm + 0)%nat by (unfold len in Hl; cbn in Hl; lia). by rewrite insert_app_r.
    + exists (<[length pad := 0]> (x :: pad)). replace 59%nat with (length nm + S (length pad))%nat by (unfold len in Hl; cbn in Hl; lia).
      by rewrite insert_app_r.
  - unfold len. rewrite length_insert. lia.
Qed.

Lemma wp_list_loop (Q : list file_metadata_t -> fs_state -> Prop) st l j b : file_table st = Some t -> 0 <= j ->
  dir_is (drop (Z.to_nat (DIR_ENTRY_SIZE * j)) b) l -> Forall (fun x => exists f, live t x.2 f) l ->
  (forall r, Forall2 described l r -> Q r st) -> wp (list_loop (length l) j b) Q st.
Proof using.
  intros Et Hj Hd Hl. revert j Hj Hd Q. induction Hl as [|[nm i] l (e & He) Hl IH]; intros j Hj Hd Q HQ.
  { apply wp_ret, HQ. constructor. }
  destruct Hd as (pad & rest & E & Hn & Hpad & Hi & Hd). cbn [snd] in He. pose proof He as (Hi0 & Ee & _).
  destruct (dir_entry_head _ _ _ _ _ _ Hj E Hn Hpad Hi) as (_ & Ei & Enext). cbn [length list_loop].
  apply wp_bind. eapply wp_lift; [exact Ei|]. apply wp_bind. eapply wp_step; [by eapply ft_get_ok|].
  destruct (closed_name nm pad (unle 4 i ++ rest) Hn Hpad) as (n & En & Hcn & Hln).
  unfold de_name. rewrite E. apply wp_bind. eapply wp_lift; [exact En|]. apply wp_bind, IH; [lia|by rewrite Enext|].
  intros r Hr. apply wp_ret, HQ. constructor; [|done]. by exists e.
Qed.

Lemma wp_list_dir st stack p cs : ready sc m st -> is_path p cs -> len (md_name stack) = FILE_NAME_LENGTH ->
  (forall d de, presolve t dirs cs root = Some d -> live t d de -> is_dir de) ->
  wp (filesystem_list_dir stack p) (fun r st' => finished sc (fun m' => m' = m) st' /\
    match presolve t dirs cs root, r with
    | None, None => True
    | Some d, None => dirs !!! d = []
    | Some d, Some l => dirs !!! d <> [] /\ Forall2 described (dirs !!! d) l
    | None, Some _ => False
    end) st.
Proof using Hwf.
  intros Hst Hp Hmeta Hdir. pose proof Hst as (Hd & Hsc & Hm & Ha). pose proof (proj2 Hwf) as Hv. unfold filesystem_list_dir.
  apply wp_bind. eapply wp_lift; [by eapply is_path_valid|]. cbn [negb]. apply wp_bind.
  eapply (wp_file_exists t dirs root sc m Hwf); [done..|]. intros st1 (h1 & Hh1 & ->).
  destruct (presolve t dirs cs root) as [d|] eqn:Er; [|rewrite bool_decide_eq_false_2 by (by intros []); apply wp_ret; by split_and!].
  rewrite bool_decide_eq_true_2 by eauto. cbn [negb]. destruct (resolve_live _ _ _ _ _ _ _ Hv Er) as [e He].
  specialize (Hdir d e eq_refl He). destruct (dir_shape _ _ _ _ _ Hv d e He Hdir) as (Hs & El & _). pose proof (wf_dir _ _ _ _ _ Hv d e He Hdir) as Hbytes.
  pose proof (wf_named _ _ _ _ _ Hv d e He Hdir) as Hnamed.
  apply wp_bind. eapply wp_read_metadata; [by split_and!|done..|]. intros n st2 (h2 & Hh2 & ->). cbn [negb md_size].
  change DIR_ENTRY_SIZE with 64 in *. destruct (Z.ltb_spec (size e) 64) as [Hlt|Hge].
  { apply wp_ret. split; [by split_and!|]. destruct (dirs !!! d); [done|]. cbn [length] in El. lia. }
  apply wp_bind, wp_in_bmalloc; [done|lia|]. intros b h3 Hh3 Hb _. apply wp_bind.
  assert (size e mod 2 = 0) as Heven by divlia.
  eapply (wp_read_file t dirs root sc m Hwf); [by split_and!|done| |].
  2: { intros i f Hi Hf. rewrite Er in Hi. injection Hi as <-. rewrite <- (live_fun _ _ _ _ He Hf). lia. }
  intros st3 (h4 & Hh4 & ->). rewrite Er. intros f Hf _. pose proof (live_fun _ _ _ _ He Hf) as <-. cbn [negb].
  rewrite disk_read_file by lia.
  assert (size e / 64 = Z.of_nat (length (dirs !!! d))) as -> by (rewrite El; divlia).
  apply wp_bind, wp_in_bmalloc; [done|lia|]. intros b2 h5 Hh5 _ _. apply wp_bind, wp_load_table; [done|done|]. intros h6 Hh6.
  apply wp_bind, wp_ret, wp_bind, wp_ret, wp_bind. rewrite Nat2Z.id. apply wp_list_loop; [|done|done|done|].
  { cbn. by rewrite Hm, (proj1 Hwf). }
  intros r Hr. apply wp_free_table_ret; [done|]. intros h7 Hh7. split; [by split_and!|]. split; [|done].
  intros E. rewrite E in El. cbn in El. lia.
Qed.
End Listing.

(** C22: [filesystem_list_dir] of a path changes nothing on the disk and drops
    what it loaded. It answers null for a path that names nothing and for an
    empty directory; for any other directory it returns one record per entry,
    in the directory's order, with the entry's name, terminated in its field,
    and the size and type the table holds. *)
Theorem filesystem_list_dir_correct sc m t dirs root st stack p cs : fs_wf sc m t dirs root -> ready sc m st -> is_path p cs ->
  len (md_name stack) = FILE_NAME_LENGTH -> (forall d de, presolve t dirs cs root = Some d -> live t d de -> is_dir de) ->
  wp (filesystem_list_dir stack p) (fun r st' => finished sc (fun m' => m' = m) st' /\
    match presolve t dirs cs root, r with
    | None, None => True
    | Some d, None => dirs !!! d = []
    | Some d, Some l => dirs !!! d <> [] /\ Forall2 (described t) (dirs !!! d) l
    | None, Some _ => False
    end) st.
Proof. intros. by apply wp_list_dir. Qed.

Lemma filesystem_list_dir_correct_witness :
  wp (filesystem_list_dir (mk_meta 0 0 (replicate 60 7)) (cstr "/")) (fun r st' => disk st' = demo_mem /\
    exists md, r = Some [md] /\ md_size md = 3 /\ md_type md = FILE /\ cstring (md_name md) [97]) demo_st.
Proof.
  refine (wp_mono _ _ _ _ (filesystem_list_dir_correct 2000 demo_mem demo_tab demo_dirs 0 demo_st (mk_meta 0 0 (replicate 60 7)) (cstr "/") []
    demo_wf demo_ready _ _ _) _).
  - split_and!; [split; [by each|by exists []]|by each|by each|done].
  - reflexivity.
  - intros d de [= <-] Hde. rewrite (live_fun _ _ _ _ Hde demo_root_live). by right.
  - cbv beta. change (presolve demo_tab demo_dirs [] 0) with (Some 0). assert (demo_dirs !!! 0 = [([97], 1)]) as E0 by apply lookup_total_singleton_eq.
    intros r st' [(_ & _ & _ & _ & Hdisk) Hr]. split; [exact Hdisk|]. rewrite E0 in Hr. destruct r as [l|]; [|discriminate Hr].
    destruct Hr as [_ Hr]. inversion_clear Hr as [|x md ? l' (e & He & Hs & Ht & Hn & _) Hnil]. inversion_clear Hnil.
    destruct (demo_tab_live _ _ He) as [[E _]|[_ ->]]; [discriminate E|]. exists md. exact (conj eq_refl (conj Hs (conj Ht Hn))).
Defined.
