(* ===== verification/FsMove.v ===== *)
(** * Moving files

    [filesystem_move_file] on a well-formed filesystem: the entry keeps its
    number and its data, its name moves from one directory to the other. The
    results of the two directory updates are ignored by the code, so a target
    directory that cannot grow loses the file. *)
From S2P Require Import Prelude Mem Util Str StrLib Ata Fs FsThms FsEdit FsPath FsWrite FsDelete FsOps.

(** ** Names *)

Lemma find_name_absent t l nm last : nm ∉ l.*1 -> find_name t l nm last = None.
Proof.
  induction l as [|[x k] l IH]; cbn [find_name fmap list_fmap]; [done|]. rewrite not_elem_of_cons. intros [Hx Hl]. cbn in Hx.
  rewrite bool_decide_eq_false_2 by done. by apply IH.
Qed.

(** What a path leads to is its start or is named by a directory. *)
Lemma presolve_named sc m t dirs root parts cur e j : fs_view sc m t dirs root -> live t cur e -> is_dir e ->
  presolve t dirs parts cur = Some j -> j = cur \/ exists k f, live t k f /\ is_dir f /\ j ∈ (dirs !!! k).*2.
Proof.
  intros Hv He Hd. destruct parts as [|c parts _] using rev_ind; [intros [= ->]; by left|]. rewrite presolve_snoc.
  destruct (pwalk t dirs parts cur) as [k|] eqn:Hw; [|done]. intros Hj. right.
  destruct (pwalk_dir _ _ _ _ _ _ _ _ _ Hv He Hd Hw) as (_ & f & Hf & Hfd). exists k, f. split_and!; [done|done|]. by apply find_name_usable in Hj as [_ ?].
Qed.

(** A name added to a directory hides nothing. *)
Lemma named_find sc m t dirs root d de de' nm i : fs_view sc m t dirs root -> live t d de ->
  magic_number de' = magic_number de -> type de' = type de -> forall j f part last k, live t j f -> is_dir f ->
  find_name t (dirs !!! j) part last = Some k ->
  find_name (<[Z.to_nat d := de']> t) (<[d := dirs !!! d ++ [(nm, i)]]> dirs !!! j) part last = Some k.
Proof.
  intros Hv (Hd0 & Ed & Hm) Hmag Hty j f part last k Hf Hfd Hk.
  assert (find_name (<[Z.to_nat d := de']> t) (dirs !!! j) part last = Some k) as Hk'.
  { rewrite <- Hk. apply find_name_ext. intros x Hx. destruct (named_nonneg _ _ _ _ _ _ _ _ Hv Hf Hfd Hx) as (g & Hx0 & _).
    by apply (usable_insert t d de). }
  destruct (decide (d = j)) as [<-|Hne]; [|by rewrite lookup_total_insert_ne].
  by rewrite lookup_total_insert_eq, find_name_app, Hk'.
Qed.

(** ** The filesystem after a move *)

(** The entry [i], once at [cs], is at [target] or at no path; every path to
    another entry resolves as before, and every plain file, [i] too, has its
    old entry and bytes. *)
Definition relocated (sc : Z) (m : mem) (t : list file_entry_t) (dirs : gmap Z listing) (root : Z)
  (cs : list (list Z)) (target : option (list (list Z))) (i : Z) (m' : mem) : Prop :=
  exists t' dirs', fs_wf sc m' t' dirs' root /\
    (forall parts j, presolve t dirs parts root = Some j -> j <> i -> presolve t' dirs' parts root = Some j) /\
    (forall j f, live t j f -> ~ is_dir f -> live t' j f /\ file_bytes m' f = file_bytes m f) /\
    match target with
    | Some cs' => presolve t' dirs' cs' root = Some i /\ presolve t' dirs' cs root = None
    | None => forall parts, presolve t' dirs' parts root <> Some i
    end.

Section Move.
Context (sc : Z) (m : mem) (t : list file_entry_t) (dirs : gmap Z listing) (root : Z) (Hwf : fs_wf sc m t dirs root).
Context (ds : list (list Z)) (nm : list Z) (i : Z) (e : file_entry_t) (He : live t i e) (Hfile : ~ is_dir e).
Context (d : Z) (de : file_entry_t) (Hw : pwalk t dirs ds root = Some d) (Hde : live t d de) (Hdd : is_dir de) (Hin : (nm, i) ∈ dirs !!! d).
Context (ds2 : list (list Z)) (nm2 : list Z) (d2 : Z) (Hw2 : pwalk t dirs ds2 root = Some d2) (Hfresh : nm2 ∉ (dirs !!! d2).*1).
(** The name was removed. *)
Context (s : Z) (m1 : mem).
Let l1 := without i (dirs !!! d).
Let de1 := mk_entry MAGIC_NUMBER (type de) s (DIR_ENTRY_SIZE * Z.of_nat (length l1)).
Let t1 := <[Z.to_nat d := de1]> t.
Let dirs1 := <[d := l1]> dirs.
Context (Htab1 : disk_table m1 = t1) (Hlay1 : layout sc t1) (Hkept : others_kept t d m m1) (Hbytes : dir_is (file_bytes m1 de1) l1).

Lemma move_in : i ∈ (dirs !!! d).*2.
Proof using Hin. by apply (list_elem_of_fmap_2 snd) in Hin. Qed.
Lemma move_plain f : live t i f -> ~ is_dir f.
Proof using He Hfile. intros Hf. by rewrite <- (live_fun _ _ _ _ He Hf). Qed.
Lemma move_live j f : live t1 j f <-> (j = d /\ f = de1) \/ (j <> d /\ live t j f).
Proof using Hwf Hde. apply (un_live sc m t dirs root (proj2 Hwf) d de i Hde s). Qed.
Lemma move_view : fs_view sc m1 t1 dirs1 root.
Proof using All. exact (un_view sc m t dirs root (proj2 Hwf) d de i Hde Hdd move_in s m1 Hlay1 Hkept Hbytes). Qed.
Lemma move_kept j f : live t j f -> ~ is_dir f -> j <> d /\ live t1 j f /\ file_bytes m1 f = file_bytes m f.
Proof using Hwf Hde Hdd Hkept.
  intros Hf Hnd. assert (j <> d) as Hjd by (intros ->; apply Hnd; by rewrite (live_fun _ _ _ _ Hf Hde)).
  split_and!; [done|apply move_live; by right|by apply (Hkept j f)].
Qed.
Lemma move_walk parts k : pwalk t dirs parts root = Some k -> pwalk t1 dirs1 parts root = Some k.
Proof using All.
  destruct (wf_root_live _ _ _ _ _ (proj2 Hwf)) as (r & Hr & Hrd).
  by apply (un_walk sc m t dirs root (proj2 Hwf) d de i Hde Hdd move_in s move_plain parts root r).
Qed.
Lemma move_paths parts j : presolve t dirs parts root = Some j -> j <> i -> presolve t1 dirs1 parts root = Some j.
Proof using All.
  intros Hj Hji. destruct (wf_root_live _ _ _ _ _ (proj2 Hwf)) as (r & Hr & Hrd).
  by apply (un_paths sc m t dirs root (proj2 Hwf) d de i Hde Hdd move_in s move_plain parts root r).
Qed.
Lemma move_unnamed j f : live t1 j f -> is_dir f -> i ∉ (dirs1 !!! j).*2.
Proof using All. intros Hf Hd Hi. by apply (un_named sc m t dirs root (proj2 Hwf) d de i Hde Hdd move_in s j f i Hf Hd) in Hi as [_ ?]. Qed.

Lemma move_lost : relocated sc m t dirs root (ds ++ [nm]) None i m1.
Proof using All.
  pose proof move_view as Hv1. exists t1, dirs1. split_and!; [done|apply move_paths|intros j f Hf Hnd; by destruct (move_kept j f Hf Hnd) as (_ & ? & ?)|].
  intros parts Hi. destruct (wf_root_live _ _ _ _ _ Hv1) as (r & Hr & Hrd).
  destruct (presolve_named _ _ _ _ _ _ _ _ _ Hv1 Hr Hrd Hi) as [Er|(k & f & Hf & Hfd & Hk)]; [|by apply (move_unnamed k f)].
  rewrite <- Er in Hr. assert (i <> d) as Hid by (intros ->; apply Hfile; by rewrite (live_fun _ _ _ _ He Hde)).
  apply move_live in Hr as [[? _]|[_ Hr]]; [done|]. apply Hfile. by rewrite (live_fun _ _ _ _ He Hr).
Qed.

(** The names of the target directory. *)
Lemma move_target : dirs1 !!! d2 = without i (dirs !!! d2) /\ nm2 ∉ (dirs1 !!! d2).*1 /\ exists de2, live t1 d2 de2 /\ is_dir de2.
Proof using All.
  destruct (wf_root_live _ _ _ _ _ (proj2 Hwf)) as (r & Hr & Hrd). pose proof (proj2 Hwf) as Hv.
  destruct (pwalk_dir _ _ _ _ _ _ _ _ _ Hv Hr Hrd Hw2) as (_ & f & Hf & Hfd).
  assert (dirs1 !!! d2 = without i (dirs !!! d2)) as E.
  { unfold dirs1. destruct (decide (d = d2)) as [->|Hne]; [by rewrite lookup_total_insert_eq|]. rewrite lookup_total_insert_ne by done.
    symmetry. apply without_id. by apply (wf_unique _ _ _ _ _ Hv d d2 de f i Hde Hdd Hf Hfd Hne move_in). }
  split_and!; [done| |].
  - rewrite E. intros (x & -> & [Hx _]%without_elem)%list_elem_of_fmap. apply Hfresh. by apply list_elem_of_fmap_2.
  - destruct (decide (d2 = d)) as [->|Hne]; [exists de1; split; [apply move_live; by left|done]|]. exists f. split; [apply move_live; by right|done].
Qed.

Lemma move_done de2 s2 m2 pad : live t1 d2 de2 -> is_dir de2 -> nonzero nm2 -> len nm2 + 1 + len pad = FILE_NAME_LENGTH ->
  let l := dirs1 !!! d2 in let de2' := mk_entry MAGIC_NUMBER (type de2) s2 (DIR_ENTRY_SIZE * (Z.of_nat (length l) + 1)) in
  let t2 := <[Z.to_nat d2 := de2']> t1 in
  disk_table m2 = t2 -> layout sc t2 -> others_kept t1 d2 m1 m2 -> file_bytes m2 de2' = file_bytes m1 de2 ++ nm2 ++ 0 :: pad ++ unle 4 i ->
  relocated sc m t dirs root (ds ++ [nm]) (Some (ds2 ++ [nm2])) i m2.
Proof using All.
  intros Hde2 Hdd2 Hnz Hpad l de2' t2 Htab2 Hlay2 Hkept2 Hbytes2. pose proof move_view as Hv1. destruct move_target as (El & Hnew & _).
  assert (i <> d) as Hid by (intros ->; apply Hfile; by rewrite (live_fun _ _ _ _ He Hde)).
  assert (live t1 i e) as He1 by (apply move_live; by right). pose proof (live_idx _ _ _ _ (wf_layout _ _ _ _ _ Hv1) He1) as Hi.
  pose proof (move_unnamed d2 de2 Hde2 Hdd2) as Hni. pose proof (room_for _ _ _ _ _ _ _ _ Hv1 Hde2 Hdd2 Hni Hi) as Hroom.
  assert (fs_view sc m2 t2 (<[d2 := l ++ [(nm2, i)]]> dirs1) root) as Hv2.
  { eapply (view_named sc t1 dirs1 root m1 m2 d2 de2 s2 i e nm2 pad); try done; [intros ?; apply Hfile; by right|apply move_unnamed|].
    change FILE_TABLE_ENTRIES with 640 in Hi. unfold in_range. lia. }
  assert (magic_number de2' = magic_number de2) as Hmag by (by destruct Hde2 as (_ & _ & ->)).
  pose proof (named_find sc m1 t1 dirs1 root d2 de2 de2' nm2 i Hv1 Hde2 Hmag eq_refl) as Hmono. fold l t2 in Hmono.
  destruct (wf_root_live _ _ _ _ _ Hv1) as (r & Hr & Hrd).
  assert (forall parts k, pwalk t1 dirs1 parts root = Some k -> pwalk t2 (<[d2 := l ++ [(nm2, i)]]> dirs1) parts root = Some k) as Hwalk.
  { intros parts k. eapply pwalk_mono; [exact Hv1|exact Hr|exact Hrd|]. intros j f part x Hf Hfd. by apply (Hmono j f). }
  exists t2, (<[d2 := l ++ [(nm2, i)]]> dirs1). split; [done|]. split; [|split; [|split]].
  - intros parts j Hj Hji. eapply presolve_mono; [exact Hv1|exact Hr|exact Hrd|exact Hmono|by apply move_paths].
  - intros j f Hf Hnd. destruct (move_kept j f Hf Hnd) as (Hjd & Hf1 & Eb).
    assert (j <> d2) as Hjd2 by (intros ->; apply Hnd; by rewrite (live_fun _ _ _ _ Hf1 Hde2)).
    split; [apply live_insert_ne; [done|apply Hde2|done]|]. by rewrite (Hkept2 j f).
  - rewrite presolve_snoc, (Hwalk ds2 d2) by by apply move_walk. rewrite lookup_total_insert_eq, find_name_app, find_name_absent by done.
    cbn [find_name]. rewrite bool_decide_eq_true_2 by done. unfold usable, t2. destruct He1 as (Hi0 & Ee & Hm).
    rewrite list_lookup_insert_ne, Ee, Hm, Z.eqb_refl, orb_true_r; [done|]. intros E. assert (i = d2) as Eid by (destruct Hde2; lia).
    apply Hfile. rewrite (live_fun t1 i e de2); [done|done|by rewrite Eid].
  - rewrite presolve_snoc, (Hwalk ds d) by by apply move_walk. apply find_name_absent.
    destruct (wf_nodup _ _ _ _ _ (proj2 Hwf) d de Hde Hdd) as [_ Hnd].
    assert (nm ∉ (dirs1 !!! d).*1) as Hold.
    { unfold dirs1. rewrite lookup_total_insert_eq. intros ([nm' k] & E & [Hk Hki]%without_elem)%list_elem_of_fmap. cbn in E, Hki. subst nm'.
      apply list_elem_of_lookup in Hk as [a Ha]. apply list_elem_of_lookup in Hin as [b Hb].
      assert (a = b) as -> by (eapply NoDup_lookup; [exact Hnd|by rewrite list_lookup_fmap, Ha|by rewrite list_lookup_fmap, Hb]).
      rewrite Ha in Hb. by injection Hb as ->. }
    destruct (decide (d2 = d)) as [E|Hne]; [|by rewrite lookup_total_insert_ne]. rewrite E, lookup_total_insert_eq, fmap_app. unfold l. rewrite E.
    intros [?|Hx]%elem_of_app; [done|]. apply list_elem_of_singleton in Hx. cbn in Hx. subst nm2.
    apply Hfresh. rewrite E. by apply (list_elem_of_fmap_2 fst) in Hin.
Qed.
End Move.

(** ** [filesystem_move_file] *)

Lemma wp_drop_all (Q : unit -> fs_state -> Prop) st a b c d : ample (fheap st) ->
  (forall h, ample h -> Q tt (set_table None (set_heap h st))) ->
  wp (in_heap (bfree (Some a)) ;;; in_heap (bfree (Some b)) ;;; in_heap (bfree (Some c)) ;;; in_heap (bfree (Some d)) ;;; free_file_table) Q st.
Proof.
  intros Ha HQ. apply wp_bind, wp_in_bfree; [done|]. intros h1 H1. apply wp_bind, wp_in_bfree; [done|]. intros h2 H2.
  apply wp_bind, wp_in_bfree; [done|]. intros h3 H3. apply wp_bind, wp_in_bfree; [done|]. intros h4 H4.
  apply wp_free_table; [done|]. intros h5 H5. rewrite !set_heap_set_heap. by apply HQ.
Qed.

Lemma wp_move_file sc m t dirs root st p ds nm q ds2 nm2 i e d2 de2 : fs_wf sc m t dirs root -> ready sc m st ->
  is_path p (ds ++ [nm]) -> presolve t dirs (ds ++ [nm]) root = Some i -> live t i e -> ~ is_dir e ->
  is_path q (ds2 ++ [nm2]) -> len nm2 < FILE_NAME_LENGTH -> presolve t dirs ds2 root = Some d2 -> live t d2 de2 ->
  ds2 = [] \/ type de2 = DIRECTORY -> presolve t dirs (ds2 ++ [nm2]) root = None ->
  wp (filesystem_move_file p q) (fun ok st' => ok = true /\ finished sc (fun m' =>
    relocated sc m t dirs root (ds ++ [nm]) (Some (ds2 ++ [nm2])) i m' \/
    (8 | Z.of_nat (length (without i (dirs !!! d2)))) /\ relocated sc m t dirs root (ds ++ [nm]) None i m') st') st.
Proof.
  intros Hwf Hst Hp Hr He Hfile Hq Hnm2 Hr2 Hde2 Hk2 Hnone. pose proof Hst as (Hd & Hsc & Hm & Ha). pose proof (proj2 Hwf) as Hv.
  destruct (delete_parent sc m t dirs root Hwf ds nm i Hr) as (d & de & Hw & Hpar & Hde & Hdd & Hin).
  destruct (parent_dir _ _ _ _ _ Hv ds2 d2 de2 Hr2 Hde2 Hk2) as [Hdd2 Hw2].
  assert (nm2 ∉ (dirs !!! d2).*1) as Hfresh.
  { rewrite presolve_snoc, Hw2 in Hnone. eapply find_name_none; [exact Hnone|]. by apply (wf_named _ _ _ _ _ Hv d2 de2). }
  assert (nonzero nm2 /\ bytes nm2) as [Hnn Hbn].
  { destruct Hq as ([Hnz [rr Err]] & Hpb & _). rewrite path_text_snoc in *. rewrite Err in Hpb.
    apply Forall_app in Hnz as [_ [_ ?]%Forall_cons]. by apply Forall_app in Hpb as [[_ [_ ?]%Forall_cons]%Forall_app _]. }
  assert (i ∈ (dirs !!! d).*2) as Hin2 by (by apply (list_elem_of_fmap_2 snd) in Hin).
  unfold filesystem_move_file. apply wp_bind. eapply wp_lift; [by eapply is_path_valid|]. cbn [negb].
  apply wp_bind. eapply wp_lift; [by eapply (is_path_valid q)|]. cbn [negb].
  apply wp_bind, (wp_split_path _ _ _ ds nm); [done|done|]. intros h1 H1. apply wp_bind, (wp_split_path _ _ _ ds2 nm2); [done|done|]. intros h2 H2.
  rewrite set_heap_set_heap. apply wp_bind, wp_load_table; [done|done|]. intros h3 H3.
  cbn [disk set_heap]. rewrite Hm, (proj1 Hwf). set (st0 := set_table _ _). assert (loaded t sc m st0) as Hl by by split_and!.
  apply wp_bind. eapply wp_resolve; [done..|]. intros h4 H4. rewrite Hr.
  apply wp_bind. eapply (wp_resolve_dir _ t dirs root sc m _ p ds nm); [done|by apply loaded_heap|done|]. intros h5 H5. rewrite Hpar, set_heap_set_heap.
  apply wp_bind. eapply (wp_resolve_dir _ t dirs root sc m _ q ds2 nm2); [done|by apply loaded_heap|done|]. intros h6 H6. rewrite Hr2, set_heap_set_heap.
  apply wp_bind. eapply (wp_remove_file _ t dirs root sc m _ d de i); [by apply view_scan|by apply loaded_heap| |done|done|done|].
  { rewrite <- (proj1 Hwf). apply disk_table_ok. }
  cbv zeta. intros h7 s m1 H7 Htab1 Hok1 Hlay1 Hkept Hbytes. rewrite set_heap_set_heap.
  destruct (move_target sc m t dirs root Hwf ds nm i e He Hfile d de Hw Hde Hdd Hin ds2 nm2 d2 Hw2 Hfresh s m1 Htab1 Hlay1 Hkept Hbytes)
    as (El & Hnew & de3 & Hde3 & Hdd3).
  pose proof (move_view sc m t dirs root Hwf ds nm i e He Hfile d de Hw Hde Hdd Hin ds2 nm2 d2 Hw2 Hfresh s m1 Htab1 Hlay1 Hkept Hbytes) as Hv1.
  pose proof (move_unnamed sc m t dirs root Hwf ds nm i e He Hfile d de Hw Hde Hdd Hin ds2 nm2 d2 Hw2 Hfresh s m1 Htab1 Hlay1 Hkept Hbytes d2 de3 Hde3 Hdd3) as Hni.
  pose proof (live_idx _ _ _ _ (wf_layout _ _ _ _ _ Hv) He) as Hi.
  set (l1 := without i (dirs !!! d)) in *. set (t1 := <[Z.to_nat d := _]> t) in *.
  apply wp_bind. eapply (wp_add_file _ t1 (<[d := l1]> dirs) root sc m1 _ d2 de3 i _ nm2);
    [done|by split_and!|done|done|done| |by apply bytes_snoc0|by apply cstring_app|done|by eapply room_for| |].
  { change FILE_TABLE_ENTRIES with 640 in Hi. unfold in_range. lia. }
  - intros h8 H8 H8len. apply wp_bind, wp_drop_all; [done|]. intros h9 H9. apply wp_ret. split; [done|]. split_and!; try done. right.
    split; [by rewrite <- El|]. by eapply (move_lost sc m t dirs root Hwf).
  - cbv zeta. intros h8 s2 m2 pad H8 Htab2 _ Hlay2 Hkept2 Hpad Hbytes2. apply wp_bind, wp_drop_all; [done|]. intros h9 H9. apply wp_ret.
    split; [done|]. split_and!; try done. left. by eapply (move_done sc m t dirs root Hwf).
Qed.


