(* ===== verification/FsRmdir.v ===== *)
(** * Removing directories

    [filesystem_delete_directory] on a well-formed filesystem: the directory
    and everything below it become free, every other path and file is as
    before.  The recursion follows the directory tree, whose depth the size of
    the table bounds. *)
From stdpp Require Import relations.
From S2P Require Import Prelude Mem Util Str StrLib Ata Fs FsThms FsEdit FsPath FsWrite FsDelete FsOps.

(** ** The tree of directories *)

Definition names (t : list file_entry_t) (dirs : gmap Z listing) (i j : Z) : Prop :=
  exists e, live t i e /\ is_dir e /\ j ∈ (dirs !!! i).*2.
(** [j] is [i] or lies below it. *)
Definition below (t : list file_entry_t) (dirs : gmap Z listing) : Z -> Z -> Prop := rtc (names t dirs).

Section Tree.
Context (sc : Z) (m : mem) (t : list file_entry_t) (dirs : gmap Z listing) (root : Z) (Hv : fs_view sc m t dirs root).
#[local] Abbreviation names := (names t dirs).

Lemma named_once i j k : names i k -> names j k -> i = j.
Proof using Hv.
  intros (e & He & Hd & Hk) (f & Hf & Hfd & Hk'). destruct (decide (i = j)) as [|Hne]; [done|]. exfalso.
  by apply (wf_unique _ _ _ _ _ Hv i j e f k).
Qed.
Lemma named_kind i k : names i k -> exists f, live t k f /\ type f <> ROOT_DIRECTORY.
Proof using Hv.
  intros (e & He & Hd & Hk). destruct (named_nonneg _ _ _ _ _ _ _ _ Hv He Hd Hk) as [f Hf]. exists f. split; [done|].
  by apply (wf_top _ _ _ _ _ Hv i e k).
Qed.
Lemma root_unnamed i : ~ names i root.
Proof using Hv.
  intros (f & Hf & Hty)%named_kind. destruct (sn_root_live _ _ _ _ _ (view_scan _ _ _ _ _ Hv)) as (r & Hr & Hrt).
  by rewrite (live_fun _ _ _ _ Hr Hf) in Hrt.
Qed.
Lemma dir_not_root d e : live t d e -> type e = DIRECTORY -> d <> root.
Proof using Hv.
  intros He Hty E. destruct (sn_root_live _ _ _ _ _ (view_scan _ _ _ _ _ Hv)) as (r & Hr & Hrt). rewrite E in He.
  rewrite (live_fun _ _ _ _ He Hr), Hrt in Hty. done.
Qed.

(** An entry has one depth. *)
Lemma depth_unique a b x : nsteps names a root x -> nsteps names b root x -> a = b.
Proof using Hv.
  revert b x. induction a as [|a IH]; intros [|b] x Ha Hb; [done|..].
  - assert (x = root) as -> by by inversion Ha. apply nsteps_inv_r in Hb as (y & _ & Hy). by apply root_unnamed in Hy.
  - assert (x = root) as -> by by inversion Hb. apply nsteps_inv_r in Ha as (y & _ & Hy). by apply root_unnamed in Hy.
  - apply nsteps_inv_r in Ha as (y & Ha & Hy), Hb as (z & Hb & Hz). rewrite (named_once _ _ _ Hz Hy) in Hb. f_equal. by apply (IH b y).
Qed.
(** The entries on the way to an entry are distinct entries of the table. *)
Lemma depth_chain n x : nsteps names n root x -> exists l, length l = S n /\ NoDup l /\
  forall y, y ∈ l -> 0 <= y < FILE_TABLE_ENTRIES /\ exists k, (k <= n)%nat /\ nsteps names k root y.
Proof using Hv.
  revert x. induction n as [|n IH]; intros x Hx.
  - assert (x = root) as -> by by inversion Hx. exists [root]. split_and!; [done|apply NoDup_singleton|]. intros y ->%list_elem_of_singleton.
    destruct (wf_root_live _ _ _ _ _ Hv) as (r & Hr & _). split; [by apply (live_idx _ _ _ _ (wf_layout _ _ _ _ _ Hv) Hr)|]. exists 0%nat. by split.
  - pose proof Hx as (y & Hy & Hyx)%nsteps_inv_r. destruct (IH y Hy) as (l & Hl & Hnd & Hin). exists (x :: l).
    split_and!; [by cbn; rewrite Hl|apply NoDup_cons; split; [|done]|].
    + intros (_ & k & Hk & Hkx)%Hin. pose proof (depth_unique _ _ _ Hx Hkx). lia.
    + intros z [->|(Hz & k & Hk & Hkz)%Hin]%elem_of_cons.
      * destruct (named_kind _ _ Hyx) as (f & Hf & _). split; [by apply (live_idx _ _ _ _ (wf_layout _ _ _ _ _ Hv) Hf)|]. exists (S n). by split.
      * split; [done|]. exists k. split; [lia|done].
Qed.
Lemma depth_bound n x : nsteps names n root x -> Z.of_nat n < FILE_TABLE_ENTRIES.
Proof using Hv.
  intros (l & Hl & Hnd & Hin)%depth_chain. assert (l ⊆+ seqZ 0 FILE_TABLE_ENTRIES) as Hs.
  { apply NoDup_submseteq; [done|]. intros y [Hy _]%Hin. apply elem_of_seqZ. lia. }
  apply submseteq_length in Hs. rewrite length_seqZ in Hs. change FILE_TABLE_ENTRIES with 640 in *. lia.
Qed.
(** No entry lies below something it names itself. *)
Lemma acyclic n d p : nsteps names n root d -> names p d -> ~ below t dirs d p.
Proof using Hv.
  intros Hd Hp [k Hk]%rtc_nsteps. pose proof (nsteps_r _ _ _ _ (nsteps_trans _ _ _ _ _ Hd Hk) Hp) as Hc.
  pose proof (depth_unique _ _ _ Hd Hc). lia.
Qed.

(** Paths follow the tree. *)
Lemma find_names cur e part last k : live t cur e -> is_dir e -> find_name t (dirs !!! cur) part last = Some k -> names cur k.
Proof using. intros He Hd [_ Hk]%find_name_usable. by exists e. Qed.
Lemma presolve_below parts cur e j : live t cur e -> (parts <> [] -> is_dir e) -> presolve t dirs parts cur = Some j -> below t dirs cur j.
Proof using Hv.
  revert cur e. induction parts as [|part parts IH]; intros cur e He Hd; cbn [presolve]; [intros [= ->]; apply rtc_refl|].
  destruct (find_name _ _ _ _) as [k|] eqn:Ef; [|done]. specialize (Hd ltac:(done)). intros Hj.
  eapply rtc_l; [by eapply find_names|]. destruct (find_name_live _ _ _ _ _ _ _ _ _ _ Hv He Hd Ef) as (f & Hf & Hty).
  apply (IH k f); [done| |done]. intros Hne. left. apply Hty. by destruct parts.
Qed.
End Tree.

(** ** Entries taken out of use *)

(** The table, numbered from [a], with the entries in [X] free. *)
Fixpoint kill (X : gset Z) (a : Z) (t : list file_entry_t) : list file_entry_t :=
  match t with [] => [] | e :: t' => (if decide (a ∈ X) then set_magic 0 e else e) :: kill X (a + 1) t' end.

Lemma kill_lookup X a t k : kill X a t !! k = (fun e => if decide (a + Z.of_nat k ∈ X) then set_magic 0 e else e) <$> t !! k.
Proof.
  revert a k. induction t as [|e t IH]; intros a [|k]; cbn [kill lookup list_lookup]; [done..| |].
  - by rewrite Z.add_0_r.
  - rewrite IH. by replace (a + 1 + Z.of_nat k) with (a + Z.of_nat (S k)) by lia.
Qed.
Lemma kill_at X t i : 0 <= i -> kill X 0 t !! Z.to_nat i = (fun e => if decide (i ∈ X) then set_magic 0 e else e) <$> t !! Z.to_nat i.
Proof. intros Hi. rewrite kill_lookup. by replace (0 + Z.of_nat (Z.to_nat i)) with i by lia. Qed.
Lemma length_kill X a t : length (kill X a t) = length t.
Proof. revert a. induction t as [|e t IH]; intros a; cbn; [done|]. by rewrite IH. Qed.
Lemma live_kill X t i e : live (kill X 0 t) i e <-> i ∉ X /\ live t i e.
Proof.
  unfold live. split.
  - intros (Hi & E & Hm). rewrite kill_at in E by done. destruct (t !! Z.to_nat i) as [f|]; [|done]. injection E as <-.
    case_decide; [|done]. by destruct f.
  - intros (Hx & Hi & E & Hm). rewrite kill_at, E by done. cbn. by rewrite decide_False.
Qed.
Lemma kill_more X t i g : 0 <= i -> kill X 0 t !! Z.to_nat i = Some g ->
  <[Z.to_nat i := set_magic 0 g]> (kill X 0 t) = kill ({[i]} ∪ X) 0 t.
Proof.
  intros Hi E. apply list_eq. intros k. rewrite kill_lookup. destruct (decide (k = Z.to_nat i)) as [->|Hk].
  - rewrite list_lookup_insert_eq by (by apply lookup_lt_Some in E). rewrite kill_at in E by done.
    destruct (t !! Z.to_nat i) as [f|]; [|done]. injection E as <-. cbn [fmap option_fmap option_map].
    replace (0 + Z.of_nat (Z.to_nat i)) with i by lia. f_equal. repeat case_decide; first [by destruct f|set_solver].
  - rewrite list_lookup_insert_ne, kill_lookup by done. destruct (t !! k); [|done]. cbn [fmap option_fmap option_map]. f_equal.
    assert (0 + Z.of_nat k <> i) by lia. repeat case_decide; first [done|set_solver].
Qed.
Lemma root_of_killed X t a r : root_of t a = Some r -> r ∉ X -> root_of (kill X a t) a = Some r.
Proof.
  revert a. induction t as [|e t IH]; intros a; cbn [root_of kill]; [done|]. case_bool.
  - intros [= ->] Hr. rewrite decide_False by done. by rewrite Heqb.
  - intros Hr Hx. case_decide; [destruct e; cbn; by apply IH|]. rewrite Heqb. by apply IH.
Qed.
Lemma kill_ok X t : Forall entry_ok t -> Forall entry_ok (kill X 0 t).
Proof.
  intros Hok. apply Forall_lookup. intros k e. rewrite kill_lookup. destruct (t !! k) as [f|] eqn:E; [|done]. intros [= <-].
  eapply Forall_lookup_1 in Hok as (? & ? & ? & ?); [|exact E]. by case_decide; split_and!.
Qed.

Lemma dir_is_lookup bs l j k nm i : 0 <= j -> dir_is (drop (Z.to_nat (DIR_ENTRY_SIZE * j)) bs) l -> l !! k = Some (nm, i) ->
  de_index bs (j + Z.of_nat k) = OK i.
Proof.
  revert j k. induction l as [|[nm' i'] l IH]; intros j k Hj Hd Hk; [done|]. cbn [dir_is] in Hd.
  destruct Hd as (pad & rest & E & Hn & Hp & Hi & Hr). destruct (dir_entry_head _ _ _ _ _ _ Hj E Hn Hp Hi) as (_ & Hidx & Hnext).
  destruct k as [|k]; cbn in Hk; [injection Hk as -> ->; by rewrite Z.add_0_r|].
  replace (j + Z.of_nat (S k)) with (j + 1 + Z.of_nat k) by lia. apply IH; [lia|by rewrite Hnext|done].
Qed.

(** ** Wiping what lies below a directory *)

Section Wipe.
Context (sc : Z) (m : mem) (t : list file_entry_t) (dirs : gmap Z listing) (root : Z) (Hv : fs_view sc m t dirs root).
#[local] Abbreviation names := (names t dirs).
#[local] Abbreviation below := (below t dirs).

(** With an entry, [X] has everything it names. *)
Definition condemned (X : gset Z) : Prop := root ∉ X /\ forall i j, i ∈ X -> names i j -> j ∈ X.
Lemma condemned_below X i j : condemned X -> i ∈ X -> below i j -> j ∈ X.
Proof using. intros [_ Hc] Hi Hb. induction Hb as [|i k j Hk _ IH]; [done|]. apply IH. by apply (Hc i). Qed.
Lemma condemned_add X i : condemned X -> i <> root -> (forall j, names i j -> j ∈ X) -> condemned ({[i]} ∪ X).
Proof using. clear Hv. intros [Hr Hc] Hi Hn. split; [set_solver|]. intros a b [->%elem_of_singleton|Ha]%elem_of_union Hab; apply elem_of_union_r; eauto. Qed.

Lemma layout_killed X : layout sc (kill X 0 t).
Proof using Hv.
  destruct (wf_layout _ _ _ _ _ Hv) as [Hl Hin Hd]. constructor; [by rewrite length_kill| |].
  - intros i e [_ He]%live_kill. by apply (Hin i).
  - intros i j e f [_ He]%live_kill [_ Hf]%live_kill. by apply (Hd i j).
Qed.
(** Directories can still be read. *)
Lemma scan_killed X : root ∉ X -> fs_scan sc m (kill X 0 t) dirs root.
Proof using Hv.
  intros Hr. constructor; [apply layout_killed|..].
  - intros i e [_ He]%live_kill. by apply (wf_size _ _ _ _ _ Hv i).
  - intros i e [_ He]%live_kill Hd. by apply (wf_dir _ _ _ _ _ Hv i).
  - intros i e [_ He]%live_kill Hd. eapply Forall_impl; [by apply (wf_named _ _ _ _ _ Hv i e)|]. intros x (f & Hx & E & _).
    split; [done|]. by rewrite kill_at, E by done.
  - intros i e [_ He]%live_kill Hd. by apply (wf_nodup _ _ _ _ _ Hv i e).
  - apply root_of_killed; [by apply (wf_root _ _ _ _ _ Hv)|done].
Qed.

(** The state after a wipe that started with [X] free, below [d]. *)
Definition wiped (X : gset Z) (d : Z) (st st' : fs_state) : Prop :=
  exists X' h, ample h /\ st' = set_table (Some (kill X' 0 t)) (set_heap h st) /\ condemned X' /\ X ⊆ X' /\
    (forall k, names d k -> k ∈ X') /\ forall x, x ∈ X' -> x ∈ X \/ below d x.

Lemma wiped_none X d st : loaded (kill X 0 t) sc m st -> condemned X -> (forall k, ~ names d k) -> wiped X d st st.
Proof using.
  intros (_ & Et & _ & _ & Ha) Hc Hn. exists X, (fheap st). split_and!; [done| |done..| |by left].
  - rewrite <- (set_table_id _ _ Et) at 1. by destruct st.
  - intros k Hk. by apply Hn in Hk.
Qed.

(** One entry of the listing: skipped if it is free, else wiped and freed. *)
Lemma wp_wipe_entry (rec : Z -> M fs_state unit) d k X st : names d k -> loaded (kill X 0 t) sc m st -> condemned X ->
  (forall f, live t k f -> type f = DIRECTORY -> k ∉ X -> wp (rec k) (fun _ => wiped X k st) st) ->
  wp (let* e := ft_get k in
      if negb (magic_number e =? MAGIC_NUMBER) then ret tt else
      (if type e =? DIRECTORY then rec k else ret tt) ;;; ft_set_magic k 0)
     (fun _ st' => exists X' h, ample h /\ st' = set_table (Some (kill X' 0 t)) (set_heap h st) /\ condemned X' /\ X ⊆ X' /\ k ∈ X' /\
        forall x, x ∈ X' -> x ∈ X \/ below d x) st.
Proof using Hv.
  intros Hdk Hst Hc Hrec. destruct (named_kind _ _ _ _ _ Hv d k Hdk) as (f & Hf & Hnr). pose proof Hf as (Hk0 & Ek & Hkm).
  pose proof Hst as (_ & Et & _ & _ & Ha). apply wp_bind. eapply wp_step; [eapply ft_get_ok; [done|done|by rewrite kill_at, Ek by done]|].
  cbv beta. destruct (decide (k ∈ X)) as [Hx|Hx].
  { apply wp_ret. exists X, (fheap st). split_and!; [done| |done..|by left]. rewrite <- (set_table_id _ _ Et) at 1. by destruct st. }
  rewrite Hkm, Z.eqb_refl. cbn [negb]. apply wp_bind.
  apply (wp_mono _ (fun _ => wiped X k st)).
  - destruct (Z.eqb_spec (type f) DIRECTORY) as [Hty|Hty]; [by apply (Hrec f)|]. apply wp_ret, wiped_none; [done|done|].
    intros j (g & Hg & Hgd & _). rewrite (live_fun _ _ _ _ Hg Hf) in Hgd. by destruct Hgd.
  - intros _ ? (X2 & h & Hh & -> & Hc2 & Hsub & Hkids & Hlow).
    assert (exists g, kill X2 0 t !! Z.to_nat k = Some g) as [g Hg] by (rewrite kill_at, Ek by done; eauto).
    eapply wp_step; [by eapply ft_set_magic_ok|]. rewrite (kill_more _ _ _ _ Hk0 Hg).
    assert (k <> root) as Hkr by (intros ->; by apply (root_unnamed _ _ _ _ _ Hv d)).
    exists ({[k]} ∪ X2), h. split_and!; [done|done|by apply condemned_add|set_solver|set_solver|].
    intros x [->%elem_of_singleton|[?|Hb]%Hlow]%elem_of_union; [right; by apply rtc_once|by left|right; by eapply rtc_l].
Qed.

Lemma loaded_wiped X st h : loaded t sc m (set_table (Some t) st) -> ample h -> loaded (kill X 0 t) sc m (set_table (Some (kill X 0 t)) (set_heap h st)).
Proof using. by intros (? & _ & ? & ? & _) ?. Qed.

(** The recursion ends: the depth of the tree and the fuel exceed the table. *)
Lemma wp_wipe : forall fuel n d e X st, nsteps names n root d -> FILE_TABLE_ENTRIES <= Z.of_nat (n + fuel) ->
  live t d e -> d ∉ X -> is_dir e -> condemned X -> loaded (kill X 0 t) sc m st ->
  wp (delete_directory_entries_recursive fuel d) (fun _ => wiped X d st) st.
Proof using Hv.
  induction fuel as [|fuel IH]; intros n d e X st Hn Hfuel He HdX Hd Hc Hst.
  { pose proof (depth_bound _ _ _ _ _ Hv _ _ Hn). lia. }
  pose proof Hst as (Hdr & Et & Esc & Em & Ha). pose proof (scan_killed X (proj1 Hc)) as Hscan.
  assert (live (kill X 0 t) d e) as He' by by apply live_kill. pose proof He' as (Hd0 & Ee & _).
  cbn [delete_directory_entries_recursive]. apply wp_bind. eapply wp_step; [by eapply ft_get_ok|].
  destruct (scan_shape _ _ _ _ _ Hscan d e He' Hd) as (Hs & El & _). change DIR_ENTRY_SIZE with 64 in *.
  destruct (Z.eqb_spec (size e) 0) as [Hz|Hz].
  { apply wp_ret, wiped_none; [done|done|]. intros k (e2 & _ & _ & Hk). destruct (dirs !!! d); [by apply elem_of_nil in Hk|]. cbn in El. lia. }
  eapply wp_ext; [symmetry; apply bind_assoc|]. apply wp_bind. eapply (scan_read_dir _ _ _ _ _ Hscan _ _ d); [done..|]. intros h Hh.
  pose proof (wf_dir _ _ _ _ _ Hv d e He Hd) as Hbytes. set (l := dirs !!! d) in *.
  assert (size e / 64 = Z.of_nat (length l)) as -> by (rewrite El; divlia). rewrite Nat2Z.id.
  apply wp_bind. eapply wp_mono.
  { apply (wp_for_loop (fun j st' => exists X' h', ample h' /\ st' = set_table (Some (kill X' 0 t)) (set_heap h' st) /\ condemned X' /\ X ⊆ X' /\
      (forall k x, Z.of_nat k < j -> l !! k = Some x -> x.2 ∈ X') /\ forall x, x ∈ X' -> x ∈ X \/ below d x)).
    - exists X, h. split_and!; [done| |done..|lia|by left]. rewrite <- (set_table_id _ _ Et) at 1. by destruct st.
    - intros j ? Hj (X1 & h1 & Hh1 & -> & Hc1 & Hsub & Hdone & Hlow).
      destruct (lookup_lt_is_Some_2 l (Z.to_nat j) ltac:(lia)) as [[nm k] Hk].
      apply wp_bind, wp_ret, wp_bind. eapply wp_lift.
      { replace j with (0 + Z.of_nat (Z.to_nat j)) by lia. eapply dir_is_lookup; [done|exact Hbytes|exact Hk]. }
      assert (names d k) as Hdk by (exists e; split_and!; [done|done|]; by apply list_elem_of_lookup_2, (list_elem_of_fmap_2 snd) in Hk).
      eapply wp_mono; [apply (wp_wipe_entry _ d k X1); [done|by apply loaded_wiped|done|]|].
      + intros f Hf Hty Hx. apply (IH (S n) k f); [by eapply nsteps_r|lia|done|done|by left|done|by apply loaded_wiped].
      + intros _ ? (X2 & h2 & Hh2 & -> & Hc2 & Hsub2 & Hk2 & Hlow2). exists X2, h2.
        split_and!; [done|done|done|set_solver| |].
        * intros i x Hi Hx. destruct (decide (i = Z.to_nat j)) as [->|Hne]; [rewrite Hk in Hx; by injection Hx as <-|].
          apply Hsub2, (Hdone i); [lia|done].
        * intros x [[?|?]%Hlow|?]%Hlow2; [by left|by right..]. }
  intros _ ? (X1 & h1 & Hh1 & -> & Hc1 & Hsub & Hdone & Hlow). apply wp_in_bfree; [done|]. intros h2 Hh2.
  exists X1, h2. split_and!; [done..| |done]. intros k (e2 & _ & _ & (x & -> & Hx)%list_elem_of_fmap). fold l in Hx.
  apply list_elem_of_lookup in Hx as [i Hi]. apply (Hdone i); [|done]. apply lookup_lt_Some in Hi. lia.
Qed.
End Wipe.

(** ** Paths around what was wiped *)

Lemma find_name_unique t l part last k : NoDup l.*1 -> find_name t l part last = Some k <-> (part, k) ∈ l /\ usable t last k = true.
Proof.
  intros Hn. split; [intros Hf; split; [by eapply find_name_in|by apply find_name_usable in Hf as [? _]]|]. intros [Hin Hu].
  induction l as [|[nm x] l IH]; [by apply elem_of_nil in Hin|]. cbn in Hn. apply NoDup_cons in Hn as [Hnm Hn]. cbn [find_name].
  apply elem_of_cons in Hin as [[= <- <-]|Hin]; [by rewrite bool_decide_true, Hu|].
  rewrite bool_decide_false; [by apply IH|]. intros ->. by apply (list_elem_of_fmap_2 fst) in Hin.
Qed.
Lemma usable_kill X t last k : 0 <= k -> usable (kill X 0 t) last k = usable t last k && bool_decide (k ∉ X).
Proof.
  intros Hk. unfold usable. rewrite kill_at by done. destruct (t !! Z.to_nat k) as [e|]; [|done]. cbn [fmap option_fmap option_map].
  case_decide as Hx; [rewrite bool_decide_false by (intros H; done)|rewrite bool_decide_true by done]; by rewrite ?andb_true_r, ?andb_false_r.
Qed.

Section Paths.
Context (sc : Z) (m : mem) (t : list file_entry_t) (dirs : gmap Z listing) (root : Z) (Hv : fs_view sc m t dirs root).
Context (X : gset Z) (HX : condemned t dirs root X).

Lemma find_pruned t' j f l' part last k : live t j f -> is_dir f -> sublist l' (dirs !!! j) ->
  (forall nm i, (nm, i) ∈ dirs !!! j -> i ∉ X -> (nm, i) ∈ l') -> (forall i, 0 <= i -> usable t' last i = usable (kill X 0 t) last i) ->
  find_name t' l' part last = Some k <-> find_name t (dirs !!! j) part last = Some k /\ k ∉ X.
Proof using Hv.
  intros Hf Hd Hl Hkeep Hu. destruct (wf_nodup _ _ _ _ _ Hv j f Hf Hd) as [_ Hn].
  assert (NoDup l'.*1) as Hn' by (eapply sublist_NoDup; [exact Hn|by apply fmap_sublist]).
  assert (forall nm i, (nm, i) ∈ dirs !!! j -> 0 <= i) as H0.
  { intros nm i Hi. apply (list_elem_of_fmap_2 snd) in Hi. by destruct (named_nonneg _ _ _ _ _ _ _ _ Hv Hf Hd Hi) as (g & ? & _). }
  rewrite !find_name_unique by done. split.
  - intros [Hk Huk]. assert ((part, k) ∈ dirs !!! j) as Hk2 by (by eapply elem_of_sublist).
    rewrite Hu, usable_kill in Huk by eauto. by apply andb_true_iff in Huk as [? ?%bool_decide_eq_true].
  - intros [[Hk Huk] Hx]. split; [by apply Hkeep|]. rewrite Hu, usable_kill, Huk by eauto. by apply bool_decide_true.
Qed.

(** A path leads where it led, unless that is gone. *)
Lemma presolve_pruned t' dirs' : (forall j f part last k, live t j f -> is_dir f -> j ∉ X ->
    find_name t' (dirs' !!! j) part last = Some k <-> find_name t (dirs !!! j) part last = Some k /\ k ∉ X) ->
  forall parts cur e j, live t cur e -> (parts <> [] -> is_dir e) -> cur ∉ X ->
    presolve t' dirs' parts cur = Some j <-> presolve t dirs parts cur = Some j /\ j ∉ X.
Proof using Hv HX.
  intros Hfind. induction parts as [|part parts IH]; intros cur e j He Hd Hcur; cbn [presolve].
  { split; [intros [= <-]; done|by intros [? _]]. }
  specialize (Hd ltac:(done)). pose proof (Hfind cur e part (is_nil parts)) as Hf.
  assert (forall k, find_name t (dirs !!! cur) part (is_nil parts) = Some k -> exists f, live t k f /\ (parts <> [] -> is_dir f)) as Hnext.
  { intros k (f & Hk & Hty)%(find_name_live _ _ _ _ _ _ _ _ _ _ Hv He Hd). exists f. split; [done|]. intros Hne. left. apply Hty. by destruct parts. }
  destruct (find_name t' _ _ _) as [k|].
  - destruct (proj1 (Hf k He Hd Hcur) eq_refl) as [Ek Hk]. rewrite Ek. destruct (Hnext k Ek) as (f & ? & ?). by apply (IH k f).
  - split; [done|]. destruct (find_name t _ _ _) as [k|] eqn:Ek; [|by intros [? _]]. intros [Hj Hjx].
    destruct (decide (k ∈ X)) as [Hk|Hk]; [|by pose proof (proj2 (Hf k He Hd Hcur) (conj eq_refl Hk))]. destruct Hjx. destruct (Hnext k eq_refl) as (f & Hlf & Hfd).
    eapply condemned_below; [done|exact Hk|]. by eapply presolve_below.
Qed.
End Paths.

(** ** The filesystem without the directory *)

(** [d] and everything below it are free: a path leads where it led before
    unless that was one of them, and every other plain file has its entry and
    its bytes. *)
Definition pruned (sc : Z) (m : mem) (t : list file_entry_t) (dirs : gmap Z listing) (root d : Z) (m' : mem) : Prop :=
  exists t' dirs', fs_wf sc m' t' dirs' root /\
    (forall parts j, presolve t' dirs' parts root = Some j <-> presolve t dirs parts root = Some j /\ ~ below t dirs d j) /\
    (forall j f, live t' j f -> ~ below t dirs d j) /\
    (forall j f, live t j f -> ~ is_dir f -> ~ below t dirs d j -> live t' j f /\ file_bytes m' f = file_bytes m f).

Section Prune.
Context (sc : Z) (m : mem) (t : list file_entry_t) (dirs : gmap Z listing) (root : Z) (Hwf : fs_wf sc m t dirs root).
Context (d : Z) (e : file_entry_t) (He : live t d e) (Hde : type e = DIRECTORY).
Context (p : Z) (pe : file_entry_t) (Hpe : live t p pe) (Hpd : is_dir pe) (Hin : d ∈ (dirs !!! p).*2) (Hacyc : ~ below t dirs d p).
Context (X : gset Z) (HX : condemned t dirs root X) (Hkids : forall k, names t dirs d k -> k ∈ X) (Hlow : forall x, x ∈ X -> below t dirs d x).
Context (s : Z) (m1 : mem).
Let Hv := proj2 Hwf.
Let Y : gset Z := {[d]} ∪ X.
Let l' := without d (dirs !!! p).
Let pe' := mk_entry MAGIC_NUMBER (type pe) s (DIR_ENTRY_SIZE * Z.of_nat (length l')).
Let t2 := <[Z.to_nat p := pe']> (kill X 0 t).
Let t3 := <[Z.to_nat d := set_magic 0 e]> t2.
Let dirs' := <[p := l']> dirs.
Context (Hok2 : Forall entry_ok t2) (Hlay2 : layout sc t2) (Hkept : others_kept (kill X 0 t) p m m1) (Hbytes : dir_is (file_bytes m1 pe') l').

Lemma Y_condemned : condemned t dirs root Y.
Proof using All. apply condemned_add; [done|by apply (dir_not_root _ _ _ _ _ Hv d e)|done]. Qed.
Lemma Y_below x : x ∈ Y <-> below t dirs d x.
Proof using All.
  split.
  - intros [->%elem_of_singleton|?]%elem_of_union; [apply rtc_refl|by apply Hlow].
  - apply condemned_below with (root := root); [apply Y_condemned|]. apply elem_of_union_l, elem_of_singleton. done.
Qed.
Lemma p_kept : p ∉ Y.
Proof using All. by rewrite Y_below. Qed.
Lemma p_not_d : p <> d.
Proof using All. intros E. apply Hacyc. rewrite E. apply rtc_refl. Qed.
(** Only the parent names something that goes, and only [d]. *)
Lemma border j k : names t dirs j k -> j ∉ Y -> k ∈ Y -> j = p /\ k = d.
Proof using All.
  intros Hjk Hj Hk%Y_below. assert (names t dirs p d) as Hp by by exists pe.
  apply rtc_inv_r in Hk as [<-|(y & Hy & Hyk)]; [split; [by apply (named_once _ _ _ _ _ Hv j p d)|done]|].
  exfalso. apply Hj. rewrite (named_once _ _ _ _ _ Hv _ _ _ Hjk Hyk). by apply Y_below.
Qed.

Lemma t3_table : t3 = <[Z.to_nat p := pe']> (kill Y 0 t).
Proof using All.
  pose proof p_not_d. destruct Hpe as (Hp0 & _), He as (Hd0 & Ed & _). unfold t3, t2. rewrite list_insert_insert_ne by lia. f_equal.
  unfold Y. erewrite <- kill_more; [|done|by rewrite kill_at, Ed]. f_equal. case_decide; [by destruct e|done].
Qed.
Lemma live3 j f : live t3 j f <-> j ∉ Y /\ (j = p /\ f = pe' \/ j <> p /\ live t j f).
Proof using All.
  pose proof p_kept. pose proof (lay_len _ _ (wf_layout _ _ _ _ _ Hv)) as Hl. pose proof (live_idx _ _ _ _ (wf_layout _ _ _ _ _ Hv) Hpe) as Hp.
  assert (0 <= p < Z.of_nat (length (kill Y 0 t))) as Hp' by (rewrite length_kill; lia).
  rewrite t3_table. split.
  - intros [(-> & -> & _)|[Hj [? ?]%live_kill]]%live_insert; [|by split; [|right]|done]. split; [done|by left].
  - intros [Hj [[-> ->]|[Hjp Hf]]].
    + split; [lia|]. split; [|done]. apply list_lookup_insert_eq. lia.
    + apply live_insert_ne; [done|lia|by apply live_kill].
Qed.
Lemma dir3 j f : live t3 j f -> is_dir f -> exists f0, live t j f0 /\ is_dir f0.
Proof using All. intros [_ [[-> ->]|[_ Hf]]]%live3 Hd; [by exists pe|by exists f]. Qed.
Lemma listing3 j : sublist (dirs' !!! j) (dirs !!! j).
Proof using All.
  unfold dirs'. destruct (decide (p = j)) as [E|]; [rewrite <- E, lookup_total_insert_eq; apply without_sublist|by rewrite lookup_total_insert_ne].
Qed.
Lemma named3 j f k : live t3 j f -> is_dir f -> k ∈ (dirs' !!! j).*2 -> names t dirs j k /\ k ∉ Y.
Proof using All.
  intros Hf Hd Hk. pose proof Hf as [HjY _]%live3. destruct (dir3 j f Hf Hd) as (f0 & Hf0 & Hd0).
  assert (names t dirs j k) as Hjk.
  { exists f0. split_and!; [done|done|]. eapply elem_of_sublist; [exact Hk|apply fmap_sublist, listing3]. }
  split; [done|]. intros HkY. destruct (border j k Hjk HjY HkY) as [-> ->]. unfold dirs' in Hk. rewrite lookup_total_insert_eq in Hk.
  by apply without_idx in Hk as [_ ?].
Qed.

Let m2 := disk_write m1 1 FILE_TABLE_SIZE (encode_table t3).
Lemma layout3 : layout sc t3.
Proof using All.
  apply layout_kill; [done| |done]. pose proof (live_idx _ _ _ _ (wf_layout _ _ _ _ _ Hv) He). rewrite (lay_len _ _ Hlay2). lia.
Qed.
Lemma bytes3 j f : live t3 j f -> file_bytes m2 f = file_bytes m1 f.
Proof using All.
  intros Hf. destruct (lay_in _ _ layout3 j f Hf) as [Hs Hb]. apply (file_bytes_save sc); [apply layout3|by apply layout3|lia|]. intros Hz. by apply Hb.
Qed.
Lemma others3 j f : live t3 j f -> j <> p -> live t j f /\ file_bytes m2 f = file_bytes m f.
Proof using All.
  intros Hf Hj. pose proof Hf as [HjY [[? _]|[_ Hf0]]]%live3; [done|]. split; [done|]. rewrite (bytes3 j f Hf). apply (Hkept j f); [done|].
  apply live_kill. split; [|done]. intros ?. apply HjY. by apply elem_of_union_r.
Qed.
Lemma view3 : fs_view sc m2 t3 dirs' root.
Proof using All.
  constructor; [apply layout3| | | | | | |].
  - intros j f Hf. pose proof Hf as [_ [[-> ->]|[Hj Hf0]]]%live3; [|by apply (wf_size _ _ _ _ _ Hv j)].
    pose proof (wf_size _ _ _ _ _ Hv p pe Hpe). destruct (dir_shape _ _ _ _ _ Hv p pe Hpe Hpd) as (_ & El & _).
    destruct (wf_nodup _ _ _ _ _ Hv p pe Hpe Hpd) as [Hnd _]. pose proof (length_without _ _ Hnd Hin) as Hlw.
    unfold pe', l'. cbn [size]. change DIR_ENTRY_SIZE with 64 in *. lia.
  - intros j f Hf Hd. pose proof Hf as [_ [[-> ->]|[Hj Hf0]]]%live3; unfold dirs'.
    + rewrite lookup_total_insert_eq, (bytes3 p) by done. done.
    + rewrite lookup_total_insert_ne by done. destruct (others3 j f Hf Hj) as [_ ->]. by apply (wf_dir _ _ _ _ _ Hv).
  - intros j f Hf Hd. apply Forall_forall. intros x Hx. destruct (named3 j f x.2 Hf Hd) as [Hx2 HxY]; [by apply list_elem_of_fmap_2|].
    destruct (named_kind _ _ _ _ _ Hv _ _ Hx2) as (g & Hg & _). destruct (decide (x.2 = p)) as [E|E].
    + exists pe'. apply live3. split; [done|by left].
    + exists g. apply live3. split; [done|by right].
  - intros j f Hf Hd. destruct (dir3 j f Hf Hd) as (f0 & Hf0 & Hd0). destruct (wf_nodup _ _ _ _ _ Hv j f0 Hf0 Hd0) as [H1 H2].
    split; eapply sublist_NoDup; [exact H1|apply fmap_sublist, listing3|exact H2|apply fmap_sublist, listing3].
  - intros j k f g x Hf Hd Hg Hgd Hne [Hx _]%(named3 j f) [Hy _]%(named3 k g); [|done..]. by apply Hne, (named_once _ _ _ _ _ Hv j k x).
  - rewrite t3_table. pose proof Hpe as (Hp0 & Ep & Hm). pose proof p_kept as Hpk. rewrite (root_of_insert _ _ _ pe); [| |by rewrite Hm|done].
    + apply root_of_killed; [by apply (wf_root _ _ _ _ _ Hv)|]. by destruct Y_condemned.
    + rewrite kill_at, Ep by done. cbn [fmap option_fmap option_map]. by rewrite decide_False.
  - intros j f k g Hf Hd [Hk HkY]%(named3 j f) Hg; [|done..]. destruct (named_kind _ _ _ _ _ Hv _ _ Hk) as (k0 & Hk0 & Hty).
    pose proof Hg as [_ [[-> ->]|[_ Hg0]]]%live3; [unfold pe'; cbn [type]; by rewrite <- (live_fun _ _ _ _ Hk0 Hpe)|by rewrite <- (live_fun _ _ _ _ Hk0 Hg0)].
Qed.

Lemma find3 j f part last k : live t j f -> is_dir f -> j ∉ Y ->
  find_name t3 (dirs' !!! j) part last = Some k <-> find_name t (dirs !!! j) part last = Some k /\ k ∉ Y.
Proof using All.
  intros Hf Hd Hj. apply (find_pruned sc m t dirs root Hv Y t3 j f); [done|done|apply listing3| |].
  - intros n i Hi HiY. unfold dirs'. destruct (decide (p = j)) as [E|E]; [|by rewrite lookup_total_insert_ne].
    rewrite <- E in *. rewrite lookup_total_insert_eq. apply without_elem. split; [done|]. intros Hid. apply HiY. cbn in Hid. rewrite Hid.
    by apply elem_of_union_l, elem_of_singleton.
  - intros i Hi. rewrite t3_table. pose proof Hpe as (Hp0 & Ep & Hm). pose proof p_kept as Hpk.
    apply (usable_insert _ p pe); [done|done| |by rewrite Hm|done]. rewrite kill_at, Ep by done. cbn [fmap option_fmap option_map]. by rewrite decide_False.
Qed.

Lemma pruned_stored : length t3 = Z.to_nat FILE_TABLE_ENTRIES /\ pruned sc m t dirs root d m2.
Proof using All.
  pose proof (lay_len _ _ layout3) as Hl3. split; [done|]. exists t3, dirs'. destruct (wf_root_live _ _ _ _ _ Hv) as (r & Hr & Hrd).
  split_and!; [split; [|apply view3]|..].
  - apply disk_table_save; [done|]. apply Forall_insert; [done|]. destruct He as (_ & Ee & _). pose proof (disk_table_ok m) as Hok.
    rewrite (proj1 Hwf) in Hok. eapply Forall_lookup_1 in Hok as (_ & ? & ? & ?); [|exact Ee]. by split_and!.
  - intros parts j. rewrite <- Y_below. apply (presolve_pruned sc m t dirs root Hv Y Y_condemned t3 dirs' find3 parts root r); [done|done|].
    by destruct Y_condemned.
  - intros j f [Hj _]%live3. by rewrite <- Y_below.
  - intros j f Hf Hnd Hj. rewrite <- Y_below in Hj. assert (j <> p) as Hjp by (intros ->; apply Hnd; by rewrite (live_fun _ _ _ _ Hf Hpe)).
    assert (live t3 j f) as Hf3 by (apply live3; split; [done|by right]). split; [done|]. by apply others3 in Hf3 as [_ ?].
Qed.
End Prune.

(** ** [filesystem_delete_directory] *)

Section Rmdir.
Context (sc : Z) (m : mem) (t : list file_entry_t) (dirs : gmap Z listing) (root : Z) (Hwf : fs_wf sc m t dirs root).
Context (ds : list (list Z)) (nm : list Z) (d : Z) (e : file_entry_t).
Context (Hr : presolve t dirs (ds ++ [nm]) root = Some d) (He : live t d e) (Hty : type e = DIRECTORY).

Lemma rmdir_depth : exists n, (0 < n)%nat /\ nsteps (names t dirs) n root d.
Proof using All.
  destruct (wf_root_live _ _ _ _ _ (proj2 Hwf)) as (r & Hroot & Hrd).
  destruct (rtc_nsteps_1 _ _ (presolve_below _ _ _ _ _ (proj2 Hwf) _ _ _ _ Hroot (fun _ => Hrd) Hr)) as [n Hn]. exists n. split; [|done].
  destruct n; [|lia]. inversion Hn as [x Ex|]. by destruct (dir_not_root _ _ _ _ _ (proj2 Hwf) d e He Hty).
Qed.

Lemma wp_delete_directory fuel st p : ready sc m st -> is_path p (ds ++ [nm]) -> FILE_TABLE_ENTRIES - 1 <= Z.of_nat fuel ->
  wp (filesystem_delete_directory fuel p) (fun ok st' => ok = true /\ finished sc (pruned sc m t dirs root d) st') st.
Proof using All.
  intros Hst Hp Hfuel. pose proof Hst as (Hd & Hsc & Hm & Ha). pose proof (proj2 Hwf) as Hv. pose proof He as (Hd0 & Ee & _).
  destruct (delete_parent sc m t dirs root Hwf ds nm d Hr) as (q & qe & Hw & Hpar & Hqe & Hqd & Hin).
  assert (d ∈ (dirs !!! q).*2) as Hin2 by (by apply (list_elem_of_fmap_2 snd) in Hin). assert (names t dirs q d) as Hqn by by exists qe.
  destruct rmdir_depth as (n & Hn0 & Hn). pose proof (acyclic _ _ _ _ _ Hv n d q Hn Hqn) as Hacyc.
  unfold filesystem_delete_directory. apply wp_bind. eapply wp_lift; [by eapply is_path_valid|]. cbn [negb].
  apply wp_bind, wp_load_table; [done|done|]. intros h Hh.
  assert (loaded t sc m (set_table (Some (disk_table (disk st))) (set_heap h st))) as Hl by (by eapply loaded_load).
  apply wp_bind. eapply wp_resolve; [done..|]. intros h2 Hh2. rewrite Hr. rewrite Hm, (proj1 Hwf) in *.
  apply wp_bind. eapply wp_step; [by eapply ft_get_ok|]. rewrite Hty, Z.eqb_refl. cbn [negb].
  apply wp_bind. assert (kill ∅ 0 t = t) as Ek.
  { apply list_eq. intros k. rewrite kill_lookup. by destruct (t !! k). }
  eapply wp_mono; [eapply (wp_wipe sc m t dirs root Hv fuel n d e ∅); [done|lia|done|done|by left|by split|]|].
  { rewrite Ek. by apply loaded_heap. }
  intros _ ? (X & h3 & Hh3 & -> & HX & _ & Hkids & Hlow). assert (forall x, x ∈ X -> below t dirs d x) as Hlow' by (by intros x [?|?]%Hlow).
  apply wp_bind, (wp_split_path _ _ _ ds nm); [done|done|]. intros h4 Hh4.
  assert (q ∉ X) as Hq by (by intros ?%Hlow'). pose proof (scan_killed sc m t dirs root Hv X (proj1 HX)) as Hscan.
  apply wp_bind. eapply scan_resolve_dir; [exact Hscan|done|done|]. intros h5 Hh5.
  assert (presolve (kill X 0 t) dirs ds root = Some q) as ->.
  { destruct (wf_root_live _ _ _ _ _ Hv) as (r & Hroot & Hrd).
    apply (presolve_pruned sc m t dirs root Hv X HX (kill X 0 t) dirs) with (e := r); [|done|done|by destruct HX|done].
    intros j f part last k Hf Hfd _. by apply (find_pruned sc m t dirs root Hv X _ j f). }
  assert (Forall entry_ok t) as Hok by (rewrite <- (proj1 Hwf); apply disk_table_ok).
  apply wp_bind. eapply (wp_remove_file _ (kill X 0 t) dirs root sc m _ q qe d); [done|done|by apply kill_ok|by apply live_kill|done|done|].
  cbv zeta. intros h6 s m1 Hh6 Htab Hok2 Hlay2 Hkept Hbytes. cbn [negb].
  destruct (pruned_stored sc m t dirs root Hwf d e He Hty q qe Hqe Hqd Hin2 Hacyc X HX Hkids Hlow' s m1 Hok2 Hlay2 Hkept Hbytes) as [Hlen Hfin].
  assert (exists g, (<[Z.to_nat q := mk_entry MAGIC_NUMBER (type qe) s (DIR_ENTRY_SIZE * Z.of_nat (length (without d (dirs !!! q))))]> (kill X 0 t))
    !! Z.to_nat d = Some g /\ set_magic 0 g = set_magic 0 e) as (g & Hg & Eg).
  { assert (q <> d) by (intros ->; apply Hacyc, rtc_refl). destruct Hqe as (Hq0 & _). rewrite list_lookup_insert_ne, kill_at, Ee by lia.
    eexists. split; [done|]. cbv beta. by case_decide. }
  apply wp_bind. eapply wp_step; [by eapply ft_set_magic_ok|]. rewrite Eg.
  apply wp_bind. eapply wp_step; [by eapply save_ok|]. apply wp_bind, wp_in_bfree; [done|]. intros h7 Hh7.
  apply wp_bind, wp_in_bfree; [done|]. intros h8 Hh8. apply wp_free_table_ret; [done|]. intros h9 Hh9. split; [done|]. by split_and!.
Qed.
End Rmdir.

(** The outcome for any path: a directory is pruned, any other is refused and
    only the heap has been used. *)
Definition rmdir_spec (sc : Z) (m : mem) (t : list file_entry_t) (dirs : gmap Z listing) (root : Z) (cs : list (list Z))
  (st : fs_state) (ok : bool) (st' : fs_state) : Prop :=
  match presolve t dirs cs root with
  | Some d => if usable t false d then ok = true /\ finished sc (pruned sc m t dirs root d) st' else ok = false /\ done_reading st st'
  | None => ok = false /\ done_reading st st'
  end.

Lemma wp_delete_directory_any sc m t dirs root st p cs fuel : fs_wf sc m t dirs root -> ready sc m st -> is_path p cs ->
  FILE_TABLE_ENTRIES - 1 <= Z.of_nat fuel -> wp (filesystem_delete_directory fuel p) (rmdir_spec sc m t dirs root cs st) st.
Proof.
  intros Hwf Hst Hp Hfuel. pose proof Hst as (Hd & Hsc & Hm & Ha). pose proof (proj2 Hwf) as Hv.
  destruct (decide (from_option (usable t false) false (presolve t dirs cs root) = true)) as [Hu|Hu].
  { unfold rmdir_spec. destruct (presolve t dirs cs root) as [d|] eqn:Hr; cbn [from_option] in Hu; [|done].
    rewrite Hu. destruct (resolve_live _ _ _ _ _ _ _ Hv Hr) as (f & Hd0 & _). apply usable_live in Hu as (e & He & Hty); [|done]. specialize (Hty eq_refl).
    destruct cs as [|nm ds _] using rev_ind; [|by eapply wp_delete_directory].
    injection Hr as <-. by destruct (dir_not_root _ _ _ _ _ Hv root e He Hty). }
  unfold filesystem_delete_directory. apply wp_bind. eapply wp_lift; [by eapply is_path_valid|]. cbn [negb].
  apply wp_bind, wp_load_table; [done|done|]. intros h Hh.
  assert (loaded t sc m (set_table (Some (disk_table (disk st))) (set_heap h st))) as Hl by (by eapply loaded_load).
  apply wp_bind. eapply wp_resolve; [done..|]. intros h2 Hh2. rewrite Hm, (proj1 Hwf) in *. unfold rmdir_spec.
  destruct (presolve t dirs cs root) as [d|] eqn:Hr.
  - destruct (resolve_live _ _ _ _ _ _ _ Hv Hr) as (e & Hd0 & Ee & Hme). cbn [from_option] in Hu. apply not_true_is_false in Hu. rewrite Hu.
    unfold usable in Hu. rewrite Ee, Hme, Z.eqb_refl, orb_false_r in Hu. cbn [andb] in Hu.
    apply wp_bind. eapply wp_step; [by eapply ft_get_ok|]. rewrite Hu. cbn [negb].
    apply wp_free_table_ret; [done|]. intros h3 Hh3. split; [done|by exists h3].
  - apply wp_free_table_ret; [done|]. intros h3 Hh3. split; [done|by exists h3].
Qed.

(** C8: [filesystem_delete_directory] on any path of a well-formed filesystem
    ends, with as much fuel as the table has entries. For a directory it
    succeeds, empty or not: the filesystem is again well formed; a path now
    leads to an entry exactly when it did before and the entry is neither the
    directory nor below it; none of those is in use any more, and every other
    plain file has its entry and its bytes. For the root, a plain file or a
    path that leads nowhere it fails and changes nothing. *)
Theorem filesystem_delete_directory_correct sc m t dirs root st p cs fuel : fs_wf sc m t dirs root -> ready sc m st -> is_path p cs ->
  FILE_TABLE_ENTRIES - 1 <= Z.of_nat fuel -> wp (filesystem_delete_directory fuel p) (rmdir_spec sc m t dirs root cs st) st.
Proof. apply wp_delete_directory_any. Qed.

(** *** A disk with directories: "/d/e/y" and "/k". *)

Definition slot (nm i : Z) : list Z := [nm] ++ 0 :: replicate 58 0 ++ unle 4 i.
Definition tree_entries : list file_entry_t :=
  [mk_entry MAGIC_NUMBER ROOT_DIRECTORY 641 128; mk_entry MAGIC_NUMBER DIRECTORY 642 64; mk_entry MAGIC_NUMBER DIRECTORY 643 64;
   mk_entry MAGIC_NUMBER FILE 644 3; mk_entry MAGIC_NUMBER FILE 645 2].
Definition tree_tab : list file_entry_t := tree_entries ++ replicate 635 empty_entry.
Definition tree_mem : mem :=
  disk_write (disk_write (disk_write (disk_write (disk_write (disk_write ∅ 641 128 (slot 100 1 ++ slot 107 4)) 642 64 (slot 101 2)) 643 64 (slot 121 3))
    644 3 [1; 2; 3]) 645 2 [4; 5]) 1 FILE_TABLE_SIZE (encode_table tree_tab).
Definition tree_dirs : gmap Z listing := {[ 0 := [([100], 1); ([107], 4)]; 1 := [([101], 2)]; 2 := [([121], 3)] ]}.
Definition tree_st : fs_state := mk_fs tree_mem 2000 true None demo_bheap [].

Lemma tree_live i e : live tree_tab i e -> 0 <= i < 5 /\ tree_entries !! Z.to_nat i = Some e.
Proof.
  intros (Hi & E & Hm). destruct (decide (i < 5)) as [Hlt|Hge].
  - split; [lia|]. unfold tree_tab in E. by rewrite lookup_app_l in E by (change (length tree_entries) with 5%nat; lia).
  - unfold tree_tab in E. rewrite lookup_app_r in E by (change (length tree_entries) with 5%nat; lia). apply lookup_replicate in E as [-> _]. done.
Qed.
Ltac tree_cases H :=
  apply tree_live in H as [? H];
  match type of H with tree_entries !! Z.to_nat ?i = Some ?e =>
    let C := fresh in
    assert (i = 0 \/ i = 1 \/ i = 2 \/ i = 3 \/ i = 4) as C by lia;
    destruct C as [->|[->|[->|[->| ->]]]]; injection H as <-
  end.
Lemma tree_dir i e : live tree_tab i e -> is_dir e -> i = 0 \/ i = 1 \/ i = 2.
Proof. intros He Hd. tree_cases He; try lia; destruct Hd as [Ht|Ht]; by vm_compute in Ht. Qed.
Lemma tree_wf : fs_wf 2000 tree_mem tree_tab tree_dirs 0.
Proof.
  assert (Forall entry_ok tree_tab) as Hok.
  { unfold tree_tab. apply Forall_app. split; [each; by vm_compute|]. apply Forall_replicate. by vm_compute. }
  split; [by apply disk_table_save|]. constructor.
  - constructor; [done| |].
    + intros i e He. tree_cases He; (split; [by vm_compute|intros _; by vm_compute]).
    + intros i j e f He Hf Hij _ _. tree_cases He; tree_cases Hf; try done; unfold file_end, file_sectors; vm_compute; first [by left|by right].
  - intros i e He. tree_cases He; by vm_compute.
  - intros i e He Hd. tree_cases He; try (destruct Hd as [Ht|Ht]; by vm_compute in Ht).
    + exists (replicate 58 0), (slot 107 4). split_and!; [by vm_compute|each|done|done|]. exists (replicate 58 0), []. split_and!; [by vm_compute|each|done..].
    + exists (replicate 58 0), []. split_and!; [by vm_compute|each|done..].
    + exists (replicate 58 0), []. split_and!; [by vm_compute|each|done..].
  - intros i e He Hd. destruct (tree_dir i e He Hd) as [->|[->| ->]].
    + change (tree_dirs !!! 0) with [([100], 1); ([107], 4)]. each; by eexists.
    + change (tree_dirs !!! 1) with [([101], 2)]. each; by eexists.
    + change (tree_dirs !!! 2) with [([121], 3)]. each; by eexists.
  - intros i e He Hd. destruct (tree_dir i e He Hd) as [->|[->| ->]]; split; apply (bool_decide_unpack _); by vm_compute.
  - intros i j e f k He Hd Hf Hfd Hij. destruct (tree_dir i e He Hd) as [->|[->| ->]], (tree_dir j f Hf Hfd) as [->|[->| ->]]; try done;
      intros Hk; repeat (apply elem_of_cons in Hk as [->|Hk]); try (by apply elem_of_nil in Hk); apply (bool_decide_unpack _); by vm_compute.
  - by vm_compute.
  - intros i e k f He Hd Hk Hf. destruct (tree_dir i e He Hd) as [->|[->| ->]];
      repeat (apply elem_of_cons in Hk as [->|Hk]); try (by apply elem_of_nil in Hk); apply tree_live in Hf as [_ Hf]; injection Hf as <-; done.
Qed.

(** [rmdir /d] removes "/d/e/y" and leaves "/k" and its two bytes. *)
Lemma filesystem_delete_directory_correct_witness :
  wp (filesystem_delete_directory 640 (cstr "/d")) (fun ok st' => ok = true /\ exists t' dirs', fs_wf 2000 (disk st') t' dirs' 0 /\
    presolve t' dirs' [[100]; [101]; [121]] 0 = None /\ presolve t' dirs' [[107]] 0 = Some 4 /\
    live t' 4 (mk_entry MAGIC_NUMBER FILE 645 2) /\ file_bytes (disk st') (mk_entry MAGIC_NUMBER FILE 645 2) = [4; 5]) tree_st.
Proof.
  refine (wp_mono _ _ _ _ (filesystem_delete_directory_correct 2000 tree_mem tree_tab tree_dirs 0 tree_st (cstr "/d") [[100]] 640 tree_wf _ _ _) _).
  - split_and!; [by split; [done|vm_compute; split; done]|done|done|by intros n k; eexists].
  - apply one_part_path; [split; [done|by each]|done|done].
  - vm_compute. discriminate.
  - intros ok st' Hs. change (ok = true /\ finished 2000 (pruned 2000 tree_mem tree_tab tree_dirs 0 1) st') in Hs.
    destruct Hs as [-> (_ & _ & _ & _ & t' & dirs' & Hwf & Hpath & _ & Hkeep)]. split; [reflexivity|]. exists t', dirs'.
    assert (forall x, names tree_tab tree_dirs 1 x -> x = 2) as H1 by (by intros x (? & _ & _ & Hx%list_elem_of_singleton)).
    assert (forall x, names tree_tab tree_dirs 2 x -> x = 3) as H2 by (by intros x (? & _ & _ & Hx%list_elem_of_singleton)).
    assert (forall x, ~ names tree_tab tree_dirs 3 x) as H3 by (by intros x (? & _ & _ & Hx%elem_of_nil)).
    assert (~ below tree_tab tree_dirs 1 4) as Hk.
    { intros [?|(x & ->%H1 & [?|(y & ->%H2 & [?|(z & []%H3 & _)]%rtc_inv)]%rtc_inv)]%rtc_inv; discriminate. }
    assert (below tree_tab tree_dirs 1 3) as Hb.
    { apply (rtc_l _ 1 2 3); [exists (mk_entry MAGIC_NUMBER DIRECTORY 642 64)|apply rtc_once; exists (mk_entry MAGIC_NUMBER DIRECTORY 643 64)];
        (split_and!; [done|by left|]; apply list_elem_of_singleton; reflexivity). }
    split; [exact Hwf|]. split; [|split; [exact (proj2 (Hpath [[107]] 4) (conj eq_refl Hk))|]].
    + destruct (presolve t' dirs' [[100]; [101]; [121]] 0) as [j|] eqn:Ej; [|reflexivity]. exfalso. apply Hpath in Ej as [Ej Hj].
      change (presolve tree_tab tree_dirs [[100]; [101]; [121]] 0) with (Some 3) in Ej. injection Ej as <-. exact (Hj Hb).
    + destruct (Hkeep 4 (mk_entry MAGIC_NUMBER FILE 645 2)) as [Hl ->]; [done|intros [Ht|Ht]; by vm_compute in Ht|exact Hk|]. split; [exact Hl|].
      vm_compute. reflexivity.
Defined.
