(* ===== verification/FsInit.v ===== *)
(** * Starting the filesystem (src/filesystem.c, [identify_drive], [filesystem_init])

    The drive is identified through the I/O ports, then the superblock is
    written and the root directory made sure of. The controller is any device
    that answers IDENTIFY as documented ([IdentifySpec]). *)
From Stdlib Require Import QArith.
From S2P Require Import Prelude Mem Util Str StrLib Ata Fs FsThms FsEdit FsPath FsWrite FsOps.
#[local] Open Scope Z_scope.

(** The ports, the static variables of the file, and [model]. *)
Record init_state (D : Type) := mk_init { idev : D; ifs : fs_state; model : list Z }.
Arguments mk_init {D}. Arguments idev {D}. Arguments ifs {D}. Arguments model {D}.

Definition set_sectors (n : Z) (st : fs_state) : fs_state :=
  mk_fs (disk st) n (writable_drive st) (file_table st) (fheap st) (fconsole st).
Definition set_writable (b : bool) (st : fs_state) : fs_state :=
  mk_fs (disk st) (sector_count st) b (file_table st) (fheap st) (fconsole st).

Section Code.
Context {D : Type} `{Ports D}.

Definition on_dev {A} (m : M D A) : M (init_state D) A := zoom idev (fun d st => mk_init d (ifs st) (model st)) m.
Definition on_fs {A} (m : M fs_state A) : M (init_state D) A := zoom ifs (fun f st => mk_init (idev st) f (model st)) m.

(** [data[i] = io_inw(ATA_DATA)] for [n] words. *)
Fixpoint read_data (n : nat) : M D (list Z) :=
  match n with
  | O => ret []
  | S n' => let* w := io_inw ATA_DATA in let* ws := read_data n' in ret (w :: ws)
  end.

(** The high byte of each word comes first. *)
Definition model_bytes (words : list Z) : list Z := words ≫= (fun w => [u8 (Z.shiftr w 8); u8 (Z.land w 0xFF)]).

Definition num (n : Z) : M (init_state D) (list Z) := on_fs (in_heap (num_to_str (inject_Z n))).

Definition identify_drive (fuel : nat) : M (init_state D) unit :=
  on_fs (print "[filesystem] identifying drive
") ;;;
  on_dev (io_outb ATA_DRIVE_SELECT ATA_DRIVE_SELECT_SLAVE) ;;;
  on_dev (io_outb ATA_SECTORS 0) ;;;
  on_dev (io_outb ATA_LBA_LOW 0) ;;;
  on_dev (io_outb ATA_LBA_MID 0) ;;;
  on_dev (io_outb ATA_LBA_HIGH 0) ;;;
  on_dev (io_outb ATA_COMMAND_STATUS 0xEC) ;;;
  on_fs (print "[filesystem] sent identify command to drive
") ;;;
  let* status := on_dev (io_inb ATA_COMMAND_STATUS) in
  if status =? 0 then panic "drive does not exist" else
  on_fs (print "[filesystem] drive exists
") ;;;
  on_dev (wait_busy fuel) ;;;
  on_fs (modify (set_writable true)) ;;;
  let* mid := on_dev (io_inb ATA_LBA_MID) in
  let* foreign := (if negb (mid =? 0) then ret true
                   else let* high := on_dev (io_inb ATA_LBA_HIGH) in ret (negb (high =? 0))) in
  if foreign : bool then on_fs (modify (set_writable false)) ;;; panic "not a writeable drive" else
  on_fs (print "[filesystem] drive is writeable
") ;;;
  on_dev (wait_data_request_ready fuel) ;;;
  let* data := on_dev (read_data 256) in
  on_fs (print "[filesystem] read identifying data from drive:
") ;;;
  modify (fun st => mk_init (idev st) (ifs st) (model_bytes (take 20 (drop 27 data)) ++ [0])) ;;;
  let* st := get in
  on_fs (print_concats [cstr "[filesystem] the disk model connected: "; model st; cstr "
"]) ;;;
  let* w60 := lift (match data !! 60%nat with Some w => OK w | None => UB end) in
  on_fs (modify (set_sectors w60)) ;;;
  let* sector_count_str := num w60 in
  let* size_str := num (w60 * SECTOR_SIZE) in
  let* size_KB_str := num (w60 * SECTOR_SIZE / 1000) in
  let* size_MB_str := num (w60 * SECTOR_SIZE / 1000000) in
  let* size_GB_str := num (w60 * SECTOR_SIZE / 1000000000) in
  on_fs (print_concats [cstr "[filesystem] sector count: "; sector_count_str; cstr ", disk size: "; size_str; cstr "B "; size_KB_str;
    cstr "KB "; size_MB_str; cstr "MB "; size_GB_str; cstr "GB"; cstr "
"]) ;;;
  on_fs (in_heap (bfree (Some sector_count_str))) ;;;
  on_fs (in_heap (bfree (Some size_str))) ;;;
  on_fs (in_heap (bfree (Some size_KB_str))) ;;;
  on_fs (in_heap (bfree (Some size_MB_str))) ;;;
  on_fs (in_heap (bfree (Some size_GB_str))).

Definition filesystem_init (fuel : nat) : M (init_state D) unit :=
  identify_drive fuel ;;;
  on_fs init_superblock ;;;
  on_fs ensure_root ;;;
  on_fs (print "[filesystem] filesystem init
").
End Code.

(** ** The controller's documented answer to IDENTIFY *)

Class IdentifySpec (D : Type) `{Ports D} := {
  id_words : list Z;                 (* the 256 words of the drive *)
  id_left : D -> list Z;             (* the words still to be transferred *)
  id_polls : D -> nat;               (* status reads that still answer busy *)
  id_max : nat;
  id_length : length id_words = 256%nat;
  id_range : Forall (in_range 16) id_words;
  id_polls_max d : (id_polls d <= id_max)%nat;
  id_command d : id_left (outb ATA_COMMAND_STATUS 0xEC (outb ATA_LBA_HIGH 0 (outb ATA_LBA_MID 0 (outb ATA_LBA_LOW 0
      (outb ATA_SECTORS 0 (outb ATA_DRIVE_SELECT ATA_DRIVE_SELECT_SLAVE d)))))) = id_words;
  (** the drive exists: its status is not 0 *)
  id_status d : id_left d <> [] -> let (s, d') := inb ATA_COMMAND_STATUS d in
    id_left d' = id_left d /\ id_polls d' = pred (id_polls d) /\ s <> 0 /\
    (Z.land s ATA_STATUS_BUSY = 0 <-> id_polls d = 0%nat) /\
    (id_polls d = 0%nat -> Z.land s ATA_STATUS_DATA_REQUEST_READY <> 0);
  (** an ATA drive leaves these registers 0 *)
  id_regs d p : p = ATA_LBA_MID \/ p = ATA_LBA_HIGH -> id_left d <> [] -> id_polls d = 0%nat ->
    let (v, d') := inb p d in v = 0 /\ id_left d' = id_left d /\ id_polls d' = 0%nat;
  id_data d w ws : id_left d = w :: ws -> id_polls d = 0%nat ->
    let (v, d') := inw ATA_DATA d in v = w /\ id_left d' = ws /\ id_polls d' = 0%nat
}.

(** The number of sectors the drive reports, in words 60 and 61. *)
Definition drive_sectors (words : list Z) : Z := words !!! 60%nat + 65536 * words !!! 61%nat.

Section Proofs.
Context {D : Type} `{IdentifySpec D}.

(** Output and allocation leave the rest of the filesystem's state alone. *)
Definition told (h : bheap) (c : list (list Z)) (f : fs_state) : fs_state :=
  mk_fs (disk f) (sector_count f) (writable_drive f) (file_table f) h c.

Lemma wp_on_dev {A} (Q : A -> init_state D -> Prop) m d f md : wp m (fun a d' => Q a (mk_init d' f md)) d -> wp (on_dev m) Q (mk_init d f md).
Proof. intros Hm. apply wp_zoom. exact Hm. Qed.
Lemma wp_say_fs (Q : unit -> init_state D -> Prop) s d f md : (forall c, Q tt (mk_init d (told (fheap f) c f) md)) -> wp (on_fs (print s)) Q (mk_init d f md).
Proof. intros HQ. apply wp_zoom, wp_modify, HQ. Qed.
Lemma wp_set_fs (Q : unit -> init_state D -> Prop) g d f md : Q tt (mk_init d (g f) md) -> wp (on_fs (modify g)) Q (mk_init d f md).
Proof. done. Qed.
Lemma wp_on_bfree (Q : unit -> init_state D -> Prop) p d f md : ample (fheap f) ->
  (forall h, ample h -> Q tt (mk_init d (told h (fconsole f) f) md)) -> wp (on_fs (in_heap (bfree p))) Q (mk_init d f md).
Proof. intros Ha HQ. apply wp_zoom, wp_in_bfree; [done|]. intros h Hh. by apply HQ. Qed.

(** A short C string. *)
Definition short (s : list Z) : Prop := exists t, (cstring s t /\ bytes s) /\ len t <= 60.
Lemma wp_num (Q : list Z -> init_state D -> Prop) n d f md : ample (fheap f) -> 0 <= n < 2 ^ 63 ->
  (forall s h, ample h -> short s -> Q s (mk_init d (told h (fconsole f) f) md)) -> wp (num n) Q (mk_init d f md).
Proof.
  intros Ha Hn HQ. apply wp_zoom, wp_zoom. destruct (decide (n = 0)) as [->|Hz].
  - unfold num_to_str. destruct (Qeq_dec (inject_Z 0) 0) as [_|E]; [|by destruct E]. apply wp_bind, wp_bmalloc; [done|lia|].
    intros b h Hh Hl Hb _. apply wp_bind, wp_ret, wp_bind. eapply wp_lift; [apply bset_ok; lia|].
    eapply wp_lift; [apply bset_ok; unfold len in *; rewrite length_insert; lia|]. apply HQ; [done|]. exists [CH_0].
    destruct b as [|x [|y [|z b]]]; unfold len in Hl; cbn in Hl; try lia. split; [|done]. split; [|by repeat constructor].
    split; [by repeat constructor|by exists []].
  - eapply wp_mono; [by apply num_to_str_correct; [..|lia]|]. intros s h (-> & _ & _ & Hh). apply HQ; [done|].
    unfold sign. rewrite (proj2 (Z.ltb_ge n 0)), Z.abs_eq by lia. cbn [app].
    destruct (dec_spec 19 n ltac:(lia)) as (_ & Hd & Hl & _). exists (dec 19 n).
    assert (Forall (fun x => x <> 0 /\ in_range 8 x) (dec 19 n)) as [Hnz Hb]%Forall_and.
    { eapply Forall_impl; [exact Hd|]. cbn. unfold CH_0, in_range. change (2 ^ 8) with 256. lia. }
    split; [split; [by apply cstring_app|by apply bytes_snoc0]|unfold len; lia].
Qed.
Lemma wp_concat_print (Q : unit -> init_state D -> Prop) ss d f md : ample (fheap f) -> ss <> [] -> Forall short ss -> (length ss <= 12)%nat ->
  (forall h c, ample h -> Q tt (mk_init d (told h c f) md)) -> wp (on_fs (print_concats ss)) Q (mk_init d f md).
Proof.
  intros Ha Hne Hss Hl HQ. assert (exists ts, Forall2 (fun s u => cstring s u /\ bytes s) ss ts /\ len (mjoin ts) <= 60 * Z.of_nat (length ss)) as (ts & Hts & Hlen).
  { clear Hne Hl. induction Hss as [|s ss (t & Ht & Hlt) _ (ts & Hts & IH)].
    - exists []. split; [by apply Forall2_nil_2|done].
    - exists (t :: ts). split; [by apply Forall2_cons_2|]. change (mjoin (t :: ts)) with (t ++ mjoin ts).
      unfold len in *. rewrite length_app. cbn [length]. lia. }
  apply wp_zoom. unfold print_concats. apply wp_bind, wp_zoom. eapply wp_str_concats; [done|done|exact Hts|unfold MAX_STR; lia|].
  intros h Hh _. apply wp_bind, wp_ret, wp_bind, wp_modify, wp_in_bfree; [done|]. intros h2 Hh2. by apply HQ.
Qed.
Lemma short_cstr s : nonzero (of_string s) -> len (of_string s) <= 60 -> short (cstr s).
Proof. intros Hn Hl. exists (of_string s). split; [split; [by apply cstring_app|apply cstr_bytes]|done]. Qed.
Lemma short_bytes l : bytes l -> len l <= 60 -> short (l ++ [0]).
Proof.
  intros Hb Hl. assert (exists t, cstring (l ++ [0]) t /\ len t <= len l) as (t & Ht & Hlt).
  { clear Hb Hl. induction l as [|c l (t & [Ht (r & Er)] & IH)]; [by exists []; split; [split; [constructor|by exists []]|]|].
    destruct (decide (c = 0)) as [->|Hc].
    - exists []. split; [|unfold len; cbn; lia]. split; [constructor|]. by exists (l ++ [0]).
    - exists (c :: t). split; [|unfold len in *; cbn; lia]. split; [by apply Forall_cons_2|]. exists r. cbn. by rewrite Er. }
  exists t. split; [split; [done|by apply bytes_snoc0]|lia].
Qed.

(** ** The port protocol *)

Lemma wp_id_wait (Q : unit -> D -> Prop) fuel d : (id_max < fuel)%nat -> id_left d <> [] ->
  (forall d', id_left d' = id_left d -> id_polls d' = 0%nat -> Q tt d') -> wp (wait_busy fuel) Q d.
Proof.
  intros Hf Hl HQ. assert (id_polls d < fuel)%nat as Hp by (pose proof (id_polls_max d); lia). clear Hf.
  revert d Hl Hp HQ. induction fuel as [|fuel IH]; intros d Hl Hp HQ; [lia|]. cbn [wait_busy]. apply wp_bind.
  unfold io_inb, wp. pose proof (id_status d Hl) as Hs. destruct (inb ATA_COMMAND_STATUS d) as [s d'].
  destruct Hs as (Hl' & Hpo & _ & Hb & _). destruct (Z.eqb_spec (Z.land s ATA_STATUS_BUSY) 0) as [E|E]; cbn [negb].
  - apply HQ; [done|]. apply Hb in E. by rewrite Hpo, E.
  - apply IH; [by rewrite Hl'| |].
    + assert (id_polls d <> 0%nat) by (intros E0; by apply E, Hb). lia.
    + intros d2 ? ?. apply HQ; congruence.
Qed.
Lemma wp_id_drq (Q : unit -> D -> Prop) fuel d : (0 < fuel)%nat -> id_left d <> [] -> id_polls d = 0%nat ->
  (forall d', id_left d' = id_left d -> id_polls d' = 0%nat -> Q tt d') -> wp (wait_data_request_ready fuel) Q d.
Proof.
  intros Hf Hl Hp HQ. destruct fuel as [|fuel]; [lia|]. cbn [wait_data_request_ready]. apply wp_bind.
  unfold io_inb, wp. pose proof (id_status d Hl) as Hs. destruct (inb ATA_COMMAND_STATUS d) as [s d'].
  destruct Hs as (Hl' & Hpo & _ & _ & Hd). rewrite (proj2 (Z.eqb_neq _ 0)) by auto. apply HQ; [done|]. by rewrite Hpo, Hp.
Qed.
Lemma wp_id_reg (Q : Z -> D -> Prop) p d : p = ATA_LBA_MID \/ p = ATA_LBA_HIGH -> id_left d <> [] -> id_polls d = 0%nat ->
  (forall d', id_left d' = id_left d -> id_polls d' = 0%nat -> Q 0 d') -> wp (io_inb p) Q d.
Proof.
  intros Hr Hl Hp HQ. unfold io_inb, wp. pose proof (id_regs d p Hr Hl Hp) as Hs. destruct (inb p d) as [v d'].
  destruct Hs as (-> & ? & ?). by apply HQ.
Qed.
Lemma wp_read_data (Q : list Z -> D -> Prop) d ws : id_left d = ws -> id_polls d = 0%nat ->
  (forall d', Q ws d') -> wp (read_data (length ws)) Q d.
Proof.
  revert d Q. induction ws as [|w ws IH]; intros d Q Hl Hp HQ; cbn [read_data length]; [by apply wp_ret|].
  apply wp_bind. unfold io_inw, wp. pose proof (id_data d w ws Hl Hp) as Hs. destruct (inw ATA_DATA d) as [v d'].
  destruct Hs as (-> & Hl' & Hp'). apply wp_bind, IH; [done|done|]. intros d2. by apply wp_ret.
Qed.

(** ** Initialisation *)

Definition w60 : Z := id_words !!! 60%nat.
Lemma w60_range : in_range 16 w60.
Proof.
  unfold w60. destruct (lookup_lt_is_Some_2 id_words 60) as [w E]; [rewrite id_length; lia|].
  rewrite (list_lookup_total_correct _ _ _ E). exact (Forall_lookup_1 _ _ _ _ id_range E).
Qed.
Lemma drive_sectors_low : drive_sectors id_words mod 2 ^ 16 = w60.
Proof.
  pose proof w60_range as Hr. unfold drive_sectors, in_range in *. fold w60. change 65536 with (2 ^ 16).
  rewrite Z.mul_comm, Z_mod_plus_full. by apply Z.mod_small.
Qed.
Definition model_text : list Z := model_bytes (take 20 (drop 27 id_words)) ++ [0].
Lemma short_model : short model_text.
Proof.
  apply short_bytes.
  - unfold model_bytes. apply Forall_bind, Forall_true. intros w. repeat apply Forall_cons_2; [apply wrap_range; lia..|apply Forall_nil_2].
  - assert (forall l : list Z, length (model_bytes l) = (2 * length l)%nat) as Hm.
    { intros l. unfold model_bytes. induction l as [|w l IH]; [done|]. cbn in *. lia. }
    unfold len. rewrite Hm, length_take. lia.
Qed.

Lemma wp_identify (Q : unit -> init_state D -> Prop) fuel d f md : (id_max < fuel)%nat -> ample (fheap f) ->
  (forall d' h c, ample h -> Q tt (mk_init d' (mk_fs (disk f) w60 true (file_table f) h c) model_text)) ->
  wp (identify_drive fuel) Q (mk_init d f md).
Proof.
  intros Hf Ha HQ. assert (id_words <> []) as Hne by (intros E; pose proof id_length as Hl; by rewrite E in Hl).
  unfold identify_drive. apply wp_bind, wp_say_fs. intros c1. do 5 (apply wp_bind, wp_on_dev, wp_modify). apply wp_bind, wp_on_dev, wp_modify.
  change (u8 ATA_DRIVE_SELECT_SLAVE) with ATA_DRIVE_SELECT_SLAVE. change (u8 0) with 0. change (u8 236) with 236.
  match goal with |- wp _ _ (mk_init ?dd _ _) => pose proof (id_command d : id_left dd = _) as Hcmd; set (d1 := dd) in * end. clearbody d1.
  apply wp_bind, wp_say_fs. intros c2. apply wp_bind, wp_on_dev. unfold io_inb at 1. unfold wp at 1.
  assert (id_left d1 <> []) as Hl1 by (by rewrite Hcmd). pose proof (id_status d1 Hl1) as Hs. destruct (inb ATA_COMMAND_STATUS d1) as [s d2].
  destruct Hs as (Hl2 & _ & Hs & _). rewrite (proj2 (Z.eqb_neq s 0)) by done. rewrite Hcmd in Hl2.
  apply wp_bind, wp_say_fs. intros c3. apply wp_bind, wp_on_dev, wp_id_wait; [done|by rewrite Hl2|]. intros d3 Hl3 Hp3. rewrite Hl2 in Hl3.
  apply wp_bind, wp_set_fs, wp_bind, wp_on_dev, wp_id_reg; [by left|by rewrite Hl3|done|]. intros d4 Hl4 Hp4. rewrite Hl3 in Hl4.
  cbn [Z.eqb negb]. apply wp_bind, wp_bind, wp_on_dev, wp_id_reg; [by right|by rewrite Hl4|done|]. intros d5 Hl5 Hp5. rewrite Hl4 in Hl5.
  apply wp_ret. cbn [Z.eqb negb]. apply wp_bind, wp_say_fs. intros c4.
  apply wp_bind, wp_on_dev, wp_id_drq; [lia|by rewrite Hl5|done|]. intros d6 Hl6 Hp6. rewrite Hl5 in Hl6.
  rewrite <- id_length. apply wp_bind, wp_on_dev, wp_read_data; [done|done|]. intros d7. apply wp_bind, wp_say_fs. intros c5.
  apply wp_bind, wp_modify, wp_bind, wp_get, wp_bind, wp_concat_print; [done|done| |cbn; lia|].
  { apply Forall_cons_2; [by apply short_cstr; [repeat constructor|]|]. apply Forall_cons_2; [apply short_model|].
    apply Forall_cons_2; [by apply short_cstr; [repeat constructor|]|apply Forall_nil_2]. }
  intros h1 c6 Hh1. apply wp_bind. pose proof w60_range as Hw. unfold in_range in Hw.
  destruct (lookup_lt_is_Some_2 id_words 60) as [w E]; [rewrite id_length; lia|]. rewrite E.
  assert (w60 = w) as Ew by (unfold w60; exact (list_lookup_total_correct _ _ _ E)). apply (wp_lift _ _ w); [done|]. rewrite <- Ew.
  apply wp_bind, wp_set_fs. unfold SECTOR_SIZE.
  apply wp_bind, wp_num; [done|lia|]. intros s1 h2 Hh2 Hs1. apply wp_bind, wp_num; [done|lia|]. intros s2 h3 Hh3 Hs2.
  apply wp_bind, wp_num; [done|divlia|]. intros s3 h4 Hh4 Hs3. apply wp_bind, wp_num; [done|divlia|]. intros s4 h5 Hh5 Hs4.
  apply wp_bind, wp_num; [done|divlia|]. intros s5 h6 Hh6 Hs5.
  apply wp_bind, wp_concat_print; [done|done| |cbn; lia|].
  { repeat (apply Forall_cons_2; [first [done|by apply short_cstr; [repeat constructor|]]|]). apply Forall_nil_2. }
  intros h7 c7 Hh7. do 4 (apply wp_bind, wp_on_bfree; [done|]; intros ? ?). apply wp_on_bfree; [done|]. intros hz Hhz. by apply HQ.
Qed.

Lemma wp_filesystem_init fuel d f md : (id_max < fuel)%nat -> ample (fheap f) -> FILE_TABLE_ENTRIES + 2 <= w60 ->
  wp (filesystem_init fuel) (fun _ st' => drive_ok (ifs st') /\ sector_count (ifs st') = w60 /\ ample (fheap (ifs st')) /\ model st' = model_text /\
    match root_of (disk_table (disk f)) 0 with
    | Some _ => disk_table (disk (ifs st')) = disk_table (disk f) /\
                forall a, SECTOR_SIZE <= a -> rd8 (disk (ifs st')) a = rd8 (disk f) a
    | None => fs_wf w60 (disk (ifs st')) fresh_tab ∅ 0
    end) (mk_init d f md).
Proof.
  intros Hf Ha Hsc. pose proof w60_range as Hw. unfold in_range in Hw. unfold filesystem_init. apply wp_bind, wp_identify; [done|done|].
  intros d1 h c Hh. set (f1 := mk_fs (disk f) w60 true (file_table f) h c).
  assert (drive_ok f1) as Hd by (by split; [|cbn; lia]). change FILE_TABLE_ENTRIES with 640 in Hsc.
  assert (forall a, SECTOR_SIZE <= a -> rd8 (disk_write (disk f) 0 20 (superblock w60)) a = rd8 (disk f) a) as Hout.
  { intros a Hl. unfold SECTOR_SIZE in Hl. apply rd8_disk_write_out; [done|]. right. change ((20 + 511) / 512) with 1. lia. }
  assert (disk_table (disk_write (disk f) 0 20 (superblock w60)) = disk_table (disk f)) as Htab.
  { unfold disk_table. f_equal. apply rd_bytes_ext. intros b Hb. apply Hout. unfold SECTOR_SIZE. lia. }
  apply wp_bind, wp_zoom. unfold init_superblock. apply wp_bind, wp_get, wp_bind. eapply wp_step.
  { apply write_secs_ok; [done|unfold MAX_FILE; lia|done|lia|]. change ((20 + 511) / 512) with 1. cbn. lia. }
  apply wp_modify, wp_bind, wp_zoom. eapply wp_mono; [apply ensure_root_ok; [done|done]|].
  intros [] f2 (Hd2 & Hs2 & Ha2 & Hr0).
  assert (match root_of (disk_table (disk_write (disk f) 0 20 (superblock w60))) 0 with
    | Some _ => disk f2 = disk_write (disk f) 0 20 (superblock w60) | None => fs_wf w60 (disk f2) fresh_tab ∅ 0 end) as Hr by exact Hr0.
  clear Hr0. rewrite Htab in Hr. apply wp_say_fs. intros c2. split_and!; [exact Hd2|exact Hs2|exact Ha2|done|].
  destruct (root_of (disk_table (disk f)) 0); [|exact Hr]. cbn [disk told ifs]. rewrite Hr. split; [exact Htab|exact Hout].
Qed.
End Proofs.

(** C28: [filesystem_init] on any ATA drive that answers IDENTIFY, with a heap
    that has room: it returns, takes the drive as writable, and stores the
    model name and the number of sectors, of which only the low 16 bits are
    kept (a drive of 65536 sectors or more looks smaller than it is). When
    that number leaves room for data, a disk whose table has a root directory
    keeps its table and everything outside the superblock's sector, and any
    other disk becomes a well-formed filesystem with an empty root. *)
Theorem filesystem_init_correct {D} `{IdentifySpec D} fuel d f md : (id_max < fuel)%nat -> ample (fheap f) ->
  FILE_TABLE_ENTRIES + 2 <= drive_sectors id_words mod 2 ^ 16 ->
  wp (filesystem_init fuel) (fun _ st' => drive_ok (ifs st') /\ sector_count (ifs st') = drive_sectors id_words mod 2 ^ 16 /\
    ample (fheap (ifs st')) /\ model st' = model_text /\
    match root_of (disk_table (disk f)) 0 with
    | Some _ => disk_table (disk (ifs st')) = disk_table (disk f) /\
                forall a, SECTOR_SIZE <= a -> rd8 (disk (ifs st')) a = rd8 (disk f) a
    | None => fs_wf (drive_sectors id_words mod 2 ^ 16) (disk (ifs st')) fresh_tab ∅ 0
    end) (mk_init d f md).
Proof. intros Hf Ha. rewrite drive_sectors_low. intros Hsc. exact (wp_filesystem_init fuel d f md Hf Ha Hsc). Qed.

(** *** A drive of 198608 sectors *)

Definition sim_words : list Z := replicate 27 0 ++ replicate 20 (65 * 256 + 66) ++ replicate 13 0 ++ [2000; 3] ++ replicate 194 0.
Record sim_id := mk_sim_id { si_left : list Z; si_busy : bool }.
#[global] Instance sim_id_ports : Ports sim_id := {
  outb p v d := if (p =? ATA_COMMAND_STATUS) && (v =? 0xEC) then mk_sim_id sim_words true else d;
  inb p d := if p =? ATA_COMMAND_STATUS then (if si_busy d then 0x80 else 0x48, mk_sim_id (si_left d) false) else (0, d);
  outw _ _ d := d;
  inw _ d := match si_left d with w :: ws => (w, mk_sim_id ws (si_busy d)) | [] => (0, d) end
}.
#[global, program] Instance sim_id_spec : IdentifySpec sim_id := {
  id_words := sim_words; id_left := si_left; id_polls d := if si_busy d then 1%nat else 0%nat; id_max := 1%nat }.
Next Obligation. done. Qed.
Next Obligation. unfold sim_words. repeat (apply Forall_app; split); try (apply Forall_replicate; by vm_compute). by repeat constructor. Qed.
Next Obligation. intros [l []]; cbn; lia. Qed.
Next Obligation. done. Qed.
Next Obligation. intros [l []] _; cbn; split_and!; naive_solver. Qed.
Next Obligation. intros [l b] p [-> | ->] _ Hb; cbn in *; by destruct b. Qed.
Next Obligation. intros [l b] w ws Hl Hb. cbn in *. subst l. done. Qed.

Lemma filesystem_init_correct_witness :
  wp (filesystem_init 2) (fun _ st' => drive_ok (ifs st') /\ sector_count (ifs st') = 2000) (mk_init (mk_sim_id [] false) blank_st []).
Proof.
  refine (wp_mono _ _ _ _ (filesystem_init_correct (D := sim_id) 2 (mk_sim_id [] false) blank_st [] _ _ _) _);
    [cbn; lia|intros n k; by eexists|by vm_compute|].
  intros [] st' (H1 & H2 & _). exact (conj H1 H2).
Defined.
