(* ===== verification/Gdt.v ===== *)
(** * Segment descriptors (src/gdt.c)

    The global descriptor table as the byte array the CPU reads, the code
    that encodes descriptors into it, and the decoding the processor manual
    prescribes. *)
From S2P Require Import Prelude Str.

Record GDT_entry := mk_gdt_entry { base : Z; limit : Z; access_byte : Z; flags : Z }.

#[global] Instance GDT_entry_eq : EqDecision GDT_entry.
Proof. solve_decision. Defined.

(** Consecutive byte stores, in order. *)
Fixpoint bsets (s : list Z) (ws : list (Z * Z)) : outcome (list Z) :=
  match ws with
  | [] => OK s
  | (i, v) :: ws' => obind (bset s i v) (fun s' => bsets s' ws')
  end.

(** [encode_gdt_entry(target + off, source)]. *)
Definition encode_gdt_entry (target : list Z) (off : Z) (source : GDT_entry) : outcome (list Z) :=
  if 0xFFFFF <? limit source then OK target else
  obind (bsets target
    [(off + 0, Z.land (limit source) 0xFF);
     (off + 1, Z.land (Z.shiftr (limit source) 8) 0xFF);
     (off + 6, Z.land (Z.shiftr (limit source) 16) 0x0F);
     (off + 2, Z.land (base source) 0xFF);
     (off + 3, Z.land (Z.shiftr (base source) 8) 0xFF);
     (off + 4, Z.land (Z.shiftr (base source) 16) 0xFF);
     (off + 7, Z.land (Z.shiftr (base source) 24) 0xFF);
     (off + 5, access_byte source)]) (fun t =>
  obind (bget t (off + 6)) (fun b =>
  bset t (off + 6) (Z.lor b (Z.shiftl (flags source) 4)))).

(** The statics of gdt.c, and the processor registers the assembly helpers
    load. *)
Record gdt_state := mk_gdt {
  gdt : list Z;
  kernel_tss : list Z;
  gdtr : Z * Z;
  cs_reg : Z;
  data_regs : Z;       (* ds, es, fs, gs and ss *)
  task_reg : Z;
  glog : list string
}.

#[global] Instance gdt_console : Console gdt_state := fun msg st =>
  mk_gdt (gdt st) (kernel_tss st) (gdtr st) (cs_reg st) (data_regs st) (task_reg st) (glog st ++ [msg]).

Definition on_gdt (f : list Z -> outcome (list Z)) : M gdt_state unit := fun st =>
  obind (f (gdt st)) (fun g =>
    OK (tt, mk_gdt g (kernel_tss st) (gdtr st) (cs_reg st) (data_regs st) (task_reg st) (glog st))).
Definition set_tss (t : list Z) : M gdt_state unit :=
  modify (fun st => mk_gdt (gdt st) t (gdtr st) (cs_reg st) (data_regs st) (task_reg st) (glog st)).

(** The helpers of main_asm.S. *)
Definition setGdt (lim b : Z) : M gdt_state unit :=
  modify (fun st => mk_gdt (gdt st) (kernel_tss st) (u16 lim, b) (cs_reg st) (data_regs st) (task_reg st) (glog st)).
Definition reloadSegments : M gdt_state unit :=
  modify (fun st => mk_gdt (gdt st) (kernel_tss st) (gdtr st) 0x08 0x10 (task_reg st) (glog st)).
Definition flush_tss : M gdt_state unit :=
  modify (fun st => mk_gdt (gdt st) (kernel_tss st) (gdtr st) (cs_reg st) (data_regs st) 0x28 (glog st)).

(** [sizeof(struct tss_entry)], packed, and the offset of [rsp0]. *)
Definition TSS_SIZE : Z := 104.
Definition TSS_RSP0 : Z := 4.

(** Little-endian store of a 64-bit field in a byte array. *)
Fixpoint le_bytes (n : nat) (v : Z) : list Z :=
  match n with O => [] | S n' => u8 v :: le_bytes n' (v / 256) end.
Definition put64 (s : list Z) (off v : Z) : outcome (list Z) := bcopy 8 s off (le_bytes 8 v) 0.

(** [gdt_init]; the arguments are the addresses the linker gives to [gdt],
    [kernel_tss] and [safe_transition_stack]. *)
Definition gdt_init (gdt_addr tss_base stack_addr : Z) : M gdt_state unit :=
  on_gdt (fun g => encode_gdt_entry g 0x00 (mk_gdt_entry 0 0 0 0)) ;;;
  on_gdt (fun g => encode_gdt_entry g 0x08 (mk_gdt_entry 0 0xFFFFF 0x9A 0xA)) ;;;
  on_gdt (fun g => encode_gdt_entry g 0x10 (mk_gdt_entry 0 0xFFFFF 0x92 0xC)) ;;;
  on_gdt (fun g => encode_gdt_entry g 0x18 (mk_gdt_entry 0 0xFFFFF 0xFA 0xA)) ;;;
  on_gdt (fun g => encode_gdt_entry g 0x20 (mk_gdt_entry 0 0xFFFFF 0xF2 0xC)) ;;;
  screen_print "[gdt] encoded gdt entries\n" ;;;
  let tss_limit := TSS_SIZE - 1 in
  on_gdt (fun g => encode_gdt_entry g 0x28 (mk_gdt_entry (u32 tss_base) tss_limit 0x89 0x0)) ;;;
  on_gdt (fun g => bsets g
    [(0x30, Z.land (Z.shiftr tss_base 32) 0xFF); (0x31, Z.land (Z.shiftr tss_base 40) 0xFF);
     (0x32, Z.land (Z.shiftr tss_base 48) 0xFF); (0x33, Z.land (Z.shiftr tss_base 56) 0xFF)]) ;;;
  set_tss (replicate (Z.to_nat TSS_SIZE) 0) ;;;
  (let* t := gets kernel_tss in
   let* t' := lift (put64 t TSS_RSP0 (u64 (stack_addr + 16384))) in set_tss t') ;;;
  screen_print "[gdt] encoded tss entry\n" ;;;
  setGdt (7 * 8 - 1) gdt_addr ;;;
  screen_print "[gdt] loaded gdt\n" ;;;
  reloadSegments ;;;
  screen_print "[gdt] reloaded segments\n" ;;;
  flush_tss ;;;
  screen_print "[gdt] flushed tss\n" ;;;
  screen_print "[gdt] gdt init\n".

Definition gdt_create_selector (index TI RPL : Z) : Z :=
  u16 (Z.lor (Z.lor (Z.shiftl index 3) (Z.shiftl TI 2)) RPL).

(** ** The processor's reading of a descriptor *)

Definition descriptor (g : list Z) (off : Z) : option GDT_entry :=
  match take 8 (drop (Z.to_nat off) g) with
  | [b0; b1; b2; b3; b4; b5; b6; b7] =>
      Some (mk_gdt_entry (b2 + 256 * b3 + 65536 * b4 + 16777216 * b7)
                         (b0 + 256 * b1 + 65536 * (b6 mod 16)) b5 (b6 / 16))
  | _ => None
  end.

(** Base of a 16-byte system descriptor (64-bit mode). *)
Definition system_base (g : list Z) (off : Z) : option Z :=
  match descriptor g off, take 8 (drop (Z.to_nat off + 8) g) with
  | Some d, b0 :: b1 :: b2 :: b3 :: _ =>
      Some (base d + 2 ^ 32 * (b0 + 256 * b1 + 65536 * b2 + 16777216 * b3))
  | _, _ => None
  end.

(** Privilege level of a descriptor and of a selector; code descriptors. *)
Definition dpl (d : GDT_entry) : Z := Z.land (Z.shiftr (access_byte d) 5) 3.
Definition rpl (sel : Z) : Z := Z.land sel 3.
Definition sel_offset (sel : Z) : Z := Z.shiftl (Z.shiftr sel 3) 3.
Definition is_code (d : GDT_entry) : bool := Z.testbit (access_byte d) 3.
Definition is_long (d : GDT_entry) : bool := Z.testbit (flags d) 1.

(** ** Lemmas *)

Section Middle.
Context (pre post : list Z).

(** Accesses to the middle part of an array. *)
Lemma bset_mid l k v : 0 <= k < len l ->
  bset (pre ++ l ++ post) (len pre + k) v = obind (bset l k v) (fun l' => OK (pre ++ l' ++ post)).
Proof.
  intros Hk. rewrite !bset_ok by (unfold len in *; rewrite ?length_app; lia). cbn [obind]. unfold len in *.
  replace (Z.to_nat (Z.of_nat (length pre) + k)) with (length pre + Z.to_nat k)%nat by lia.
  by rewrite insert_app_r, insert_app_l by lia.
Qed.

Lemma bget_mid l k : 0 <= k < len l -> bget (pre ++ l ++ post) (len pre + k) = bget l k.
Proof.
  intros Hk. destruct (lookup_Z_lt l k Hk) as [c Hc].
  rewrite (bget_lookup l k c), (bget_lookup _ _ c); [done| | |lia|done]; unfold len in *; [lia|].
  rewrite lookup_app_r by lia. replace (Z.to_nat (Z.of_nat (length pre) + k) - length pre)%nat with (Z.to_nat k) by lia.
  by apply lookup_app_l_Some.
Qed.

Lemma bset_length l k v l' : bset l k v = OK l' -> length l' = length l.
Proof. unfold bset. destruct (_ || _); [done|]. intros [= <-]. apply length_insert. Qed.

Lemma bsets_mid l ws : Forall (fun w => 0 <= fst w < len l) ws ->
  bsets (pre ++ l ++ post) ((fun '(k, v) => (len pre + k, v)) <$> ws) =
    obind (bsets l ws) (fun l' => OK (pre ++ l' ++ post)) /\
  forall l', bsets l ws = OK l' -> length l' = length l.
Proof.
  revert l. induction ws as [|[k v] ws IH]; intros l Hf; [cbn; split; [done|by intros ? [= <-]]|].
  inversion_clear Hf. cbn [fmap list_fmap bsets]. rewrite bset_mid by done.
  destruct (bset l k v) as [l1| | |] eqn:E; cbn [obind]; [|done..]. pose proof (bset_length _ _ _ _ E) as Hl.
  destruct (IH l1) as [IH1 IH2]; [unfold len in *; by rewrite Hl|]. split; [done|]. intros l' ?. rewrite <- Hl. auto.
Qed.
End Middle.

(** The eight bytes of a descriptor. *)
Definition descriptor_bytes (e : GDT_entry) : list Z :=
  [limit e mod 256; limit e / 256 mod 256; base e mod 256; base e / 256 mod 256; base e / 65536 mod 256;
   access_byte e; limit e / 65536 + 16 * flags e; base e / 16777216 mod 256].

(** Evaluate accesses at constant indices, leaving the stored values alone. *)
Ltac eval_bytes :=
  cbv -[wrap Z.land Z.shiftr Z.shiftl Z.lor Z.div Z.modulo base limit flags access_byte descriptor_bytes].

Definition gdt_entry_ok (e : GDT_entry) : Prop :=
  in_range 32 (base e) /\ in_range 20 (limit e) /\ in_range 8 (access_byte e) /\ in_range 4 (flags e).

Lemma land255 x k : 0 <= k -> u8 (Z.land (Z.shiftr x k) 255) = x / 2 ^ k mod 256.
Proof. intros Hk. change 255 with (Z.ones 8). rewrite land_ones_mod by lia. apply wrap_wrap. Qed.

Lemma encode_bytes l e : length l = 8%nat -> gdt_entry_ok e -> encode_gdt_entry l 0 e = OK (descriptor_bytes e).
Proof.
  intros Hl (Hb & Hlim & Ha & Hf). unfold encode_gdt_entry.
  rewrite (proj2 (Z.ltb_ge 0xFFFFF (limit e))) by (unfold in_range in Hlim; lia).
  destruct l as [|? [|? [|? [|? [|? [|? [|? [|? [|]]]]]]]]]; try discriminate Hl.
  eval_bytes. unfold descriptor_bytes. rewrite !land255, (wrap_id 8 (access_byte e)) by (done || lia).
  assert (forall x, u8 (Z.land x 255) = x mod 256) as E.
  { intros x. change 255 with (Z.ones 8). rewrite Z.land_ones by lia. apply wrap_wrap. }
  rewrite !E. change 15 with (Z.ones 4). rewrite land_ones_mod by lia. unfold in_range in *.
  assert (0 <= limit e / 2 ^ 16 < 16) by (clear - Hlim; divlia).
  rewrite (Z.mod_small (limit e / 2 ^ 16)), (wrap_id 8 (limit e / 2 ^ 16)) by (unfold in_range; simpl; lia).
  rewrite lor_shiftl_add by lia. rewrite wrap_id by (unfold in_range; lia). by rewrite (Z.mul_comm 16).
Qed.

Lemma encode_mid pre l post e : length l = 8%nat -> gdt_entry_ok e ->
  encode_gdt_entry (pre ++ l ++ post) (len pre) e = OK (pre ++ descriptor_bytes e ++ post).
Proof.
  intros Hl He. pose proof (encode_bytes l e Hl He) as E. unfold encode_gdt_entry in *.
  destruct He as (_ & Hlim & _). unfold in_range in Hlim. rewrite (proj2 (Z.ltb_ge 0xFFFFF (limit e))) in * by lia.
  match type of E with obind (bsets _ ?ws) _ = _ =>
    change (bsets (pre ++ l ++ post) _) with (bsets (pre ++ l ++ post) ((fun '(k, v) => (len pre + k, v)) <$> ws));
    destruct (bsets_mid pre post l ws) as [E1 E2] end.
  { repeat (apply Forall_cons_2; [unfold len; rewrite Hl; cbn; lia|]). apply Forall_nil_2. }
  rewrite E1. destruct (bsets l _) as [t| | |]; try discriminate E. cbn [obind] in *.
  assert (len t = 8) as Ht by (unfold len; rewrite (E2 t), Hl; done). change (0 + 6) with 6 in E.
  rewrite bget_mid by lia. destruct (bget t 6) as [b| | |]; try discriminate E. cbn [obind] in *.
  rewrite bset_mid by lia. by rewrite E.
Qed.

Lemma descriptor_mid pre post e : gdt_entry_ok e ->
  descriptor (pre ++ descriptor_bytes e ++ post) (len pre) = Some e.
Proof.
  intros (Hb & Hl & Ha & Hf). unfold descriptor, len. rewrite Nat2Z.id, drop_app_length.
  cbn [descriptor_bytes app take]. unfold in_range in *. f_equal. destruct e as [b l a f]; cbn [base limit access_byte flags] in *.
  f_equal; clear - Hb Hl Hf; divlia.
Qed.

Lemma split_at (target : list Z) off n : 0 <= off -> off + n <= len target -> 0 <= n ->
  exists pre l post, target = pre ++ l ++ post /\ len pre = off /\ length l = Z.to_nat n.
Proof.
  intros H1 H2 H3. exists (take (Z.to_nat off) target), (take (Z.to_nat n) (drop (Z.to_nat off) target)),
    (drop (Z.to_nat n) (drop (Z.to_nat off) target)). unfold len in *.
  rewrite !take_drop, !length_take, length_drop. split_and!; [done|lia|lia].
Qed.

(** [encode_gdt_entry] stores a descriptor from which the processor reads
    back exactly the base, limit, access byte and flags it was given, and
    changes no byte outside the eight of the descriptor; a limit that does not
    fit in 20 bits leaves the table untouched. *)
Theorem encode_gdt_entry_correct target off e : 0 <= off -> off + 8 <= len target ->
  (0xFFFFF < limit e -> encode_gdt_entry target off e = OK target) /\
  (gdt_entry_ok e -> exists t, encode_gdt_entry target off e = OK t /\ descriptor t off = Some e /\
     length t = length target /\ forall i, (i < Z.to_nat off \/ Z.to_nat off + 8 <= i)%nat -> t !! i = target !! i).
Proof.
  intros H1 H2. split.
  - intros Hl. unfold encode_gdt_entry. by rewrite (proj2 (Z.ltb_lt _ _) Hl).
  - intros He. destruct (split_at target off 8 H1 H2) as (pre & l & post & -> & <- & Hl); [lia|].
    exists (pre ++ descriptor_bytes e ++ post). rewrite encode_mid by done. unfold len. rewrite Nat2Z.id.
    split_and!; [done|by apply descriptor_mid|by rewrite !length_app, Hl|].
    intros i [Hi|Hi]; [by rewrite !lookup_app_l by lia|].
    rewrite !(lookup_app_r pre), !(lookup_app_r) by (rewrite ?Hl; cbn; lia). by rewrite Hl.
Qed.
Lemma encode_gdt_entry_correct_witness :
  (exists t, encode_gdt_entry (replicate 56 7) 0x28 (mk_gdt_entry 0x12345678 0x67 0x89 0) = OK t /\
     descriptor t 0x28 = Some (mk_gdt_entry 0x12345678 0x67 0x89 0)) /\
  encode_gdt_entry (replicate 56 7) 0x28 (mk_gdt_entry 0 0x100000 0 0) = OK (replicate 56 7).
Proof.
  split.
  - destruct (encode_gdt_entry_correct (replicate 56 7) 0x28 (mk_gdt_entry 0x12345678 0x67 0x89 0)) as [_ H];
      [vm_compute; congruence..|].
    destruct H as (t & E & D & _); [by vm_compute|]. eauto.
  - apply encode_gdt_entry_correct; vm_compute; congruence.
Defined.

(** ** The table [gdt_init] builds *)

Definition gdt_layout (tss_base : Z) : list GDT_entry :=
  [mk_gdt_entry 0 0 0 0; mk_gdt_entry 0 0xFFFFF 0x9A 0xA; mk_gdt_entry 0 0xFFFFF 0x92 0xC;
   mk_gdt_entry 0 0xFFFFF 0xFA 0xA; mk_gdt_entry 0 0xFFFFF 0xF2 0xC; mk_gdt_entry (u32 tss_base) 0x67 0x89 0].

Lemma gdt_layout_ok b : Forall gdt_entry_ok (gdt_layout b).
Proof.
  pose proof (wrap_range 32 b ltac:(lia)) as Hb. unfold gdt_layout.
  repeat (apply Forall_cons_2; [unfold gdt_entry_ok, in_range in *; cbn -[wrap]; lia|]). apply Forall_nil_2.
Qed.

(** The table with the first [n] descriptors in place. *)
Definition partial_gdt (b : Z) (n : nat) : list Z :=
  (take n (gdt_layout b) ≫= descriptor_bytes) ++ replicate (8 * (7 - n)) 0.

Lemma descriptors_length es : length (es ≫= descriptor_bytes) = (8 * length es)%nat.
Proof. induction es; [done|]. cbn [mbind list_bind]. rewrite length_app. cbn [length descriptor_bytes] in *. lia. Qed.

Lemma partial_step b n e : (n < 6)%nat -> gdt_layout b !! n = Some e ->
  encode_gdt_entry (partial_gdt b n) (8 * Z.of_nat n) e = OK (partial_gdt b (S n)).
Proof.
  intros Hn He. unfold partial_gdt.
  replace (8 * (7 - n))%nat with (8 + 8 * (7 - S n))%nat by lia. rewrite replicate_add.
  replace (8 * Z.of_nat n) with (len (take n (gdt_layout b) ≫= descriptor_bytes)).
  2:{ unfold len. rewrite descriptors_length, length_take. cbn [length gdt_layout]. lia. }
  rewrite encode_mid; [|apply length_replicate|]. 2:{ by apply (Forall_lookup_1 _ _ n _ (gdt_layout_ok b)). }
  rewrite (take_S_r _ n e He), bind_app. cbn [mbind list_bind]. by rewrite app_nil_r, <- app_assoc.
Qed.

Lemma wp_on_gdt f g (Q : unit -> gdt_state -> Prop) st : f (gdt st) = OK g ->
  Q tt (mk_gdt g (kernel_tss st) (gdtr st) (cs_reg st) (data_regs st) (task_reg st) (glog st)) -> wp (on_gdt f) Q st.
Proof. intros E HQ. unfold wp, on_gdt. by rewrite E. Qed.

(** The finished table: six descriptors, the high half of the TSS base, and
    four reserved bytes. *)
Definition final_gdt (b : Z) : list Z :=
  (gdt_layout b ≫= descriptor_bytes) ++
  [b / 2 ^ 32 mod 256; b / 2 ^ 40 mod 256; b / 2 ^ 48 mod 256; b / 2 ^ 56 mod 256; 0; 0; 0; 0].

Lemma high_half b : bsets (partial_gdt b 6)
    [(0x30, Z.land (Z.shiftr b 32) 0xFF); (0x31, Z.land (Z.shiftr b 40) 0xFF);
     (0x32, Z.land (Z.shiftr b 48) 0xFF); (0x33, Z.land (Z.shiftr b 56) 0xFF)] = OK (final_gdt b).
Proof.
  unfold partial_gdt, final_gdt. change (take 6 (gdt_layout b)) with (gdt_layout b).
  set (pre := gdt_layout b ≫= descriptor_bytes).
  set (ws := [(0, Z.land (Z.shiftr b 32) 0xFF); (1, Z.land (Z.shiftr b 40) 0xFF);
              (2, Z.land (Z.shiftr b 48) 0xFF); (3, Z.land (Z.shiftr b 56) 0xFF)]).
  change (bsets _ _) with (bsets (pre ++ replicate 8 0 ++ []) ((fun '(k, v) => (len pre + k, v)) <$> ws)).
  destruct (bsets_mid pre [] (replicate 8 0) ws) as [-> _].
  { repeat (apply Forall_cons_2; [done|]). apply Forall_nil_2. }
  rewrite <- !land255 by lia. cbn [obind]. clearbody pre. subst ws. by eval_bytes.
Qed.

Definition tss_image (rsp0 : Z) : list Z := replicate 4 0 ++ le_bytes 8 rsp0 ++ replicate 92 0.

Lemma put_rsp0 v : put64 (replicate (Z.to_nat TSS_SIZE) 0) TSS_RSP0 v = OK (tss_image v).
Proof.
  unfold put64, tss_image. set (l := le_bytes 8 v).
  assert (Forall (in_range 8) l) as Hl by (repeat (apply Forall_cons_2; [apply wrap_range; lia|]); apply Forall_nil_2).
  assert (length l = 8%nat) as H8 by done. clearbody l.
  destruct l as [|a0 [|a1 [|a2 [|a3 [|a4 [|a5 [|a6 [|a7 [|]]]]]]]]]; try discriminate H8.
  repeat (match goal with H : Forall _ (_ :: _) |- _ => inversion H; clear H; subst end).
  rewrite <- (wrap_id 8 a0), <- (wrap_id 8 a1), <- (wrap_id 8 a2), <- (wrap_id 8 a3), <- (wrap_id 8 a4),
    <- (wrap_id 8 a5), <- (wrap_id 8 a6), <- (wrap_id 8 a7) by done.
  eval_bytes. by rewrite !wrap_wrap.
Qed.

Lemma wp_gdt_print (Q : unit -> gdt_state -> Prop) msg st :
  Q tt (mk_gdt (gdt st) (kernel_tss st) (gdtr st) (cs_reg st) (data_regs st) (task_reg st) (glog st ++ [msg])) ->
  wp (screen_print msg) Q st.
Proof. done. Qed.

Lemma final_descriptors b i e : gdt_layout b !! i = Some e -> descriptor (final_gdt b) (8 * Z.of_nat i) = Some e.
Proof.
  intros He. pose proof (Forall_lookup_1 _ _ _ _ (gdt_layout_ok b) He) as Hok.
  unfold final_gdt. rewrite <- (take_drop_middle _ _ _ He) at 1. rewrite bind_app. cbn [mbind list_bind].
  rewrite <- !app_assoc. replace (8 * Z.of_nat i) with (len (take i (gdt_layout b) ≫= descriptor_bytes)).
  { by apply descriptor_mid. }
  unfold len. rewrite descriptors_length, length_take. apply lookup_lt_Some in He. lia.
Qed.

Lemma final_system_base b : in_range 64 b -> system_base (final_gdt b) 0x28 = Some b.
Proof.
  intros Hb. unfold system_base. change 0x28 with (8 * Z.of_nat 5). rewrite (final_descriptors b 5 _ eq_refl).
  change (take 8 _) with [b / 2 ^ 32 mod 256; b / 2 ^ 40 mod 256; b / 2 ^ 48 mod 256; b / 2 ^ 56 mod 256; 0; 0; 0; 0].
  cbn [base]. unfold in_range, wrap in *. f_equal. clear - Hb. divlia.
Qed.

(** C33: from the zeroed table, [gdt_init] leaves a table whose six descriptors
    and 64-bit TSS base the processor reads as intended, a TSS whose only
    non-zero field is the kernel stack, and the registers loaded; each selector
    the scheduler builds names a present descriptor of its own privilege level,
    a 64-bit code segment for the code selectors and a data segment otherwise. *)
Theorem gdt_init_correct gdt_addr tss_base stack_addr st :
  gdt st = replicate 56 0 -> in_range 64 tss_base -> 0 <= stack_addr < 2 ^ 64 - 16384 ->
  wp (gdt_init gdt_addr tss_base stack_addr) (fun _ st' =>
    (forall i e, gdt_layout tss_base !! i = Some e -> descriptor (gdt st') (8 * Z.of_nat i) = Some e) /\
    system_base (gdt st') 0x28 = Some tss_base /\
    kernel_tss st' = tss_image (stack_addr + 16384) /\
    gdtr st' = (55, gdt_addr) /\ task_reg st' = 0x28 /\
    cs_reg st' = gdt_create_selector 1 0 0 /\ data_regs st' = gdt_create_selector 2 0 0 /\
    Forall (fun '(index, RPL, code) =>
      let sel := gdt_create_selector index 0 RPL in
      exists d, descriptor (gdt st') (sel_offset sel) = Some d /\ dpl d = rpl sel /\ rpl sel = RPL /\
        Z.testbit (access_byte d) 7 = true /\ is_code d = code /\ is_long d = code)
      [(1, 0, true); (2, 0, false); (3, 3, true); (4, 3, false)]) st.
Proof.
  intros Hg Hb Hs. set (b := tss_base) in *.
  assert (gdt st = partial_gdt b 0) as Hg0 by done. clear Hg.
  assert (forall n e (k : M gdt_state unit) Q s, gdt s = partial_gdt b n -> (n < 6)%nat -> gdt_layout b !! n = Some e ->
    (forall s', gdt s' = partial_gdt b (S n) -> wp k Q s') ->
    wp (bind (on_gdt (fun g => encode_gdt_entry g (8 * Z.of_nat n) e)) (fun _ => k)) Q s) as Hstep.
  { intros n e k Q s Hs1 Hn He Hk. apply wp_bind. eapply wp_on_gdt; [rewrite Hs1; by apply partial_step|]. by apply Hk. }
  unfold gdt_init.
  apply (Hstep 0%nat); [done|lia|done|]. intros s1 H1.
  apply (Hstep 1%nat); [done|lia|done|]. intros s2 H2.
  apply (Hstep 2%nat); [done|lia|done|]. intros s3 H3.
  apply (Hstep 3%nat); [done|lia|done|]. intros s4 H4.
  apply (Hstep 4%nat); [done|lia|done|]. intros s5 H5.
  wp_seq. apply wp_gdt_print. apply (Hstep 5%nat); [done|lia|done|]. intros s6 H6.
  wp_seq. eapply wp_on_gdt; [rewrite H6; apply high_half|].
  wp_seq. apply wp_modify. cbn [gdt kernel_tss gdtr cs_reg data_regs task_reg glog].
  wp_seq. wp_seq. apply wp_gets. wp_seq. cbn [kernel_tss].
  rewrite (wrap_id 64 (stack_addr + 16384)) by (unfold in_range; lia).
  unfold wp, lift. rewrite put_rsp0. cbn -[final_gdt gdt_layout descriptor tss_image].
  split_and!; try done; [apply final_descriptors|by apply final_system_base|].
  repeat (apply Forall_cons_2; [|]); [..|apply Forall_nil_2].
  - exists (mk_gdt_entry 0 0xFFFFF 0x9A 0xA). split; [by apply (final_descriptors b 1)|done].
  - exists (mk_gdt_entry 0 0xFFFFF 0x92 0xC). split; [by apply (final_descriptors b 2)|done].
  - exists (mk_gdt_entry 0 0xFFFFF 0xFA 0xA). split; [by apply (final_descriptors b 3)|done].
  - exists (mk_gdt_entry 0 0xFFFFF 0xF2 0xC). split; [by apply (final_descriptors b 4)|done].
Qed.
Lemma gdt_init_correct_witness :
  wp (gdt_init 0xffffffff80010000 0xffffffff80020000 0xffffffff80030000)
    (fun _ st' => system_base (gdt st') 0x28 = Some 0xffffffff80020000)
    (mk_gdt (replicate 56 0) [] (0, 0) 0 0 0 []).
Proof.
  refine (wp_mono _ _ _ _ (gdt_init_correct _ _ _ _ _ _ _) _); [done|by vm_compute|done|].
  intros [] st' (_ & H & _). exact H.
Defined.
