(* ===== verification/Scheduler.v ===== *)
(** * Process scheduler (src/process/process_scheduler.c, .h)

    Processes are nodes of a circular singly linked list; [current_process]
    points into it. The nodes live in blocks of the kernel heap: the model
    keeps them in a store from block address to [process_t], so that a use of
    a freed or null pointer is undefined. The memory services the scheduler
    calls are an interface, [Services], implemented by the allocator and the
    VMM. *)
From S2P Require Import Prelude Mem Pmm Vmm Heap Allocator Gdt.

Definition SIG_ABRT : Z := Z.shiftl 1 5.
Definition SIG_KILL : Z := Z.shiftl 1 8.
Definition STACK_SIZE : Z := 0x4000.
Definition STACK_START : Z := 0x00007fffffffffff.

Record cpu_state_t := mk_cpu {
  gs : Z; fs : Z; r15 : Z; r14 : Z; r13 : Z; r12 : Z; r11 : Z; r10 : Z; r9 : Z; r8 : Z; rbp : Z; rdi : Z; rsi : Z;
  rdx : Z; rcx : Z; rbx : Z; rax : Z; error_code : Z; rip : Z; cs : Z; rflags : Z; rsp : Z; ss : Z
}.
Definition zero_cpu : cpu_state_t := mk_cpu 0 0 0 0 0 0 0 0 0 0 0 0 0 0 0 0 0 0 0 0 0 0 0.

Record process_t := mk_process {
  pid : Z; regs : cpu_state_t; pending_signals : Z; PML4 : Z; next : Z
}.
Definition set_next (n : Z) (p : process_t) : process_t := mk_process (pid p) (regs p) (pending_signals p) (PML4 p) n.
Definition set_regs (r : cpu_state_t) (p : process_t) : process_t := mk_process (pid p) r (pending_signals p) (PML4 p) (next p).
Definition set_signals (s : Z) (p : process_t) : process_t := mk_process (pid p) (regs p) s (PML4 p) (next p).

(** [sizeof(process_t)]: pid and padding, 23 registers, signals and padding,
    two pointers. *)
Definition PROCESS_SIZE : Z := 8 + 8 * 23 + 8 + 8 + 8.

(** ** What the scheduler uses of the memory subsystem *)

Class Services (K : Type) := {
  k_heap_init : Z -> bool -> M K bool;
  k_unmap_heap : M K unit;
  k_malloc : Z -> M K Z;
  k_free : Z -> M K unit;
  k_set_PML4 : Z -> M K unit;
  k_load_cpu : M K unit;
  k_copy_kernel_PML4 : Z -> Z -> M K unit;
  k_unmap_PML4 : Z -> M K unit;
  k_console :: Console K
}.

(** The kernel's own services; [fuel] bounds the walks over the free list. *)
Definition kernel_services (fuel : nat) : Services alloc_state := {|
  k_heap_init := allocator_heap_init;
  k_unmap_heap := allocator_unmap_heap;
  k_malloc := malloc fuel;
  k_free := free fuel;
  k_set_PML4 p := in_vmm (vmm_set_PML4 p);
  k_load_cpu := in_vmm vmm_load_cpu;
  k_copy_kernel_PML4 to from := in_vmm (vmm_copy_kernel_PML4 to from);
  k_unmap_PML4 p := in_vmm (vmm_unmap_PML4 p);
  k_console := alloc_console
|}.

(** ** State *)

Record sched_state (K : Type) := mk_sched {
  kern : K;
  procs : gmap Z process_t;
  highest_pid : Z;
  current_process : Z;
  kernel_process : Z
}.
Arguments mk_sched {K}. Arguments kern {K}. Arguments procs {K}. Arguments highest_pid {K}.
Arguments current_process {K}. Arguments kernel_process {K}.

Section Code.
Context {K : Type} `{Services K}.
Implicit Types st : sched_state K.

Definition set_kern (k : K) st := mk_sched k (procs st) (highest_pid st) (current_process st) (kernel_process st).
Definition set_procs (m : gmap Z process_t) st := mk_sched (kern st) m (highest_pid st) (current_process st) (kernel_process st).
Definition set_current (c : Z) st := mk_sched (kern st) (procs st) (highest_pid st) c (kernel_process st).
Definition set_highest (n : Z) st := mk_sched (kern st) (procs st) n (current_process st) (kernel_process st).
Definition set_kernel (c : Z) st := mk_sched (kern st) (procs st) (highest_pid st) (current_process st) c.
Definition in_kern {A} (m : M K A) : M (sched_state K) A := zoom kern set_kern m.

#[global] Instance sched_console : Console (sched_state K) := fun msg st => set_kern (emit msg (kern st)) st.

(** [*p] and [*p = f( *p)] for a process pointer. *)
Definition proc (p : Z) : M (sched_state K) process_t := fun st =>
  match procs st !! p with Some q => OK (q, st) | None => UB end.
Definition upd_proc (p : Z) (f : process_t -> process_t) : M (sched_state K) unit := fun st =>
  match procs st !! p with Some q => OK (tt, set_procs (<[p := f q]> (procs st)) st) | None => UB end.

(** Storing all fields of a block just allocated. *)
Definition new_proc (p : Z) (q : process_t) : M (sched_state K) unit := fun st =>
  if p =? 0 then UB else OK (tt, set_procs (<[p := q]> (procs st)) st).
Definition free_proc (p : Z) : M (sched_state K) unit :=
  in_kern (k_free p) ;;; modify (fun st => set_procs (delete p (procs st)) st).

Definition process_scheduler_init (kernel_PML4 : Z) : M (sched_state K) unit :=
  screen_print "[process_scheduler] initializing heap for kernel:\n" ;;;
  let* success := in_kern (k_heap_init HEAP_SIZE true) in
  if negb success then panic "failed to initialize heap for kernel" else
  screen_print "[process_scheduler] heap init\n" ;;;
  let* p := in_kern (k_malloc PROCESS_SIZE) in
  modify (set_current p) ;;;
  if p =? 0 then panic "failed to initialize kernel process tracking" else
  new_proc p (mk_process 0 zero_cpu 0 kernel_PML4 p) ;;;
  modify (set_kernel p) ;;;
  screen_print "[process_scheduler] created kernel process\n" ;;;
  screen_print "[process_scheduler] process_scheduler init\n".

(** The register frame a new process starts from. *)
Definition start_regs (process_code_start : Z) (is_kernel_level : bool) : cpu_state_t :=
  let code_segment := if is_kernel_level then gdt_create_selector 1 0 0 else gdt_create_selector 3 0 3 in
  let data_segment := if is_kernel_level then gdt_create_selector 2 0 0 else gdt_create_selector 4 0 3 in
  mk_cpu data_segment data_segment 0 0 0 0 0 0 0 0 0 0 0 0 0 0 0 0
    process_code_start code_segment 0x202 STACK_START data_segment.

Definition process_scheduler_add_process (process_code_start PML4 : Z) (is_kernel_level : bool) : M (sched_state K) Z :=
  let* new_process := in_kern (k_malloc PROCESS_SIZE) in
  modify (fun st => set_highest (u32 (highest_pid st + 1)) st) ;;;
  let* new_pid := gets highest_pid in
  let* c := gets current_process in
  (if new_process =? 0 then undefined else ret tt) ;;;
  let* cur := proc c in
  new_proc new_process (mk_process new_pid (start_regs process_code_start is_kernel_level) 0 PML4 (next cur)) ;;;
  upd_proc c (set_next new_process) ;;;
  ret new_pid.

Definition process_scheduler_get_kernel_PML4 : M (sched_state K) Z :=
  let* p := gets kernel_process in let* q := proc p in ret (PML4 q).
Definition process_scheduler_get_current_PML4 : M (sched_state K) Z :=
  let* p := gets current_process in let* q := proc p in ret (PML4 q).

(** The do-while loop of [find_process]: the pointer it stops at. *)
Fixpoint find_loop (fuel : nat) (target first p : Z) : M (sched_state K) Z :=
  match fuel with
  | O => out_of_fuel
  | S fuel' =>
      let* q := proc p in
      if pid q =? target then ret p else
      if next q =? first then ret (next q) else find_loop fuel' target first (next q)
  end.
Definition find_process (fuel : nat) (target : Z) : M (sched_state K) (option Z) :=
  let* c := gets current_process in
  let* p := find_loop fuel target c c in
  let* q := proc p in
  ret (if pid q =? target then Some p else None).

Fixpoint find_previous_loop (fuel : nat) (target first p : Z) : M (sched_state K) Z :=
  match fuel with
  | O => out_of_fuel
  | S fuel' =>
      let* q := proc p in
      let* n := proc (next q) in
      if pid n =? target then ret p else
      if next q =? first then ret (next q) else find_previous_loop fuel' target first (next q)
  end.
Definition find_previous_process (fuel : nat) (target : Z) : M (sched_state K) (option Z) :=
  let* c := gets current_process in
  let* p := find_previous_loop fuel target c c in
  let* q := proc p in
  let* n := proc (next q) in
  ret (if pid n =? target then Some p else None).

Definition process_scheduler_remove_process (fuel : nat) (target : Z) : M (sched_state K) bool :=
  if target =? 0 then ret false else
  let* prev := find_previous_process fuel target in
  match prev with None => ret false | Some prev_process =>
  let* pr := proc prev_process in
  let process := next pr in
  let* q := proc process in
  let next_next := next q in
  in_kern (k_set_PML4 (PML4 q)) ;;;
  in_kern k_load_cpu ;;;
  in_kern k_unmap_heap ;;;
  let* kp := process_scheduler_get_kernel_PML4 in
  in_kern (k_set_PML4 kp) ;;;
  in_kern k_load_cpu ;;;
  in_kern (k_unmap_PML4 (PML4 q)) ;;;
  free_proc process ;;;
  upd_proc prev_process (set_next next_next) ;;;
  modify (set_current next_next) ;;;
  ret true
  end.

(** Returns the frame the interrupted context resumes with. *)
Definition process_scheduler_exit (fuel : nat) : M (sched_state K) cpu_state_t :=
  let* c := gets current_process in
  let* q := proc c in
  process_scheduler_remove_process fuel (pid q) ;;;
  let* c' := gets current_process in
  let* q' := proc c' in
  ret (regs q').

Definition process_scheduler_send_signals (fuel : nat) (target signals : Z) : M (sched_state K) unit :=
  let* process := find_process fuel target in
  match process with None => ret tt | Some p =>
  upd_proc p (fun q => set_signals (Z.lor (pending_signals q) signals) q)
  end.

(** One signal whose handler removes the process. *)
Definition fatal_signal (fuel : nat) (process sigs sig : Z) (name : string) : M (sched_state K) bool :=
  if negb (Z.land sigs sig =? 0) then
    let* q := proc process in
    let* removed := process_scheduler_remove_process fuel (pid q) in
    if removed then screen_print name ;;; ret true else ret false
  else ret false.

(** The other signals' branches are empty in the source. *)
Definition handle_signals (fuel : nat) (process : Z) : M (sched_state K) bool :=
  let* q := proc process in
  let sigs := pending_signals q in
  upd_proc process (set_signals 0) ;;;
  let* done_ := fatal_signal fuel process sigs SIG_ABRT "SIGABRT\n" in
  if done_ then ret true else
  let* done_ := fatal_signal fuel process sigs SIG_KILL "SIGKILL\n" in
  ret done_.

Fixpoint pick_loop (fuel : nat) (ring_fuel : nat) : M (sched_state K) unit :=
  match fuel with
  | O => out_of_fuel
  | S fuel' =>
      let* c := gets current_process in
      let* q := proc c in
      modify (set_current (next q)) ;;;
      let* killed := handle_signals ring_fuel (next q) in
      if killed then pick_loop fuel' ring_fuel else ret tt
  end.

Definition process_scheduler_next_process (fuel : nat) (current_regs : cpu_state_t) : M (sched_state K) cpu_state_t :=
  let* c := gets current_process in
  upd_proc c (set_regs current_regs) ;;;
  let* kp := process_scheduler_get_kernel_PML4 in
  in_kern (k_set_PML4 kp) ;;;
  in_kern k_load_cpu ;;;
  pick_loop fuel fuel ;;;
  let* c' := gets current_process in
  let* q' := proc c' in
  let* kp' := process_scheduler_get_kernel_PML4 in
  in_kern (k_copy_kernel_PML4 (PML4 q') kp') ;;;
  in_kern (k_set_PML4 (PML4 q')) ;;;
  in_kern k_load_cpu ;;;
  ret (regs q').
End Code.
