(* ===== verification/SchedSpec.v ===== *)
(** * What the scheduler promises

    An abstract scheduler over the list of processes in the order they will
    run, head first, with the same memory services; and the proof that the
    linked-list code of [Scheduler] implements it operation by operation. *)
From S2P Require Import Prelude Mem Pmm Vmm Heap Allocator Gdt Scheduler.

(** A process without its link. *)
Record aproc := mk_aproc { a_addr : Z; a_pid : Z; a_regs : cpu_state_t; a_sigs : Z; a_PML4 : Z }.

Record ring_state (K : Type) := mk_ring { rk : K; rl : list aproc; rhigh : Z }.
Arguments mk_ring {K}. Arguments rk {K}. Arguments rl {K}. Arguments rhigh {K}.

Definition with_sigs (s : Z) (p : aproc) : aproc := mk_aproc (a_addr p) (a_pid p) (a_regs p) s (a_PML4 p).
Definition with_regs (r : cpu_state_t) (p : aproc) : aproc := mk_aproc (a_addr p) (a_pid p) r (a_sigs p) (a_PML4 p).

(** The first process with the given pid, and what is before and after it. *)
Fixpoint split_pid (target : Z) (l : list aproc) : option (list aproc * aproc * list aproc) :=
  match l with
  | [] => None
  | p :: l' =>
      if a_pid p =? target then Some ([], p, l')
      else match split_pid target l' with
           | Some (l1, q, l2) => Some (p :: l1, q, l2)
           | None => None
           end
  end.

Definition rotate (l : list aproc) : list aproc := match l with [] => [] | p :: l' => l' ++ [p] end.
Definition on_head (f : aproc -> aproc) (l : list aproc) : list aproc :=
  match l with [] => [] | p :: l' => f p :: l' end.

(** A pending signal that removes the process. *)
Definition fatal (p : aproc) : bool :=
  negb (a_pid p =? 0) && (negb (Z.land (a_sigs p) SIG_ABRT =? 0) || negb (Z.land (a_sigs p) SIG_KILL =? 0)).
Definition fatal_name (p : aproc) : string :=
  if negb (Z.land (a_sigs p) SIG_ABRT =? 0) then "SIGABRT\n" else "SIGKILL\n".

Section Spec.
Context {K : Type} `{Services K}.
Implicit Types st : ring_state K.

Definition set_rl (l : list aproc) st := mk_ring (rk st) l (rhigh st).
Definition on_rk {A} (m : M K A) : M (ring_state K) A := zoom rk (fun k st => mk_ring k (rl st) (rhigh st)) m.

Definition kernel_pml4 (l : list aproc) : Z :=
  match split_pid 0 l with Some (_, p, _) => a_PML4 p | None => 0 end.

Definition ring_head : M (ring_state K) aproc := fun st =>
  match rl st with p :: _ => OK (p, st) | [] => UB end.

(** Releasing what a process holds: its heap, its page tables, its block. *)
Definition teardown (p : aproc) (kp : Z) : M K unit :=
  k_set_PML4 (a_PML4 p) ;;; k_load_cpu ;;; k_unmap_heap ;;;
  k_set_PML4 kp ;;; k_load_cpu ;;; k_unmap_PML4 (a_PML4 p) ;;; k_free (a_addr p).

Definition ring_add (code PML4 : Z) (kernel_level : bool) : M (ring_state K) Z :=
  let* p := on_rk (k_malloc PROCESS_SIZE) in
  if p =? 0 then undefined else fun st =>
  let n := u32 (rhigh st + 1) in
  match rl st with
  | [] => UB
  | c :: l => OK (n, mk_ring (rk st) (c :: mk_aproc p n (start_regs code kernel_level) 0 PML4 :: l) n)
  end.

Definition ring_remove (target : Z) : M (ring_state K) bool := fun st =>
  if target =? 0 then OK (false, st) else
  match split_pid target (rl st) with
  | None => OK (false, st)
  | Some (l1, p, l2) =>
      bind (on_rk (teardown p (kernel_pml4 (rl st)))) (fun _ st' => OK (true, set_rl (l2 ++ l1) st')) st
  end.

Definition ring_signal (target signals : Z) : M (ring_state K) unit :=
  modify (fun st => set_rl ((fun p => if a_pid p =? target then with_sigs (Z.lor (a_sigs p) signals) p else p) <$> rl st) st).

Definition ring_exit : M (ring_state K) cpu_state_t :=
  let* p := ring_head in ring_remove (a_pid p) ;;; let* q := ring_head in ret (a_regs q).

(** Consume the signals of the head; true when they remove it. *)
Definition ring_handle : M (ring_state K) bool :=
  let* p := ring_head in
  modify (fun st => set_rl (on_head (with_sigs 0) (rl st)) st) ;;;
  if fatal p then ring_remove (a_pid p) ;;; on_rk (screen_print (fatal_name p)) ;;; ret true
  else ret false.

(** Advance until a process survives its signals; [n] bounds the number of
    processes. *)
Fixpoint ring_pick (n : nat) : M (ring_state K) unit :=
  match n with
  | O => out_of_fuel
  | S n' =>
      modify (fun st => set_rl (rotate (rl st)) st) ;;;
      let* killed := ring_handle in
      if killed then ring_pick n' else ret tt
  end.

Definition ring_next (r : cpu_state_t) : M (ring_state K) cpu_state_t :=
  modify (fun st => set_rl (on_head (with_regs r) (rl st)) st) ;;;
  let* kp := gets (fun st => kernel_pml4 (rl st)) in
  on_rk (k_set_PML4 kp) ;;; on_rk k_load_cpu ;;;
  (fun st => ring_pick (length (rl st)) st) ;;;
  let* p := ring_head in
  let* kp' := gets (fun st => kernel_pml4 (rl st)) in
  on_rk (k_copy_kernel_PML4 (a_PML4 p) kp') ;;; on_rk (k_set_PML4 (a_PML4 p)) ;;; on_rk k_load_cpu ;;;
  ret (a_regs p).
End Spec.

(** ** Representation *)

(** The node of [p], with its link. *)
Definition node_of (p : aproc) (n : Z) : process_t := mk_process (a_pid p) (a_regs p) (a_sigs p) (a_PML4 p) n.

(** [l] is the chain of nodes from [a] up to (not including) [b]. *)
Fixpoint chain (m : gmap Z process_t) (a : Z) (l : list aproc) (b : Z) : Prop :=
  match l with
  | [] => a = b
  | p :: l' => a = a_addr p /\ exists n, m !! a = Some (node_of p n) /\ chain m n l' b
  end.

Record ring_ok (l : list aproc) (high : Z) : Prop := {
  ro_addr : NoDup (a_addr <$> l);
  ro_pid : NoDup (a_pid <$> l);
  ro_kernel : 0 ∈ a_pid <$> l;
  ro_pids : Forall (fun p => 0 <= a_pid p <= high) l;
  ro_high : 0 <= high < 2 ^ 32
}.

Record represents {K} (st : sched_state K) (rs : ring_state K) : Prop := {
  rp_kern : kern st = rk rs;
  rp_high : highest_pid st = rhigh rs;
  rp_chain : chain (procs st) (current_process st) (rl rs) (current_process st);
  rp_dom : dom (procs st) = list_to_set (a_addr <$> rl rs);
  rp_kernel : exists p, p ∈ rl rs /\ a_addr p = kernel_process st /\ a_pid p = 0;
  rp_ok : ring_ok (rl rs) (rhigh rs)
}.

(** The same outcome: equal values and states that correspond, or the same
    failure. *)
Definition implements {K A} (o : outcome (A * sched_state K)) (o' : outcome (A * ring_state K)) : Prop :=
  match o' with
  | OK (a, rs') => exists st', o = OK (a, st') /\ represents st' rs'
  | Panic s => o = Panic s
  | UB => o = UB
  | NoFuel => o = NoFuel
  end.

(** [m] implements [m'] from states that satisfy [P]. *)
Definition simulates {K A} (P : ring_state K -> Prop) (m : M (sched_state K) A) (m' : M (ring_state K) A) : Prop :=
  forall st rs, represents st rs -> P rs -> implements (m st) (m' rs).

Lemma implements_bind {K A B} (o : outcome (A * sched_state K)) o' (k : A -> M (sched_state K) B) k' :
  implements o o' ->
  (forall a st rs, o' = OK (a, rs) -> represents st rs -> implements (k a st) (k' a rs)) ->
  implements (obind o (fun '(a, s) => k a s)) (obind o' (fun '(a, s) => k' a s)).
Proof.
  intros Ho Hk. destruct o' as [[a rs]| | |]; cbn in *; [|by rewrite Ho..].
  destruct Ho as (st & -> & Hr). cbn. by apply Hk.
Qed.

(** ** Chains *)

Lemma chain_app m a l1 l2 b : chain m a (l1 ++ l2) b <-> exists c, chain m a l1 c /\ chain m c l2 b.
Proof.
  revert a. induction l1 as [|p l1 IH]; intros a; cbn.
  - split; [eauto|]. by intros (? & <- & ?).
  - split.
    + intros (-> & n & Hn & (c & ? & ?)%IH). eauto 10.
    + intros (c & (-> & n & Hn & Hc) & Hc'). split; [done|]. exists n. split; [done|]. apply IH. eauto.
Qed.

Lemma chain_insert m a l b x q : x ∉ a_addr <$> l -> chain m a l b -> chain (<[x := q]> m) a l b.
Proof.
  revert a. induction l as [|p l IH]; intros a Hx; cbn; [done|]. cbn in Hx. rewrite not_elem_of_cons in Hx.
  intros (-> & n & Hn & Hc). split; [done|]. exists n. rewrite lookup_insert_ne by tauto. naive_solver.
Qed.

Lemma chain_delete m a l b x : x ∉ a_addr <$> l -> chain m a l b -> chain (delete x m) a l b.
Proof.
  revert a. induction l as [|p l IH]; intros a Hx; cbn; [done|]. cbn in Hx. rewrite not_elem_of_cons in Hx.
  intros (-> & n & Hn & Hc). split; [done|]. exists n. rewrite lookup_delete_ne by tauto. naive_solver.
Qed.

Lemma chain_start m a p l b : chain m a (p :: l) b -> a = a_addr p.
Proof. by intros [? _]. Qed.

(** The last node of a chain holds the link to its end. *)
Lemma chain_last m a l p b : chain m a (l ++ [p]) b -> m !! a_addr p = Some (node_of p b) /\ chain m a l (a_addr p).
Proof. intros (c & Hc & -> & n & Hn & ->)%chain_app. done. Qed.

Lemma chain_elem m a l b p : chain m a l b -> p ∈ l -> exists n, m !! a_addr p = Some (node_of p n).
Proof.
  intros Hc (l1 & l2 & ->)%list_elem_of_split. apply chain_app in Hc as (c & _ & -> & n & Hn & _). eauto.
Qed.

(** A ring can be entered at any of its nodes. *)
Lemma chain_rotate m c l1 p l2 : chain m c (l1 ++ p :: l2) c -> chain m (a_addr p) (p :: l2 ++ l1) (a_addr p).
Proof.
  intros (d & H1 & H2)%chain_app. pose proof (chain_start _ _ _ _ _ H2) as ->.
  apply (chain_app _ _ (p :: l2) l1). eauto.
Qed.

(** Rewriting the data of one node. *)
Lemma chain_update m a l1 p p' l2 b : NoDup (a_addr <$> l1 ++ p :: l2) -> a_addr p' = a_addr p ->
  chain m a (l1 ++ p :: l2) b -> exists n, m !! a_addr p = Some (node_of p n) /\
    chain (<[a_addr p := node_of p' n]> m) a (l1 ++ p' :: l2) b.
Proof.
  rewrite fmap_app. cbn. intros (_ & Hd & Hn2)%NoDup_app Ha (c & H1 & -> & n & Hn & H2)%chain_app.
  apply NoDup_cons in Hn2 as [Hp2 _].
  exists n. split; [done|]. apply chain_app. exists (a_addr p). split.
  - apply chain_insert; [|done]. intros Hin. by eapply Hd, list_elem_of_here.
  - cbn. rewrite Ha. split; [done|]. exists n. rewrite lookup_insert_eq. split; [done|]. by apply chain_insert.
Qed.

Lemma split_pid_Some t l l1 p l2 : split_pid t l = Some (l1, p, l2) ->
  l = l1 ++ p :: l2 /\ a_pid p = t /\ t ∉ a_pid <$> l1.
Proof.
  revert l1. induction l as [|q l IH]; intros l1; cbn; [done|]. destruct (Z.eqb_spec (a_pid q) t) as [<-|Hne].
  - intros [= <- <- <-]. split_and!; [done..|apply not_elem_of_nil].
  - destruct (split_pid t l) as [[[l1' p'] l2']|]; [|done]. intros [= <- -> ->].
    destruct (IH l1' eq_refl) as (-> & ? & ?). split_and!; [done..|]. cbn. rewrite not_elem_of_cons. naive_solver.
Qed.

Lemma split_pid_None t l : split_pid t l = None <-> t ∉ a_pid <$> l.
Proof.
  induction l as [|q l IH]; cbn; [split; [intros _; apply not_elem_of_nil|done]|].
  rewrite not_elem_of_cons. destruct (Z.eqb_spec (a_pid q) t) as [<-|Hne]; [naive_solver|].
  destruct (split_pid t l) as [[[l1' p'] l2']|]; naive_solver.
Qed.

Lemma split_pid_eq t l1 p l2 : a_pid p = t -> t ∉ a_pid <$> l1 -> split_pid t (l1 ++ p :: l2) = Some (l1, p, l2).
Proof.
  intros Hp. induction l1 as [|q l1 IH]; cbn; [by rewrite (proj2 (Z.eqb_eq _ _) Hp)|].
  rewrite not_elem_of_cons. intros [Hq Hn]. rewrite (proj2 (Z.eqb_neq _ _)) by congruence. by rewrite IH.
Qed.

(** *** Invariants of the list *)

Lemma ring_ok_perm l l' h : l ≡ₚ l' -> ring_ok l h -> ring_ok l' h.
Proof. intros E [H1 H2 H3 H4 H5]. split; [by rewrite <- E..|done]. Qed.

Lemma ring_ok_drop l1 p l2 h : a_pid p <> 0 -> ring_ok (l1 ++ p :: l2) h -> ring_ok (l2 ++ l1) h.
Proof.
  intros Hp H. apply (ring_ok_perm _ (p :: l2 ++ l1)) in H; [|solve_Permutation].
  destruct H as [H1 H2 H3 H4 H5]. cbn in *. apply NoDup_cons in H1 as [_ H1], H2 as [_ H2].
  apply elem_of_cons in H3. inversion_clear H4. split; try done. destruct H3; [congruence|done].
Qed.

Lemma ring_ok_update l1 p p' l2 h : a_addr p' = a_addr p -> a_pid p' = a_pid p ->
  ring_ok (l1 ++ p :: l2) h -> ring_ok (l1 ++ p' :: l2) h.
Proof.
  intros Ea Ep [H1 H2 H3 H4 H5]. split; try done; rewrite ?fmap_app in *; cbn in *; rewrite ?Ea, ?Ep; try done.
  rewrite Forall_app, Forall_cons in *. by rewrite Ep.
Qed.

Lemma same_pid l h p q : ring_ok l h -> p ∈ l -> q ∈ l -> a_pid p = a_pid q -> p = q.
Proof.
  intros [_ Hnd _ _ _] (i & Hi)%list_elem_of_lookup (j & Hj)%list_elem_of_lookup E.
  enough (i = j) by congruence. apply (NoDup_lookup _ i j (a_pid p) Hnd); rewrite list_lookup_fmap; [by rewrite Hi|].
  rewrite Hj. cbn. by rewrite E.
Qed.

Lemma kernel_pml4_eq l h p : ring_ok l h -> p ∈ l -> a_pid p = 0 -> kernel_pml4 l = a_PML4 p.
Proof.
  intros Hok Hp Hp0. unfold kernel_pml4. destruct (split_pid 0 l) as [[[l1 q] l2]|] eqn:E.
  - apply split_pid_Some in E as (-> & Hq & _). f_equal. apply (same_pid _ _ _ _ Hok); [set_solver|done|congruence].
  - apply split_pid_None in E. destruct E. apply list_elem_of_fmap. eauto.
Qed.

Fixpoint last_of (q : aproc) (s : list aproc) : aproc :=
  match s with [] => q | x :: s' => last_of x s' end.

Lemma last_of_snoc q s : exists s0, q :: s = s0 ++ [last_of q s].
Proof.
  revert q. induction s as [|x s IH]; intros q; cbn; [by exists []|]. destruct (IH x) as [s0 ->]. by exists (q :: s0).
Qed.

(** ** The operations on a represented state *)

Section Sim.
Context {K : Type} `{Services K}.
Implicit Types (st : sched_state K) (rs : ring_state K).

Lemma proc_eq st a q : procs st !! a = Some q -> proc a st = OK (q, st).
Proof. unfold proc. by intros ->. Qed.
Lemma upd_proc_eq st a q f : procs st !! a = Some q ->
  upd_proc a f st = OK (tt, set_procs (<[a := f q]> (procs st)) st).
Proof. unfold upd_proc. by intros ->. Qed.

Lemma rep_head st rs : represents st rs -> exists p l n, rl rs = p :: l /\ current_process st = a_addr p /\
  procs st !! a_addr p = Some (node_of p n) /\ chain (procs st) n l (a_addr p).
Proof.
  intros [_ _ Hc _ (k & Hk & _) _]. destruct (rl rs) as [|p l]; [by apply not_elem_of_nil in Hk|].
  destruct Hc as (E & n & Hn & Hc). rewrite E in *. by exists p, l, n.
Qed.

Lemma rep_elem st rs p : represents st rs -> p ∈ rl rs -> exists n, procs st !! a_addr p = Some (node_of p n).
Proof. intros Hr Hp. eapply chain_elem; [apply Hr|done]. Qed.

Lemma kernel_PML4_eq st rs : represents st rs ->
  process_scheduler_get_kernel_PML4 st = OK (kernel_pml4 (rl rs), st).
Proof.
  intros Hr. destruct (rp_kernel _ _ Hr) as (p & Hp & Ha & H0). destruct (rep_elem _ _ _ Hr Hp) as [n Hn].
  unfold process_scheduler_get_kernel_PML4. unfold_m. rewrite <- Ha, (proc_eq _ _ _ Hn). cbn.
  by rewrite (kernel_pml4_eq _ _ _ (rp_ok _ _ Hr) Hp H0).
Qed.

Lemma current_PML4_eq st rs p l : represents st rs -> rl rs = p :: l ->
  process_scheduler_get_current_PML4 st = OK (a_PML4 p, st).
Proof.
  intros Hr El. destruct (rep_head _ _ Hr) as (p' & l' & n & El' & Hc & Hn & _). rewrite El in El'. injection El' as <- <-.
  unfold process_scheduler_get_current_PML4. unfold_m. by rewrite Hc, (proc_eq _ _ _ Hn).
Qed.

(** Searching forward from the current process. *)
Lemma find_loop_eq st t c0 q r fuel : (length r < fuel)%nat ->
  chain (procs st) (a_addr q) (q :: r) (a_addr c0) -> a_addr c0 ∉ a_addr <$> r ->
  find_loop fuel t (a_addr c0) (a_addr q) st = OK
    (match split_pid t (q :: r) with Some (_, p, _) => a_addr p | None => a_addr c0 end, st).
Proof.
  revert q fuel. induction r as [|q' r IH]; intros q [|fuel] Hf Hc Hn; cbn in Hf; try lia;
    destruct Hc as (_ & n & Hq & Hc); cbn [find_loop]; unfold bind; rewrite (proc_eq _ _ _ Hq); cbn [obind node_of pid next split_pid].
  - cbn in Hc. subst n. destruct (a_pid q =? t); [done|]. by rewrite Z.eqb_refl.
  - destruct (a_pid q =? t); [done|]. pose proof (chain_start _ _ _ _ _ Hc) as ->. cbn in Hn. rewrite not_elem_of_cons in Hn.
    rewrite (proj2 (Z.eqb_neq _ _)) by (destruct Hn; congruence). unfold bind in IH. rewrite IH by (done || lia || tauto).
    cbn [split_pid]. destruct (a_pid q' =? t); [done|]. by destruct (split_pid t r) as [[[]]|].
Qed.

Lemma find_process_eq st rs t fuel : represents st rs -> (length (rl rs) <= fuel)%nat ->
  find_process fuel t st = OK (match split_pid t (rl rs) with Some (_, p, _) => Some (a_addr p) | None => None end, st).
Proof.
  intros Hr Hf. destruct (rep_head _ _ Hr) as (p & l & n & El & Hc & Hn & Hch).
  pose proof (ro_addr _ _ (rp_ok _ _ Hr)) as Hnd. rewrite El in *. apply NoDup_cons in Hnd as [Hnd _].
  unfold find_process. unfold bind, gets, obind. rewrite Hc, (find_loop_eq _ t p p l fuel); [|cbn in Hf; lia| |done].
  2:{ split; [done|]. exists n. done. }
  destruct (split_pid t (p :: l)) as [[[l1 q] l2]|] eqn:E.
  - apply split_pid_Some in E as (E & Hq & _).
    destruct (rep_elem _ _ q Hr) as [n' Hn']; [rewrite El, E; set_solver|].
    rewrite (proc_eq _ _ _ Hn'). cbn. by rewrite Hq, Z.eqb_refl.
  - rewrite (proc_eq _ _ _ Hn). cbn. apply split_pid_None in E. cbn in E. rewrite not_elem_of_cons in E.
    by rewrite (proj2 (Z.eqb_neq _ _)) by (intros <-; tauto).
Qed.

(** Searching for the process before: the loop looks at each successor, the
    current process last. *)
Lemma find_previous_loop_eq st t c0 n0 q r fuel : (length r < fuel)%nat ->
  procs st !! a_addr c0 = Some (node_of c0 n0) ->
  chain (procs st) (a_addr q) (q :: r) (a_addr c0) -> a_addr c0 ∉ a_addr <$> r ->
  find_previous_loop fuel t (a_addr c0) (a_addr q) st = OK
    (match split_pid t (r ++ [c0]) with Some (s, _, _) => a_addr (last_of q s) | None => a_addr c0 end, st).
Proof.
  intros Hf H0. revert q fuel Hf. induction r as [|q' r IH]; intros q [|fuel] Hf Hc Hn; cbn in Hf; try lia;
    destruct Hc as (_ & n & Hq & Hc); cbn [find_previous_loop app]; unfold bind; rewrite (proc_eq _ _ _ Hq); cbn [obind node_of next].
  - cbn in Hc. subst n. rewrite (proc_eq _ _ _ H0). cbn. destruct (a_pid c0 =? t); [done|]. by rewrite Z.eqb_refl.
  - pose proof (chain_start _ _ _ _ _ Hc) as ->. pose proof Hc as (_ & n' & Hq' & _). rewrite (proc_eq _ _ _ Hq'). cbn [obind node_of pid].
    cbn in Hn. rewrite not_elem_of_cons in Hn. cbn [split_pid]. destruct (a_pid q' =? t); [done|].
    rewrite (proj2 (Z.eqb_neq _ _)) by (destruct Hn; congruence). unfold bind in IH. rewrite IH by (done || lia || tauto).
    by destruct (split_pid t (r ++ [c0])) as [[[s u] v]|].
Qed.

(** In a ring with at least one other process, the search for [p] ends at the
    node whose link points to [p]. *)
Lemma find_previous_eq st rs t fuel l1 p l2 : represents st rs -> (length (rl rs) <= fuel)%nat ->
  split_pid t (rl rs) = Some (l1, p, l2) -> l2 ++ l1 <> [] ->
  exists s q, l2 ++ l1 = s ++ [q] /\ find_previous_process fuel t st = OK (Some (a_addr q), st) /\
    procs st !! a_addr q = Some (node_of q (a_addr p)).
Proof.
  intros Hr Hf Hs Hne. pose proof (split_pid_Some _ _ _ _ _ Hs) as (El & Hp & Hl1).
  destruct (rep_head _ _ Hr) as (c & l & n & Ec & Hc & Hn & Hch).
  destruct (last_of_snoc p (l2 ++ l1)) as [s Hlast].
  destruct s as [|p' s]; [injection Hlast as E1 E2; congruence|]. injection Hlast as <- Hlast.
  exists s, (last_of p (l2 ++ l1)). split; [done|].
  assert (procs st !! a_addr (last_of p (l2 ++ l1)) = Some (node_of (last_of p (l2 ++ l1)) (a_addr p))) as Hq.
  { pose proof (rp_chain _ _ Hr) as HC. rewrite El in HC. apply chain_rotate in HC as (_ & n' & _ & HC).
    rewrite Hlast in HC at 1. by apply chain_last in HC as [? _]. }
  split; [|done].
  pose proof (ro_addr _ _ (rp_ok _ _ Hr)) as Hnd. pose proof (ro_pid _ _ (rp_ok _ _ Hr)) as Hpd. rewrite Ec in *.
  apply NoDup_cons in Hnd as [Hnd _], Hpd as [Hpd _].
  unfold find_previous_process. unfold bind, gets, obind. rewrite Hc.
  rewrite (find_previous_loop_eq _ t c n c l fuel); [|cbn in Hf; lia|done| |done]. 2:{ split; [done|]. by exists n. }
  assert (match split_pid t (l ++ [c]) with Some (s', _, _) => a_addr (last_of c s') | None => a_addr c end =
          a_addr (last_of p (l2 ++ l1))) as ->.
  { destruct l1 as [|c' l1]; cbn in El; injection El as <- ->.
    - rewrite split_pid_eq; [by rewrite app_nil_r|done|]. by rewrite <- Hp.
    - rewrite <- app_assoc. cbn. rewrite split_pid_eq; [|done|]. 
      2:{ cbn in Hl1. rewrite not_elem_of_cons in Hl1. tauto. }
      clear. f_equal. revert p. induction l2 as [|x l2 IH]; intros p; [done|]. cbn. apply IH. }
  rewrite (proc_eq _ _ _ Hq). cbn. destruct (rep_elem _ _ p Hr) as [n' Hn']; [rewrite Ec, El; set_solver|].
  rewrite (proc_eq _ _ _ Hn'). cbn. by rewrite Hp, Z.eqb_refl.
Qed.

Lemma find_previous_none st rs t fuel : represents st rs -> (length (rl rs) <= fuel)%nat ->
  split_pid t (rl rs) = None -> find_previous_process fuel t st = OK (None, st).
Proof.
  intros Hr Hf Hs%split_pid_None. destruct (rep_head _ _ Hr) as (c & l & n & Ec & Hc & Hn & Hch).
  pose proof (ro_addr _ _ (rp_ok _ _ Hr)) as Hnd. rewrite Ec in *. apply NoDup_cons in Hnd as [Hnd _].
  unfold find_previous_process. unfold bind, gets, obind. rewrite Hc.
  rewrite (find_previous_loop_eq _ t c n c l fuel); [|cbn in Hf; lia|done| |done]. 2:{ split; [done|]. by exists n. }
  cbn in Hs. rewrite not_elem_of_cons in Hs.
  rewrite (proj2 (split_pid_None t (l ++ [c]))) by (rewrite fmap_app, elem_of_app; cbn; set_solver).
  rewrite (proc_eq _ _ _ Hn). cbn. destruct l as [|c' l]; cbn in Hch.
  - subst n. rewrite (proc_eq _ _ _ Hn). cbn. by rewrite (proj2 (Z.eqb_neq _ _)) by naive_solver.
  - destruct Hch as (-> & n' & Hn' & _). rewrite (proc_eq _ _ _ Hn'). cbn. cbn in Hs. rewrite not_elem_of_cons in Hs.
    by rewrite (proj2 (Z.eqb_neq _ _)) by naive_solver.
Qed.

Definition fits (fuel : nat) (rs : ring_state K) : Prop := (length (rl rs) <= fuel)%nat.

Lemma others_nonempty l1 p l2 h : ring_ok (l1 ++ p :: l2) h -> a_pid p <> 0 -> l2 ++ l1 <> [].
Proof.
  intros Hok Hp E. apply (ring_ok_drop _ _ _ _ Hp) in Hok. rewrite E in Hok.
  by apply (ro_kernel _ _), not_elem_of_nil in Hok.
Qed.

Lemma others_differ st rs l1 p l2 s q : represents st rs -> rl rs = l1 ++ p :: l2 -> l2 ++ l1 = s ++ [q] -> a_addr q <> a_addr p.
Proof.
  intros Hr El Es E. pose proof (ro_addr _ _ (rp_ok _ _ Hr)) as Hnd. rewrite El in Hnd.
  assert (NoDup (a_addr <$> p :: s ++ [q])) as Hp.
  { rewrite <- Es. eapply NoDup_Permutation_proper; [|exact Hnd]. apply fmap_Permutation. solve_Permutation. }
  rewrite fmap_cons in Hp. apply NoDup_cons in Hp as [[] _]. rewrite <- E. apply list_elem_of_fmap. exists q. set_solver.
Qed.

(** The state after a removal represents the list without the process. *)
Lemma removed_represents st rs l1 p l2 s q n k : represents st rs -> rl rs = l1 ++ p :: l2 -> a_pid p <> 0 ->
  l2 ++ l1 = s ++ [q] -> procs st !! a_addr p = Some (node_of p n) ->
  procs st !! a_addr q = Some (node_of q (a_addr p)) ->
  represents (set_current n (set_procs (<[a_addr q := node_of q n]> (delete (a_addr p) (procs st))) (set_kern k st)))
             (mk_ring k (l2 ++ l1) (rhigh rs)).
Proof.
  intros [H1 H2 Hc Hd (kp & Hkp & Hka & Hk0) Hok] El Hp Es Hn Hq. rewrite El in *.
  pose proof (ro_addr _ _ Hok) as Hnd. pose proof Hc as (_ & n' & Hn' & HC)%chain_rotate.
  rewrite Hn in Hn'. injection Hn' as <-. rewrite Es in HC. apply chain_last in HC as [_ HC].
  assert (NoDup (a_addr <$> p :: s ++ [q])) as Hnd'.
  { rewrite <- Es. eapply NoDup_Permutation_proper; [|exact Hnd]. apply fmap_Permutation. solve_Permutation. }
  rewrite fmap_cons, fmap_app in Hnd'. apply NoDup_cons in Hnd' as [Hps (_ & Hsq & _)%NoDup_app].
  change (a_addr <$> [q]) with [a_addr q] in *. rewrite elem_of_app, list_elem_of_singleton in Hps.
  split; cbn; [done|done| | | |by apply (ring_ok_drop _ p)].
  - rewrite Es. apply chain_app. exists (a_addr q). split.
    + apply chain_insert; [intros Hin; by eapply Hsq, list_elem_of_singleton|]. apply chain_delete; [tauto|done].
    + split; [done|]. exists n. by rewrite lookup_insert_eq.
  - rewrite dom_insert_L, dom_delete_L, Hd, Es, !fmap_app. cbn. rewrite fmap_app, !list_to_set_app_L in *. cbn.
    assert (a_addr <$> l1 ++ p :: l2 ≡ₚ a_addr <$> p :: s ++ [q]) as EP by (rewrite <- Es; apply fmap_Permutation; solve_Permutation).
    assert (list_to_set (C := gset Z) (a_addr <$> l1 ++ p :: l2) = {[a_addr p]} ∪ (list_to_set (a_addr <$> s) ∪ {[a_addr q]})) as E2.
    { apply leibniz_equiv. rewrite EP. cbn. rewrite fmap_app, list_to_set_app. cbn. set_solver. }
    rewrite fmap_app, list_to_set_app_L in E2. cbn in E2. rewrite E2. set_solver.
  - exists kp. split_and!; [|done..]. rewrite elem_of_app, elem_of_cons in Hkp. rewrite elem_of_app.
    destruct Hkp as [?|[->|?]]; [tauto|congruence|tauto].
Qed.

Lemma in_kern_step {A B} (m : M K A) (k : A -> M (sched_state K) B) st :
  bind (in_kern m) k st = obind (m (kern st)) (fun '(a, k1) => k a (set_kern k1 st)).
Proof. unfold bind, in_kern, zoom. by destruct (m (kern st)) as [[]| | |]. Qed.

Lemma on_rk_step {A B} (m : M K A) (k : A -> M (ring_state K) B) rs :
  bind (on_rk m) k rs = obind (m (rk rs)) (fun '(a, k1) => k a (mk_ring k1 (rl rs) (rhigh rs))).
Proof. unfold bind, on_rk, zoom. by destruct (m (rk rs)) as [[]| | |]. Qed.

Lemma set_kern_represents st rs k : represents st rs -> represents (set_kern k st) (mk_ring k (rl rs) (rhigh rs)).
Proof. by intros []; split. Qed.

Lemma obind_bind {St A B C} (m : M St A) (k : A -> M St B) (f : B * St -> outcome C) s :
  obind (bind m k s) f = obind (m s) (fun '(a, s1) => obind (k a s1) f).
Proof. unfold bind. by destruct (m s) as [[]| | |]. Qed.

(** Run one service on both sides. *)
Ltac service := rewrite in_kern_step, ?obind_bind; cbn [kern set_kern];
  match goal with |- obind (?m ?k) _ = obind (?m ?k) _ => destruct (m k) as [[[] ?]| | |]; cbn [obind]; [|done..] end;
  repeat change (set_kern ?a (set_kern ?b ?s)) with (set_kern a s).

Lemma remove_eq fuel t st rs l1 p l2 n s q : represents st rs -> fits fuel rs -> t <> 0 ->
  split_pid t (rl rs) = Some (l1, p, l2) -> procs st !! a_addr p = Some (node_of p n) -> l2 ++ l1 = s ++ [q] ->
  procs st !! a_addr q = Some (node_of q (a_addr p)) -> find_previous_process fuel t st = OK (Some (a_addr q), st) ->
  process_scheduler_remove_process fuel t st = obind (teardown p (kernel_pml4 (rl rs)) (kern st)) (fun '(_, k) =>
    OK (true, set_current n (set_procs (<[a_addr q := node_of q n]> (delete (a_addr p) (procs st))) (set_kern k st)))).
Proof.
  intros Hr Hf Ht Es Hn Eq Hq Hfp. unfold process_scheduler_remove_process, teardown.
  rewrite (proj2 (Z.eqb_neq _ _) Ht), (bind_step _ _ _ _ _ Hfp), (bind_step _ _ _ _ _ (proc_eq _ _ _ Hq)).
  cbn [node_of next]. rewrite (bind_step _ _ _ _ _ (proc_eq _ _ _ Hn)). cbn [node_of next PML4].
  do 3 service. rewrite (bind_step _ _ _ _ _ (kernel_PML4_eq _ _ (set_kern_represents _ _ _ Hr))). cbn [rl].
  do 3 service. unfold free_proc.
  match goal with |- bind (bind ?a ?b) ?c ?s = _ => change (bind (bind a b) c s) with (obind (bind a b s) (fun '(x, s') => c x s')) end.
  rewrite obind_bind. unfold in_kern, zoom. cbn [kern set_kern].
  destruct (k_free (a_addr p) _) as [[[] k']| | |]; cbn [obind]; [|done..].
  assert (a_addr q <> a_addr p) as Hne by (eapply others_differ; [done|by apply split_pid_Some in Es as (-> & _)|done]).
  cbn. unfold bind. rewrite (upd_proc_eq _ _ (node_of q (a_addr p))); [done|].
  cbn. by rewrite lookup_delete_ne.
Qed.

Lemma remove_sim fuel t : simulates (fits fuel) (process_scheduler_remove_process fuel t) (ring_remove t).
Proof.
  intros st rs Hr Hf. unfold ring_remove. destruct (Z.eqb_spec t 0) as [->|Ht]; [by exists st|].
  destruct (split_pid t (rl rs)) as [[[l1 p] l2]|] eqn:Es.
  2:{ exists st. split; [|done]. unfold process_scheduler_remove_process. rewrite (proj2 (Z.eqb_neq _ _) Ht).
      by rewrite (bind_step _ _ _ _ _ (find_previous_none st rs t fuel Hr Hf Es)). }
  pose proof (split_pid_Some _ _ _ _ _ Es) as (El & Hp & _). pose proof (rp_ok _ _ Hr) as Hok. rewrite El in Hok.
  destruct (find_previous_eq st rs t fuel l1 p l2 Hr Hf Es) as (s & q & Eq & Hfp & Hq).
  { eapply others_nonempty; [done|congruence]. }
  destruct (rep_elem st rs p Hr) as [n Hn]; [rewrite El; set_solver|].
  rewrite (remove_eq fuel t st rs l1 p l2 n s q) by done. rewrite on_rk_step, (rp_kern _ _ Hr).
  destruct (teardown p (kernel_pml4 (rl rs)) (rk rs)) as [[[] k]| | |]; cbn [obind]; [|done..].
  eexists. split; [done|]. apply (removed_represents st rs l1 p l2 s q n k); try done. congruence.
Qed.

(** Rewriting the data of one process, wherever it is in the ring. *)
Lemma update_represents st rs l1 p p' l2 : represents st rs -> rl rs = l1 ++ p :: l2 ->
  a_addr p' = a_addr p -> a_pid p' = a_pid p ->
  exists n, procs st !! a_addr p = Some (node_of p n) /\
    represents (set_procs (<[a_addr p := node_of p' n]> (procs st)) st) (set_rl (l1 ++ p' :: l2) rs).
Proof.
  intros [H1 H2 Hc Hd (kp & Hkp & Hka & Hk0) Hok] El Ea Ep. rewrite El in *.
  destruct (chain_update _ _ _ _ p' _ _ (ro_addr _ _ Hok) Ea Hc) as (n & Hn & Hc').
  exists n. split; [done|]. split; cbn; [done|done|done| | |by apply (ring_ok_update _ p)].
  - rewrite dom_insert_lookup_L, Hd by eauto. rewrite !fmap_app. cbn. by rewrite Ea.
  - rewrite elem_of_app, elem_of_cons in Hkp. destruct Hkp as [?|[->|?]].
    + exists kp. split_and!; [set_solver|done..].
    + exists p'. split_and!; [set_solver|congruence..].
    + exists kp. split_and!; [set_solver|done..].
Qed.

Lemma map_untouched (l : list aproc) t f : t ∉ a_pid <$> l -> (fun q => if a_pid q =? t then f q else q) <$> l = l.
Proof.
  induction l as [|q l IH]; [done|]. rewrite !fmap_cons, not_elem_of_cons. intros [Hq Hl].
  rewrite (proj2 (Z.eqb_neq _ _)) by congruence. by rewrite IH.
Qed.

(** Changing a map over the ring that concerns one pid. *)
Lemma map_pid l1 p l2 h t f : ring_ok (l1 ++ p :: l2) h -> a_pid p = t ->
  (fun q => if a_pid q =? t then f q else q) <$> (l1 ++ p :: l2) = l1 ++ f p :: l2.
Proof.
  intros [_ Hnd _ _ _] Hp. rewrite fmap_app, fmap_cons in Hnd. rewrite fmap_app, fmap_cons, Hp, Z.eqb_refl.
  rewrite Hp in Hnd.
  apply NoDup_app in Hnd as (_ & H1 & [H2 _]%NoDup_cons).
  f_equal; [|f_equal].
  - apply map_untouched. intros Hin. eapply H1; [exact Hin|apply list_elem_of_here].
  - by apply map_untouched.
Qed.

Lemma send_signals_sim fuel t sigs : simulates (fits fuel) (process_scheduler_send_signals fuel t sigs) (ring_signal t sigs).
Proof.
  intros st rs Hr Hf. cbn. unfold process_scheduler_send_signals.
  rewrite (bind_step _ _ _ _ _ (find_process_eq st rs t fuel Hr Hf)).
  destruct (split_pid t (rl rs)) as [[[l1 p] l2]|] eqn:E.
  - apply split_pid_Some in E as (El & Hp & _).
    destruct (update_represents st rs l1 p (with_sigs (Z.lor (a_sigs p) sigs) p) l2 Hr El eq_refl eq_refl) as (n & Hn & Hr').
    rewrite (upd_proc_eq _ _ _ _ Hn). eexists. split; [done|].
    pose proof (rp_ok _ _ Hr) as Hok. rewrite El in Hok. rewrite El, (map_pid _ _ _ _ t (fun p => with_sigs (Z.lor (a_sigs p) sigs) p) Hok Hp). done.
  - exists st. split; [done|]. apply split_pid_None in E. rewrite map_untouched by done. by destruct rs.
Qed.

Lemma remove_zero fuel st : process_scheduler_remove_process fuel 0 st = OK (false, st).
Proof. done. Qed.

(** Removing the head. *)
Lemma ring_remove_head rs p l : rl rs = p :: l -> a_pid p <> 0 ->
  ring_remove (a_pid p) rs = obind (teardown p (kernel_pml4 (rl rs)) (rk rs)) (fun '(_, k) => OK (true, mk_ring k (l ++ []) (rhigh rs))).
Proof.
  intros El Hp. unfold ring_remove. rewrite (proj2 (Z.eqb_neq _ _) Hp), on_rk_step || rewrite (proj2 (Z.eqb_neq _ _) Hp).
  rewrite El. cbn [split_pid]. rewrite Z.eqb_refl, on_rk_step. by rewrite El.
Qed.

Lemma fatal_signal_zero fuel a q st sigs sig name : procs st !! a = Some q -> pid q = 0 ->
  fatal_signal fuel a sigs sig name st = OK (false, st).
Proof.
  intros Hq H0. unfold fatal_signal. destruct (negb _); [|done].
  by rewrite (bind_step _ _ _ _ _ (proc_eq _ _ _ Hq)), H0.
Qed.

(** A service called on both sides. *)
Lemma implements_service {A B} (m : M K A) st rs (k : A -> M (sched_state K) B) k' : represents st rs ->
  (forall a k1, m (rk rs) = OK (a, k1) -> implements (k a (set_kern k1 st)) (k' a (mk_ring k1 (rl rs) (rhigh rs)))) ->
  implements (bind (in_kern m) k st) (bind (on_rk m) k' rs).
Proof.
  intros Hr Hk. rewrite in_kern_step, on_rk_step, (rp_kern _ _ Hr).
  destruct (m (rk rs)) as [[a k1]| | |] eqn:E; cbn; [by apply Hk|done..].
Qed.

Lemma implements_print st rs msg : represents st rs -> represents (emit msg st) (mk_ring (emit msg (rk rs)) (rl rs) (rhigh rs)).
Proof. intros Hr. unfold emit at 1, sched_console. rewrite (rp_kern _ _ Hr). by apply set_kern_represents. Qed.

(** The handler of a fatal signal on the head, when it is pending. *)
Lemma fatal_signal_sim fuel st rs p l sigs sig name : represents st rs -> fits fuel rs -> rl rs = p :: l -> a_pid p <> 0 ->
  Z.land sigs sig <> 0 ->
  implements (fatal_signal fuel (a_addr p) sigs sig name st) ((ring_remove (a_pid p) ;;; on_rk (screen_print name) ;;; ret true) rs).
Proof.
  intros Hr Hf El Hp Hs. unfold fatal_signal. rewrite (proj2 (Z.eqb_neq _ _) Hs). cbn [negb].
  destruct (rep_head _ _ Hr) as (p' & l' & n & El' & _ & Hn & _). rewrite El in El'. injection El' as <- <-.
  rewrite (bind_step _ _ _ _ _ (proc_eq _ _ _ Hn)). cbn [node_of pid].
  apply implements_bind; [by apply remove_sim|]. intros a st1 rs1 E Hr1.
  rewrite (ring_remove_head rs p l El Hp) in E. apply obind_OK in E as ([[] k] & _ & [= <- _]).
  cbn. eexists. split; [done|]. by apply implements_print.
Qed.

Lemma handle_signals_sim fuel : simulates (fits fuel) (fun st => handle_signals fuel (current_process st) st) ring_handle.
Proof.
  intros st rs Hr Hf. destruct (rep_head _ _ Hr) as (p & l & n & El & Hc & Hn & _).
  destruct (update_represents st rs [] p (with_sigs 0 p) l Hr El eq_refl eq_refl) as (n' & Hn' & Hr').
  rewrite Hn in Hn'. injection Hn' as <-. cbn [app] in Hr'.
  unfold handle_signals, ring_handle. rewrite Hc.
  rewrite (bind_step _ _ _ _ _ (proc_eq _ _ _ Hn)). cbn [node_of pending_signals].
  rewrite (bind_step _ _ _ _ _ (upd_proc_eq _ _ _ (set_signals 0) Hn)).
  rewrite (bind_step ring_head _ rs p rs) by (unfold ring_head; by rewrite El).
  rewrite (bind_step (modify _) _ rs tt (set_rl (with_sigs 0 p :: l) rs)) by (unfold modify; by rewrite El).
  change (set_signals 0 (node_of p n)) with (node_of (with_sigs 0 p) n).
  set (st1 := set_procs _ _) in *. set (rs1 := set_rl _ _) in *.
  assert (fits fuel rs1) as Hf1 by (unfold fits in *; rewrite El in Hf; done).
  assert (procs st1 !! a_addr p = Some (node_of (with_sigs 0 p) n)) as Hn1 by (subst st1; cbn; by rewrite lookup_insert_eq).
  destruct (Z.eqb_spec (a_pid p) 0) as [H0|H0].
  { rewrite (bind_step _ _ _ _ _ (fatal_signal_zero fuel _ _ _ _ _ _ Hn1 H0)).
    rewrite (bind_step _ _ _ _ _ (fatal_signal_zero fuel _ _ _ _ _ _ Hn1 H0)).
    unfold fatal. rewrite (proj2 (Z.eqb_eq _ _) H0). cbn. eauto. }
  unfold fatal, fatal_name. rewrite (proj2 (Z.eqb_neq _ _) H0). cbn [negb andb].
  destruct (Z.eqb_spec (Z.land (a_sigs p) SIG_ABRT) 0) as [Ha|Ha]; cbn [negb orb].
  - unfold bind at 1, fatal_signal at 1. rewrite Ha. cbn [negb Z.eqb ret obind].
    destruct (Z.eqb_spec (Z.land (a_sigs p) SIG_KILL) 0) as [Hk|Hk]; cbn [negb].
    + unfold bind, fatal_signal. rewrite Hk. cbn. eauto.
    + pose proof (fatal_signal_sim fuel st1 rs1 (with_sigs 0 p) l (a_sigs p) SIG_KILL "SIGKILL\n" Hr' Hf1 eq_refl H0 Hk) as Hs.
      revert Hs. cbn [a_addr a_pid with_sigs]. set (o' := (_ ;;; _) rs1). intros Hs.
      unfold bind. destruct o' as [[b rs']| | |]; cbn in Hs |- *; [|by rewrite Hs..].
      destruct Hs as (st' & -> & ?). cbn. eauto.
  - pose proof (fatal_signal_sim fuel st1 rs1 (with_sigs 0 p) l (a_sigs p) SIG_ABRT "SIGABRT\n" Hr' Hf1 eq_refl H0 Ha) as Hs.
    revert Hs. cbn [a_addr a_pid with_sigs]. set (o' := (_ ;;; _) rs1). intros Hs.
    assert (forall b rs', o' = OK (b, rs') -> b = true) as Hb.
    { subst o'. intros b rs' (? & ? & _ & (? & ? & _ & [= <- _])%bind_OK)%bind_OK. done. }
    unfold bind. destruct o' as [[b rs']| | |]; cbn in Hs |- *; [|by rewrite Hs..].
    destruct Hs as (st' & -> & ?). rewrite (Hb b rs' eq_refl). cbn. eauto.
Qed.

Lemma rotate_represents st rs p l n : represents st rs -> rl rs = p :: l -> procs st !! a_addr p = Some (node_of p n) ->
  represents (set_current n st) (set_rl (rotate (rl rs)) rs).
Proof.
  intros [H1 H2 Hc Hd (kp & Hkp & Hka & Hk0) Hok] El Hn. rewrite El in *.
  pose proof (chain_start _ _ _ _ _ Hc) as Ec. destruct Hc as (_ & n' & Hn' & Hc). rewrite Ec, Hn in Hn'. injection Hn' as <-.
  split; cbn; [done|done| | |exists kp; set_solver|].
  - apply chain_app. exists (a_addr p). rewrite Ec in Hc. split; [done|]. split; [done|]. by exists n.
  - rewrite Hd. apply leibniz_equiv. rewrite fmap_app, list_to_set_app. cbn. set_solver.
  - eapply ring_ok_perm; [|done]. solve_Permutation.
Qed.

Lemma rotate_length l : length (rotate l) = length l.
Proof. destruct l; [done|]. cbn. rewrite length_app. cbn. lia. Qed.

Lemma ring_handle_killed rs rs' : ring_handle rs = OK (true, rs') -> S (length (rl rs')) = length (rl rs).
Proof.
  unfold ring_handle, ring_head. intros (p & rs1 & E1 & E2)%bind_OK. destruct (rl rs) as [|p' l] eqn:El; [done|].
  injection E1 as <- <-. apply bind_OK in E2 as ([] & rs2 & [= <-] & E3). rewrite El in E3. cbn [on_head] in E3.
  destruct (fatal p') eqn:Ef; [|done]. apply andb_true_iff in Ef as [H0%negb_true_iff%Z.eqb_neq _].
  apply bind_OK in E3 as (? & rs3 & E3 & (? & ? & E4 & [= <-])%bind_OK). apply zoom_OK in E4 as (? & _ & ->).
  change (a_pid p') with (a_pid (with_sigs 0 p')) in E3. rewrite (ring_remove_head (set_rl (with_sigs 0 p' :: l) rs) (with_sigs 0 p') l eq_refl H0) in E3.
  apply obind_OK in E3 as ([[] k] & _ & [= _ <-]). cbn. by rewrite app_nil_r.
Qed.

Lemma pick_sim n fuel ring_fuel : (n <= fuel)%nat ->
  simulates (fun rs => (length (rl rs) <= n)%nat /\ fits ring_fuel rs) (pick_loop fuel ring_fuel) (ring_pick n).
Proof.
  revert fuel. induction n as [|n IH]; intros fuel Hn st rs Hr [Hl Hf];
    destruct (rep_head _ _ Hr) as (p & l & nx & El & Hc & Hnx & _); [rewrite El in Hl; cbn in Hl; lia|].
  destruct fuel as [|fuel]; [lia|]. cbn [pick_loop ring_pick].
  unfold bind at 1, gets at 1. cbn [obind]. rewrite Hc, (bind_step _ _ _ _ _ (proc_eq _ _ _ Hnx)). cbn [node_of next].
  pose proof (rotate_represents _ _ _ _ _ Hr El Hnx) as Hr1.
  rewrite (bind_step (modify (set_current nx)) _ st tt (set_current nx st)) by done.
  rewrite (bind_step (modify _) _ rs tt (set_rl (rotate (rl rs)) rs)) by done.
  assert (fits ring_fuel (set_rl (rotate (rl rs)) rs)) as Hf1 by (unfold fits; cbn; by rewrite rotate_length).
  apply implements_bind; [by apply (handle_signals_sim ring_fuel _ _ Hr1 Hf1)|].
  intros [|] st2 rs2 E Hr2; [|cbn; eauto]. apply ring_handle_killed in E. cbn in E. rewrite rotate_length in E.
  apply IH; [lia|done|]. unfold fits in *. cbn in Hf1. rewrite rotate_length in Hf1. lia.
Qed.

Lemma next_sim fuel r : simulates (fits fuel) (process_scheduler_next_process fuel r) (ring_next r).
Proof.
  intros st rs Hr Hf. destruct (rep_head _ _ Hr) as (p & l & n & El & Hc & Hn & _).
  destruct (update_represents st rs [] p (with_regs r p) l Hr El eq_refl eq_refl) as (n' & Hn' & Hr1).
  rewrite Hn in Hn'. injection Hn' as <-. cbn [app] in Hr1.
  unfold process_scheduler_next_process, ring_next. unfold bind at 1, gets at 1. cbn [obind]. rewrite Hc.
  rewrite (bind_step _ _ _ _ _ (upd_proc_eq _ _ _ (set_regs r) Hn)).
  rewrite (bind_step (modify _) _ rs tt (set_rl (with_regs r p :: l) rs)) by (unfold modify; by rewrite El).
  change (set_regs r (node_of p n)) with (node_of (with_regs r p) n). rewrite (bind_step _ _ _ _ _ (kernel_PML4_eq _ _ Hr1)).
  rewrite (bind_step (gets _) _ (set_rl (with_regs r p :: l) rs) _ _ eq_refl).
  set (st1 := set_procs _ _) in *. set (rs1 := set_rl _ rs) in *.
  assert (fits fuel rs1) as Hf1 by (unfold fits in *; rewrite El in Hf; done). clearbody st1 rs1. clear - Hr1 Hf1.
  apply implements_service; [done|]. intros [] k1 _. apply implements_service; [by apply set_kern_represents|]. intros [] k2 _.
  cbn [rl rhigh]. change (set_kern k2 (set_kern k1 st1)) with (set_kern k2 st1).
  apply implements_bind; [apply (pick_sim (length (rl rs1))); [done|by apply set_kern_represents|done]|].
  intros [] st2 rs2 _ Hr2. destruct (rep_head _ _ Hr2) as (q & l2 & n2 & El2 & Hc2 & Hn2 & _).
  unfold bind at 1, gets at 1. cbn [obind]. rewrite Hc2, (bind_step _ _ _ _ _ (proc_eq _ _ _ Hn2)). cbn [node_of PML4 regs].
  rewrite (bind_step ring_head _ rs2 q rs2) by (unfold ring_head; by rewrite El2).
  rewrite (bind_step _ _ _ _ _ (kernel_PML4_eq _ _ Hr2)), (bind_step (gets _) _ rs2 _ _ eq_refl).
  apply implements_service; [done|]. intros [] k3 _. apply implements_service; [by apply set_kern_represents|]. intros [] k4 _.
  apply implements_service; [apply (set_kern_represents st2 rs2 k4 Hr2)|]. intros [] k5 _. cbn.
  eexists. split; [done|]. apply (set_kern_represents st2 rs2 k5 Hr2).
Qed.

Lemma exit_sim fuel : simulates (fits fuel) (process_scheduler_exit fuel) ring_exit.
Proof.
  intros st rs Hr Hf. destruct (rep_head _ _ Hr) as (p & l & n & El & Hc & Hn & _).
  unfold process_scheduler_exit, ring_exit. unfold bind at 1, gets at 1. cbn [obind]. rewrite Hc.
  rewrite (bind_step _ _ _ _ _ (proc_eq _ _ _ Hn)), (bind_step ring_head _ rs p rs) by (unfold ring_head; by rewrite El).
  apply implements_bind; [by apply remove_sim|]. intros _ st2 rs2 _ Hr2.
  destruct (rep_head _ _ Hr2) as (q & l2 & n2 & El2 & Hc2 & Hn2 & _).
  unfold bind at 1, gets at 1. cbn [obind]. rewrite Hc2, (bind_step _ _ _ _ _ (proc_eq _ _ _ Hn2)).
  rewrite (bind_step ring_head _ rs2 q rs2) by (unfold ring_head; by rewrite El2). cbn. eauto.
Qed.

(** The allocator returns a block that is not in use, and pids have not run
    out. *)
Definition can_add (rs : ring_state K) : Prop :=
  rhigh rs < 2 ^ 32 - 1 /\ forall p k, k_malloc PROCESS_SIZE (rk rs) = OK (p, k) -> p ∉ a_addr <$> rl rs.

Lemma add_sim code pml4 lvl : simulates can_add (process_scheduler_add_process code pml4 lvl) (ring_add code pml4 lvl).
Proof.
  intros st rs Hr [Hh Hfresh]. unfold process_scheduler_add_process, ring_add.
  apply implements_service; [done|]. intros a k1 Hm. specialize (Hfresh a k1 Hm). clear Hm.
  destruct (rep_head _ _ Hr) as (p & l & n & El & Hc & Hn & Hch).
  unfold bind, modify, gets, proc, new_proc, upd_proc, ret, undefined.
  cbn -[wrap start_regs]. rewrite Hc. destruct (Z.eqb_spec a 0) as [->|Ha]; [done|]. cbn -[wrap start_regs].
  rewrite Hn. cbn -[wrap start_regs]. rewrite El in *. rewrite fmap_cons, not_elem_of_cons in Hfresh. destruct Hfresh as [Hap Hal].
  rewrite lookup_insert_ne by done. rewrite Hn. eexists. split; [by rewrite (rp_high _ _ Hr)|].
  destruct Hr as [H1 H2 _ Hd (kp & Hkp & Hka & Hk0) [O1 O2 O3 O4 O5]]. rewrite El in *. cbn in O3, O4.
  rewrite wrap_id by (unfold in_range; lia). rewrite fmap_cons in O1, O2. apply NoDup_cons in O1 as [O1 O1'], O2 as [O2 O2'].
  split; cbn -[start_regs]; [done|done| | | |].
  - rewrite Hc. split; [done|]. exists a. rewrite lookup_insert_eq. split; [done|]. split; [done|]. exists n.
    rewrite lookup_insert_ne, lookup_insert_eq by done. split; [done|]. by repeat apply chain_insert.
  - rewrite !dom_insert_L, Hd. set_solver.
  - exists kp. split_and!; [|done..]. set_solver.
  - assert (forall q, q ∈ p :: l -> a_pid q <> rhigh rs + 1).
    { intros q Hq. apply (proj1 (Forall_forall _ _) O4) in Hq. lia. }
    split; cbn -[start_regs]; [|..].
    + apply NoDup_cons. rewrite not_elem_of_cons. split; [split; [done|done]|]. by apply NoDup_cons.
    + apply NoDup_cons. rewrite not_elem_of_cons. split; [split; [|done]; apply H0; set_solver|].
      apply NoDup_cons. split; [|done]. intros (q & Eq & Hq)%list_elem_of_fmap. apply (H0 q); [set_solver|done].
    + set_solver.
    + inversion_clear O4. constructor; [lia|]. constructor; [cbn; lia|]. eapply Forall_impl; [done|]. cbn. lia.
    + lia.
Qed.
End Sim.
