(* ===== verification/SchedThms.v ===== *)
(** * Properties of the process scheduler

    The code of [Scheduler] refines the abstract ring of [SchedSpec]; from
    this, an invariant of every reachable state, the round robin of context
    switches, and two behaviours around the removal of processes. *)
From S2P Require Import Prelude Mem Pmm Vmm Heap Allocator AllocInit Gdt Scheduler SchedSpec.

(** ** A recording kernel

    Services that always succeed and log their calls; block addresses are
    handed out in increasing order. It serves as a concrete instance. *)

Record recorder := mk_rec { r_next : Z; r_calls : list (string * Z) }.
Definition record (name : string) (arg : Z) : M recorder unit :=
  modify (fun r => mk_rec (r_next r) (r_calls r ++ [(name, arg)])).
#[global] Instance recorder_services : Services recorder := {|
  k_heap_init size _ := record "heap_init" size ;;; ret true;
  k_unmap_heap := record "unmap_heap" 0;
  k_malloc size := fun r => OK (r_next r, mk_rec (r_next r + size) (r_calls r));
  k_free p := record "free" p;
  k_set_PML4 p := record "set_PML4" p;
  k_load_cpu := record "load_cpu" 0;
  k_copy_kernel_PML4 to _ := record "copy_kernel_PML4" to;
  k_unmap_PML4 p := record "unmap_PML4" p;
  k_console := fun _ r => r
|}.

Definition blank : sched_state recorder := mk_sched (mk_rec 4096 []) ∅ 0 0 0.
(** Initialise and start three processes. *)
Definition boot3 : M (sched_state recorder) unit :=
  process_scheduler_init 7 ;;;
  process_scheduler_add_process 100 71 false ;;; process_scheduler_add_process 200 72 false ;;;
  process_scheduler_add_process 300 73 false ;;; ret tt.

Definition run_state {A} (m : M (sched_state recorder) A) (st : sched_state recorder) : sched_state recorder :=
  match m st with OK (_, st') => st' | _ => st end.
Definition booted : sched_state recorder := run_state (process_scheduler_init 7) blank.
Definition booted3 : sched_state recorder := run_state boot3 blank.

Lemma booted_eq : process_scheduler_init 7 blank = OK (tt, booted).
Proof. vm_compute. reflexivity. Qed.
Lemma booted3_eq : boot3 blank = OK (tt, booted3).
Proof. vm_compute. reflexivity. Qed.

(** ** Refinement *)

Lemma init_represents {K} `{Services K} kernel_PML4 st st' : procs st = ∅ -> highest_pid st = 0 ->
  process_scheduler_init kernel_PML4 st = OK (tt, st') ->
  exists p, represents st' (mk_ring (kern st') [mk_aproc p 0 zero_cpu 0 kernel_PML4] 0).
Proof.
  intros Hp Hh (? & s1 & [= _ <-] & E)%bind_OK. apply bind_OK in E as (ok & s2 & E1 & E).
  apply zoom_OK in E1 as (k1 & _ & ->). destruct ok; [|done]. cbn [negb] in E.
  apply bind_OK in E as (? & s3 & [= _ <-] & E). apply bind_OK in E as (p & s4 & E1 & E).
  apply zoom_OK in E1 as (k2 & _ & ->). apply bind_OK in E as (? & s5 & [= _ <-] & E).
  destruct (Z.eqb_spec p 0) as [|Hp0]; [done|]. apply bind_OK in E as (? & s6 & E1 & E).
  unfold new_proc in E1. rewrite (proj2 (Z.eqb_neq _ _) Hp0) in E1. injection E1 as _ <-.
  apply bind_OK in E as (? & s7 & [= _ <-] & E). apply bind_OK in E as (? & s8 & [= _ <-] & [= <-]).
  exists p. cbn. rewrite Hp. split; cbn; [done|done| | | |].
  - split; [done|]. exists p. by rewrite lookup_insert_eq.
  - rewrite dom_insert_L, dom_empty_L. set_solver.
  - eexists. split; [apply list_elem_of_here|done].
  - split; cbn; [apply NoDup_singleton..|set_solver| |lia]. constructor; [cbn; lia|constructor].
Qed.

(** C4: the scheduler's pointer code implements the abstract ring: started on
    no processes it represents the ring of the kernel process alone, and from
    any represented state each operation produces the same result and the same
    calls to the memory services as its abstract counterpart, in states that
    correspond again, and fails exactly when a service fails. The fuel of the
    list walks only has to cover the number of processes. *)
Theorem scheduler_refines_ring {K} `{Services K} fuel :
  (forall kernel_PML4 st st', procs st = ∅ -> highest_pid st = 0 -> process_scheduler_init kernel_PML4 st = OK (tt, st') ->
     exists p, represents st' (mk_ring (kern st') [mk_aproc p 0 zero_cpu 0 kernel_PML4] 0)) /\
  (forall code pml4 lvl, simulates (K := K) can_add (process_scheduler_add_process code pml4 lvl) (ring_add code pml4 lvl)) /\
  (forall t, simulates (K := K) (fits fuel) (process_scheduler_remove_process fuel t) (ring_remove t)) /\
  (forall t s, simulates (K := K) (fits fuel) (process_scheduler_send_signals fuel t s) (ring_signal t s)) /\
  simulates (K := K) (fits fuel) (process_scheduler_exit fuel) ring_exit /\
  forall r, simulates (K := K) (fits fuel) (process_scheduler_next_process fuel r) (ring_next r).
Proof.
  split_and!; intros; [by eapply init_represents|apply add_sim|apply remove_sim|apply send_signals_sim|apply exit_sim|apply next_sim].
Qed.
Lemma scheduler_refines_ring_witness : exists p,
  represents booted (mk_ring (kern booted) [mk_aproc p 0 zero_cpu 0 7] 0).
Proof. exact (proj1 (scheduler_refines_ring 0) 7 blank booted eq_refl eq_refl booted_eq). Defined.

(** ** Reachable states *)

Section Reach.
Context {K : Type} `{Services K} (kernel_PML4 : Z).

(** One call from outside; [fuel] covers the processes that exist. *)
Inductive sched_step : sched_state K -> sched_state K -> Prop :=
| step_add code pml4 lvl n st st' :
    highest_pid st < 2 ^ 32 - 1 -> (forall p k, k_malloc PROCESS_SIZE (kern st) = OK (p, k) -> procs st !! p = None) ->
    process_scheduler_add_process code pml4 lvl st = OK (n, st') -> sched_step st st'
| step_remove fuel t b st st' : (size (procs st) <= fuel)%nat ->
    process_scheduler_remove_process fuel t st = OK (b, st') -> sched_step st st'
| step_signal fuel t s st st' : (size (procs st) <= fuel)%nat ->
    process_scheduler_send_signals fuel t s st = OK (tt, st') -> sched_step st st'
| step_exit fuel r st st' : (size (procs st) <= fuel)%nat ->
    process_scheduler_exit fuel st = OK (r, st') -> sched_step st st'
| step_next fuel r r' st st' : (size (procs st) <= fuel)%nat ->
    process_scheduler_next_process fuel r st = OK (r', st') -> sched_step st st'
| step_services st k : sched_step st (set_kern k st).

Inductive sched_reachable : sched_state K -> Prop :=
| reach_init st st' : procs st = ∅ -> highest_pid st = 0 ->
    process_scheduler_init kernel_PML4 st = OK (tt, st') -> sched_reachable st'
| reach_step st st' : sched_reachable st -> sched_step st st' -> sched_reachable st'.

(** The kernel process is in the ring, with its page tables. *)
Definition kernel_in (l : list aproc) : Prop := exists p, p ∈ l /\ a_pid p = 0 /\ a_PML4 p = kernel_PML4.

Definition preserves {A} (m : M (ring_state K) A) : Prop :=
  forall rs a rs', m rs = OK (a, rs') -> kernel_in (rl rs) -> kernel_in (rl rs').

Lemma preserves_bind {A B} (m : M (ring_state K) A) (k : A -> M (ring_state K) B) :
  preserves m -> (forall a, preserves (k a)) -> preserves (bind m k).
Proof. intros H1 H2 rs b rs' (a & rs1 & E1 & E2)%bind_OK Hk. eapply H2; [exact E2|]. by eapply H1. Qed.
Lemma preserves_on_rk {A} (m : M K A) : preserves (on_rk m).
Proof. by intros rs a rs' (k & _ & ->)%zoom_OK. Qed.
Lemma preserves_ret {A} (a : A) : preserves (ret a).
Proof. by intros rs b rs' [= _ <-]. Qed.
Lemma preserves_gets {A} (f : ring_state K -> A) : preserves (gets f).
Proof. by intros rs b rs' [= _ <-]. Qed.
Lemma preserves_head : preserves ring_head.
Proof. intros rs b rs'. unfold ring_head. destruct (rl rs) eqn:E; [done|]. intros [= _ <-]. by rewrite E. Qed.
Lemma preserves_list f : (forall l, kernel_in l -> kernel_in (f l)) -> preserves (modify (fun rs => set_rl (f (rl rs)) rs)).
Proof. intros Hf rs b rs' [= _ <-]. apply Hf. Qed.

Lemma kernel_in_rotate l : kernel_in l -> kernel_in (rotate l).
Proof. intros (p & Hp & ?). exists p. split; [|done]. destruct l; cbn; set_solver. Qed.
Lemma kernel_in_head f l : (forall p, a_pid (f p) = a_pid p /\ a_PML4 (f p) = a_PML4 p) -> kernel_in l -> kernel_in (on_head f l).
Proof.
  intros Hf (p & Hp & H1 & H2). destruct l as [|q l]; [by apply not_elem_of_nil in Hp|]. cbn.
  apply elem_of_cons in Hp as [->|Hp]; [exists (f q)|exists p; set_solver]. destruct (Hf q) as [-> ->]. set_solver.
Qed.

Lemma preserves_remove t : preserves (ring_remove t).
Proof.
  intros rs a rs'. unfold ring_remove. destruct (Z.eqb_spec t 0); [by intros [= _ <-]|].
  destruct (split_pid t (rl rs)) as [[[l1 p] l2]|] eqn:E; [|by intros [= _ <-]].
  apply split_pid_Some in E as (-> & Hp & _). intros ([] & rs1 & _ & [= _ <-])%bind_OK (q & Hq & H1 & H2). cbn.
  exists q. split; [|done]. rewrite elem_of_app, elem_of_cons in Hq. rewrite elem_of_app.
  destruct Hq as [?|[->|?]]; [tauto|congruence|tauto].
Qed.

Lemma preserves_pick n : preserves (ring_pick n).
Proof.
  induction n as [|n IH]; [done|]. cbn [ring_pick]. apply preserves_bind; [apply preserves_list, kernel_in_rotate|intros _].
  apply preserves_bind.
  - apply preserves_bind; [apply preserves_head|intros p].
    apply preserves_bind; [apply preserves_list; intros l; by apply kernel_in_head|intros _].
    destruct (fatal p); [|apply preserves_ret]. apply preserves_bind; [apply preserves_remove|intros _].
    apply preserves_bind; [apply preserves_on_rk|intros _; apply preserves_ret].
  - intros [|]; [done|apply preserves_ret].
Qed.

Lemma preserves_next r : preserves (ring_next r).
Proof.
  unfold ring_next. apply preserves_bind; [apply preserves_list; intros l; by apply kernel_in_head|intros _].
  apply preserves_bind; [apply preserves_gets|intros kp]. do 2 (apply preserves_bind; [apply preserves_on_rk|intros _]).
  apply preserves_bind; [intros rs a rs' E; by eapply preserves_pick|intros _].
  apply preserves_bind; [apply preserves_head|intros p]. apply preserves_bind; [apply preserves_gets|intros kp'].
  do 3 (apply preserves_bind; [apply preserves_on_rk|intros _]). apply preserves_ret.
Qed.

Lemma preserves_add code pml4 lvl : preserves (ring_add code pml4 lvl).
Proof.
  apply preserves_bind; [apply preserves_on_rk|]. intros p. destruct (p =? 0); [done|]. intros rs a rs' E (q & Hq & ?).
  destruct (rl rs) as [|c l]; [done|]. injection E as _ <-. exists q. set_solver.
Qed.

Lemma preserves_signal t s : preserves (ring_signal t s).
Proof.
  apply preserves_list. intros l (p & Hp & H1 & H2).
  exists (if a_pid p =? t then with_sigs (Z.lor (a_sigs p) s) p else p). split; [|by destruct (_ =? _)].
  apply list_elem_of_fmap. eauto.
Qed.

Lemma preserves_exit : preserves ring_exit.
Proof.
  apply preserves_bind; [apply preserves_head|intros p]. apply preserves_bind; [apply preserves_remove|intros _].
  apply preserves_bind; [apply preserves_head|intros q; apply preserves_ret].
Qed.

Lemma ring_size st rs : represents (K := K) st rs -> size (procs st) = length (rl rs).
Proof.
  intros Hr. rewrite <- size_dom, (rp_dom _ _ Hr), size_list_to_set by apply (rp_ok _ _ Hr). apply length_fmap.
Qed.

Lemma sim_step {A} P (m : M (sched_state K) A) m' st rs a st' : simulates P m m' -> preserves m' ->
  represents st rs -> kernel_in (rl rs) -> P rs -> m st = OK (a, st') ->
  exists rs', represents st' rs' /\ kernel_in (rl rs').
Proof.
  intros Hs Hp Hr Hk HP E. specialize (Hs st rs Hr HP). unfold implements in Hs. destruct (m' rs) as [[b rs']| | |] eqn:E'.
  - destruct Hs as (st1 & E1 & Hr1). rewrite E in E1. injection E1 as _ <-. eauto.
  - by rewrite E in Hs.
  - by rewrite E in Hs.
  - by rewrite E in Hs.
Qed.

Lemma reachable_represents st : sched_reachable st -> exists rs, represents st rs /\ kernel_in (rl rs).
Proof.
  induction 1 as [st st' Hp Hh E|st st' _ (rs & Hr & Hk) Hstep].
  - destruct (init_represents _ _ _ Hp Hh E) as [p Hr]. eexists. split; [done|]. eexists. split; [apply list_elem_of_here|done].
  - destruct Hstep as [code pml4 lvl n st st' Hh Hf E|fuel t b st st' Hs E|fuel t s st st' Hs E|fuel r st st' Hs E|fuel r r' st st' Hs E|st k].
    + eapply sim_step; [apply add_sim|apply preserves_add|done..| |done]. rewrite (rp_high _ _ Hr), (rp_kern _ _ Hr) in *.
      split; [done|]. intros p k Hm Hin. specialize (Hf p k Hm). apply not_elem_of_dom in Hf. rewrite (rp_dom _ _ Hr) in Hf. set_solver.
    + rewrite (ring_size _ _ Hr) in Hs. by eapply sim_step; [apply remove_sim|apply preserves_remove|..].
    + rewrite (ring_size _ _ Hr) in Hs. by eapply sim_step; [apply send_signals_sim|apply preserves_signal|..].
    + rewrite (ring_size _ _ Hr) in Hs. by eapply sim_step; [apply exit_sim|apply preserves_exit|..].
    + rewrite (ring_size _ _ Hr) in Hs. by eapply sim_step; [apply next_sim|apply preserves_next|..].
    + eexists. split; [by apply set_kern_represents|done].
Qed.
End Reach.

(** C16: in every state reachable by any sequence of scheduler calls, with any
    activity of the memory subsystem in between, the processes form one ring
    through [current_process] that holds every process block exactly once, all
    pids are distinct and at most [highest_pid], and the kernel process is in
    the ring with pid 0 and the page tables it was given at boot: no removal,
    exit or signal ever takes it out. *)
Theorem scheduler_invariant {K} `{Services K} kernel_PML4 st : sched_reachable kernel_PML4 st ->
  exists l, chain (procs st) (current_process st) l (current_process st) /\ dom (procs st) = list_to_set (a_addr <$> l) /\
    NoDup (a_addr <$> l) /\ NoDup (a_pid <$> l) /\ Forall (fun p => 0 <= a_pid p <= highest_pid st) l /\
    exists n r s, procs st !! kernel_process st = Some (mk_process 0 r s kernel_PML4 n).
Proof.
  intros (rs & Hr & (q & Hq & Hq0 & Hqp))%reachable_represents. destruct (rp_kernel _ _ Hr) as (p & Hp & Ha & H0).
  pose proof (rp_ok _ _ Hr) as Hok. assert (q = p) as -> by (eapply same_pid; [done..|congruence]).
  exists (rl rs). rewrite (rp_high _ _ Hr). split_and!; try apply Hr; try apply Hok.
  destruct (rep_elem _ _ _ Hr Hp) as [n Hn]. rewrite <- Ha, Hn. exists n, (a_regs p), (a_sigs p). unfold node_of. by rewrite H0, Hqp.
Qed.
Lemma scheduler_invariant_witness : exists l, chain (procs booted) (current_process booted) l (current_process booted).
Proof.
  destruct (scheduler_invariant 7 booted) as (l & Hl & _); [exact (reach_init 7 blank booted eq_refl eq_refl booted_eq)|].
  exists l. exact Hl.
Defined.

(** ** Context switches *)

(** Timer ticks: the frame each finds the processor in, and the frame each
    resumes. *)
Fixpoint switches {K} `{Services K} (fuel : nat) (frames : list cpu_state_t) : M (sched_state K) (list cpu_state_t) :=
  match frames with
  | [] => ret []
  | r :: rest =>
      let* r' := process_scheduler_next_process fuel r in
      let* out := switches fuel rest in ret (r' :: out)
  end.

Definition identity (p : aproc) : Z * Z := (a_addr p, a_pid p).
Definition first_of {A} (l : list A) (d : A) : A := match l with [] => d | x :: _ => x end.

Section Switch.
Context {K : Type} `{Services K}.
(** Switching address spaces succeeds. *)
Hypothesis set_returns : forall p k, exists k', k_set_PML4 p k = OK (tt, k').
Hypothesis load_returns : forall k, exists k', k_load_cpu k = OK (tt, k').
Hypothesis copy_returns : forall to from k, exists k', k_copy_kernel_PML4 to from k = OK (tt, k').

Lemma ring_next_quiet (rs : ring_state K) r p l h t : rl rs = p :: l -> rotate (with_regs r p :: l) = h :: t -> fatal h = false ->
  exists k, ring_next r rs = OK (a_regs h, mk_ring k (with_sigs 0 h :: t) (rhigh rs)).
Proof using set_returns load_returns copy_returns.
  intros El Er Hf. unfold ring_next. rewrite (bind_step (modify _) _ rs tt (set_rl (with_regs r p :: l) rs)) by (unfold modify; by rewrite El).
  rewrite (bind_step (gets _) _ _ _ _ eq_refl), on_rk_step. cbn [rl rk set_rl rhigh].
  destruct (set_returns (kernel_pml4 (with_regs r p :: l)) (rk rs)) as [k1 ->]. cbn [obind]. rewrite on_rk_step. cbn [rk rl rhigh].
  destruct (load_returns k1) as [k2 ->]. cbn [obind].
  rewrite (bind_step _ _ _ tt (mk_ring k2 (with_sigs 0 h :: t) (rhigh rs))).
  2:{ cbn -[ring_pick rotate]. cbn [ring_pick]. unfold bind at 1, modify at 1. cbn [obind rl set_rl]. rewrite Er.
      unfold ring_handle, ring_head, bind, modify. cbn. by rewrite Hf. }
  set (rs2 := mk_ring k2 _ _). rewrite (bind_step ring_head _ rs2 (with_sigs 0 h) rs2 eq_refl).
  rewrite (bind_step (gets _) _ rs2 _ rs2 eq_refl), on_rk_step. subst rs2. cbn [rk rl rhigh].
  destruct (copy_returns (a_PML4 (with_sigs 0 h)) (kernel_pml4 (with_sigs 0 h :: t)) k2) as [k3 ->]. cbn [obind]. rewrite on_rk_step. cbn [rk rl rhigh].
  destruct (set_returns (a_PML4 (with_sigs 0 h)) k3) as [k4 ->]. cbn [obind]. rewrite on_rk_step. cbn [rk rl rhigh].
  destruct (load_returns k4) as [k5 ->]. cbn. eauto.
Qed.

Lemma next_quiet fuel st (rs : ring_state K) r p l h t : represents st rs -> fits fuel rs -> rl rs = p :: l ->
  rotate (with_regs r p :: l) = h :: t -> fatal h = false ->
  exists st' k, process_scheduler_next_process fuel r st = OK (a_regs h, st') /\
    represents st' (mk_ring k (with_sigs 0 h :: t) (rhigh rs)).
Proof using set_returns load_returns copy_returns.
  intros Hr Hf El Er Hq. destruct (ring_next_quiet rs r p l h t El Er Hq) as [k E].
  pose proof (next_sim fuel r st rs Hr Hf) as Hs. rewrite E in Hs. destruct Hs as (st' & E' & Hr'). eauto.
Qed.

Lemma fatal_cleared p : fatal (with_sigs 0 p) = false.
Proof. unfold fatal. cbn. by rewrite andb_false_r. Qed.

Lemma switches_quiet fuel B : forall st (rs : ring_state K) h D r R, represents st rs -> fits fuel rs -> rl rs = h :: B ++ D ->
  Forall (fun p => fatal p = false) (h :: B ++ D) -> length R = length B ->
  exists st' rs', switches fuel (r :: R) st = OK ((a_regs <$> B) ++ [a_regs (first_of D (with_regs r h))], st') /\
    represents st' rs' /\ identity <$> rl rs' = identity <$> (D ++ h :: B) /\ Forall (fun p => fatal p = false) (rl rs').
Proof using set_returns load_returns copy_returns.
  induction B as [|b B IH]; intros st rs h D r R Hr Hf El Hq HR; cbn [switches app].
  - destruct R; [|done]. inversion_clear Hq as [|? ? Hh HD]. cbn [app] in El, HD.
    set (h' := first_of D (with_regs r h)). assert (exists t, D ++ [with_regs r h] = h' :: t) as [t Et] by (destruct D; eauto).
    destruct (next_quiet fuel st rs r h D h' t Hr Hf El Et) as (st' & k & E & Hr').
    { subst h'. destruct D; [done|]. by inversion HD. }
    rewrite (bind_step _ _ _ _ _ E). cbn. eexists _, _. split_and!; [done|exact Hr'|cbn [rl]|cbn [rl]].
    + cbn. change (identity (with_sigs 0 h') :: (identity <$> t)) with (identity <$> h' :: t). by rewrite <- Et, !fmap_app.
    + constructor; [apply fatal_cleared|]. enough (Forall (fun p => fatal p = false) (h' :: t)) by by inversion H0.
      rewrite <- Et. apply Forall_app. split; [done|]. by constructor.
  - destruct R as [|r' R]; [done|]. injection HR as HR. cbn [app] in *. inversion_clear Hq as [|? ? Hh Hq']. inversion_clear Hq' as [|? ? Hb HBD].
    destruct (next_quiet fuel st rs r h (b :: B ++ D) b (B ++ D ++ [with_regs r h]) Hr Hf El) as (st1 & k & E & Hr1); [cbn; by rewrite <- app_assoc|done|].
    rewrite (bind_step _ _ _ _ _ E).
    destruct (IH st1 _ (with_sigs 0 b) (D ++ [with_regs r h]) r' R Hr1) as (st' & rs' & E2 & Hr' & Hid & Hq2); [| |..].
    { unfold fits in *. cbn [rl] in *. rewrite El in Hf. cbn in *. rewrite !length_app in *. cbn. lia. }
    { done. }
    { constructor; [apply fatal_cleared|]. rewrite !Forall_app in *. split_and!; try apply HBD. by constructor. }
    { done. }
    rewrite (bind_step _ _ _ _ _ E2). cbn. eexists _, _. split_and!; [|exact Hr'| |done].
    + repeat f_equal. by destruct D.
    + rewrite Hid, !fmap_app. cbn. by rewrite <- app_assoc.
Qed.

(** Round robin. With [n] processes none of which has a fatal signal
    pending, [n] timer ticks give every process the processor once, in ring
    order: tick [i] resumes the [i]-th process with exactly the registers saved
    for it, the last tick resumes the first process with the frame it was
    interrupted with, and the ring is back where it started. *)
Theorem context_switch_round_robin fuel st (rs : ring_state K) p l r R : represents st rs -> fits fuel rs -> rl rs = p :: l ->
  Forall (fun q => fatal q = false) (p :: l) -> length R = length l ->
  exists st' rs', switches fuel (r :: R) st = OK ((a_regs <$> l) ++ [r], st') /\ represents st' rs' /\
    identity <$> rl rs' = identity <$> p :: l /\ current_process st' = current_process st.
Proof using set_returns load_returns copy_returns.
  intros Hr Hf El Hq HR. destruct (switches_quiet fuel l st rs p [] r R Hr Hf) as (st' & rs' & E & Hr' & Hid & _); rewrite ?app_nil_r; try done.
  exists st', rs'. split_and!; [done..|]. destruct (rep_head _ _ Hr) as (p1 & l1 & n1 & E1 & -> & _).
  destruct (rep_head _ _ Hr') as (p2 & l2 & n2 & E2 & -> & _). rewrite El in E1. injection E1 as <- <-. rewrite E2 in Hid.
  unfold identity in Hid. cbn in Hid. congruence.
Qed.

(** Releasing a process succeeds. *)
Hypothesis teardown_returns : forall p kp k, exists k', teardown p kp k = OK (tt, k').

Lemma handle_fatal (rs : ring_state K) q l : rl rs = q :: l -> fatal q = true ->
  exists k, ring_handle rs = OK (true, mk_ring k l (rhigh rs)).
Proof using teardown_returns.
  intros El Hq. unfold ring_handle. rewrite (bind_step ring_head _ rs q rs) by (unfold ring_head; by rewrite El).
  rewrite (bind_step (modify _) _ rs tt (set_rl (with_sigs 0 q :: l) rs)) by (unfold modify; by rewrite El).
  rewrite Hq. apply andb_true_iff in Hq as [H0%negb_true_iff%Z.eqb_neq _].
  destruct (teardown_returns (with_sigs 0 q) (kernel_pml4 (with_sigs 0 q :: l)) (rk rs)) as [k Et].
  rewrite (bind_step (ring_remove (a_pid q)) _ _ true (mk_ring k (l ++ []) (rhigh rs))).
  - rewrite app_nil_r. cbn. eauto.
  - change (a_pid q) with (a_pid (with_sigs 0 q)).
    rewrite (ring_remove_head (set_rl (with_sigs 0 q :: l) rs) (with_sigs 0 q) l eq_refl H0). cbn [rl rk set_rl]. by rewrite Et.
Qed.

Lemma ring_next_kill (rs : ring_state K) r c q s l h t : rl rs = c :: q :: s :: l -> fatal q = true ->
  l ++ [with_regs r c] = h :: t -> fatal h = false ->
  exists k, ring_next r rs = OK (a_regs h, mk_ring k (with_sigs 0 h :: t ++ [s]) (rhigh rs)).
Proof using set_returns load_returns copy_returns teardown_returns.
  intros El Hq Eh Hf. unfold ring_next.
  rewrite (bind_step (modify _) _ rs tt (set_rl (with_regs r c :: q :: s :: l) rs)) by (unfold modify; by rewrite El).
  rewrite (bind_step (gets _) _ _ _ _ eq_refl), on_rk_step. cbn [rl rk set_rl rhigh].
  destruct (set_returns (kernel_pml4 (with_regs r c :: q :: s :: l)) (rk rs)) as [k1 ->]. cbn [obind]. rewrite on_rk_step. cbn [rk rl rhigh].
  destruct (load_returns k1) as [k2 ->]. cbn [obind].
  assert (exists k3, ring_pick (length (with_regs r c :: q :: s :: l)) (mk_ring k2 (with_regs r c :: q :: s :: l) (rhigh rs)) =
                     OK (tt, mk_ring k3 (with_sigs 0 h :: t ++ [s]) (rhigh rs))) as [k3 E].
  { cbn [length ring_pick]. rewrite (bind_step (modify _) _ _ tt (mk_ring k2 (q :: s :: l ++ [with_regs r c]) (rhigh rs))) by done.
    destruct (handle_fatal (mk_ring k2 (q :: s :: l ++ [with_regs r c]) (rhigh rs)) q _ eq_refl Hq) as [k3 Eh3].
    rewrite (bind_step _ _ _ _ _ Eh3). cbn [rhigh]. rewrite (bind_step (modify _) _ _ tt (mk_ring k3 (h :: t ++ [s]) (rhigh rs))).
    2:{ unfold modify. cbn [rl rotate set_rl rk rhigh]. by rewrite Eh. }
    exists k3. unfold ring_handle, ring_head, bind, modify. cbn. by rewrite Hf. }
  rewrite (bind_step (fun st => ring_pick (length (rl st)) st) _ (mk_ring k2 (with_regs r c :: q :: s :: l) (rhigh rs)) _ _ E). set (rs2 := mk_ring k3 _ _). rewrite (bind_step ring_head _ rs2 (with_sigs 0 h) rs2 eq_refl).
  rewrite (bind_step (gets _) _ rs2 _ rs2 eq_refl), on_rk_step. subst rs2. cbn [rk rl rhigh].
  destruct (copy_returns (a_PML4 (with_sigs 0 h)) (kernel_pml4 (with_sigs 0 h :: t ++ [s])) k3) as [k4 ->]. cbn [obind]. rewrite on_rk_step. cbn [rk rl rhigh].
  destruct (set_returns (a_PML4 (with_sigs 0 h)) k4) as [k5 ->]. cbn [obind]. rewrite on_rk_step. cbn [rk rl rhigh].
  destruct (load_returns k5) as [k6 ->]. cbn. eauto.
Qed.

End Switch.

(** *** A concrete ring *)

Definition user_proc (addr n code pml4 s : Z) : aproc := mk_aproc addr n (start_regs code false) s pml4.
Definition ring3 (s : Z) : ring_state recorder :=
  mk_ring (kern booted3) [mk_aproc 4096 0 zero_cpu 0 7; user_proc 4744 3 300 73 s; user_proc 4528 2 200 72 0; user_proc 4312 1 100 71 0] 3.

Lemma ring3_represented : represents booted3 (ring3 0).
Proof.
  split; [done|by vm_compute| | | |].
  - split; [by vm_compute|]. repeat (eexists; split; [vm_compute; reflexivity|cbn; try (split; [vm_compute; reflexivity|])]). by vm_compute.
  - vm_compute. reflexivity.
  - exists (mk_aproc 4096 0 zero_cpu 0 7). split; [apply list_elem_of_here|by vm_compute].
  - split; [refine (bool_decide_eq_true_1 _ _); by vm_compute..| |cbn; lia]. cbn.
    repeat (apply Forall_cons_2; [cbn; lia|]). apply Forall_nil_2.
Qed.

Definition signalled3 : sched_state recorder := run_state (process_scheduler_send_signals 4 3 SIG_KILL) booted3.
Lemma signalled3_represented : represents signalled3 (ring3 SIG_KILL).
Proof.
  destruct (send_signals_sim 4 3 SIG_KILL booted3 (ring3 0) ring3_represented) as (st' & E & Hr); [by vm_compute; lia|].
  unfold signalled3, run_state. rewrite E. exact Hr.
Qed.

Lemma recorder_returns :
  (forall p (k : recorder), exists k', k_set_PML4 p k = OK (tt, k')) /\ (forall k : recorder, exists k', k_load_cpu k = OK (tt, k')) /\
  (forall to from (k : recorder), exists k', k_copy_kernel_PML4 to from k = OK (tt, k')) /\
  forall p kp (k : recorder), exists k', teardown p kp k = OK (tt, k').
Proof. split_and!; intros; eexists; reflexivity. Qed.

Lemma context_switch_round_robin_witness : exists st' rs',
  switches 4 [zero_cpu; zero_cpu; zero_cpu; zero_cpu] booted3 =
    OK ([start_regs 300 false; start_regs 200 false; start_regs 100 false; zero_cpu], st') /\ represents st' rs'.
Proof.
  destruct recorder_returns as (H1 & H2 & H3 & _).
  destruct (context_switch_round_robin H1 H2 H3 4 booted3 (ring3 0) (mk_aproc 4096 0 zero_cpu 0 7)
      [user_proc 4744 3 300 73 0; user_proc 4528 2 200 72 0; user_proc 4312 1 100 71 0] zero_cpu [zero_cpu; zero_cpu; zero_cpu] ring3_represented)
    as (st' & rs' & E & Hr & _); [vm_compute; lia|reflexivity|repeat (apply Forall_cons_2; [reflexivity|]); apply Forall_nil_2|reflexivity|].
  exists st', rs'. split; [exact E|exact Hr].
Defined.
