(* ===== verification/Keyboard.v ===== *)
(** * Keyboard input (src/util/io.c)

    Polling the PS/2 controller for scancodes, and the tables that turn them
    into characters. *)
From S2P Require Import Prelude Mem Str Ata.

Definition KEYBOARD_STATUS_PORT : Z := 0x64.
Definition KEYBOARD_DATA_PORT : Z := 0x60.
Definition SCAN_SPECIAL_PREFIX : Z := 0xE0.

(** ['\b'], ['\t'], ['\n'] are 8, 9 and 10; entries past the listed ones are
    zero. *)
Definition scancode_to_ascii : list Z :=
  [0; 27; 49;50;51;52;53;54;55;56;57;48;45;61; 8;
   9;113;119;101;114;116;121;117;105;111;112;91;93;10;
   0;
   97;115;100;102;103;104;106;107;108;59;39;96;0;
   92;122;120;99;118;98;110;109;44;46;47;0;
   42;0;32;48;46] ++ replicate 68 0.

Section Code.
Context {D : Type} `{Ports D}.

Fixpoint wait_key (fuel : nat) : M D unit :=
  match fuel with
  | O => out_of_fuel
  | S fuel' =>
      let* status := io_inb KEYBOARD_STATUS_PORT in
      if Z.land status 1 =? 0 then wait_key fuel' else ret tt
  end.

(** [fuel] bounds the scancodes read, [polls] the status reads before each. *)
Fixpoint io_keyboard_read (fuel polls : nat) : M D Z :=
  match fuel with
  | O => out_of_fuel
  | S fuel' =>
      wait_key polls ;;;
      let* first_byte := io_inb KEYBOARD_DATA_PORT in
      if first_byte =? SCAN_SPECIAL_PREFIX then
        wait_key polls ;;;
        let* second_byte := io_inb KEYBOARD_DATA_PORT in
        if negb (Z.land second_byte 0x80 =? 0) then io_keyboard_read fuel' polls
        else ret (u16 (Z.lor (Z.shiftl first_byte 8) second_byte))
      else if negb (Z.land first_byte 0x80 =? 0) then io_keyboard_read fuel' polls
      else ret first_byte
  end.
End Code.

(** The table is indexed with any value below 256; it has 128 entries. *)
Definition io_is_character (scancode : Z) : outcome bool :=
  if 256 <=? scancode then OK false else
  obind (bget scancode_to_ascii scancode) (fun ascii =>
  if Z.shiftr scancode 8 =? 0xE0 then OK false else
  OK (((32 <=? ascii) && (ascii <=? 126)) || (ascii =? 8) || (ascii =? 9) || (ascii =? 10))).

Definition io_scancode_to_character (scancode : Z) : outcome Z := bget scancode_to_ascii scancode.

(** ** The controller's documented behaviour: a queue of bytes, of which one is
    offered at a time after some status reads *)

Class KeyboardSpec (D : Type) `{Ports D} := {
  keys : D -> list Z;               (* bytes still to be delivered *)
  key_polls : D -> nat;             (* status reads before the next one is ready *)
  max_key_polls : nat;
  key_polls_max d : (key_polls d <= max_key_polls)%nat;
  key_status d : let (s, d') := inb KEYBOARD_STATUS_PORT d in
    keys d' = keys d /\ key_polls d' = pred (key_polls d) /\
    (Z.land s 1 <> 0 <-> key_polls d = 0%nat /\ keys d <> []);
  key_data d b bs : keys d = b :: bs -> key_polls d = 0%nat ->
    let (v, d') := inb KEYBOARD_DATA_PORT d in v = b /\ keys d' = bs
}.

(** ** What the driver makes of the byte stream *)

Definition is_release (b : Z) : bool := negb (Z.land b 0x80 =? 0).

(** The first key press in a stream of bytes, its bytes counted in [n], and
    the rest of the stream. *)
Fixpoint next_press (bs : list Z) : option (Z * list Z) :=
  match bs with
  | [] => None
  | b :: bs' =>
      if b =? SCAN_SPECIAL_PREFIX then
        match bs' with
        | [] => None
        | c :: bs'' => if is_release c then next_press bs'' else Some (57344 + c, bs'')
        end
      else if is_release b then next_press bs' else Some (b, bs')
  end.

Section Read.
Context {D : Type} `{KeyboardSpec D} (polls : nat) (Hpolls : (max_key_polls < polls)%nat).

Lemma wp_wait_key (Q : unit -> D -> Prop) d : keys d <> [] ->
  (forall d', keys d' = keys d -> key_polls d' = 0%nat -> Q tt d') -> wp (wait_key polls) Q d.
Proof using Hpolls.
  assert (key_polls d < polls)%nat as Hp by (pose proof (key_polls_max d); lia). clear Hpolls. revert d Hp.
  induction polls as [|fuel IH]; intros d Hp Hk HQ; [lia|]. cbn [wait_key]. apply wp_bind.
  unfold io_inb, wp. pose proof (key_status d) as Hs. destruct (inb KEYBOARD_STATUS_PORT d) as [s d'].
  destruct Hs as (Hk' & Hpo & Hb). destruct (Z.eqb_spec (Z.land s 1) 0) as [E|E].
  - assert (key_polls d <> 0%nat) by (intros E0; destruct (proj2 Hb); done). apply IH; [lia|congruence|].
    intros d2 ??. apply HQ; congruence.
  - apply HQ; [done|]. apply Hb in E as [E _]. by rewrite Hpo, E.
Qed.

Lemma wp_get_key (Q : Z -> D -> Prop) d b bs : keys d = b :: bs -> key_polls d = 0%nat ->
  (forall d', keys d' = bs -> Q b d') -> wp (io_inb KEYBOARD_DATA_PORT) Q d.
Proof.
  intros Hk Hp HQ. unfold io_inb, wp. pose proof (key_data d b bs Hk Hp) as Hd.
  destruct (inb KEYBOARD_DATA_PORT d) as [v d']. destruct Hd as [-> Hd]. by apply HQ.
Qed.

Lemma wp_keyboard_read (Q : Z -> D -> Prop) fuel d code rest : next_press (keys d) = Some (code, rest) ->
  Forall (in_range 8) (keys d) -> (length (keys d) <= fuel)%nat ->
  (forall d', keys d' = rest -> Q code d') -> wp (io_keyboard_read fuel polls) Q d.
Proof using Hpolls.
  revert d. induction fuel as [|fuel IH]; intros d Hn Hb Hf HQ; [destruct (keys d); [done|cbn in Hf; lia]|].
  destruct (keys d) as [|b bs] eqn:Ek; [done|]. inversion_clear Hb as [|? ? Hb1 Hb2]. cbn in Hf. cbn [io_keyboard_read next_press] in *.
  apply wp_bind, wp_wait_key; [by rewrite Ek|]. intros d1 K1 P1. rewrite Ek in K1.
  apply wp_bind, (wp_get_key _ _ _ _ K1 P1). intros d2 K2. destruct (Z.eqb_spec b SCAN_SPECIAL_PREFIX) as [->|Hne].
  - destruct bs as [|c bs]; [done|]. inversion_clear Hb2 as [|? ? Hc Hb3].
    apply wp_bind, wp_wait_key; [by rewrite K2|]. intros d3 K3 P3. rewrite K2 in K3.
    apply wp_bind, (wp_get_key _ _ _ _ K3 P3). intros d4 K4. unfold is_release in Hn.
    destruct (negb (Z.land c 128 =? 0)).
    + apply IH; rewrite ?K4; try done. cbn in Hf. lia.
    + injection Hn as <- <-. apply wp_ret.
      rewrite Z.lor_comm, lor_shiftl_add by (unfold in_range in Hc; lia).
      rewrite wrap_id by (unfold in_range, SCAN_SPECIAL_PREFIX in *; lia).
      replace (c + SCAN_SPECIAL_PREFIX * 2 ^ 8) with (57344 + c) by (unfold SCAN_SPECIAL_PREFIX; lia). by apply HQ.
  - unfold is_release in Hn. destruct (negb (Z.land b 128 =? 0)).
    + apply IH; rewrite ?K2; try done. lia.
    + injection Hn as <- <-. apply wp_ret. by apply HQ.
Qed.
End Read.

(** A byte without the release bit is below 128. *)
Lemma press_range b : in_range 8 b -> is_release b = false -> 0 <= b < 128.
Proof.
  unfold in_range, is_release. intros Hb Hr%negb_false_iff%Z.eqb_eq. split; [lia|].
  destruct (Z.ltb_spec b 128); [done|]. exfalso.
  assert (Z.testbit (Z.land b 128) 7 = true) as E; [|by rewrite Hr in E].
  rewrite Z.land_spec. change (Z.testbit 128 7) with true. rewrite andb_true_r.
  assert (b / 2 ^ 7 = 1) as E7 by divlia.
  rewrite Z.testbit_true by lia. by rewrite E7.
Qed.

Lemma next_press_range bs code rest : next_press bs = Some (code, rest) -> Forall (in_range 8) bs ->
  0 <= code < 128 \/ 57344 <= code < 57344 + 128.
Proof.
  assert (exists n, (length bs <= n)%nat) as [n Hn] by eauto. revert bs Hn. induction n as [|n IH]; intros [|b bs] Hl; try done; cbn in Hl; [lia|].
  cbn [next_press]. intros Hn Hb. inversion_clear Hb as [|? ? Hb1 Hb2].
  destruct (b =? SCAN_SPECIAL_PREFIX).
  - destruct bs as [|c bs]; [done|]. cbn in Hl. inversion_clear Hb2 as [|? ? Hc Hb3]. destruct (is_release c) eqn:Ec; [by apply (IH bs); [lia|..]|].
    injection Hn as <- <-. right. pose proof (press_range c Hc Ec). lia.
  - destruct (is_release b) eqn:Ec; [by apply (IH bs); [lia|..]|]. injection Hn as <- <-. left. by apply press_range.
Qed.

Lemma is_character_ok code : 0 <= code < 128 \/ 256 <= code -> exists b, io_is_character code = OK b /\
  (b = true -> exists c, io_scancode_to_character code = OK c /\ (32 <= c <= 126 \/ c = 8 \/ c = 9 \/ c = 10)).
Proof.
  unfold io_is_character, io_scancode_to_character. destruct (Z.leb_spec 256 code) as [Hc|Hc]; [by exists false|]. intros Hr.
  destruct (lookup_Z_lt scancode_to_ascii code) as [c E]; [change (Z.of_nat (length scancode_to_ascii)) with 128; lia|].
  rewrite (bget_lookup _ _ c) by (done || lia). cbn [obind]. destruct (_ =? 224); [by exists false|]. eexists. split; [done|].
  intros Hb. exists c. split; [done|]. rewrite !orb_true_iff, andb_true_iff, !Z.leb_le, !Z.eqb_eq in Hb. tauto.
Qed.

(** C34: against any controller that delivers its bytes in order, each after a
    bounded number of status polls, [io_keyboard_read] returns the next key
    press of the stream, the releases before it consumed and the rest left
    queued; the value is below 128 or carries the 0xE0 prefix, so that
    [io_is_character] stays inside its 128-entry table, and whenever that says
    yes [io_scancode_to_character] gives a printable or editing character. *)
Theorem io_keyboard_read_correct {D} `{KeyboardSpec D} fuel polls d code rest :
  (max_key_polls < polls)%nat -> (length (keys d) <= fuel)%nat -> Forall (in_range 8) (keys d) ->
  next_press (keys d) = Some (code, rest) ->
  wp (io_keyboard_read fuel polls) (fun r d' => r = code /\ keys d' = rest /\ (0 <= r < 128 \/ 0xE000 <= r < 0xE080) /\
    exists b, io_is_character r = OK b /\ (b = true -> exists c, io_scancode_to_character r = OK c /\
      (32 <= c <= 126 \/ c = 8 \/ c = 9 \/ c = 10))) d.
Proof.
  intros Hp Hf Hb Hn. eapply (wp_keyboard_read polls Hp); [done..|]. intros d' Hd. pose proof (next_press_range _ _ _ Hn Hb) as Hr.
  split_and!; [done..|lia|]. apply is_character_ok. lia.
Qed.

(** *** A controller that follows the protocol *)

Record sim_kbd := mk_kbd { sk_keys : list Z; sk_wait : bool }.
Definition kbd_inb (port : Z) (d : sim_kbd) : Z * sim_kbd :=
  if port =? KEYBOARD_STATUS_PORT then
    (match sk_wait d, sk_keys d with false, _ :: _ => 1 | _, _ => 0 end, mk_kbd (sk_keys d) false)
  else match sk_keys d with b :: bs => (b, mk_kbd bs true) | [] => (0, d) end.
#[global] Instance kbd_ports : Ports sim_kbd := {
  outb _ _ d := d; inb := kbd_inb; outw _ _ d := d; inw _ d := (0, d) }.
#[global, program] Instance kbd_spec : KeyboardSpec sim_kbd := {
  keys := sk_keys; key_polls d := if sk_wait d then 1%nat else 0%nat; max_key_polls := 1%nat }.
Next Obligation. intros [bs []]; cbn; lia. Qed.
Next Obligation. intros [bs []]; cbn; [split_and!; naive_solver|]. destruct bs; cbn; split_and!; naive_solver. Qed.
Next Obligation. intros [bs w] b l Hk Hp. cbn in *. subst bs. done. Qed.

Lemma io_keyboard_read_correct_witness :
  wp (io_keyboard_read 6 2) (fun r d' => r = 0xE048 /\ sk_keys d' = [0x1E]) (mk_kbd [0x9E; 0xE0; 0xC8; 0xE0; 0x48; 0x1E] true).
Proof.
  refine (wp_mono _ _ _ _ (io_keyboard_read_correct (D := sim_kbd) 6 2 (mk_kbd [0x9E; 0xE0; 0xC8; 0xE0; 0x48; 0x1E] true) 0xE048 [0x1E] _ _ _ _) _).
  - cbn. lia.
  - cbn. lia.
  - repeat (apply Forall_cons_2; [by vm_compute|]). apply Forall_nil_2.
  - reflexivity.
  - cbv beta. intros r d' (-> & Hk & _). split; [done|]. exact Hk.
Defined.
