(* ===== verification/Shell.v ===== *)
(** * The shell (programs/shell/c.c)

    The user program that reads command lines and runs commands on the
    filesystem. Its system calls are the kernel functions the handler of
    [Syscall] dispatches to; its own copies of the numeric and string helpers
    (lines 146 to 470) are text for text those of [Util] and [Str]. *)
From S2P Require Import Prelude Mem Util Str Heap Ata Fs Keyboard.

(** ** State *)

Record shell_state := mk_shell {
  sfs : fs_state;            (* the kernel's filesystem; its heap is the process heap *)
  sout : list Z;             (* characters printed since the screen was cleared *)
  skeys : list Z;            (* values of io_keyboard_buffer at the next key requests *)
  working_dir : list Z;      (* char[128] *)
  working_dir_len : Z
}.
Definition WORKING_DIR_SIZE : Z := 128.

Definition set_sfs (f : fs_state) (st : shell_state) : shell_state := mk_shell f (sout st) (skeys st) (working_dir st) (working_dir_len st).
Definition set_sout (o : list Z) (st : shell_state) : shell_state := mk_shell (sfs st) o (skeys st) (working_dir st) (working_dir_len st).
Definition set_skeys (k : list Z) (st : shell_state) : shell_state := mk_shell (sfs st) (sout st) k (working_dir st) (working_dir_len st).
Definition set_wd (d : list Z) (n : Z) (st : shell_state) : shell_state := mk_shell (sfs st) (sout st) (skeys st) d n.

Definition in_fs {A} (m : M fs_state A) : M shell_state A := zoom sfs set_sfs m.
Definition in_sheap {A} (m : M bheap A) : M shell_state A := in_fs (in_heap m).

(** ** System calls *)

(** The characters up to the terminator. *)
Fixpoint text (s : list Z) : outcome (list Z) :=
  match s with
  | [] => UB
  | c :: s' => if c =? 0 then OK [] else obind (text s') (fun t => OK (c :: t))
  end.
Definition print (str : list Z) : M shell_state unit :=
  let* t := lift (text str) in modify (fun st => set_sout (sout st ++ t) st).
Definition say (s : string) : M shell_state unit := print (cstr s).
Definition clear_screen : M shell_state unit := modify (set_sout []).

(** A block has the payload the allocator rounds the request up to. *)
Definition payload (size : Z) : Z := ALIGN_UP (u64 (size + HDR)) - HDR.
Definition malloc (size : Z) : M shell_state (option (list Z)) :=
  if size =? 0 then ret None else in_sheap (bmalloc (payload size)).
Definition free (ptr : option (list Z)) : M shell_state unit := in_sheap (bfree ptr).

(** Repeats system call 20 while it answers 0; a list that ends stands for a
    user who stops typing, on which the loop does not end. *)
Fixpoint poll_keys (keys : list Z) : outcome (Z * list Z) :=
  match keys with
  | [] => NoFuel
  | c :: keys' => if c =? 0 then poll_keys keys' else OK (c, keys')
  end.
Definition read_keyboard : M shell_state Z := fun st =>
  obind (poll_keys (skeys st)) (fun '(c, keys) => OK (c, set_skeys keys st)).

Definition is_character (scancode : Z) : outcome bool := io_is_character scancode.

Definition read_file (path : list Z) (data_out : option (list Z)) : M shell_state (bool * option (list Z)) :=
  in_fs (filesystem_read_file path data_out).
Definition read_file_metadata (path : list Z) (meta_out : file_metadata_t) : M shell_state (bool * file_metadata_t) :=
  in_fs (filesystem_read_file_metadata path meta_out).
Definition file_exists (path : list Z) : M shell_state bool := in_fs (filesystem_file_exists path).
Definition write_file (path data : list Z) (size : Z) : M shell_state bool :=
  in_fs (filesystem_write_file path (Some data) FILE size).
Definition delete_file (path : list Z) : M shell_state bool := in_fs (filesystem_delete_file path).
Definition create_directory (path : list Z) : M shell_state bool := in_fs (filesystem_create_directory path).
Definition delete_directory (fuel : nat) (path : list Z) : M shell_state bool := in_fs (filesystem_delete_directory fuel path).
Definition move_file (path new_path : list Z) : M shell_state bool := in_fs (filesystem_move_file path new_path).
(** The array, or null; its length is the count stored through the pointer. *)
Definition list_dir (stack : file_metadata_t) (path : list Z) : M shell_state (option (list file_metadata_t)) :=
  in_fs (filesystem_list_dir stack path).

(** ** Paths *)

Definition join_working_dir (path : list Z) : M shell_state (option (list Z)) :=
  let* c := lift (bget path 0) in
  if c =? SLASH then in_sheap (strdup path) else
  let* st := get in
  in_sheap (str_concats [working_dir st; cstr "/"; path]).

(** [memset] on a buffer. *)
Fixpoint bfill (n : nat) (dst : list Z) (i v : Z) : outcome (list Z) :=
  match n with
  | O => OK dst
  | S n' => obind (bset dst i v) (fun d => bfill n' d (i + 1) v)
  end.

Definition STACK_DEPTH : nat := 64.

(** The loop over the parts: [p] is what is left of [path] from index [i],
    [stack] the parts kept, last one first. *)
Fixpoint parts_loop (fuel : nat) (path p : list Z) (stack : list (list Z)) : M shell_state (list (list Z)) :=
  match fuel with
  | O => out_of_fuel
  | S fuel' =>
      let* c := lift (bget p 0) in
      if c =? 0 then ret stack else
      let* p1 := lift (skip_delims p SLASH) in
      let* c1 := lift (bget p1 0) in
      if c1 =? 0 then ret stack else
      let start := len path - len p1 in
      let* (tok, p2) := lift (scan_token p1 SLASH) in
      let part_len := len tok in
      let* part := in_sheap (substr path start part_len) in
      let* part := deref part in
      let* up := lift (strcmp part (cstr "..")) in
      if up : bool then
        match stack with
        | top :: rest => free (Some top) ;;; free (Some part) ;;; parts_loop fuel' path p2 rest
        | [] => free (Some part) ;;; parts_loop fuel' path p2 []
        end
      else
      let* here := lift (strcmp part (cstr ".")) in
      if here : bool then free (Some part) ;;; parts_loop fuel' path p2 stack else
      if (length stack <? STACK_DEPTH)%nat then parts_loop fuel' path p2 (part :: stack)
      else free (Some part) ;;; parts_loop fuel' path p2 stack
  end.

(** The parts of the stack from its bottom, appended to [path]. *)
Fixpoint rebuild (path : list Z) (stack : list (list Z)) : M shell_state (list Z) :=
  match stack with
  | [] => ret path
  | s :: rest =>
      let* temp := in_sheap (str_concat path s) in
      let* t := deref temp in
      let* temp2 := (if rest is [] then ret temp else in_sheap (str_concat t (cstr "/"))) in
      let* t2 := deref temp2 in
      let* n := lift (strlen t2) in
      let* path := lift (bcopy (Z.to_nat (n + 1)) path 0 t2 0) in
      free temp ;;;
      (if rest is [] then ret tt else free temp2) ;;;
      free (Some s) ;;;
      rebuild path rest
  end.

(** The contents of the buffer afterwards. *)
Definition parse_path (path : list Z) : M shell_state (list Z) :=
  let* n := lift (strlen path) in
  if n <=? 1 then ret path else
  let* stack := parts_loop (S (length path)) path path [] in
  let* path := lift (bfill (Z.to_nat n) path 0 0) in
  let* path := lift (bset path 0 SLASH) in
  let* path := lift (bset path 1 0) in
  rebuild path (rev stack).

(** [path = join_working_dir(arg); parse_path(path);] *)
Definition full_path (arg : list Z) : M shell_state (list Z) :=
  let* path := join_working_dir arg in
  let* path := deref path in
  parse_path path.

(** ** Commands *)

(** Contents of uninitialised locals, and the bound on the nesting of
    directories the recursive operations meet. *)
Section Commands.
Context (stack : file_metadata_t) (depth : nat).

Fixpoint print_names (files : list file_metadata_t) : M shell_state unit :=
  match files with
  | [] => ret tt
  | f :: files' => print (md_name f) ;;; say "
" ;;; print_names files'
  end.

Definition ls_files (path : list Z) : M shell_state unit :=
  let* files := list_dir stack path in
  match files with
  | None => say "No files found
" ;;; free (Some path)
  | Some l => print_names l ;;; free (Some path) ;;; free (Some [])
  end.
Definition cmd_ls (args : list (list Z)) : M shell_state unit :=
  match args with
  | [] =>
      let* st := get in
      let* path := in_sheap (strdup (working_dir st)) in
      let* path := deref path in
      let* path := parse_path path in
      ls_files path
  | [a] => let* path := full_path a in ls_files path
  | _ => say "Usage: ls
"
  end.

Definition cmd_echo (args : list (list Z)) : M shell_state unit :=
  match args with
  | [a] =>
      let* msg_len := lift (strlen a) in
      let* msg := malloc (u64 (msg_len + 2)) in
      let* m := deref msg in
      let* m := lift (bcopy (Z.to_nat msg_len) m 0 a 0) in
      let* m := lift (bset m msg_len 10) in
      let* m := lift (bset m (msg_len + 1) 0) in
      print m ;;;
      free msg
  | _ => say "Usage: echo <string>
"
  end.

Definition cmd_clear (args : list (list Z)) : M shell_state unit :=
  match args with
  | [] => clear_screen
  | _ => say "Usage: clear
"
  end.

Definition cmd_cd (args : list (list Z)) : M shell_state unit :=
  match args with
  | [a] =>
      let* path := full_path a in
      let* n := lift (strlen path) in
      let* st := get in
      let* wd := lift (bcopy (Z.to_nat (n + 1)) (working_dir st) 0 path 0) in
      let* k := lift (strlen wd) in
      modify (set_wd wd k) ;;;
      free (Some path)
  | _ => say "Usage: cd <path>
"
  end.

Definition cmd_touch (args : list (list Z)) : M shell_state unit :=
  match args with
  | [a] =>
      let* path := full_path a in
      write_file path (cstr "") 1 ;;;
      say "Created: " ;;; print path ;;; say "
" ;;;
      free (Some path)
  | _ => say "Usage: touch <filename>
"
  end.

Definition cmd_cat (args : list (list Z)) : M shell_state unit :=
  match args with
  | [a] =>
      let* path := full_path a in
      let* (ok, metadata) := read_file_metadata path stack in
      if negb ok then say "Error: File doesn't exist
" ;;; free (Some path) else
      let* data := malloc (md_size metadata) in
      let* (ok, data) := read_file path data in
      if negb ok then say "Error: Failed to read file
" ;;; free (Some path) else
      let* d := deref data in
      print d ;;; say "
" ;;;
      free (Some path) ;;;
      free data
  | _ => say "Usage: cat <filename>
"
  end.

Definition cmd_write (args : list (list Z)) : M shell_state unit :=
  match args with
  | [a; b] =>
      let* path := full_path a in
      let* ex := file_exists path in
      (if ex : bool then
         let* n := lift (strlen b) in
         let* ok := write_file path b (u64 (n + 1)) in
         if ok : bool then say "Wrote data to: " ;;; print path ;;; say "
"
         else say "Error: Failed to write to file
"
       else say "Error: File doesn't exist
") ;;;
      free (Some path)
  | _ => say "Usage: write <filename> <data>
"
  end.

Definition cmd_rm (args : list (list Z)) : M shell_state unit :=
  match args with
  | [a] =>
      let* path := full_path a in
      let* ok := delete_file path in
      (if ok : bool then say "Deleted: " ;;; print path ;;; say "
"
       else say "Error: File doesn't exist
") ;;;
      free (Some path)
  | _ => say "Usage: rm <filename>
"
  end.

(** The manual's entries, in the order they are tried. *)
Definition manual : list (string * string) :=
  [("ls", "ls - prints all files and folders inside of working dir
Usage: ls
"); ("echo", "echo - prints the provided text to the screen
Usage: echo <string>
"); ("cd", "cd - changes the current working directory
Usage: cd <path>
"); ("touch", "touch - creates a new empty file
Usage: touch <filename>
"); ("cat", "cat - displays the contents of a file
Usage: cat <filename>
"); ("write", "write - overwrites a file with provided text
Usage: write <path> <data>
"); ("rm", "rm - removes a file from the system
Usage: rm <path>
"); ("man", "man - displays manual pages for commands
Usage: man or man <command>
"); ("find", "find - prints all nested files and folders in working dir
Usage: find or find <path>
"); ("mkdir", "mkdir - creates a new directory
Usage: mkdir <path>
"); ("rmdir", "rmdir - removes an empty directory
Usage: rmdir <path>
"); ("mv", "mv - moves or renames a file
Usage: mv <src> <dst>
"); ("stat", "stat - displays metadata about a file
Usage: stat <path>
")].
Fixpoint man_entry (entries : list (string * string)) (a : list Z) : M shell_state unit :=
  match entries with
  | [] => say "Error: Command not found in manual.
"
  | (name, page) :: entries' =>
      let* eq := lift (strcmp a (cstr name)) in
      if eq : bool then say page else man_entry entries' a
  end.
Definition cmd_man (args : list (list Z)) : M shell_state unit :=
  match args with
  | [] => say "List of commands:
ls echo cd touch cat write rm man find mkdir rmdir mv stat
"
  | [a] => man_entry manual a
  | _ => say "Usage: man or man <command>
"
  end.

(** [level] is the depth below the directory the search started from, [fuel]
    bounds the depth. *)
Fixpoint recursive_find (fuel : nat) (path : list Z) (level : nat) : M shell_state unit :=
  match fuel with
  | O => out_of_fuel
  | S fuel' =>
      let* files := list_dir stack path in
      match files with
      | None => ret tt
      | Some l =>
          (fix each (l : list file_metadata_t) : M shell_state unit :=
             match l with
             | [] => ret tt
             | f :: l' =>
                 for_loop level 0 (fun _ => say "   ") ;;;
                 print (md_name f) ;;; say "
" ;;;
                 (if md_type f =? DIRECTORY then
                    let* child_path := in_sheap (str_concats [path; cstr "/"; md_name f]) in
                    let* child_path := deref child_path in
                    let* child_path := parse_path child_path in
                    recursive_find fuel' child_path (S level) ;;;
                    free (Some child_path)
                  else ret tt) ;;;
                 each l'
             end) l ;;;
          free (Some [])
      end
  end.
Definition cmd_find (args : list (list Z)) : M shell_state unit :=
  match args with
  | [] => let* st := get in recursive_find depth (working_dir st) 0
  | [a] => let* path := full_path a in recursive_find depth path 0
  | _ => say "Usage: find or find <path> 
"
  end.

Definition cmd_mkdir (args : list (list Z)) : M shell_state unit :=
  match args with
  | [a] =>
      let* path := full_path a in
      let* ok := create_directory path in
      (if ok : bool then say "Create directory: " ;;; print path ;;; say "
"
       else say "mkdir: Failed to create directory
") ;;;
      free (Some path)
  | _ => say "Usage: mkdir <path>
"
  end.

Definition cmd_rmdir (args : list (list Z)) : M shell_state unit :=
  match args with
  | [a] =>
      let* path := full_path a in
      let* ok := delete_directory depth path in
      (if ok : bool then say "Removed directory: " ;;; print path ;;; say "
"
       else say "rmdir: Failed to remove directory
") ;;;
      free (Some path)
  | _ => say "Usage: rmdir <path>
"
  end.

Definition cmd_mv (args : list (list Z)) : M shell_state unit :=
  match args with
  | [a; b] =>
      let* src := join_working_dir a in
      let* dst := join_working_dir b in
      let* src := deref src in
      let* src := parse_path src in
      let* dst := deref dst in
      let* dst := parse_path dst in
      let* ok := move_file src dst in
      (if ok : bool then say "Moved file from: " ;;; print src ;;; say " to: " ;;; print dst ;;; say "
"
       else say "mv: Failed to move file
") ;;;
      free (Some src) ;;; free (Some dst)
  | _ => say "Usage: mv <src> <dst>
"
  end.

Definition cmd_stat (args : list (list Z)) : M shell_state unit :=
  match args with
  | [a] =>
      let* path := full_path a in
      let* (ok, meta) := read_file_metadata path stack in
      if negb ok then say "stat: No such file or directory
" ;;; free (Some path) else
      say "  File: " ;;; print path ;;; say "
" ;;;
      say "  Size: " ;;;
      let* size_str := in_sheap (num_to_str (QArith_base.inject_Z (md_size meta))) in
      print size_str ;;;
      say " bytes
" ;;;
      say "  Type: " ;;;
      say (if md_type meta =? DIRECTORY then "directory
" else "file
") ;;;
      free (Some size_str) ;;; free (Some path)
  | _ => say "Usage: stat <path>
"
  end.

(** ** Command lines *)

(** [enum command] and the table of handlers; the first is null. *)
Definition none : Z := 0.
Definition stat : Z := 14.
Definition commands : list (option (list (list Z) -> M shell_state unit)) :=
  [None; Some cmd_ls; Some cmd_echo; Some cmd_clear; Some cmd_cd; Some cmd_touch; Some cmd_cat; Some cmd_write; Some cmd_rm;
   Some cmd_man; Some cmd_find; Some cmd_mkdir; Some cmd_rmdir; Some cmd_mv; Some cmd_stat].
(** The names [parse_command_line] compares with, in its order; the first is
    command 1. *)
Definition command_names : list string :=
  ["ls"; "echo"; "clear"; "cd"; "touch"; "cat"; "write"; "rm"; "man"; "find"; "mkdir"; "rmdir"; "mv"; "stat"].

Definition execute_command_line (command : Z) (args : list (list Z)) : M shell_state unit :=
  if (command <? none) || (stat <? command) then say "Error: Command not found
" else
  match commands !! Z.to_nat command with
  | Some (Some c) => c args
  | Some None => say "Error: Command not found
"
  | None => undefined
  end.

(** The scan for the end of the first word; [None] is the early return. *)
Fixpoint word_end (fuel : nat) (line : list Z) (command_size : Z) : outcome (option Z) :=
  match fuel with
  | O => NoFuel
  | S fuel' =>
      obind (bget line command_size) (fun c =>
      if (c =? SPACE) || (c =? 0) then OK (Some command_size) else
      if 127 <? command_size then OK None else word_end fuel' line (command_size + 1))
  end.
Fixpoint which_command (line : list Z) (command_size i : Z) (names : list string) : outcome Z :=
  match names with
  | [] => OK none
  | n :: names' =>
      obind (strncmp line (cstr n) (Z.to_nat command_size)) (fun b : bool =>
      if b then OK i else which_command line command_size (i + 1) names')
  end.

(** The scan for the end of an argument: its size, and [reached_end]. *)
Fixpoint arg_end (fuel : nat) (line : list Z) (arg_start arg_size : Z) : outcome (Z * bool) :=
  match fuel with
  | O => NoFuel
  | S fuel' =>
      obind (bget line (arg_start + arg_size)) (fun c =>
      if c =? SPACE then OK (arg_size, false) else
      if (c =? 0) || (127 <? arg_start + arg_size) then OK (arg_size, true)
      else arg_end fuel' line arg_start (arg_size + 1))
  end.

Definition LINE_FUEL : nat := 130.

(** [args] is an array of [args_capacity] pointers of which the first
    [length args] are set. *)
Fixpoint args_loop (fuel : nat) (line : list Z) (arg_start args_capacity : Z) (args : list (list Z)) : M shell_state (list (list Z)) :=
  match fuel with
  | O => out_of_fuel
  | S fuel' =>
      let* (arg_size, reached_end) := lift (arg_end LINE_FUEL line arg_start 0) in
      let args_size := Z.of_nat (length args) in
      let* args_capacity :=
        (if args_capacity / 2 <? args_size then
           let args_capacity := u32 (args_capacity * 2) in
           let* new_args := malloc (args_capacity * 8) in
           let* _ := deref new_args in
           free (Some []) ;;; ret args_capacity
         else ret args_capacity) in
      let* a := in_sheap (substr line arg_start arg_size) in
      let* a := deref a in
      if args_capacity <=? args_size then undefined else
      if reached_end then ret (args ++ [a])
      else args_loop fuel' line (arg_start + arg_size + 1) args_capacity (args ++ [a])
  end.

Definition parse_command_line (line : list Z) : M shell_state (option (Z * list (list Z))) :=
  let* c := lift (bget line 0) in
  if c =? 0 then ret None else
  let* w := lift (word_end LINE_FUEL line 0) in
  match w with
  | None => ret None
  | Some command_size =>
      let* command := lift (which_command line command_size 1 command_names) in
      let args_capacity := 10 in
      let* args := malloc (args_capacity * 8) in
      let arg_start := command_size + 1 in
      let* c := lift (bget line arg_start) in
      if (c =? 0) || (127 <? arg_start) then ret (Some (command, [])) else
      let* _ := deref args in
      let* l := args_loop LINE_FUEL line arg_start args_capacity [] in
      ret (Some (command, l))
  end.

(** One key of [read_command_line]: the new line and counter. *)
Definition type_key (scancode : Z) (line : list Z) (counter : Z) : M shell_state (list Z * Z) :=
  let* is_char := lift (is_character scancode) in
  if negb is_char then ret (line, counter) else
  let* ascii := lift (bget scancode_to_ascii scancode) in
  if (ascii =? 8) && (counter <=? 0) then ret (line, counter) else
  let* (line, counter) :=
    (if (32 <=? ascii) && (ascii <=? 126) then let* l := lift (bset line counter ascii) in ret (l, counter + 1)
     else if ascii =? 8 then let* l := lift (bset line (counter - 1) 0) in ret (l, counter - 1)
     else ret (line, counter)) in
  print [ascii; 0] ;;;
  ret (line, if 128 <=? counter then 0 else counter).
Definition ENTER : Z := 0x1C.
Fixpoint read_line_loop (fuel : nat) (line : list Z) (counter : Z) : M shell_state (list Z) :=
  match fuel with
  | O => out_of_fuel
  | S fuel' =>
      let* scancode := read_keyboard in
      let* (line, counter) := type_key scancode line counter in
      if scancode =? ENTER then ret line else read_line_loop fuel' line counter
  end.
Definition read_command_line : M shell_state (list Z) :=
  let* p := malloc 128 in
  let* p := deref p in
  let* line := lift (bfill 128 p 0 0) in
  let* st := get in
  read_line_loop (S (length (skeys st))) line 0.

Fixpoint free_all (l : list (list Z)) : M shell_state unit :=
  match l with [] => ret tt | a :: l' => free (Some a) ;;; free_all l' end.

(** One round of the endless loop of [main]. *)
Definition main_round : M shell_state unit :=
  let* st := get in
  let* line_prefix := in_sheap (str_concat (working_dir st) (cstr "> ")) in
  let* l := deref line_prefix in
  print l ;;;
  free line_prefix ;;;
  let* command_line := read_command_line in
  let* parsed := parse_command_line command_line in
  free (Some command_line) ;;;
  match parsed with
  | None => ret tt
  | Some (command, args) => execute_command_line command args ;;; free_all args ;;; free (Some [])
  end.
Fixpoint main (rounds : nat) : M shell_state unit :=
  match rounds with O => ret tt | S n => main_round ;;; main n end.
End Commands.
