(* ===== verification/ShellPath.v ===== *)
(** * Paths in the shell

    [parse_path] rewrites an absolute path in place into its normal form: the
    reference is a fold over the components that pops on [..] and skips [.]. *)
From S2P Require Import Prelude Mem Util Str StrLib Heap Ata Fs FsThms FsEdit FsPath FsWrite Keyboard Shell.

(** ** The process heap *)

Definition with_sheap (h : bheap) (st : shell_state) : shell_state := set_sfs (set_heap h (sfs st)) st.
Definition sheap (st : shell_state) : bheap := fheap (sfs st).
Definition roomy (st : shell_state) : Prop := ample (sheap st).

Lemma with_sheap_twice h h' st : with_sheap h (with_sheap h' st) = with_sheap h st.
Proof. done. Qed.
Lemma with_sheap_id st : with_sheap (sheap st) st = st.
Proof. by destruct st as [[] ? ? ? ?]. Qed.

Lemma wp_in_sheap {A} (m : M bheap A) (Q : A -> shell_state -> Prop) st :
  wp m (fun a h => Q a (with_sheap h st)) (sheap st) -> wp (in_sheap m) Q st.
Proof. intros H. unfold in_sheap, in_fs, in_heap. apply wp_zoom, wp_zoom, H. Qed.
Lemma wp_free (Q : unit -> shell_state -> Prop) p st : roomy st ->
  (forall h, ample h -> Q tt (with_sheap h st)) -> wp (free p) Q st.
Proof. intros Ha HQ. apply wp_in_sheap. destruct p; by apply HQ. Qed.

(** ** Normal forms *)

Definition DOT : list Z := [46].
Definition DOTDOT : list Z := [46; 46].

(** One component; the components kept so far are in reverse order. *)
Definition norm_step (st : list (list Z)) (part : list Z) : list (list Z) :=
  if decide (part = DOTDOT) then tail st
  else if decide (part = DOT) then st
  else if (length st <? STACK_DEPTH)%nat then part :: st else st.
Definition norm (parts : list (list Z)) : list (list Z) := rev (foldl norm_step [] parts).

(** What the path names: the components of its normal form. *)
Definition normal (t : list Z) : list (list Z) := norm (pieces SLASH t []).

Definition weight (cs : list (list Z)) : Z := len (join cs).
Lemma weight_cons c cs : weight (c :: cs) = len c + 1 + weight cs.
Proof. unfold weight, join, len. cbn. rewrite length_app. lia. Qed.
Lemma weight_app l1 l2 : weight (l1 ++ l2) = weight l1 + weight l2.
Proof. unfold weight, join, len. rewrite bind_app, length_app. lia. Qed.
Lemma weight_nonneg cs : 0 <= weight cs.
Proof. unfold weight, len. lia. Qed.
Lemma weight_rev cs : weight (rev cs) = weight cs.
Proof. induction cs as [|c cs IH]; [done|]. cbn [rev]. rewrite weight_app, IH, !weight_cons. unfold weight at 2. cbn. unfold len at 2. cbn. lia. Qed.

Lemma norm_step_weight st part : weight (norm_step st part) <= weight st + len part + 1.
Proof.
  assert (0 <= len part) by (unfold len; lia). unfold norm_step. repeat case_decide; [| |case_match].
  - destruct st as [|c st]; cbn [tail]; [lia|]. rewrite weight_cons. assert (0 <= len c) by (unfold len; lia). lia.
  - lia.
  - rewrite weight_cons. lia.
  - lia.
Qed.
Lemma norm_fold_weight parts st : weight (foldl norm_step st parts) <= weight st + weight parts.
Proof.
  revert st. induction parts as [|p parts IH]; intros st; cbn [foldl].
  - pose proof (weight_nonneg []). lia.
  - pose proof (IH (norm_step st p)). pose proof (norm_step_weight st p). rewrite weight_cons. lia.
Qed.
Lemma pieces_weight t cur : weight (pieces SLASH t cur) <= len cur + len t + 1.
Proof.
  revert cur. induction t as [|c t IH]; intros cur; cbn [pieces].
  - destruct cur as [|x cur]; [done|]. rewrite weight_cons. unfold weight, len. cbn. lia.
  - assert (len (c :: t) = 1 + len t) as E by (unfold len; cbn; lia). destruct (c =? SLASH).
    + pose proof (IH []) as H. unfold len at 1 in H. cbn in H. destruct cur as [|x cur]; [unfold len in *; cbn; lia|]. rewrite weight_cons. lia.
    + pose proof (IH (cur ++ [c])) as H. unfold len in *. rewrite length_app in H. cbn [length] in *. lia.
Qed.
Lemma normal_weight t : weight (normal (SLASH :: t)) <= len t + 1.
Proof.
  unfold normal, norm. rewrite weight_rev. pose proof (norm_fold_weight (pieces SLASH (SLASH :: t) []) []) as H.
  unfold weight in H at 2. cbn [pieces] in H. rewrite Z.eqb_refl in *. pose proof (pieces_weight t []) as H'. unfold len in *. cbn in *. lia.
Qed.

(** Whatever holds of all pieces holds of the components kept. *)
Lemma norm_fold_Forall (P : list Z -> Prop) parts st : Forall P parts -> Forall P st ->
  Forall P (foldl norm_step st parts).
Proof.
  intros Hp. revert st. induction Hp as [|p parts Hp _ IH]; intros st Hst; [done|]. apply IH.
  unfold norm_step. repeat case_decide; [destruct Hst; [by apply Forall_nil_2|done]|done|case_match; [by apply Forall_cons_2|done]].
Qed.
Lemma norm_Forall (P : list Z -> Prop) parts : Forall P parts -> Forall P (norm parts).
Proof. intros Hp. unfold norm. rewrite rev_alt. apply Forall_reverse, norm_fold_Forall; [done|apply Forall_nil_2]. Qed.

(** ** The loop over the parts *)

Lemma skip_delims_suffix p p' d : skip_delims p d = OK p' -> exists a, p = a ++ p'.
Proof.
  induction p as [|c p IH]; cbn; [done|]. destruct (c =? d).
  - intros [a ->]%IH. by exists (c :: a).
  - intros [= <-]. by exists [].
Qed.

Lemma wp_parts_loop (Q : list (list Z) -> shell_state -> Prop) fuel a t r stk st : roomy st -> nonzero t -> bytes t ->
  len t <= MAX_STR -> (length t < fuel)%nat ->
  (forall h, ample h -> Q ((fun c => c ++ [0]) <$> foldl norm_step stk (pieces SLASH t [])) (with_sheap h st)) ->
  wp (parts_loop fuel (a ++ t ++ 0 :: r) (t ++ 0 :: r) ((fun c => c ++ [0]) <$> stk)) Q st.
Proof.
  revert a t stk st. induction fuel as [|fuel IH]; intros a t stk st Ha Ht Hb Hl Hf HQ; [lia|]. cbn [parts_loop].
  assert (forall x y, bget (x :: y) 0 = OK x) as Hget by done.
  assert (pieces SLASH t [] = [] -> wp (ret ((fun c => c ++ [0]) <$> stk)) Q st) as Hend.
  { intros E. rewrite E in HQ. apply wp_ret. rewrite <- (with_sheap_id st). by apply HQ. }
  destruct t as [|c t]; [by apply wp_bind, (wp_lift _ _ 0), Hend|].
  apply wp_bind, (wp_lift _ _ c); [done|]. pose proof Ht as Hc%Forall_inv. rewrite (proj2 (Z.eqb_neq c 0)) by done.
  destruct (skip_delims_spec SLASH ltac:(done) r (c :: t) Ht) as (t1 & E1 & Ht1 & Ep & Hl1 & Hd1 & Hsub).
  apply wp_bind. eapply wp_lift; [exact E1|]. destruct (skip_delims_suffix _ _ _ E1) as [a1 Ea1].
  destruct t1 as [|c1 t1]; [by apply wp_bind, (wp_lift _ _ 0), Hend|].
  apply wp_bind, (wp_lift _ _ c1); [done|]. pose proof Ht1 as Hc1%Forall_inv. rewrite (proj2 (Z.eqb_neq c1 0)) by done.
  destruct (scan_token_spec SLASH r (c1 :: t1) Ht1) as (tok & t2 & E & Ht2 & Htok & E2 & Ep2).
  apply wp_bind. eapply wp_lift; [exact E|].
  assert (tok <> []) as Hne.
  { intros ->. cbn in E. rewrite (proj2 (Z.eqb_neq c1 0)), (proj2 (Z.eqb_neq c1 SLASH)) in E by done. cbn in E.
    apply obind_OK in E as ([? ?] & _ & [=]). }
  specialize (Ep2 [] Hne). cbn [app] in Ep2. rewrite Ep, Ep2 in HQ. cbn [foldl] in HQ.
  pose proof (Hsub _ Hb) as Hb1. rewrite E2 in Hb1. apply Forall_app in Hb1 as [Hbt Hb2].
  assert (length tok + length t2 <= length (c :: t))%nat as Hlen by (rewrite E2, length_app in Hl1; lia).
  assert (0 < length tok)%nat by (by destruct tok; [|cbn; lia]).
  rewrite Ea1, E2. apply wp_bind, wp_in_sheap.
  assert (forall x y z w : list Z, x ++ y ++ (z ++ w) ++ 0 :: r = (x ++ y) ++ z ++ (w ++ 0 :: r)) as Hassoc
    by (intros; by rewrite <- !app_assoc).
  rewrite Hassoc. eapply wp_substr; [done|done|done| |done|unfold MAX_STR, len in *; lia|].
  { unfold len. rewrite !length_app. cbn [length]. rewrite ?length_app. cbn [length]. lia. }
  intros h Hh _. apply wp_bind, wp_ret, wp_bind.
  assert (cstring (tok ++ [0]) tok) as Hct by by apply cstring_app. assert (len tok <= MAX_STR) as Hlt by (unfold len in *; lia).
  eapply wp_lift; [apply (strcmp_spec _ _ tok DOTDOT); [done|split; [by repeat constructor|by exists []]]|].
  rewrite (proj2 (Z.leb_le _ _) Hlt). cbn [orb].
  assert (forall stk' h', ample h' -> norm_step stk tok = stk' ->
    wp (parts_loop fuel ((a ++ a1) ++ tok ++ t2 ++ 0 :: r) (t2 ++ 0 :: r) ((fun c => c ++ [0]) <$> stk')) Q (with_sheap h' st)) as Hnext.
  { intros stk' h' Hh' <-. rewrite (app_assoc (a ++ a1) tok). apply IH; [done|done|done|unfold len in *; lia|lia|].
    intros h2 Hh2. rewrite with_sheap_twice. by apply HQ. }
  unfold norm_step in Hnext. destruct (decide (tok = DOTDOT)) as [->|Hdd]; [|destruct (decide (tok = DOT)) as [->|Hd]].
  - rewrite bool_decide_eq_true_2 by done. destruct stk as [|top stk]; cbn [fmap list_fmap] in *.
    + apply wp_bind, wp_free; [done|]. intros h2 Hh2. by apply (Hnext [] h2).
    + apply wp_bind, wp_free; [done|]. intros h2 Hh2. apply wp_bind, wp_free; [done|]. intros h3 Hh3. by apply (Hnext stk h3).
  - rewrite bool_decide_eq_false_2 by done. apply wp_bind. apply (wp_lift _ _ true); [done|]. apply wp_bind, wp_free; [done|]. intros h2 Hh2. by apply (Hnext stk h2).
  - rewrite bool_decide_eq_false_2 by done. apply wp_bind.
    eapply wp_lift; [apply (strcmp_spec _ _ tok DOT); [done|split; [by repeat constructor|by exists []]]|].
    rewrite (proj2 (Z.leb_le _ _) Hlt). cbn [orb]. rewrite bool_decide_eq_false_2 by done. rewrite length_fmap.
    destruct (length stk <? STACK_DEPTH)%nat; [by apply (Hnext (tok :: stk) h)|]. apply wp_bind, wp_free; [done|]. intros h2 Hh2. by apply (Hnext stk h2).
Qed.

(** ** Rebuilding the path *)

Fixpoint glue (txt : list Z) (cs : list (list Z)) : list Z :=
  match cs with
  | [] => txt
  | s :: rest => glue (txt ++ s ++ match rest with [] => [] | _ => [SLASH] end) rest
  end.
Lemma glue_join txt c cs : glue (txt ++ [SLASH]) (c :: cs) = txt ++ join (c :: cs).
Proof.
  revert txt c. induction cs as [|d cs IH]; intros txt c.
  - cbn. by rewrite <- !app_assoc, !app_nil_r.
  - change (glue (txt ++ [SLASH]) (c :: d :: cs)) with (glue ((txt ++ [SLASH]) ++ c ++ [SLASH]) (d :: cs)).
    rewrite (app_assoc (txt ++ [SLASH]) c), IH. unfold join. cbn. by rewrite <- !app_assoc.
Qed.
Lemma glue_path_text cs : glue [SLASH] cs = path_text cs.
Proof. destruct cs as [|c cs]; [done|]. apply (glue_join [] c cs). Qed.

(** [memcpy] of a whole C string to the front of a buffer. *)
Lemma bcopy_text dst t : bytes t -> len t + 1 <= len dst ->
  bcopy (Z.to_nat (len t + 1)) dst 0 (t ++ [0]) 0 = OK (t ++ 0 :: drop (length t + 1) dst).
Proof.
  intros Hb Hl. replace (Z.to_nat (len t + 1)) with (length t + 1)%nat by (unfold len; lia).
  rewrite bcopy_spec; [|by apply bytes_snoc0|lia|lia|unfold len in *; lia|unfold len in *; rewrite length_app; cbn; lia].
  change (Z.to_nat 0) with 0%nat. rewrite take_0, drop_0, take_app_add. cbn [app take]. by rewrite Nat.add_0_l, <- app_assoc.
Qed.

Definition names_ok (cs : list (list Z)) : Prop := Forall (fun c => nonzero c /\ bytes c) cs.

Lemma wp_rebuild (Q : list Z -> shell_state -> Prop) txt r cs st : roomy st -> nonzero txt -> bytes (txt ++ 0 :: r) ->
  names_ok cs -> len (glue txt cs) <= len txt + len r -> len (glue txt cs) <= MAX_STR ->
  (forall h r', ample h -> bytes r' -> len (glue txt cs) + len r' = len txt + len r -> Q (glue txt cs ++ 0 :: r') (with_sheap h st)) ->
  wp (rebuild (txt ++ 0 :: r) ((fun c => c ++ [0]) <$> cs)) Q st.
Proof.
  revert txt r st. induction cs as [|c cs IH]; intros txt r st Ha Ht Hb Hcs Hfit Hmax HQ; cbn [rebuild fmap list_fmap].
  - apply wp_ret. rewrite <- (with_sheap_id st). apply HQ; [done| |done]. by apply Forall_app in Hb as [_ [_ ?]%Forall_cons].
  - apply Forall_cons in Hcs as [[Hc Hbc] Hcs]. pose proof Hb as [Hbt [_ Hbr]%Forall_cons]%Forall_app.
    assert (forall u us, len u <= len (glue u us)) as Hgrow.
    { intros u us. revert u. induction us as [|x us IHu]; intros u; cbn [glue]; [lia|]. etrans; [|apply IHu]. unfold len. rewrite length_app. lia. }
    set (sep := match cs with [] => [] | _ => [SLASH] end : list Z).
    change (glue txt (c :: cs)) with (glue (txt ++ c ++ sep) cs) in *.
    assert (len (txt ++ c ++ sep) <= MAX_STR) as Hl by (pose proof (Hgrow (txt ++ c ++ sep) cs); lia).
    assert (len txt <= MAX_STR /\ len c <= MAX_STR /\ len (txt ++ c) <= MAX_STR) as (? & ? & ?) by (unfold len in *; rewrite !length_app in *; lia).
    assert (nonzero (txt ++ c) /\ bytes (txt ++ c)) as [Hn1 Hb1] by (split; by apply Forall_app).
    assert (nonzero sep /\ bytes sep) as [Hns Hbs] by (unfold sep; split; destruct cs; by repeat constructor).
    apply wp_bind, wp_in_sheap. eapply (wp_str_concat _ _ _ _ txt c); [done|by apply cstring_app|by apply cstring_app|done|by apply bytes_snoc0|done..|].
    intros b h Hh -> _. apply wp_bind, wp_ret, wp_bind. rewrite app_assoc.
    match goal with |- wp _ ?K _ => assert (forall h', ample h' -> K (Some ((txt ++ c ++ sep) ++ [0])) (with_sheap h' st)) as Hk end.
    { intros h' Hh'. apply wp_bind, wp_ret, wp_bind.
      assert (nonzero (txt ++ c ++ sep) /\ bytes (txt ++ c ++ sep)) as [Hn2 Hb2] by (rewrite app_assoc; split; by apply Forall_app).
      eapply wp_lift; [apply strlen_ok; [by apply cstring_app|done]|]. apply wp_bind.
      assert (len (txt ++ 0 :: r) = len txt + 1 + len r) as Elen by (unfold len; rewrite length_app; cbn; lia).
      pose proof (Hgrow (txt ++ c ++ sep) cs) as Hg.
      eapply wp_lift; [apply bcopy_text; [done|lia]|]. set (r' := drop (length (txt ++ c ++ sep) + 1) (txt ++ 0 :: r)).
      assert (len (txt ++ c ++ sep) + len r' = len txt + len r) as Elen'.
      { unfold r', len in *. rewrite length_drop. lia. }
      assert (forall h2, ample h2 -> wp (rebuild ((txt ++ c ++ sep) ++ 0 :: r') ((fun c => c ++ [0]) <$> cs)) Q (with_sheap h2 st)) as Hrec.
      { intros h2 Hh2. apply IH; [done|done| |done|lia|lia|].
        - apply Forall_app. split; [done|]. apply Forall_cons. split; [done|]. unfold r'. by apply Forall_drop.
        - intros h3 r3 Hh3 Hr3 El. rewrite with_sheap_twice. apply HQ; [done|done|]. lia. }
      apply wp_bind, wp_free; [done|]. intros h2 Hh2. apply wp_bind. destruct cs as [|d cs]; cbn [fmap list_fmap].
      - apply wp_ret, wp_bind, wp_free; [done|]. intros h3 Hh3. by apply (Hrec h3).
      - apply wp_free; [done|]. intros h3 Hh3. apply wp_bind, wp_free; [done|]. intros h4 Hh4. by apply (Hrec h4). }
    unfold sep in *. destruct cs as [|d cs]; cbn [fmap list_fmap].
    + rewrite app_nil_r in Hk. by apply wp_ret, Hk.
    + apply wp_in_sheap. eapply (wp_str_concat _ _ _ _ (txt ++ c) [SLASH]);
        [done|by apply cstring_app|split; [by repeat constructor|by exists []]|by apply bytes_snoc0|by repeat constructor|done|done|].
      intros b h' Hh' -> _. specialize (Hk h' Hh'). by rewrite <- !app_assoc in *.
Qed.

(** ** [parse_path] *)

Lemma bfill_spec n dst i v : 0 <= i -> i + Z.of_nat n <= len dst ->
  bfill n dst i v = OK (take (Z.to_nat i) dst ++ replicate n (u8 v) ++ drop (Z.to_nat i + n) dst).
Proof.
  revert dst i. induction n as [|n IH]; intros dst i Hi Hl; cbn [bfill].
  - cbn. by rewrite Nat.add_0_r, take_drop.
  - rewrite bset_ok by lia. cbn [obind]. rewrite IH by (unfold len in *; rewrite ?length_insert; lia). f_equal.
    replace (Z.to_nat (i + 1)) with (S (Z.to_nat i)) by lia.
    rewrite (take_S_r _ _ (u8 v)) by (apply list_lookup_insert_eq; unfold len in *; lia).
    rewrite take_insert_ge, drop_insert_lt by lia. replace (S (Z.to_nat i) + n)%nat with (Z.to_nat i + S n)%nat by lia.
    by rewrite <- !app_assoc.
Qed.

(** Components that a normal form keeps. *)
Definition plain (c : list Z) : Prop := c <> DOT /\ c <> DOTDOT.
Lemma norm_fold_plain parts st : Forall plain st -> Forall plain (foldl norm_step st parts).
Proof.
  revert st. induction parts as [|p parts IH]; intros st Hst; [done|]. apply IH. unfold norm_step.
  destruct (decide (p = DOTDOT)); [destruct Hst; [by apply Forall_nil_2|done]|]. destruct (decide (p = DOT)); [done|].
  case_match; [by apply Forall_cons_2|done].
Qed.
Lemma norm_plain parts : Forall plain (norm parts).
Proof. unfold norm. rewrite rev_alt. apply Forall_reverse, norm_fold_plain, Forall_nil_2. Qed.
Lemma norm_fold_length parts st : (length st <= STACK_DEPTH)%nat -> (length (foldl norm_step st parts) <= STACK_DEPTH)%nat.
Proof.
  revert st. induction parts as [|p parts IH]; intros st Hst; [done|]. apply IH. unfold norm_step.
  destruct (decide (p = DOTDOT)); [destruct st; cbn in *; lia|]. destruct (decide (p = DOT)); [done|].
  destruct (Nat.ltb_spec (length st) STACK_DEPTH); [cbn; lia|done].
Qed.
Lemma norm_length parts : (length (norm parts) <= STACK_DEPTH)%nat.
Proof. unfold norm. rewrite length_rev. apply norm_fold_length. cbn. lia. Qed.
Lemma norm_id cs : Forall plain cs -> (length cs <= STACK_DEPTH)%nat -> norm cs = cs.
Proof.
  intros Hcs Hl. unfold norm.
  assert (forall st, (length st + length cs <= STACK_DEPTH)%nat -> foldl norm_step st cs = rev cs ++ st) as Hf.
  { clear Hl. induction Hcs as [|c cs [Hd Hdd] Hcs IH]; intros st Hl; [done|]. cbn [foldl rev length] in *.
    assert (norm_step st c = c :: st) as -> by (unfold norm_step; rewrite !decide_False by done; by rewrite (proj2 (Nat.ltb_lt _ _)) by lia).
    rewrite IH by (cbn; lia). by rewrite <- app_assoc. }
  rewrite Hf by done. by rewrite app_nil_r, rev_involutive.
Qed.

Lemma normal_Forall (P : Z -> Prop) t : Forall P t -> Forall (fun c => word c /\ Forall P c) (normal t).
Proof. intros Ht. apply norm_Forall, pieces_Forall; [done|apply Forall_nil_2..]. Qed.
Lemma normal_text cs : Forall word cs -> normal (path_text cs) = norm cs.
Proof.
  intros Hcs. unfold normal. destruct cs as [|c cs]; [done|]. cbn [path_text]. rewrite <- (app_nil_r (join _)).
  rewrite pieces_words; [done|done|by left].
Qed.
Lemma normal_idem t : normal (path_text (normal t)) = normal t.
Proof.
  rewrite normal_text; [apply norm_id; [apply norm_plain|apply norm_length]|].
  eapply Forall_impl; [apply (normal_Forall (fun _ => True)), Forall_true; done|by intros c [? _]].
Qed.
Lemma normal_text_len u : len (path_text (normal (SLASH :: u))) <= len (SLASH :: u).
Proof.
  pose proof (normal_weight u) as H. assert (len (SLASH :: u) = len u + 1) as -> by (unfold len; cbn; lia).
  destruct (normal (SLASH :: u)); [unfold len; cbn; lia|exact H].
Qed.

(** An absolute path in a buffer: rewritten in place to its normal form, in
    which the buffer's size suffices. *)
Lemma wp_parse_path (Q : list Z -> shell_state -> Prop) u r st : roomy st -> nonzero u -> bytes (SLASH :: u ++ 0 :: r) ->
  len (SLASH :: u) <= MAX_STR ->
  (forall h r', ample h -> bytes r' -> let t' := path_text (normal (SLASH :: u)) in
     len t' + len r' = len (SLASH :: u) + len r -> Q (t' ++ 0 :: r') (with_sheap h st)) ->
  wp (parse_path (SLASH :: u ++ 0 :: r)) Q st.
Proof.
  intros Ha Hu Hb Hl HQ. set (t := SLASH :: u) in *. change (SLASH :: u ++ 0 :: r) with (t ++ 0 :: r) in *.
  assert (nonzero t) as Ht by (by apply Forall_cons_2). pose proof Hb as [Hbt [_ Hbr]%Forall_cons]%Forall_app.
  unfold parse_path. apply wp_bind. eapply wp_lift; [apply strlen_ok; [by apply cstring_app|done]|].
  destruct (Z.leb_spec (len t) 1) as [H1|H1].
  { assert (u = []) as -> by (unfold t, len in H1; cbn in H1; destruct u; [done|cbn in H1; lia]).
    apply wp_ret. rewrite <- (with_sheap_id st). by apply (HQ (sheap st) r). }
  apply wp_bind. eapply (wp_parts_loop _ _ [] t r []); [done..|rewrite length_app; lia|]. intros h Hh.
  assert (len (t ++ 0 :: r) = len t + 1 + len r) as Elen by (unfold len; rewrite length_app; cbn; lia).
  apply wp_bind. eapply wp_lift; [apply bfill_spec; [lia|unfold len in *; lia]|]. change (u8 0) with 0. change (Z.to_nat 0) with 0%nat.
  replace (Z.to_nat (len t)) with (S (S (length t - 2))) by (unfold len in *; lia). cbn [take replicate app].
  rewrite take_0, Nat.add_0_l. cbn [app]. assert (drop (S (S (length t - 2))) (t ++ 0 :: r) = 0 :: r) as ->.
  { replace (S (S (length t - 2))) with (length t) by (unfold len in *; lia). by rewrite drop_app_length. }
  apply wp_bind. eapply wp_lift; [apply bset_ok; unfold len; rewrite ?length_insert; cbn [length]; lia|].
  apply wp_bind. eapply wp_lift; [apply bset_ok; unfold len; rewrite ?length_insert; cbn [length]; lia|].
  change (<[Z.to_nat 1:=u8 0]> (<[Z.to_nat 0:=u8 SLASH]> (0 :: 0 :: replicate (length t - 2) 0 ++ 0 :: r)))
    with ([SLASH] ++ 0 :: replicate (length t - 2) 0 ++ 0 :: r).
  set (r1 := replicate (length t - 2) 0 ++ 0 :: r).
  assert (len r1 = len t + len r - 1) as El1 by (unfold r1, len in *; rewrite length_app, length_replicate; cbn [length]; lia).
  assert (forall l : list (list Z), rev ((fun c => c ++ [0]) <$> l) = (fun c => c ++ [0]) <$> rev l) as ->
    by (intros l; rewrite !rev_alt; symmetry; apply fmap_reverse).
  change (rev (foldl norm_step [] (pieces SLASH t []))) with (normal t).
  pose proof (normal_text_len u) as Hfit. fold t in Hfit. assert (0 <= len r) by (unfold len; lia).
  apply wp_rebuild; rewrite ?glue_path_text; [done|by repeat constructor| | |change (len [SLASH]) with 1; lia|lia|].
  - apply Forall_cons_2; [done|]. apply Forall_cons_2; [done|]. apply Forall_app. split; [by apply Forall_replicate|by apply Forall_cons_2].
  - assert (Forall (fun x => x <> 0 /\ in_range 8 x) t) as Hboth by (by apply Forall_and).
    eapply Forall_impl; [exact (normal_Forall _ _ Hboth)|]. by intros c [_ [? ?]%Forall_and].
  - intros h' r' Hh' Hr' El. rewrite with_sheap_twice. apply HQ; [done|done|]. change (len [SLASH]) with 1 in El. lia.
Qed.
