(* ===== verification/ShellThms.v ===== *)
(** * Properties of the shell's commands

    Paths given to commands name what the normal form of the joined path
    names; the working directory stays a normal absolute path; what [write]
    stores is what [cat] prints. *)
From S2P Require Import Prelude Mem Util Str StrLib Heap Ata Fs FsThms FsEdit FsPath FsWrite FsOps FsList Keyboard Shell ShellPath.

(** ** The working directory *)

(** The buffer holds the normal path with the components [wcs]. *)
Record cwd_ok (st : shell_state) (wcs : list (list Z)) : Prop := {
  cwd_text : cstring (working_dir st) (path_text wcs);
  cwd_bytes : bytes (working_dir st);
  cwd_size : len (working_dir st) = WORKING_DIR_SIZE;
  cwd_len : working_dir_len st = len (path_text wcs);
  cwd_words : Forall word wcs;
  cwd_normal : norm wcs = wcs
}.

(** The text [join_working_dir] produces, and the components it names. *)
Definition joined (wcs : list (list Z)) (a : list Z) : list Z :=
  match a with
  | c :: _ => if c =? SLASH then a else path_text wcs ++ SLASH :: a
  | [] => path_text wcs ++ [SLASH]
  end.
Definition target (wcs : list (list Z)) (a : list Z) : list (list Z) := normal (joined wcs a).

Lemma joined_slash wcs a : exists u, joined wcs a = SLASH :: u.
Proof.
  destruct (path_text_slash wcs) as [u Eu]. unfold joined. rewrite Eu.
  destruct a as [|c a]; [by eexists|]. destruct (Z.eqb_spec c SLASH) as [->|]; by eexists.
Qed.

(** An argument: a C string whose joined path is within what [strlen] measures. *)
Record arg_ok (wcs : list (list Z)) (arg a : list Z) : Prop := {
  arg_text : cstring arg a; arg_bytes : bytes arg; arg_len : len (joined wcs a) <= MAX_STR }.

Lemma cwd_with_sheap st wcs h : cwd_ok st wcs -> cwd_ok (with_sheap h st) wcs.
Proof. by intros []. Qed.

Lemma joined_Forall (P : Z -> Prop) wcs a : P SLASH -> Forall P (path_text wcs) -> Forall P a -> Forall P (joined wcs a).
Proof.
  intros Hs Hw Ha. unfold joined. destruct a as [|c a]; [apply Forall_app; split; [done|by apply Forall_singleton]|].
  destruct (c =? SLASH); [done|]. apply Forall_app. split; [done|]. by apply Forall_cons_2.
Qed.

(** [join_working_dir] *)
Lemma wp_join (Q : option (list Z) -> shell_state -> Prop) st wcs arg a : roomy st -> cwd_ok st wcs -> arg_ok wcs arg a ->
  (forall h, ample h -> Q (Some (joined wcs a ++ [0])) (with_sheap h st)) -> wp (join_working_dir arg) Q st.
Proof.
  intros Ha [Hw Hwb _ _ _ _] [Ht Hb Hl] HQ. pose proof Ht as [Hnz [r Er]]. unfold join_working_dir.
  assert (bget arg 0 = OK (default 0 (a !! 0%nat))) as Eg by (rewrite Er; by destruct a).
  apply wp_bind. eapply wp_lift; [exact Eg|].
  assert ((default 0 (a !! 0%nat) =? SLASH) = false ->
    wp (let* st0 := get in in_sheap (str_concats [working_dir st0; cstr "/"; arg])) Q st) as Hrel.
  { intros Hc. assert (joined wcs a = mjoin [path_text wcs; [SLASH]; a]) as Ej.
    { cbn. rewrite app_nil_r. destruct a as [|c a]; [done|]. cbn in Hc |- *. by rewrite Hc. }
    apply wp_bind, wp_get, wp_in_sheap.
    eapply (wp_str_concats _ _ _ [path_text wcs; [SLASH]; a]); [done|done| |by rewrite <- Ej|].
    - repeat (apply Forall2_cons_2 || apply Forall2_nil_2); (split; [|done || apply cstr_bytes]); [done| |done].
      by apply (cstring_app [SLASH] []); repeat constructor.
    - intros h' Hh' _. rewrite <- Ej. by apply HQ. }
  destruct a as [|c a]; [by apply Hrel|]. cbn [default lookup list_lookup from_option id] in *. unfold id in *.
  destruct (c =? SLASH) eqn:Ec; [|by apply Hrel].
  assert (joined wcs (c :: a) = c :: a) as Ej by (cbn; by rewrite Ec). rewrite Ej in *.
  apply wp_in_sheap. eapply wp_strdup; [done..|]. intros h' Hh' _. by apply HQ.
Qed.

(** The path a command works on. *)
Lemma wp_full_path (Q : list Z -> shell_state -> Prop) st wcs arg a : roomy st -> cwd_ok st wcs -> arg_ok wcs arg a ->
  (forall h r, ample h -> bytes r -> let t := path_text (target wcs a) in len t <= len (joined wcs a) ->
     cstring (t ++ 0 :: r) t -> bytes t -> Q (t ++ 0 :: r) (with_sheap h st)) ->
  wp (full_path arg) Q st.
Proof.
  intros Ha Hw Harg HQ. pose proof Harg as [[Hnz [r Er]] Hb Hl]. unfold full_path. apply wp_bind.
  eapply wp_join; [done..|]. intros h Hh. apply wp_bind, wp_ret.
  assert (Forall (fun x => x <> 0 /\ in_range 8 x) (joined wcs a)) as Hj.
  { apply joined_Forall; [done| |].
    - apply Forall_and. split; [apply (cwd_text _ _ Hw)|]. eapply cstring_bytes; [apply Hw|apply Hw].
    - apply Forall_and. split; [done|]. by eapply cstring_bytes; [apply Harg|]. }
  assert (Forall (fun x => x <> 0 /\ in_range 8 x) (path_text (target wcs a))) as Ht.
  { pose proof (normal_Forall _ _ Hj) as Hn. fold (target wcs a) in Hn. destruct (target wcs a) as [|c cs]; [by apply Forall_singleton|].
    change (path_text (c :: cs)) with (join (c :: cs)). unfold join. apply Forall_bind. eapply Forall_impl; [exact Hn|].
    intros x [_ Hx]. by apply Forall_cons_2. }
  apply Forall_and in Ht as [Htn Htb]. apply Forall_and in Hj as [Hjn Hjb].
  destruct (joined_slash wcs a) as [u Eu]. unfold target in *. rewrite Eu in *. cbn [app].
  apply wp_parse_path; [done|by apply Forall_cons in Hjn as [_ ?]|by apply (bytes_snoc0 (SLASH :: u))|done|].
  intros h2 r2 Hh2 Hr2 t' El. rewrite with_sheap_twice. apply HQ; [done|done|apply normal_text_len|by apply cstring_app|done].
Qed.

(** ** Printing *)

Lemma text_ok s t : cstring s t -> text s = OK t.
Proof.
  intros [Ht [r ->]]. induction Ht as [|c t Hc Ht IH]; [done|]. cbn [app text]. rewrite (proj2 (Z.eqb_neq c 0)) by done.
  by rewrite IH.
Qed.
Definition printed (t : list Z) (st : shell_state) : shell_state := set_sout (sout st ++ t) st.
Lemma wp_shell_print (Q : unit -> shell_state -> Prop) s t st : cstring s t -> Q tt (printed t st) -> wp (print s) Q st.
Proof. intros Hs HQ. apply wp_bind. eapply wp_lift; [by apply text_ok|]. by apply wp_modify. Qed.
Lemma wp_say (Q : unit -> shell_state -> Prop) s st : nonzero (of_string s) -> Q tt (printed (of_string s) st) -> wp (say s) Q st.
Proof. intros Hs. apply wp_shell_print. by apply cstring_app. Qed.

(** The text of a literal has no terminator inside. *)
Lemma of_string_nonzero s : forallb (fun c => negb (c =? 0)) (of_string s) = true -> nonzero (of_string s).
Proof.
  induction (of_string s) as [|c t IH]; intros H; [apply Forall_nil_2|]. cbn in H. apply andb_true_iff in H as [Hc Ht].
  apply Forall_cons_2; [by apply negb_true_iff, Z.eqb_neq in Hc|by apply IH].
Qed.
Ltac wp_say := apply wp_say; [by apply of_string_nonzero|].

(** ** [cd] *)

Lemma cmd_cd_ok st wcs arg a : roomy st -> cwd_ok st wcs -> arg_ok wcs arg a ->
  if len (path_text (target wcs a)) <? WORKING_DIR_SIZE
  then wp (cmd_cd [arg]) (fun _ st' => cwd_ok st' (target wcs a) /\ roomy st' /\ sout st' = sout st /\ disk (sfs st') = disk (sfs st)) st
  else cmd_cd [arg] st = UB.
Proof.
  intros Ha Hw Harg.
  assert (wp (full_path arg) (fun p st1 => exists h r, ample h /\ bytes r /\ st1 = with_sheap h st /\ p = path_text (target wcs a) ++ 0 :: r /\
    len (path_text (target wcs a)) <= MAX_STR /\ nonzero (path_text (target wcs a)) /\ bytes (path_text (target wcs a))) st) as Hfull.
  { eapply wp_full_path; [done..|]. intros h r Hh Hr t Hlt Hc Hb. exists h, r. destruct Harg. split_and!; try done; [by etrans|apply Hc]. }
  set (t := path_text (target wcs a)) in *.
  apply wp_OK in Hfull as (p & st1 & Ef & h & r & Hh & Hr & -> & -> & Hl & Hnz & Hb).
  assert (strlen (t ++ 0 :: r) = OK (len t)) as Es by (apply strlen_ok; [by apply cstring_app|done]).
  assert (bytes (t ++ 0 :: r)) as Hb' by (apply Forall_app; split; [done|by apply Forall_cons_2]).
  destruct Hw as [Hwt Hwb Hws Hwl Hww Hwn]. destruct (Z.ltb_spec (len t) WORKING_DIR_SIZE) as [Hfit|Hbig].
  - apply wp_bind. eapply wp_step; [exact Ef|]. apply wp_bind. eapply wp_lift; [exact Es|]. apply wp_bind, wp_get, wp_bind.
    eapply wp_lift.
    { apply bcopy_spec; [done|lia|lia|cbn; unfold WORKING_DIR_SIZE, len in *; lia|unfold len; rewrite length_app; cbn [length]; lia]. }
    change (Z.to_nat 0) with 0%nat. rewrite take_0, drop_0. cbn [app]. replace (Z.to_nat (len t + 1)) with (length t + 1)%nat by (unfold len; lia).
    rewrite take_app_add. cbn [take]. rewrite (take_0 r), <- app_assoc. cbn [app]. rewrite Nat.add_0_l.
    change (working_dir (with_sheap h st)) with (working_dir st). set (wd := t ++ 0 :: drop (length t + 1) (working_dir st)).
    assert (cstring wd t) as Hcw by by apply cstring_app.
    apply wp_bind. eapply wp_lift; [by apply strlen_ok|]. apply wp_bind, wp_modify, wp_free; [done|]. intros h2 Hh2.
    split_and!; [|done..]. constructor; cbn [working_dir working_dir_len set_wd with_sheap set_sfs]; [done| | |done| |].
    + apply Forall_app. split; [done|]. apply Forall_cons_2; [done|]. by apply Forall_drop.
    + unfold wd, WORKING_DIR_SIZE, len in *. rewrite length_app. cbn [length]. rewrite length_drop. lia.
    + eapply Forall_impl; [apply (normal_Forall (fun _ => True)), Forall_true; done|by intros c [? _]].
    + apply norm_id; [apply norm_plain|apply norm_length].
  - unfold cmd_cd. rewrite (bind_step _ _ _ _ _ Ef). unfold bind at 1, lift. rewrite Es. cbn [obind]. unfold bind at 1, get. cbn [obind].
    assert (forall n d dst, 0 <= d <= len dst -> len dst < d + Z.of_nat n -> bcopy n dst d (t ++ 0 :: r) d = UB) as Hover.
    { intros n. induction n as [|n IH]; intros d dst Hd Hn; [unfold len in *; lia|]. cbn [bcopy].
      destruct (bget (t ++ 0 :: r) d) as [c| | |] eqn:E; cbn [obind].
      2,4: unfold bget in E; by destruct (d <? 0); [|destruct ((t ++ 0 :: r) !! Z.to_nat d)].
      2: done. unfold bset. destruct ((d <? 0) || (Z.of_nat (length dst) <=? d)) eqn:Eb; [done|]. cbn [obind].
      reflect_Z. apply IH; unfold len in *; rewrite length_insert; lia. }
    unfold bind at 1. rewrite Hover; [done|unfold len; lia|cbn; unfold WORKING_DIR_SIZE, len in *; lia].
Qed.

(** ** Files *)

Lemma wp_in_fs {A} (m : M fs_state A) (Q : A -> shell_state -> Prop) st :
  wp m (fun a f => Q a (set_sfs f st)) (sfs st) -> wp (in_fs m) Q st.
Proof. apply wp_zoom. Qed.

Lemma payload_spec n : 0 < n < 2 ^ 32 -> n + n mod 2 <= payload n /\ 0 < payload n.
Proof.
  intros Hn. unfold payload, HDR. rewrite wrap_id by (unfold in_range; lia).
  destruct (align_up_spec (n + 16)) as [Hr [k Hk]]; [lia|lia|]. rewrite Hk in *. split; [divlia|lia].
Qed.
Lemma wp_malloc (Q : option (list Z) -> shell_state -> Prop) n st : roomy st -> 0 < n < 2 ^ 32 ->
  (forall b h, ample h -> n + n mod 2 <= len b -> bytes b -> Q (Some b) (with_sheap h st)) -> wp (malloc n) Q st.
Proof.
  intros Ha Hn HQ. unfold malloc. rewrite (proj2 (Z.eqb_neq n 0)) by lia. destruct (payload_spec n Hn) as [Hp Hp0].
  apply wp_in_sheap, wp_bmalloc; [done|done|]. intros b h Hh Hl Hb _. apply HQ; [done|lia|done].
Qed.

Section Files.
Context (t : list file_entry_t) (dirs : gmap Z listing) (root sc : Z) (m : mem) (Hwf : fs_wf sc m t dirs root).

(** [cat] of a file whose bytes start with a C string prints the string. *)
Lemma cmd_cat_ok stack st wcs arg a ds nm i e txt rest : ready sc m (sfs st) -> cwd_ok st wcs -> arg_ok wcs arg a ->
  target wcs a = ds ++ [nm] -> Forall component (ds ++ [nm]) -> presolve t dirs (ds ++ [nm]) root = Some i -> live t i e ->
  len (md_name stack) = FILE_NAME_LENGTH -> file_bytes m e = txt ++ 0 :: rest -> nonzero txt ->
  wp (cmd_cat stack [arg]) (fun _ st' => sout st' = sout st ++ txt ++ [10] /\ disk (sfs st') = m) st.
Proof using Hwf.
  intros Hst Hw Harg Ht Hcs Hr He Hmeta Hfile Htxt. pose proof Hst as (Hd & Hsc & Hm & Ha). unfold cmd_cat.
  apply wp_bind. eapply wp_full_path; [done..|]. intros h r Hh Hbr p Hlp Hcp Hbp. unfold p in *. rewrite Ht in *. clear p.
  assert (is_path (path_text (ds ++ [nm]) ++ 0 :: r) (ds ++ [nm])) as Hp.
  { split_and!; [done|apply Forall_app; split; [done|by apply Forall_cons_2]|done|destruct Harg; lia]. }
  apply wp_bind, wp_in_fs. eapply (wp_read_metadata t dirs root sc m Hwf); [by split_and!|done..|]. intros n st1 (h1 & Hh1 & ->). cbn [negb md_size].
  pose proof (wf_size _ _ _ _ _ (proj2 Hwf) i e He) as Hmax. assert (len (file_bytes m e) = size e) as Hfl.
  { unfold file_bytes, len. rewrite length_rd_bytes. destruct (lay_in _ _ (wf_layout _ _ _ _ _ (proj2 Hwf)) i e He) as [Hs _]; lia. }
  assert (0 < size e) as Hpos by (rewrite <- Hfl, Hfile; unfold len; rewrite length_app; cbn; lia).
  apply wp_bind, wp_malloc; [done|unfold MAX_FILE in Hmax; lia|]. intros b h2 Hh2 Hlb Hbb.
  apply wp_bind, wp_in_fs. eapply (wp_read_file t dirs root sc m Hwf); [by split_and!|done| |].
  - intros st2 (h3 & Hh3 & ->). rewrite Hr. intros f Hf _.
    pose proof (live_fun _ _ _ _ He Hf) as <-.
    cbn [negb]. apply wp_bind, wp_ret, wp_bind.
    apply (wp_shell_print _ _ txt).
    { split; [done|]. pose proof (take_disk_read m e b ltac:(lia)) as Hk. rewrite Hfile in Hk.
      exists (rest ++ drop (Z.to_nat (size e)) (disk_read m (start_sector e) (size e) b)).
      rewrite <- (take_drop (Z.to_nat (size e)) (disk_read m (start_sector e) (size e) b)) at 1. rewrite Hk. by rewrite <- app_assoc. }
    apply wp_bind. wp_say. apply wp_bind, wp_free; [done|]. intros h4 Hh4. apply wp_free; [done|]. intros h5 Hh5. cbn.
    split; [by rewrite <- app_assoc|done].
  - intros j f Hj Hf. rewrite Hr in Hj. injection Hj as <-.
    by rewrite <- (live_fun _ _ _ _ He Hf).
Qed.
End Files.

Definition wrote (cs : list (list Z)) : list Z := of_string "Wrote data to: " ++ path_text cs ++ [10].
Definition write_failed : list Z := of_string "Error: Failed to write to file
".

(** [write] on an existing plain file. *)
Lemma cmd_write_ok sc m t dirs root st wcs arg a ds nm i e d de data txt :
  fs_wf sc m t dirs root -> ready sc m (sfs st) -> cwd_ok st wcs -> arg_ok wcs arg a ->
  target wcs a = ds ++ [nm] -> Forall component (ds ++ [nm]) -> len nm < FILE_NAME_LENGTH ->
  presolve t dirs (ds ++ [nm]) root = Some i -> live t i e -> type e = FILE ->
  presolve t dirs ds root = Some d -> live t d de -> ds = [] \/ type de = DIRECTORY ->
  cstring data txt -> bytes data -> len txt <= MAX_STR ->
  wp (cmd_write [arg; data]) (fun _ st' => cwd_ok st' wcs /\ (exists f, finished sc f (sfs st')) /\
    (sout st' = sout st ++ write_failed /\ disk (sfs st') = m \/
     sout st' = sout st ++ wrote (ds ++ [nm]) /\ stored sc m t dirs root (ds ++ [nm]) data FILE (len txt + 1) (disk (sfs st')))) st.
Proof.
  intros Hwf Hst Hw Harg Ht Hcs Hnm Hr He Hty Hpar Hde Hk Hdata Hbd Hld. pose proof Hst as (Hd & Hsc & Hm & Ha). unfold cmd_write.
  apply wp_bind. eapply wp_full_path; [done..|]. intros h r Hh Hbr p Hlp Hcp Hbp. unfold p in *. rewrite Ht in *. clear p.
  assert (is_path (path_text (ds ++ [nm]) ++ 0 :: r) (ds ++ [nm])) as Hp.
  { split_and!; [done|apply Forall_app; split; [done|by apply Forall_cons_2]|done|destruct Harg; lia]. }
  apply wp_bind, wp_in_fs. eapply (wp_file_exists t dirs root sc m Hwf); [by split_and!|done|]. intros st1 (h1 & Hh1 & ->).
  rewrite Hr, bool_decide_eq_true_2 by eauto. apply wp_bind. eapply wp_bind, wp_lift; [by apply strlen_ok|].
  assert (0 <= len txt) by (unfold len; lia). pose proof (cstring_len _ _ Hdata).
  rewrite (wrap_id 64) by (unfold in_range, MAX_STR in *; lia). apply wp_bind, wp_in_fs.
  eapply wp_mono; [eapply (wp_write_file sc m t dirs root Hwf _ ds nm Hp Hnm data FILE (len txt + 1));
    [done|unfold MAX_STR, MAX_FILE in *; lia|done|by split_and!|done|done|done|by left]|].
  intros ok st2 Hfin. unfold written in Hfin. rewrite Hr in Hfin. pose proof Hfin as (Hd2 & Hsc2 & Ha2 & Ht2 & Hres). destruct ok.
  - apply wp_bind. wp_say. apply wp_bind. apply (wp_shell_print _ _ (path_text (ds ++ [nm]))); [done|]. wp_say.
    apply wp_free; [done|]. intros h5 Hh5. split_and!; [by destruct Hw|by exists (fun _ => True)|right]. split; [|done].
    cbn. unfold wrote. by rewrite <- !app_assoc.
  - wp_say. apply wp_free; [done|]. intros h5 Hh5. split_and!; [by destruct Hw|by exists (fun _ => True)|left]. done.
Qed.

(** *** A shell on the demonstration disk *)

Definition blank_meta : file_metadata_t := mk_meta 0 0 (replicate 60 0).
Definition demo_shell (keys : list Z) : shell_state := mk_shell demo_st [] keys (SLASH :: replicate 127 0) 1.
Lemma demo_cwd keys : cwd_ok (demo_shell keys) [].
Proof.
  constructor; [| |done|done|apply Forall_nil_2|done].
  - split; [by repeat constructor|]. by exists (replicate 126 0).
  - apply Forall_cons_2; [done|]. by apply Forall_replicate.
Qed.
Lemma demo_roomy keys : roomy (demo_shell keys).
Proof. intros n k. by eexists. Qed.

(** C18: [write] and then [cat]: on an existing file, given by any path that
    normalises to it, [write] either reports a failure and leaves the disk as
    it was, or reports success, and then [cat] on the same argument prints the
    text written and a newline. *)
Theorem shell_write_then_cat sc m t dirs root st wcs arg a ds nm i e d de data txt stack :
  fs_wf sc m t dirs root -> ready sc m (sfs st) -> cwd_ok st wcs -> arg_ok wcs arg a ->
  target wcs a = ds ++ [nm] -> Forall component (ds ++ [nm]) -> len nm < FILE_NAME_LENGTH ->
  presolve t dirs (ds ++ [nm]) root = Some i -> live t i e -> type e = FILE ->
  presolve t dirs ds root = Some d -> live t d de -> ds = [] \/ type de = DIRECTORY ->
  cstring data txt -> bytes data -> len txt <= MAX_STR -> len (md_name stack) = FILE_NAME_LENGTH ->
  wp (cmd_write [arg; data]) (fun _ st1 =>
    sout st1 = sout st ++ write_failed /\ disk (sfs st1) = m \/
    sout st1 = sout st ++ wrote (ds ++ [nm]) /\
    wp (cmd_cat stack [arg]) (fun _ st2 => sout st2 = sout st1 ++ txt ++ [10] /\ disk (sfs st2) = disk (sfs st1)) st1) st.
Proof.
  intros Hwf Hst Hw Harg Ht Hcs Hnm Hr He Hty Hpar Hde Hk Hdata Hbd Hld Hmeta.
  eapply wp_mono; [by eapply cmd_write_ok|]. intros [] st1 (Hw1 & (f & Hd1 & Hsc1 & Ha1 & _) & [Hfail|[Hout Hsto]]); [by left|right].
  split; [done|]. destruct Hsto as (t' & dirs' & j & e' & Hwf' & Hr' & He' & _ & Hs' & Hfile & _).
  pose proof Hdata as [Hnz [r Er]]. rewrite Er in Hfile.
  replace (Z.to_nat (len txt + 1)) with (length txt + 1)%nat in Hfile by (unfold len; lia). rewrite take_app_add in Hfile. cbn [take] in Hfile.
  eapply cmd_cat_ok; [exact Hwf'|by split_and!|done..].
Qed.

Lemma shell_write_then_cat_witness :
  wp (cmd_write [cstr "./a"; cstr "hi"]) (fun _ st1 =>
    sout st1 = write_failed /\ disk (sfs st1) = demo_mem \/
    sout st1 = wrote [[97]] /\
    wp (cmd_cat blank_meta [cstr "./a"]) (fun _ st2 => sout st2 = sout st1 ++ of_string "hi" ++ [10] /\ disk (sfs st2) = disk (sfs st1)) st1)
  (demo_shell []).
Proof.
  apply (shell_write_then_cat 2000 demo_mem demo_tab demo_dirs 0 (demo_shell []) [] (cstr "./a") (of_string "./a") [] [97] 1 demo_file 0 demo_root
    (cstr "hi") (of_string "hi") blank_meta); try done.
  - apply demo_wf.
  - apply demo_ready.
  - apply demo_cwd.
  - constructor; [split; [by each|by exists []]|apply cstr_bytes|done].
  - each. split; [done|by each].
  - by left.
  - split; [by each|by exists []].
  - apply cstr_bytes.
Defined.

(** C38: [cd] keeps the working directory a normal absolute path: for an
    argument whose joined path fits the 128-byte buffer the new directory is
    its normal form (so [..] and [.] never stay in it, and the root is its own
    parent) and nothing else changes; for a longer one the copy runs past the
    buffer. No check is made that the directory exists. *)
Theorem shell_cd_correct st wcs arg a : roomy st -> cwd_ok st wcs -> arg_ok wcs arg a ->
  (len (path_text (target wcs a)) < WORKING_DIR_SIZE ->
     wp (cmd_cd [arg]) (fun _ st' => cwd_ok st' (target wcs a) /\ roomy st' /\ sout st' = sout st /\ disk (sfs st') = disk (sfs st)) st) /\
  (WORKING_DIR_SIZE <= len (path_text (target wcs a)) -> cmd_cd [arg] st = UB).
Proof.
  intros Ha Hw Harg. pose proof (cmd_cd_ok st wcs arg a Ha Hw Harg) as H.
  split; intros Hl; [rewrite (proj2 (Z.ltb_lt _ _) Hl) in H|rewrite (proj2 (Z.ltb_ge _ _) Hl) in H]; exact H.
Qed.

Lemma shell_cd_correct_witness :
  wp (cmd_cd [cstr "x/../y"]) (fun _ st' => cwd_ok st' [[121]]) (demo_shell []) /\
  cmd_cd [replicate 127 97 ++ [0]] (demo_shell []) = UB.
Proof.
  split.
  - refine (wp_mono _ _ _ _ (proj1 (shell_cd_correct (demo_shell []) [] (cstr "x/../y") (of_string "x/../y") _ _ _) _) _);
      [apply demo_roomy|apply demo_cwd|constructor; [split; [by each|by exists []]|apply cstr_bytes|done]|done|by intros ? ? [? _]].
  - apply (shell_cd_correct (demo_shell []) [] _ (replicate 127 97)); [apply demo_roomy|apply demo_cwd| |done].
    constructor; [apply cstring_app; by apply Forall_replicate|apply bytes_snoc0; by apply Forall_replicate|done].
Defined.

(** C25: [parse_path] on an absolute path of at most 1001 characters returns
    (for every heap with room), rewrites the path in place without leaving its
    buffer, and leaves the normal form: the components with [.] dropped and
    each [..] cancelling the component before it, at most 64 of them. The
    normal form has no [.] or [..] left and is its own normal form. *)
Theorem parse_path_correct u r st : roomy st -> nonzero u -> bytes (SLASH :: u ++ 0 :: r) -> len (SLASH :: u) <= MAX_STR ->
  wp (parse_path (SLASH :: u ++ 0 :: r)) (fun p st' =>
    let cs := normal (SLASH :: u) in
    cstring p (path_text cs) /\ len p = len (SLASH :: u ++ 0 :: r) /\ sout st' = sout st /\ disk (sfs st') = disk (sfs st) /\
    Forall plain cs /\ Forall word cs /\ (length cs <= STACK_DEPTH)%nat /\ normal (path_text cs) = cs) st.
Proof.
  intros Ha Hu Hb Hl. assert (Forall (fun x => x <> 0) (SLASH :: u)) as Hnz by (by apply Forall_cons_2).
  pose proof (normal_Forall _ _ Hnz) as Hn. apply Forall_and in Hn as [Hw Hn].
  apply wp_parse_path; [done..|]. intros h r' Hh Hr' t' El. split_and!; [| |done|done|apply norm_plain|done|apply norm_length|apply normal_idem].
  - apply cstring_app. unfold t'. destruct (normal (SLASH :: u)) as [|c cs]; [by apply Forall_singleton|].
    unfold path_text, join. apply Forall_bind. eapply Forall_impl; [exact Hn|]. intros x Hx. by apply Forall_cons_2.
  - unfold len in *. rewrite length_app. cbn [length] in *. rewrite length_app. cbn [length]. lia.
Qed.

Lemma parse_path_correct_witness : wp (parse_path (cstr "/a/./b/../../c//d")) (fun p _ => cstring p (of_string "/c/d")) (demo_shell []).
Proof.
  refine (wp_mono _ _ _ _ (parse_path_correct (of_string "a/./b/../../c//d") [] (demo_shell []) _ _ _ _) _);
    [apply demo_roomy|by each|apply (cstr_bytes "/a/./b/../../c//d")|done|by intros p s [? _]].
Defined.
