(* ===== verification/ShellLine.v ===== *)
(** * Command lines

    Editing a line with the keyboard and splitting it into a command and its
    arguments, against reference definitions on plain text. *)
From S2P Require Import Prelude Mem Util Str StrLib Heap Ata Fs FsThms FsEdit FsPath FsWrite FsOps Keyboard Shell ShellPath ShellThms.

(** ** Typing *)

(** Codes the keyboard driver produces: make codes, and prefixed ones. *)
Definition key_ok (c : Z) : Prop := 0 <= c < 128 \/ 256 <= c.
(** The character a key enters, if any. *)
Definition key_char (c : Z) : option Z :=
  match io_is_character c, io_scancode_to_character c with OK true, OK a => Some a | _, _ => None end.

(** One key on the line buffer and the position in it. *)
Definition press (c : Z) (lk : list Z * Z) : list Z * Z :=
  let '(line, k) := lk in
  match key_char c with
  | None => (line, k)
  | Some a =>
      if (a =? 8) && (k <=? 0) then (line, k) else
      let '(l, k') := if (32 <=? a) && (a <=? 126) then (<[Z.to_nat k := a]> line, k + 1)
                      else if a =? 8 then (<[Z.to_nat (k - 1) := 0]> line, k - 1) else (line, k) in
      (l, if 128 <=? k' then 0 else k')
  end.
Definition echo (c k : Z) : list Z :=
  match key_char c with Some a => if (a =? 8) && (k <=? 0) then [] else [a] | None => [] end.

Lemma table_get c : 0 <= c < 128 -> exists a, bget scancode_to_ascii c = OK a /\ 0 <= a < 128.
Proof.
  intros Hc. destruct (lookup_Z_lt scancode_to_ascii c) as [a Ea]; [exact Hc|]. exists a. split; [apply bget_lookup; [lia|done]|].
  assert (Forall (fun a => 0 <= a < 128) scancode_to_ascii) as Hall.
  { unfold scancode_to_ascii. apply Forall_app. split; [|by apply Forall_replicate]. repeat (apply Forall_cons_2; [lia|]). apply Forall_nil_2. }
  exact (Forall_lookup_1 _ _ _ _ Hall Ea).
Qed.
Lemma key_char_cases c : key_ok c ->
  (key_char c = None /\ is_character c = OK false) \/
  exists a, key_char c = Some a /\ is_character c = OK true /\ bget scancode_to_ascii c = OK a /\ 0 < a < 127.
Proof.
  intros [Hc|Hc]; unfold key_char, is_character, io_is_character.
  - rewrite (proj2 (Z.leb_gt 256 c)) by lia. destruct (table_get c Hc) as (a & Ea & Ha). rewrite Ea. cbn [obind].
    assert (Z.shiftr c 8 = 0) as -> by (rewrite Z.shiftr_div_pow2 by lia; apply Z.div_small; change (2 ^ 8) with 256; lia). cbn [Z.eqb].
    unfold io_scancode_to_character. rewrite Ea. destruct (_ || _) eqn:E; [|by left]. right. exists a. split_and!; [done..| |].
    + rewrite !orb_true_iff, andb_true_iff, !Z.leb_le, !Z.eqb_eq in E. lia.
    + rewrite !orb_true_iff, andb_true_iff, !Z.leb_le, !Z.eqb_eq in E. lia.
  - rewrite (proj2 (Z.leb_le 256 c)) by lia. by left.
Qed.

Definition line_ok (lk : list Z * Z) : Prop := len lk.1 = 128 /\ bytes lk.1 /\ 0 <= lk.2 < 128.

Lemma press_ok c lk : key_ok c -> line_ok lk -> line_ok (press c lk).
Proof.
  destruct lk as [line k]. intros Hc (Hl & Hb & Hk). cbn in *. unfold press.
  destruct (key_char_cases c Hc) as [[-> _]|(a & -> & _ & _ & Ha)]; [done|].
  destruct ((a =? 8) && (k <=? 0)) eqn:E0; [done|]. unfold line_ok.
  destruct ((32 <=? a) && (a <=? 126)) eqn:E1; [|destruct (a =? 8) eqn:E2]; cbn [fst snd].
  - split_and!; [unfold len in *; by rewrite length_insert|apply Forall_insert; [done|unfold in_range; change (2 ^ 8) with 256; lia]| |];
      destruct (Z.leb_spec 128 (k + 1)); lia.
  - cbn in E0. reflect_Z. split_and!; [unfold len in *; by rewrite length_insert|by apply Forall_insert| |];
      destruct (Z.leb_spec 128 (k - 1)); lia.
  - split_and!; [done|done| |]; destruct (Z.leb_spec 128 k); lia.
Qed.

Lemma wp_type_key (Q : list Z * Z -> shell_state -> Prop) c line k st : key_ok c -> line_ok (line, k) ->
  Q (press c (line, k)) (printed (echo c k) st) -> wp (type_key c line k) Q st.
Proof.
  intros Hc (Hl & Hb & Hk) HQ. cbn in *. unfold type_key, press, echo in *. apply wp_bind.
  assert (printed [] st = st) as Hnil by (destruct st; unfold printed, set_sout; cbn; by rewrite app_nil_r).
  destruct (key_char_cases c Hc) as [[Ec ->]|(a & Ec & -> & Eg & Ha)]; rewrite Ec in HQ; apply (wp_lift _ _ _ _ eq_refl).
  - cbn [negb]. rewrite Hnil in HQ. by apply wp_ret.
  - cbn [negb]. apply wp_bind, (wp_lift _ _ a); [done|]. destruct ((a =? 8) && (k <=? 0)) eqn:E0.
    { rewrite Hnil in HQ. by apply wp_ret. }
    apply wp_bind. assert (forall l' k', Q (l', if 128 <=? k' then 0 else k') (printed [a] st) ->
      wp (print [a; 0] ;;; ret (l', if 128 <=? k' then 0 else k')) Q st) as Hend.
    { intros l' k' HQ'. apply wp_bind, (wp_shell_print _ _ [a]); [|by apply wp_ret]. apply (cstring_app [a] []).
      apply Forall_singleton. lia. }
    destruct ((32 <=? a) && (a <=? 126)) eqn:E1; [|destruct (a =? 8) eqn:E2].
    + apply wp_bind. eapply wp_lift; [apply bset_ok; unfold len in *; lia|]. rewrite (wrap_id 8) by (unfold in_range; change (2 ^ 8) with 256; lia).
      by apply wp_ret, Hend.
    + cbn in E0. reflect_Z. apply wp_bind. eapply wp_lift; [apply bset_ok; unfold len in *; lia|]. by apply wp_ret, Hend.
    + by apply wp_ret, Hend.
Qed.

(** The keys of one line, up to the Enter that ends it. *)
Fixpoint press_all (ks : list Z) (lk : list Z * Z) : list Z * Z :=
  match ks with [] => lk | c :: ks' => press_all ks' (if c =? 0 then lk else press c lk) end.
Fixpoint echo_all (ks : list Z) (lk : list Z * Z) : list Z :=
  match ks with [] => [] | c :: ks' => if c =? 0 then echo_all ks' lk else echo c lk.2 ++ echo_all ks' (press c lk) end.

Definition after_keys (out rest : list Z) (st : shell_state) : shell_state := set_skeys rest (printed out st).

Lemma wp_read_line_loop (Q : list Z -> shell_state -> Prop) fuel ks rest lk st : Forall (fun c => key_ok c /\ c <> ENTER) ks ->
  line_ok lk -> skeys st = ks ++ ENTER :: rest -> (length ks < fuel)%nat ->
  Q (press_all ks lk).1 (after_keys (echo_all ks lk ++ [10]) rest st) -> wp (read_line_loop fuel lk.1 lk.2) Q st.
Proof.
  revert fuel lk st. induction ks as [|c ks IH]; intros fuel lk st Hks Hlk Hk Hf HQ; (destruct fuel as [|fuel]; [lia|]).
  - cbn [read_line_loop]. apply wp_bind.
    eapply (wp_step _ _ _ ENTER (set_skeys rest st)); [unfold read_keyboard; by rewrite Hk|].
    apply wp_bind, wp_type_key; [left; done|by destruct lk|]. by apply wp_ret.
  - apply Forall_cons in Hks as [[Hc Hne] Hks]. cbn [press_all echo_all] in HQ. destruct (Z.eqb_spec c 0) as [->|Hz].
    + eapply (wp_ext _ (fun s => read_line_loop (S fuel) lk.1 lk.2 (set_skeys (ks ++ ENTER :: rest) s))).
      { cbn [read_line_loop]. unfold bind at 1 2, read_keyboard. rewrite Hk. done. }
      apply (IH (S fuel) lk (set_skeys (ks ++ ENTER :: rest) st)); [done|done|done|cbn in Hf; lia|]. by destruct st.
    + cbn [read_line_loop]. apply wp_bind. eapply (wp_step _ _ _ c (set_skeys (ks ++ ENTER :: rest) st)).
      { unfold read_keyboard. rewrite Hk. cbn. by rewrite (proj2 (Z.eqb_neq c 0)). }
      apply wp_bind, wp_type_key; [done|by destruct lk|]. destruct lk as [l0 k0]. cbn [fst snd] in *.
      pose proof (press_ok c (l0, k0) Hc Hlk) as Hlk'. destruct (press c (l0, k0)) as [l1 k1]. rewrite (proj2 (Z.eqb_neq c ENTER)) by done.
      apply (IH fuel (l1, k1)); [done|done|done|cbn in Hf; lia|].
      unfold after_keys, printed, set_skeys, set_sout in *. cbn in *. by rewrite <- !app_assoc in *.
Qed.

(** ** The text typed *)

Definition pad (t : list Z) : list Z := t ++ replicate (128 - length t) 0.
Definition edit (t : list Z) (c : Z) : list Z :=
  match key_char c with
  | Some a => if (32 <=? a) && (a <=? 126) then t ++ [a] else if a =? 8 then take (length t - 1) t else t
  | None => t
  end.
Definition typed (ks : list Z) : list Z := foldl edit [] ks.

Lemma key_char_0 : key_char 0 = None.
Proof. done. Qed.

Lemma edit_length t c : (length (edit t c) <= S (length t))%nat.
Proof.
  unfold edit. destruct (key_char c); [|lia]. case_match; [rewrite length_app; cbn; lia|]. case_match; [rewrite length_take|]; lia.
Qed.
Lemma press_edit c t : key_ok c -> (length t < 127)%nat -> press c (pad t, len t) = (pad (edit t c), len (edit t c)).
Proof.
  intros Hc Ht. unfold press, edit. destruct (key_char_cases c Hc) as [[-> _]|(a & -> & _ & _ & Ha)]; [done|].
  unfold pad, len. destruct ((32 <=? a) && (a <=? 126)) eqn:E1; [|destruct (Z.eqb_spec a 8) as [->|Hne]; cbn [andb]].
  - rewrite (proj2 (Z.eqb_neq a 8)) by (intros ->; done). cbn [andb]. rewrite (proj2 (Z.leb_gt _ _)) by lia.
    rewrite Nat2Z.id, length_app. cbn [length]. rewrite <- (Nat.add_0_r (length t)) at 1. rewrite insert_app_r.
    replace (128 - length t)%nat with (S (128 - (length t + 1))) by lia. cbn. rewrite <- app_assoc. cbn. f_equal. lia.
  - destruct (Z.leb_spec (Z.of_nat (length t)) 0) as [H0|H0].
    { destruct t; [done|cbn in H0; lia]. }
    rewrite (proj2 (Z.leb_gt _ _)) by lia. rewrite length_take. f_equal; [|lia].
    destruct t as [|x t _] using rev_ind; [cbn in H0; lia|]. rewrite length_app in *. cbn [length] in *.
    replace (Z.to_nat (Z.of_nat (length t + 1) - 1)) with (length t + 0)%nat by lia.
    rewrite <- app_assoc, insert_app_r. cbn [app]. replace (length t + 1 - 1)%nat with (length t) by lia. rewrite take_app_length.
    replace (128 - length t `min` (length t + 1))%nat with (S (128 - (length t + 1))) by lia. done.
  - by rewrite (proj2 (Z.leb_gt _ _)) by lia.
Qed.
Lemma press_all_edit ks t : Forall key_ok ks -> (length t + length ks < 128)%nat ->
  press_all ks (pad t, len t) = (pad (foldl edit t ks), len (foldl edit t ks)).
Proof.
  intros Hks. revert t. induction Hks as [|c ks Hc _ IH]; intros t Hl; [done|]. cbn [press_all foldl length] in *.
  pose proof (edit_length t c). destruct (Z.eqb_spec c 0) as [->|Hz].
  - unfold edit at 2 4. rewrite key_char_0. apply IH. lia.
  - rewrite press_edit by (done || lia). apply IH. lia.
Qed.

Lemma wp_read_command_line (Q : list Z -> shell_state -> Prop) ks rest st : roomy st -> skeys st = ks ++ ENTER :: rest ->
  Forall (fun c => key_ok c /\ c <> ENTER) ks ->
  (forall h, ample h -> let r := press_all ks (pad [], 0) in line_ok r ->
     Q r.1 (after_keys (echo_all ks (pad [], 0) ++ [10]) rest (with_sheap h st))) ->
  wp read_command_line Q st.
Proof.
  intros Ha Hk Hks HQ. unfold read_command_line, malloc. cbn [Z.eqb]. change (payload 128) with 128.
  apply wp_bind, wp_in_sheap, wp_bmalloc; [done|lia|]. intros b h Hh Hlb _ _. apply wp_bind, wp_ret, wp_bind.
  eapply wp_lift; [apply bfill_spec; [lia|lia]|]. change (Z.to_nat 0) with 0%nat.
  rewrite take_0, (drop_ge b) by (unfold len in Hlb; lia). rewrite app_nil_r. cbn [app]. apply wp_bind, wp_get.
  assert (line_ok (pad [], 0)) as H0 by (split_and!; [done|by apply Forall_replicate|done|done]).
  apply (wp_read_line_loop Q _ ks rest (pad [], 0)); [done|done|done|cbn; rewrite Hk, length_app; cbn; lia|].
  apply HQ; [done|]. clear -H0 Hks. revert H0. generalize (pad [], 0). induction Hks as [|c ks [Hc _] _ IH]; intros lk Hlk; [done|]. cbn [press_all].
  apply IH. destruct (c =? 0); [done|]. by apply press_ok.
Qed.

(** C39: [read_command_line] on any keys up to Enter returns a buffer of 128
    bytes, consumes exactly those keys and never writes outside the buffer; for
    at most 127 keys it is the text typed, with backspaces applied, padded with
    zeros. *)
Theorem read_command_line_correct ks rest st : roomy st -> skeys st = ks ++ ENTER :: rest ->
  Forall (fun c => key_ok c /\ c <> ENTER) ks ->
  wp read_command_line (fun line st' => len line = 128 /\ bytes line /\ skeys st' = rest /\ disk (sfs st') = disk (sfs st) /\
    ((length ks < 128)%nat -> line = pad (typed ks))) st.
Proof.
  intros Ha Hk Hks. eapply wp_read_command_line; [done..|]. intros h Hh r (Hl & Hb & _). split_and!; [done..|].
  intros Hn. unfold r. change 0 with (len []). rewrite press_all_edit; [done| |done]. eapply Forall_impl; [exact Hks|by intros c [? _]].
Qed.

(** "ls", typed with a mistake corrected. *)
Lemma read_command_line_correct_witness :
  wp read_command_line (fun line _ => line = pad (of_string "ls")) (demo_shell [38; 0; 30; 14; 31; ENTER; 38]).
Proof.
  refine (wp_mono _ _ _ _ (read_command_line_correct [38; 0; 30; 14; 31] [38] (demo_shell [38; 0; 30; 14; 31; ENTER; 38]) _ _ _) _);
    [apply demo_roomy|done|each; (split; [left; lia|done])|].
  cbv beta. intros line s (_ & _ & _ & _ & H). by apply H; cbn; lia.
Defined.

(** ** Splitting a line *)

(** The fields between single spaces; consecutive spaces delimit empty ones. *)
Fixpoint fields (t : list Z) : list (list Z) :=
  match t with
  | [] => [[]]
  | c :: t' => if c =? SPACE then [] :: fields t'
               else match fields t' with w :: ws => (c :: w) :: ws | [] => [[c]] end
  end.
(** The first word, and what follows the space after it. *)
Fixpoint first_word (t : list Z) : list Z * list Z :=
  match t with
  | [] => ([], [])
  | c :: t' => if c =? SPACE then ([], t') else let '(w, r) := first_word t' in (c :: w, r)
  end.
Definition args_of (rest : list Z) : list (list Z) := match rest with [] => [] | _ => fields rest end.

(** The first name that the word is a prefix of. *)
Fixpoint command_from (w : list Z) (i : Z) (names : list string) : Z :=
  match names with
  | [] => none
  | n :: names' => if decide (take (length w) (of_string n) = w) then i else command_from w (i + 1) names'
  end.
Definition command_of (w : list Z) : Z := command_from w 1 command_names.

Definition spaceless (w : list Z) : Prop := Forall (fun c => c <> SPACE /\ c <> 0) w.

(** A text is a word, and after it the end or a space. *)
Lemma first_word_spec t : nonzero t -> let '(w, r) := first_word t in spaceless w /\
  ((t = w /\ r = []) \/ t = w ++ SPACE :: r).
Proof.
  induction 1 as [|c t Hc Ht IH]; cbn [first_word]; [split; [apply Forall_nil_2|by left]|].
  destruct (Z.eqb_spec c SPACE) as [->|Hne]; [split; [apply Forall_nil_2|by right]|].
  destruct (first_word t) as [w r]. destruct IH as [Hw [[-> ->]| ->]]; (split; [by apply Forall_cons_2|]); [by left|by right].
Qed.
Lemma fields_first t : nonzero t -> let '(w, r) := first_word t in
  (t = w /\ fields t = [w]) \/ (t = w ++ SPACE :: r /\ fields t = w :: fields r).
Proof.
  induction 1 as [|c t Hc Ht IH]; cbn [first_word fields]; [by left|].
  destruct (Z.eqb_spec c SPACE) as [->|Hne]; [by right|].
  destruct (first_word t) as [w r]. destruct IH as [[-> ->]|[-> ->]]; [by left|by right].
Qed.

Lemma lookup_middle (a b : list Z) c r i : i = len a -> bget (a ++ c :: r) i = OK c.
Proof.
  intros ->. apply bget_lookup; [unfold len; lia|]. unfold len. rewrite Nat2Z.id.
  rewrite lookup_app_r by lia. by rewrite Nat.sub_diag.
Qed.

Lemma word_end_ok fuel pre w c r : spaceless w -> c = SPACE \/ c = 0 -> len pre + len w <= 127 -> (length w < fuel)%nat ->
  word_end fuel (pre ++ w ++ c :: r) (len pre) = OK (Some (len pre + len w)).
Proof.
  intros Hw Hc. revert fuel pre. induction Hw as [|x w [Hs Hz] Hw IH]; intros fuel pre Hl Hf; (destruct fuel as [|fuel]; [lia|]); cbn [word_end app].
  - rewrite (lookup_middle pre []) by done. cbn [obind]. change (len []) with 0. rewrite Z.add_0_r. by destruct Hc as [->| ->].
  - rewrite (lookup_middle pre []) by done. cbn [obind]. rewrite (proj2 (Z.eqb_neq x SPACE)), (proj2 (Z.eqb_neq x 0)) by done. cbn [orb].
    assert (len (x :: w) = 1 + len w) as El by (unfold len; cbn; lia).
    rewrite (proj2 (Z.ltb_ge 127 _)) by (unfold len in *; lia).
    specialize (IH fuel (pre ++ [x])). assert (len (pre ++ [x]) = len pre + 1) as Ep by (unfold len; rewrite length_app; cbn; lia).
    rewrite Ep, <- app_assoc in IH. cbn [app] in IH. rewrite IH by (cbn in Hf; lia). do 2 f_equal. lia.
Qed.
Lemma arg_end_ok fuel pre done_ w c r : spaceless w -> c = SPACE \/ c = 0 -> len pre + len done_ + len w <= 127 -> (length w < fuel)%nat ->
  arg_end fuel (pre ++ done_ ++ w ++ c :: r) (len pre) (len done_) = OK (len done_ + len w, negb (c =? SPACE)).
Proof.
  intros Hw Hc. revert fuel done_. induction Hw as [|x w [Hs Hz] Hw IH]; intros fuel done_ Hl Hf; (destruct fuel as [|fuel]; [lia|]); cbn [arg_end app].
  - rewrite app_assoc, (lookup_middle (pre ++ done_) []) by (unfold len; rewrite length_app; lia). cbn [obind]. change (len []) with 0. rewrite Z.add_0_r.
    by destruct Hc as [->| ->].
  - rewrite app_assoc, (lookup_middle (pre ++ done_) []) by (unfold len; rewrite length_app; lia). cbn [obind].
    rewrite (proj2 (Z.eqb_neq x SPACE)), (proj2 (Z.eqb_neq x 0)) by done. cbn [orb].
    assert (len (x :: w) = 1 + len w) as El by (unfold len; cbn; lia).
    rewrite (proj2 (Z.ltb_ge 127 _)) by (unfold len in *; lia).
    specialize (IH fuel (done_ ++ [x])). assert (len (done_ ++ [x]) = len done_ + 1) as Ep by (unfold len; rewrite length_app; cbn; lia).
    rewrite Ep, <- app_assoc in IH. cbn [app] in IH. rewrite <- app_assoc, IH by (cbn in Hf; lia). do 2 f_equal. lia.
Qed.

Lemma strncmp_prefix w x r n : spaceless w -> strncmp (w ++ x) (n ++ 0 :: r) (length w) = OK (bool_decide (take (length w) n = w)).
Proof.
  intros Hw. revert n. induction Hw as [|c w [_ Hc] Hw IH]; intros n; [cbn [strncmp length]; rewrite take_0, bool_decide_eq_true_2 by done; by destruct x|]. cbn [strncmp app length].
  destruct n as [|d n]; cbn [app take].
  - rewrite (proj2 (Z.eqb_neq c 0)) by done. cbn. by rewrite bool_decide_eq_false_2.
  - rewrite (proj2 (Z.eqb_neq c 0)), orb_false_r by done. destruct (Z.eqb_spec c d) as [->|Hne]; cbn [negb].
    + rewrite IH. f_equal. apply bool_decide_ext. split; [by intros ->|by intros [= ->]].
    + by rewrite bool_decide_eq_false_2 by (by intros [= -> _]).
Qed.
Lemma which_command_ok w x i names : spaceless w -> which_command (w ++ x) (len w) i names = OK (command_from w i names).
Proof.
  intros Hw. revert i. induction names as [|n names IH]; intros i; [done|]. cbn [which_command command_from].
  unfold len, cstr. rewrite Nat2Z.id, strncmp_prefix by done. cbn [obind].
  destruct (decide (take (length w) (of_string n) = w)) as [E|E]; [by rewrite bool_decide_eq_true_2|]. rewrite bool_decide_eq_false_2 by done. apply IH.
Qed.

(** Room in the array of arguments. *)
Definition cap_ok (cap : Z) (args : list (list Z)) : Prop :=
  10 <= cap /\ cap mod 2 = 0 /\ 2 * Z.of_nat (length args) <= cap + 2 /\ cap <= 4 * Z.of_nat (length args) + 10.

Lemma fields_length t : (length (fields t) <= S (length t))%nat.
Proof.
  induction t as [|c t IH]; [done|]. cbn [fields length]. destruct (c =? SPACE); [cbn; lia|].
  destruct (fields t); cbn in *; lia.
Qed.

Lemma wp_args_loop (Q : list (list Z) -> shell_state -> Prop) fuel pre t z cap args st : roomy st -> nonzero t -> bytes t ->
  len pre + len t <= 127 -> (length t < fuel)%nat -> cap_ok cap args -> (length args <= length pre)%nat ->
  (forall h, ample h -> Q (args ++ ((fun w => w ++ [0]) <$> fields t)) (with_sheap h st)) ->
  wp (args_loop fuel (pre ++ t ++ 0 :: z) (len pre) cap args) Q st.
Proof.
  revert pre t cap args st. induction fuel as [|fuel IH]; intros pre t cap args st Ha Ht Hb Hl Hf Hcap Hargs HQ; [lia|]. cbn [args_loop].
  pose proof (first_word_spec t Ht) as Hw. pose proof (fields_first t Ht) as Hfl. destruct (first_word t) as [w r].
  destruct Hw as [Hw _]. assert (nonzero w) as Hnw by (eapply Forall_impl; [exact Hw|by intros c []]).
  assert (exists c rest, t ++ 0 :: z = w ++ c :: rest /\ (c = SPACE \/ c = 0) /\ len w <= len t /\ Forall (in_range 8) w /\
    ((c =? SPACE) = false /\ fields t = [w] \/
     (c =? SPACE) = true /\ rest = r ++ 0 :: z /\ fields t = w :: fields r /\ nonzero r /\ bytes r /\ len w + len r + 1 = len t)) as (c & rest & E & Hc & Hlw & Hbw & Hcase).
  { destruct Hfl as [[-> Hfl]|[-> Hfl]].
    - exists 0, z. split_and!; [done|by right|lia|done|by left].
    - apply Forall_app in Ht as [_ [_ Hr]%Forall_cons]. apply Forall_app in Hb as [? [_ Hbr]%Forall_cons].
      exists SPACE, (r ++ 0 :: z). rewrite <- app_assoc. split_and!; [done|by left|unfold len; rewrite length_app; lia|done|right].
      split_and!; try done. unfold len. rewrite length_app. cbn. lia. }
  rewrite E. apply wp_bind. eapply wp_lift.
  { apply (arg_end_ok LINE_FUEL pre [] w c rest Hw Hc); [change (len []) with 0; lia|unfold LINE_FUEL, len in *; lia]. }
  change (len []) with 0. rewrite Z.add_0_l. destruct Hcap as (Hc10 & Hc2 & Hcu & Hcl).
  assert (Z.of_nat (length args) <= 127) as Hn by (unfold len in *; lia).
  apply wp_bind. set (n := Z.of_nat (length args)) in *.
  match goal with |- wp _ ?K _ => assert (forall cap' h, ample h -> 10 <= cap' -> cap' mod 2 = 0 -> 2 * n <= cap' -> cap' <= 4 * n + 10 -> K cap' (with_sheap h st)) as Hk end.
  { intros cap' h Hh H10 H2 Hu Hlo. apply wp_bind, wp_in_sheap. eapply wp_substr; [done|done|done|done|done|unfold len in *; lia|].
    intros h2 Hh2 _. apply wp_bind, wp_ret. rewrite (proj2 (Z.leb_gt cap' n)) by lia.
    destruct Hcase as [[-> Hfl']|(-> & -> & Hfl' & Hnr & Hbr & Hlr)]; cbn [negb].
    - apply wp_ret. rewrite with_sheap_twice. rewrite Hfl' in HQ. by apply HQ.
    - replace (len pre + len w + 1) with (len (pre ++ w ++ [c])) by (unfold len; rewrite !length_app; cbn; lia).
      replace (pre ++ w ++ c :: r ++ 0 :: z) with ((pre ++ w ++ [c]) ++ r ++ 0 :: z) by (by rewrite <- !app_assoc).
      apply IH; [done|done|done|unfold len in *; rewrite !length_app; cbn; lia|unfold len in *; lia| |rewrite !length_app; cbn; lia|].
      + unfold cap_ok. rewrite length_app. cbn [length]. lia.
      + intros h3 Hh3. rewrite !with_sheap_twice, <- app_assoc. cbn [app]. rewrite Hfl' in HQ. by apply HQ. }
  destruct (Z.ltb_spec (cap / 2) n) as [Hgrow|Hroom].
  - rewrite (wrap_id 32) by (unfold in_range; lia). apply wp_bind, wp_malloc; [done|lia|]. intros b h Hh _ _.
    apply wp_bind, wp_ret, wp_bind, wp_free; [done|]. intros h2 Hh2. apply wp_ret, (Hk (cap * 2) h2); [done|lia|divlia|divlia|divlia].
  - apply wp_ret. rewrite <- (with_sheap_id st). apply (Hk cap (sheap st)); [done|lia|lia|divlia|lia].
Qed.

Lemma wp_parse_command_line (Q : option (Z * list (list Z)) -> shell_state -> Prop) t st : roomy st -> nonzero t -> bytes t ->
  0 < len t <= 126 ->
  (forall h, ample h -> let '(w, rest) := first_word t in
     Q (Some (command_of w, (fun a => a ++ [0]) <$> args_of rest)) (with_sheap h st)) ->
  wp (parse_command_line (pad t)) Q st.
Proof.
  intros Ha Ht Hb Hl HQ. pose proof (first_word_spec t Ht) as Hw. destruct (first_word t) as [w r]. destruct Hw as [Hw Hsplit].
  unfold parse_command_line. destruct t as [|c0 t0] eqn:Et; [unfold len in Hl; cbn in Hl; lia|]. rewrite <- Et in *.
  assert (c0 <> 0) as Hc0 by (rewrite Et in Ht; by apply Forall_inv in Ht).
  assert (bget (pad t) 0 = OK c0) as E0 by (by rewrite Et).
  assert (exists z, pad t = t ++ 0 :: 0 :: z) as (z & Ez).
  { unfold pad, len in *. replace (128 - length t)%nat with (S (S (126 - length t))) by lia. by eexists. }
  apply wp_bind, (wp_lift _ _ c0); [done|]. rewrite (proj2 (Z.eqb_neq c0 0)) by done.
  assert (exists c rest, pad t = w ++ c :: rest /\ (c = SPACE \/ c = 0) /\ len w <= len t /\ exists d, bget rest 0 = OK d /\
    (d = 0 /\ r = [] \/ d <> 0 /\ r <> [] /\ rest = r ++ 0 :: 0 :: z /\ nonzero r /\ bytes r /\ len w + len r + 1 = len t))
    as (c & rest & E & Hc & Hlw & d & Ed & Hcase).
  { destruct Hsplit as [[-> ->]| ->].
    - exists 0, (0 :: z). split_and!; [done|by right|lia|]. exists 0. split; [done|by left].
    - exists SPACE, (r ++ 0 :: 0 :: z). rewrite Ez, <- app_assoc. split_and!; [done|by left|unfold len; rewrite length_app; lia|].
      apply Forall_app in Ht as [_ [_ Hr]%Forall_cons]. apply Forall_app in Hb as [_ [_ Hbr]%Forall_cons].
      destruct r as [|d r]; [exists 0; split; [done|by left]|]. exists d. split; [done|right].
      pose proof Hr as Hd%Forall_inv. split_and!; try done. unfold len. rewrite length_app. cbn. lia. }
  rewrite E. apply wp_bind. eapply wp_lift.
  { apply (word_end_ok LINE_FUEL [] w c rest Hw Hc); [change (len []) with 0; lia|unfold LINE_FUEL, len in *; lia]. }
  change (len []) with 0. rewrite Z.add_0_l. apply wp_bind. eapply wp_lift; [by apply which_command_ok|]. fold (command_of w).
  apply wp_bind, wp_malloc; [done|lia|]. intros b h Hh _ _. apply wp_bind.
  assert (bget (w ++ c :: rest) (len w + 1) = OK d) as Ed'.
  { unfold bget in Ed. cbn in Ed. destruct rest as [|x rest]; [done|]. cbn in Ed. injection Ed as ->.
    apply bget_lookup; [unfold len; lia|]. replace (Z.to_nat (len w + 1)) with (length w + 1)%nat by (unfold len; lia).
    rewrite lookup_app_r by lia. by replace (length w + 1 - length w)%nat with 1%nat by lia. }
  eapply wp_lift; [exact Ed'|].
  destruct Hcase as [[-> ->]|(Hd & Hr & -> & Hnr & Hbr & Hlr)].
  - cbn [Z.eqb orb]. apply wp_ret, HQ. done.
  - rewrite (proj2 (Z.eqb_neq d 0)), (proj2 (Z.ltb_ge 127 _)) by (done || unfold len in *; lia). cbn [orb]. apply wp_bind, wp_ret, wp_bind.
    replace (len w + 1) with (len (w ++ [c])) by (unfold len; rewrite length_app; cbn; lia).
    replace (w ++ c :: r ++ 0 :: 0 :: z) with ((w ++ [c]) ++ r ++ 0 :: 0 :: z) by (by rewrite <- app_assoc).
    apply wp_args_loop; [done|done|done|unfold len in *; rewrite length_app; cbn; lia|unfold LINE_FUEL, len in *; lia|done|cbn; lia|].
    intros h2 Hh2. apply wp_ret. rewrite with_sheap_twice. cbn [app]. specialize (HQ h2 Hh2). unfold args_of in HQ. by destruct r.
Qed.

(** [parse_command_line] on a line of at most 126 characters returns the
    command whose name is the first one that starts with the first word, and
    as arguments the fields between single spaces after it (two spaces in a
    row, or a space after the last argument, make an empty argument; a space
    right after the command does not). Every full command name selects its own
    command. *)
Theorem parse_command_line_correct t st : roomy st -> nonzero t -> bytes t -> 0 < len t <= 126 ->
  wp (parse_command_line (pad t)) (fun r st' => roomy st' /\ sout st' = sout st /\ disk (sfs st') = disk (sfs st) /\
    let '(w, rest) := first_word t in r = Some (command_of w, (fun a => a ++ [0]) <$> args_of rest)) st /\
  forall k n, command_names !! k = Some n -> command_of (of_string n) = Z.of_nat k + 1.
Proof.
  intros Ha Ht Hb Hl. split.
  - apply wp_parse_command_line; [done..|]. intros h Hh. by destruct (first_word t).
  - intros k n Hk. do 14 (destruct k as [|k]; [injection Hk as <-; vm_compute; reflexivity|]). done.
Qed.

Lemma parse_command_line_correct_witness :
  wp (parse_command_line (pad (of_string "mkdir  x"))) (fun r st' => roomy st' /\ r = Some (11, [[0]; cstr "x"])) (demo_shell []).
Proof.
  refine (wp_mono _ _ _ _ (proj1 (parse_command_line_correct (of_string "mkdir  x") (demo_shell []) _ _ _ _)) _);
    [apply demo_roomy|by each|apply of_string_bytes|done|]. intros r s (H1 & _ & _ & H2). exact (conj H1 H2).
Defined.

(** What the line parser does with other lines: a word that is only a
    prefix of names runs the first of them ([m] runs [man], [r] runs [rm]), a
    leading space runs [ls]; and a line of 128 typed characters without a
    space leaves the buffer unterminated, so the parser reads past its end. *)
Theorem shell_misread_lines :
  command_of (of_string "m") = 9 /\ command_of (of_string "r") = 8 /\
  (let '(w, _) := first_word (of_string " rm a") in command_of w = 1) /\
  (forall st, parse_command_line (replicate 128 97) st = UB) /\
  (fun o => match o with OK (l, _) => l = replicate 128 97 | _ => False end)
    (read_command_line (demo_shell (replicate 128 30 ++ [ENTER]))).
Proof. split_and!; [done..| |]; [intros st|]; vm_compute; reflexivity. Qed.

(** ** One round of the main loop *)

Lemma key_char_range c a : key_ok c -> key_char c = Some a -> 0 < a < 127.
Proof. intros Hc E. destruct (key_char_cases c Hc) as [[E' _]|(a' & E' & _ & _ & Ha)]; rewrite E in E'; [done|]. by injection E' as ->. Qed.
Lemma typed_ok ks t : Forall key_ok ks -> nonzero t -> bytes t ->
  nonzero (foldl edit t ks) /\ bytes (foldl edit t ks) /\ (length (foldl edit t ks) <= length t + length ks)%nat.
Proof.
  intros Hks. revert t. induction Hks as [|c ks Hc _ IH]; intros t Ht Hb; [cbn; split_and!; [done|done|lia]|]. cbn [foldl length].
  destruct (IH (edit t c)) as (? & ? & ?); [| |pose proof (edit_length t c); split_and!; [done|done|lia]];
    unfold edit; destruct (key_char c) as [a|] eqn:Ea; try done; pose proof (key_char_range c a Hc Ea);
    (case_match; [apply Forall_app; split; [done|apply Forall_singleton; unfold in_range; change (2 ^ 8) with 256; lia]|]);
    (case_match; [by apply Forall_take|done]).
Qed.

Lemma wp_free_all (Q : unit -> shell_state -> Prop) l st : roomy st -> (forall h, ample h -> Q tt (with_sheap h st)) -> wp (free_all l) Q st.
Proof.
  revert st. induction l as [|a l IH]; intros st Ha HQ; cbn [free_all].
  - apply wp_ret. rewrite <- (with_sheap_id st). by apply HQ.
  - apply wp_bind, wp_free; [done|]. intros h Hh. apply IH; [done|]. intros h2 Hh2. rewrite with_sheap_twice. by apply HQ.
Qed.

Definition prompt (wcs : list (list Z)) : list Z := path_text wcs ++ of_string "> ".


(** "cd x". *)
Definition cd_keys : list Z := [46; 32; 57; 45].
