(* ===== verification/Screen.v ===== *)
(** * Text console (src/screen.c, screen.h)

    A character buffer drawn with a PSF font on the boot loader's frame
    buffer. The font is the byte array the build generates, a parameter of the
    state; the frame buffer is a store of 32-bit pixels by byte offset. *)
From Stdlib Require Import QArith.
From S2P Require Import Prelude Mem Util Str.
#[local] Open Scope Z_scope.

Definition BUFFER_SIZE : Z := 0x4000.

(** The fields of [struct limine_framebuffer] the code uses. *)
Record framebuffer := mk_fb {
  width : Z; height : Z; pitch : Z; red_mask_shift : Z; green_mask_shift : Z; blue_mask_shift : Z }.

Record screen_state := mk_screen {
  fb : framebuffer;
  pixels : gmap Z Z;
  current_font : option (list Z);
  is_current_font_psf2 : bool;
  is_screen_init : bool;
  cursor_x : Z;
  cursor_y : Z;
  buffer : list Z;
  scroll : Z;
  buffer_end : Z
}.

Definition set_pixels m st := mk_screen (fb st) m (current_font st) (is_current_font_psf2 st) (is_screen_init st) (cursor_x st) (cursor_y st) (buffer st) (scroll st) (buffer_end st).
Definition set_font f p st := mk_screen (fb st) (pixels st) f p (is_screen_init st) (cursor_x st) (cursor_y st) (buffer st) (scroll st) (buffer_end st).
Definition set_init b st := mk_screen (fb st) (pixels st) (current_font st) (is_current_font_psf2 st) b (cursor_x st) (cursor_y st) (buffer st) (scroll st) (buffer_end st).
Definition set_cursor x y st := mk_screen (fb st) (pixels st) (current_font st) (is_current_font_psf2 st) (is_screen_init st) x y (buffer st) (scroll st) (buffer_end st).
Definition set_buffer b e st := mk_screen (fb st) (pixels st) (current_font st) (is_current_font_psf2 st) (is_screen_init st) (cursor_x st) (cursor_y st) b (scroll st) e.
Definition set_scroll n st := mk_screen (fb st) (pixels st) (current_font st) (is_current_font_psf2 st) (is_screen_init st) (cursor_x st) (cursor_y st) (buffer st) n (buffer_end st).
Definition set_fb f st := mk_screen f (pixels st) (current_font st) (is_current_font_psf2 st) (is_screen_init st) (cursor_x st) (cursor_y st) (buffer st) (scroll st) (buffer_end st).

Definition screen_is_init : M screen_state bool := gets is_screen_init.

(** ** Pixels *)

Definition screen_put_pixel (x y color : Z) : M screen_state unit := fun st =>
  if (width (fb st) <=? x) || (height (fb st) <=? y) then OK (tt, st)
  else OK (tt, set_pixels (<[u64 (y * pitch (fb st)) + 4 * x := color]> (pixels st)) st).

(** Shifting a 32-bit value by 32 or more is undefined. *)
Definition shl32 (v n : Z) : outcome Z := if n <? 32 then OK (u32 (Z.shiftl v n)) else UB.
Definition screen_make_color (r g b : Z) : M screen_state Z := fun st =>
  obind (shl32 (u8 r) (red_mask_shift (fb st))) (fun r' =>
  obind (shl32 (u8 g) (green_mask_shift (fb st))) (fun g' =>
  obind (shl32 (u8 b) (blue_mask_shift (fb st))) (fun b' =>
  OK (Z.lor (Z.lor r' g') b', st)))).

Definition screen_get_width : M screen_state Z := gets (fun st => width (fb st)).
Definition screen_get_height : M screen_state Z := gets (fun st => height (fb st)).

(** ** Fonts *)

Definition psf2_magic (font : list Z) := field 4 font 0.
Definition psf2_header_size (font : list Z) := field 4 font 8.
Definition psf2_bytes_per_glyph (font : list Z) := field 4 font 20.
Definition psf2_height (font : list Z) := field 4 font 24.
Definition psf2_width (font : list Z) := field 4 font 28.
Definition psf1_magic (font : list Z) := field 2 font 0.
Definition psf1_charsize (font : list Z) := field 1 font 3.

Definition screen_load_font (font : list Z) : M screen_state unit :=
  modify (fun st => set_font (current_font st) false st) ;;;
  let* m2 := lift (psf2_magic font) in
  if m2 =? 0x864ab572 then modify (set_font (Some font) true) else
  let* m1 := lift (psf1_magic font) in
  if m1 =? 0x0436 then modify (fun st => set_font (Some font) (is_current_font_psf2 st) st)
  else modify (fun st => set_font None (is_current_font_psf2 st) st).

Definition screen_get_font_char_width : M screen_state Z := fun st =>
  match current_font st with
  | None => OK (0, st)
  | Some f => if is_current_font_psf2 st then lift (psf2_width f) st else OK (8, st)
  end.
Definition screen_get_font_char_height : M screen_state Z := fun st =>
  match current_font st with
  | None => OK (0, st)
  | Some f => if is_current_font_psf2 st then lift (psf2_height f) st else lift (psf1_charsize f) st
  end.

(** [fb->width / screen_get_font_char_width()] and the same for the height:
    the size of the screen in characters. *)
Definition divide (a b : Z) : outcome Z := if b =? 0 then UB else OK (a / b).
Definition columns : M screen_state Z :=
  let* cw := screen_get_font_char_width in let* w := screen_get_width in lift (divide w cw).
Definition rows : M screen_state Z :=
  let* ch := screen_get_font_char_height in let* h := screen_get_height in lift (divide h ch).

(** [(byte >> (7 - col)) & 1] with [col] unsigned: past 7 the shift count is
    out of range. *)
Definition glyph_bit (byte col : Z) : outcome bool :=
  if 7 <? col then UB else OK (Z.testbit byte (7 - col)).

Definition screen_put_char (c x y fg_color bg_color : Z) : M screen_state unit :=
  let* f := gets current_font in
  match f with None => ret tt | Some font =>
  let* w := columns in
  let* h := rows in
  if (w <=? x) || (h <=? y) then ret tt else
  let* psf2 := gets is_current_font_psf2 in
  if psf2 : bool then
    let* hs := lift (psf2_header_size font) in
    let* bpg := lift (psf2_bytes_per_glyph font) in
    let glyph := hs + u32 (s8 c * bpg) in
    let* fw := lift (psf2_width font) in
    let* fh := lift (psf2_height font) in
    let x' := u32 (x * fw) in
    let y' := u32 (y * fh) in
    for_loop (Z.to_nat fh) 0 (fun row =>
      for_loop (Z.to_nat fw) 0 (fun col =>
        let* byte := lift (bget font (glyph + u32 (row * (u32 (fw + 7) / 8)))) in
        let* on := lift (glyph_bit byte col) in
        screen_put_pixel (u32 (x' + col)) (u32 (y' + row)) (if on then fg_color else bg_color)))
  else
    let* cs := lift (psf1_charsize font) in
    let glyph := 4 + s8 c * cs in
    let x' := u32 (x * 8) in
    let y' := u32 (y * cs) in
    for_loop (Z.to_nat cs) 0 (fun row =>
      for_loop 8 0 (fun col =>
        let* byte := lift (bget font (glyph + row)) in
        let* on := lift (glyph_bit byte col) in
        screen_put_pixel (u32 (x' + col)) (u32 (y' + row)) (if on then fg_color else bg_color)))
  end.

(** ** The character buffer *)

(** [++] and [--] on an [int]. *)
Definition step_int (v d : Z) : outcome Z := if int_ok (v + d) then OK (v + d) else UB.

(** The search for the end of the previous line. *)
Fixpoint line_end (fuel : nat) (buf : list Z) (x y w : Z) : outcome Z :=
  match fuel with
  | O => NoFuel
  | S fuel' =>
      obind (bget buf (u64 (x + u64 (u64 y * w)))) (fun c =>
      if c =? 0 then OK x else obind (step_int x 1) (fun x' => line_end fuel' buf x' y w))
  end.

Definition screen_norm_cursor : M screen_state unit :=
  let* w := columns in
  let* h := rows in
  let* x := gets cursor_x in
  (if x <? 0 then
     let* y := gets cursor_y in
     let* y' := lift (step_int y (-1)) in
     let* buf := gets buffer in
     let* x' := lift (line_end (S (length buf)) buf 0 y' w) in
     let* x'' := lift (step_int x' (-1)) in
     modify (set_cursor x'' y')
   else ret tt) ;;;
  let* x := gets cursor_x in
  if w <=? u64 x then
    let* y := gets cursor_y in
    let* y' := lift (step_int y 1) in
    modify (set_cursor 0 y')
  else ret tt.

(** Start of the text shown when [scroll] lines are skipped. *)
Fixpoint skip_lines (n : nat) (buf : list Z) (i lines want : Z) : outcome (option Z) :=
  match n with
  | O => OK None
  | S n' =>
      obind (bget buf i) (fun c =>
      if c =? 10 then if want <=? lines + 1 then OK (Some (i + 1)) else skip_lines n' buf (i + 1) (lines + 1) want
      else skip_lines n' buf (i + 1) lines want)
  end.

Definition blank_screen : M screen_state unit :=
  let* h := screen_get_height in
  let* w := screen_get_width in
  for_loop (Z.to_nat h) 0 (fun y => for_loop (Z.to_nat w) 0 (fun x =>
    let* c := screen_make_color 0 0 0 in screen_put_pixel x y c)).

(** Draw one character at the cursor in white on black. *)
Definition draw (c : Z) : M screen_state unit :=
  let* fg := screen_make_color 255 255 255 in
  let* bg := screen_make_color 0 0 0 in
  let* x := gets cursor_x in
  let* y := gets cursor_y in
  screen_put_char c x y fg bg.
Definition advance : M screen_state unit :=
  let* x := gets cursor_x in
  let* y := gets cursor_y in
  let* x' := lift (step_int x 1) in
  modify (set_cursor x' y).

(** [for (; cursor_x < width; cursor_x++)] of the newline case. *)
Fixpoint fill_line (fuel : nat) (w : Z) : M screen_state unit :=
  match fuel with
  | O => out_of_fuel
  | S fuel' =>
      let* x := gets cursor_x in
      if u64 x <? w then draw 32 ;;; advance ;;; fill_line fuel' w else ret tt
  end.

Fixpoint draw_text (n : nat) (i w h : Z) : M screen_state unit :=
  match n with
  | O => ret tt
  | S n' =>
      let* y := gets cursor_y in
      if h <=? u64 y then ret tt else
      let* buf := gets buffer in
      let* c := lift (bget buf i) in
      (if c =? 0 then draw 32 ;;; advance ;;; screen_norm_cursor
       else if c =? 10 then
         fill_line (S (Z.to_nat w)) w ;;;
         let* y := gets cursor_y in
         let* y' := lift (step_int y 1) in
         modify (set_cursor 0 y')
       else draw c ;;; advance ;;; screen_norm_cursor) ;;;
      draw_text n' (i + 1) w h
  end.

Fixpoint fill_rest (fuel : nat) (h : Z) : M screen_state unit :=
  match fuel with
  | O => out_of_fuel
  | S fuel' =>
      let* y := gets cursor_y in
      if u64 y <? h then draw 32 ;;; advance ;;; screen_norm_cursor ;;; fill_rest fuel' h else ret tt
  end.

(** The second half of [screen_flush]: draw from [buffer_start]. *)
Definition draw_from (buffer_start w h : Z) : M screen_state unit :=
  modify (set_cursor 0 0) ;;;
  let* e := gets buffer_end in
  let buffer_end_clamped := Z.min e (u64 (buffer_start + u64 (w * h))) in
  draw_text (Z.to_nat (buffer_end_clamped - buffer_start)) buffer_start w h ;;;
  fill_rest (S (Z.to_nat ((w + 1) * (h + 1)))) h.

Definition screen_flush : M screen_state unit :=
  let* w := columns in
  let* h := rows in
  let* sc := gets scroll in
  let* e := gets buffer_end in
  let* buf := gets buffer in
  if 0 <? sc then
    let* start := lift (skip_lines (Z.to_nat e) buf 0 0 sc) in
    match start with
    | None => blank_screen
    | Some buffer_start => if BUFFER_SIZE <=? buffer_start then blank_screen else draw_from buffer_start w h
    end
  else draw_from 0 w h.

(** One character of a message. *)
Definition print_char (w c : Z) : M screen_state unit :=
  let* e0 := gets buffer_end in
  (if BUFFER_SIZE <=? e0 then modify (fun st => set_buffer (buffer st) 0 st) else ret tt) ;;;
  let* e := gets buffer_end in
  let* buf := gets buffer in
  if c =? 8 then
    if 0 <? e then let* b := lift (bset buf e 0) in modify (set_buffer b (e - 1)) else ret tt
  else if c =? 13 then
    let* r := lift (if w =? 0 then UB else OK (e mod w)) in modify (set_buffer buf (e - r))
  else if c =? 9 then
    (* spaces up to the next multiple of four, within the buffer *)
    for_loop (Z.to_nat (4 - e mod 4)) 0 (fun _ =>
      let* e' := gets buffer_end in
      if e' <? BUFFER_SIZE then
        let* buf' := gets buffer in
        let* b := lift (bset buf' e' 32) in modify (set_buffer b (e' + 1))
      else ret tt)
  else let* b := lift (bset buf e c) in modify (set_buffer b (e + 1)).

Fixpoint print_loop (w : Z) (msg : list Z) : M screen_state unit :=
  match msg with
  | [] => undefined
  | c :: msg' => if c =? 0 then ret tt else print_char w c ;;; print_loop w msg'
  end.

Definition screen_print (msg : list Z) : M screen_state unit :=
  let* w := columns in print_loop w msg ;;; screen_flush.

(** [max(to, 0)] through [double]: exact for an [int]. *)
Definition screen_scroll (to : Z) : M screen_state unit :=
  modify (set_scroll (Z.max to 0)) ;;; screen_flush.
Definition screen_get_scroll : M screen_state Z := gets (fun st => s32 (scroll st)).

Definition screen_clear : M screen_state unit :=
  modify (set_buffer (replicate (Z.to_nat BUFFER_SIZE) 0) 0) ;;;
  modify (set_scroll 0) ;;; screen_flush.

Definition screen_init (framebuffer : framebuffer) (zap_font : list Z) : M screen_state unit :=
  modify (set_fb framebuffer) ;;;
  screen_load_font zap_font ;;;
  screen_clear ;;;
  screen_print (cstr "[screen] screen init
") ;;;
  modify (set_init true).
