(* ===== verification/ScreenThms.v ===== *)
(** * Properties of the text console

    Drawing touches only pixels of the frame buffer and never fails on a
    well-formed font; the character buffer behaves as a text to which messages
    are appended with the editing characters interpreted. *)
From S2P Require Import Prelude Mem Util Str Screen.

(** ** Well-formed states *)

(** A font with glyphs for the 128 ASCII codes, [cw] by [ch] pixels. *)
Record glyphs_ok (psf2 : bool) (font : list Z) (cw ch : Z) : Prop := {
  gl_dims : 0 < cw <= 8 /\ 0 < ch < 2 ^ 32;
  gl_bytes : if psf2
    then psf2_width font = OK cw /\ psf2_height font = OK ch /\
      exists hs bpg, psf2_header_size font = OK hs /\ psf2_bytes_per_glyph font = OK bpg /\
        forall c row, 0 <= c < 128 -> 0 <= row < ch -> exists b, bget font (hs + u32 (c * bpg) + u32 (row * (u32 (cw + 7) / 8))) = OK b
    else cw = 8 /\ psf1_charsize font = OK ch /\
      forall c row, 0 <= c < 128 -> 0 <= row < ch -> exists b, bget font (4 + c * ch + row) = OK b
}.

Record fb_ok (f : framebuffer) : Prop := {
  fo_w : 0 <= width f < 2 ^ 31 - 1;
  fo_h : 0 <= height f < 2 ^ 31 - 1;
  fo_pitch : 0 <= pitch f < 2 ^ 32;
  fo_shifts : red_mask_shift f < 32 /\ green_mask_shift f < 32 /\ blue_mask_shift f < 32
}.

(** Every pixel written lies on the screen. *)
Definition on_screen (f : framebuffer) (m : gmap Z Z) : Prop :=
  forall o, is_Some (m !! o) -> exists x y, 0 <= x < width f /\ 0 <= y < height f /\ o = y * pitch f + 4 * x.

Record screen_ok (cw ch : Z) (st : screen_state) : Prop := {
  so_fb : fb_ok (fb st);
  so_font : exists font, current_font st = Some font /\ glyphs_ok (is_current_font_psf2 st) font cw ch;
  so_pixels : on_screen (fb st) (pixels st);
  so_buffer : len (buffer st) = BUFFER_SIZE /\ Forall (fun c => 0 <= c < 128) (buffer st);
  so_end : 0 <= buffer_end st <= BUFFER_SIZE;
  so_scroll : 0 <= scroll st
}.

(** Only the picture and the cursor differ. *)
Definition same_text (st st' : screen_state) : Prop :=
  fb st' = fb st /\ current_font st' = current_font st /\ is_current_font_psf2 st' = is_current_font_psf2 st /\
  is_screen_init st' = is_screen_init st /\ buffer st' = buffer st /\ scroll st' = scroll st /\ buffer_end st' = buffer_end st.

Lemma same_text_refl st : same_text st st.
Proof. by repeat split. Qed.
Lemma same_text_trans a b c : same_text a b -> same_text b c -> same_text a c.
Proof. unfold same_text. intuition congruence. Qed.
#[export] Hint Resolve same_text_refl : eos.

Lemma screen_ok_same cw ch st st' : screen_ok cw ch st -> same_text st st' -> on_screen (fb st') (pixels st') -> screen_ok cw ch st'.
Proof. intros [H1 H2 H3 H4 H5 H6] (E1 & E2 & E3 & _ & E5 & E6 & E7) Hp. split; rewrite ?E1, ?E2, ?E3, ?E5, ?E6, ?E7 in *; done. Qed.

(** ** Drawing *)

Section Draw.
Context (cw ch : Z) (st0 : screen_state) (H0 : screen_ok cw ch st0).
Let W := width (fb st0) / cw.
Let H := height (fb st0) / ch.

(** States reached from [st0] by drawing, with the cursor at [x], [y]. *)
Definition drawn (x y : Z) (st : screen_state) : Prop :=
  same_text st0 st /\ on_screen (fb st) (pixels st) /\ cursor_x st = x /\ cursor_y st = y.

Lemma drawn_ok x y st : drawn x y st -> screen_ok cw ch st.
Proof using H0. intros (Hs & Hp & _). by eapply screen_ok_same. Qed.

Lemma wp_columns (Q : Z -> screen_state -> Prop) st : same_text st0 st -> Q W st -> wp columns Q st.
Proof using H0.
  intros (E1 & E2 & E3 & _) HQ. destruct (so_font _ _ _ H0) as (font & Hf & [[Hc _] Hb]).
  unfold columns. apply wp_bind. unfold wp, screen_get_font_char_width, screen_get_width, lift, gets, bind.
  rewrite E2, Hf, E3. assert (divide (width (fb st)) cw = OK W) as Ed.
  { unfold divide, W. rewrite E1. by rewrite (proj2 (Z.eqb_neq cw 0)) by lia. }
  destruct (is_current_font_psf2 st0); [destruct Hb as (-> & _)|destruct Hb as (Ecw & _); rewrite <- Ecw]; cbn [obind]; rewrite Ed; done.
Qed.

Lemma wp_rows (Q : Z -> screen_state -> Prop) st : same_text st0 st -> Q H st -> wp rows Q st.
Proof using H0.
  intros (E1 & E2 & E3 & _) HQ. destruct (so_font _ _ _ H0) as (font & Hf & [[_ Hc] Hb]).
  unfold rows. apply wp_bind. unfold wp, screen_get_font_char_height, screen_get_height, lift, gets, bind.
  rewrite E2, Hf, E3. assert (divide (height (fb st)) ch = OK H) as Ed.
  { unfold divide, H. rewrite E1. by rewrite (proj2 (Z.eqb_neq ch 0)) by lia. }
  destruct (is_current_font_psf2 st0); [destruct Hb as (_ & -> & _)|destruct Hb as (_ & -> & _)]; cbn [obind]; rewrite Ed; done.
Qed.

Lemma wp_put_pixel (Q : unit -> screen_state -> Prop) x y a b col st : drawn a b st -> 0 <= x -> 0 <= y ->
  (forall st', drawn a b st' -> Q tt st') -> wp (screen_put_pixel x y col) Q st.
Proof using H0.
  intros Hd Hx Hy HQ. unfold wp, screen_put_pixel. destruct (_ || _) eqn:E; [by apply HQ|]. apply HQ.
  apply orb_false_iff in E as [E1%Z.leb_gt E2%Z.leb_gt]. destruct Hd as (Hs & Hp & ? & ?). split_and!; [done| |done|done].
  intros o [v Ho]. cbn in *. apply lookup_insert_Some in Ho as [[<- _]|[_ Ho]]; [|by apply Hp; eauto].
  exists x, y. split_and!; try done. destruct Hs as (E & _). rewrite E in *. destruct (so_fb _ _ _ H0) as [F1 F2 F3 _].
  rewrite wrap_id; [done|]. unfold in_range. nia.
Qed.

Lemma wp_color (Q : Z -> screen_state -> Prop) r g b st : same_text st0 st -> (forall c, Q c st) -> wp (screen_make_color r g b) Q st.
Proof using H0.
  intros (E & _) HQ. unfold wp, screen_make_color, shl32. destruct (so_fb _ _ _ H0) as [_ _ _ (F1 & F2 & F3)].
  rewrite E, (proj2 (Z.ltb_lt _ _) F1), (proj2 (Z.ltb_lt _ _) F2), (proj2 (Z.ltb_lt _ _) F3). cbn [obind]. apply HQ.
Qed.

(** The two nested loops over the pixels of a glyph. *)
Lemma wp_glyph (Q : unit -> screen_state -> Prop) (nr nc : nat) byte fg bg x y a b st : drawn a b st -> (nc <= 8)%nat ->
  (forall row, 0 <= row < Z.of_nat nr -> exists v, byte row = OK v) ->
  (forall st', drawn a b st' -> Q tt st') ->
  wp (for_loop nr 0 (fun row => for_loop nc 0 (fun col =>
        let* v := lift (byte row) in let* on := lift (glyph_bit v col) in
        screen_put_pixel (u32 (x + col)) (u32 (y + row)) (if on then fg else bg)))) Q st.
Proof using H0.
  intros Hd Hnc Hb HQ. refine (wp_mono _ (fun _ => drawn a b) _ _ _ _); [|intros []; apply HQ].
  apply (wp_for_loop (fun _ => drawn a b)); [done|]. intros row s1 Hr Hd1. destruct (Hb row) as [v Hv]; [lia|].
  apply (wp_for_loop (fun _ => drawn a b)); [done|]. intros col s2 Hc Hd2. unfold wp, lift, bind. rewrite Hv. cbn [obind].
  unfold glyph_bit. rewrite (proj2 (Z.ltb_ge 7 col)) by lia. cbn [obind].
  apply (wp_put_pixel _ _ _ a b); [done|apply wrap_range; lia..|done].
Qed.

Lemma s8_ascii c : 0 <= c < 128 -> s8 c = c.
Proof. intros Hc. unfold swrap. rewrite Z.mod_small by (cbn; lia). lia. Qed.

Lemma wp_put_char (Q : unit -> screen_state -> Prop) c x y fg bg a b st : drawn a b st -> 0 <= c < 128 ->
  (forall st', drawn a b st' -> Q tt st') -> wp (screen_put_char c x y fg bg) Q st.
Proof using H0.
  intros Hd Hc HQ. pose proof Hd as (Hs & _). destruct (so_font _ _ _ H0) as (font & Hf & [[Hcw Hch] Hb]).
  pose proof Hs as (_ & E2 & E3 & _). unfold screen_put_char. apply wp_bind, wp_gets. rewrite E2, Hf.
  apply wp_bind, wp_columns; [done|]. apply wp_bind, wp_rows; [done|]. destruct (_ || _); [by apply wp_ret, HQ|].
  apply wp_bind, wp_gets. rewrite E3, !s8_ascii by done. destruct (is_current_font_psf2 st0).
  - destruct Hb as (Hw & Hh & hs & bpg & Hhs & Hbpg & Hg).
    do 4 (apply wp_bind; unfold wp at 1, lift at 1; rewrite ?Hw, ?Hh, ?Hhs, ?Hbpg; cbn [obind]).
    eapply wp_glyph; [done|lia| |done]. intros row Hr. apply Hg; [done|lia].
  - destruct Hb as (_ & Hh & Hg). apply wp_bind. unfold wp at 1, lift at 1. rewrite Hh. cbn [obind].
    eapply (wp_glyph _ _ 8); [done|lia| |done]. intros row Hr. apply Hg; [done|lia].
Qed.

Lemma wp_draw (Q : unit -> screen_state -> Prop) c x y st : drawn x y st -> 0 <= c < 128 ->
  (forall st', drawn x y st' -> Q tt st') -> wp (draw c) Q st.
Proof using H0.
  intros Hd Hc HQ. pose proof Hd as (Hs & _). unfold draw. apply wp_bind, wp_color; [done|]. intros fg.
  apply wp_bind, wp_color; [done|]. intros bg. apply wp_bind, wp_gets, wp_bind, wp_gets. by eapply wp_put_char.
Qed.

Lemma drawn_cursor x y x' y' st : drawn x y st -> drawn x' y' (set_cursor x' y' st).
Proof. by intros (? & ? & _ & _). Qed.

Lemma step_int_ok v d : - 2 ^ 31 <= v + d < 2 ^ 31 -> step_int v d = OK (v + d).
Proof.
  intros Hv. unfold step_int, int_ok, int_min, int_max.
  by rewrite (proj2 (Z.leb_le _ _)), (proj2 (Z.leb_le _ _)) by lia.
Qed.

Lemma wp_advance (Q : unit -> screen_state -> Prop) x y st : drawn x y st -> 0 <= x < 2 ^ 31 - 1 ->
  (forall st', drawn (x + 1) y st' -> Q tt st') -> wp advance Q st.
Proof.
  intros Hd Hx HQ. pose proof Hd as (_ & _ & Ex & Ey). unfold advance. apply wp_bind, wp_gets, wp_bind, wp_gets. rewrite Ex, Ey.
  apply wp_bind. unfold wp at 1, lift. rewrite step_int_ok by lia. cbn [obind]. apply wp_modify, HQ. by eapply drawn_cursor.
Qed.

Lemma WH : 0 <= W < 2 ^ 31 - 1 /\ 0 <= H < 2 ^ 31 - 1.
Proof using H0.
  destruct (so_fb _ _ _ H0) as [F1 F2 _ _]. destruct (so_font _ _ _ H0) as (font & _ & [[Hcw Hch] _]). unfold W, H.
  assert (forall a b, 0 <= a < 2 ^ 31 - 1 -> 0 < b -> 0 <= a / b < 2 ^ 31 - 1) as Hd; [|split; apply Hd; lia].
  intros a b Ha Hb. split; [apply Z.div_pos; lia|]. apply Z.div_lt_upper_bound; nia.
Qed.

Lemma u64_small v : 0 <= v < 2 ^ 31 -> u64 v = v.
Proof. intros Hv. apply wrap_id. unfold in_range. lia. Qed.

Lemma wp_norm (Q : unit -> screen_state -> Prop) x y st : drawn x y st -> 0 <= x <= W + 1 -> 0 <= y < H ->
  (forall st' x' y', drawn x' y' st' -> (x < W -> x' = x /\ y' = y) -> (W <= x -> x' = 0 /\ y' = y + 1) -> Q tt st') ->
  wp screen_norm_cursor Q st.
Proof using H0.
  intros Hd Hx Hy HQ. pose proof Hd as (Hs & _ & Ex & Ey). pose proof WH as [HW HH]. unfold screen_norm_cursor.
  apply wp_bind, wp_columns; [done|]. apply wp_bind, wp_rows; [done|]. apply wp_bind, wp_gets. rewrite Ex.
  rewrite (proj2 (Z.ltb_ge x 0)) by lia. apply wp_bind, wp_ret, wp_bind, wp_gets. rewrite Ex, u64_small by lia.
  destruct (Z.leb_spec W x).
  - apply wp_bind, wp_gets. rewrite Ey. apply wp_bind. unfold wp at 1, lift. rewrite step_int_ok by lia. cbn [obind].
    apply wp_modify. apply (HQ _ 0 (y + 1)); [by eapply drawn_cursor|lia|done].
  - apply wp_ret. apply (HQ _ x y); [done|done|lia].
Qed.

(** One drawn cell: the cursor moves to the next cell in reading order. *)
Lemma wp_cell (Q : unit -> screen_state -> Prop) c x y st : drawn x y st -> 0 <= c < 128 -> 0 <= x <= W -> 0 <= y < H ->
  (forall st' x' y', drawn x' y' st' -> 0 <= x' <= W -> y <= y' <= y + 1 -> (H - y') * (W + 1) + (W - x') < (H - y) * (W + 1) + (W - x) ->
     Q tt st') -> wp (draw c ;;; advance ;;; screen_norm_cursor) Q st.
Proof using H0.
  intros Hd Hc Hx Hy HQ. pose proof WH as [HW HH]. apply wp_bind. apply (wp_draw _ _ x y); [done..|]. intros s1 D1.
  apply wp_bind. apply (wp_advance _ x y); [done|lia|]. intros s2 D2. apply (wp_norm _ (x + 1) y); [done|lia|lia|].
  intros s3 x' y' D3 Ha Hb. destruct (Z.ltb_spec (x + 1) W).
  - destruct Ha as [-> ->]; [lia|]. apply (HQ _ (x + 1) y); [done|lia..].
  - destruct Hb as [-> ->]; [lia|]. apply (HQ _ 0 (y + 1)); [done|lia|lia|nia].
Qed.

Lemma wp_fill_line (Q : unit -> screen_state -> Prop) fuel x y st : drawn x y st -> 0 <= x <= W -> (Z.to_nat (W - x) < fuel)%nat ->
  (forall st' x', drawn x' y st' -> Q tt st') -> wp (fill_line fuel W) Q st.
Proof using H0.
  pose proof WH as [HW HH]. revert x st. induction fuel as [|fuel IH]; intros x st Hd Hx Hf HQ; [lia|]. cbn [fill_line].
  pose proof Hd as (_ & _ & Ex & _). apply wp_bind, wp_gets. rewrite Ex, u64_small by lia. destruct (Z.ltb_spec x W); [|by eapply wp_ret, HQ].
  apply wp_bind. apply (wp_draw _ _ x y); [done|lia|]. intros s1 D1. apply wp_bind. apply (wp_advance _ x y); [done|lia|].
  intros s2 D2. apply (IH (x + 1)); [done|lia|lia|done].
Qed.

Lemma wp_draw_text (Q : unit -> screen_state -> Prop) n i x y st : drawn x y st -> 0 <= x <= W -> 0 <= y <= H ->
  0 <= i -> i + Z.of_nat n <= BUFFER_SIZE ->
  (forall st' x' y', drawn x' y' st' -> 0 <= x' <= W -> 0 <= y' <= H -> Q tt st') -> wp (draw_text n i W H) Q st.
Proof using H0.
  pose proof WH as [HW HH]. revert i x y st. induction n as [|n IH]; intros i x y st Hd Hx Hy Hi Hn HQ; cbn [draw_text].
  { by eapply wp_ret, HQ. }
  pose proof Hd as (Hs & _ & _ & Ey). apply wp_bind, wp_gets. rewrite Ey, u64_small by lia.
  destruct (Z.leb_spec H y); [by eapply wp_ret, HQ|]. apply wp_bind, wp_gets. destruct (so_buffer _ _ _ H0) as [Hl Hbuf].
  pose proof Hs as (_ & _ & _ & _ & Eb & _). rewrite Eb. destruct (lookup_Z_lt (buffer st0) i) as [c Hc]; [fold (len (buffer st0)); lia|].
  apply wp_bind. unfold wp at 1, lift. rewrite (bget_lookup _ _ c) by done. cbn [obind].
  assert (0 <= c < 128) as Hc1 by apply (Forall_lookup_1 _ _ _ _ Hbuf Hc).
  apply wp_bind. destruct (c =? 0); [|destruct (c =? 10)].
  - apply (wp_cell _ _ x y); [done|lia..|]. intros s1 x' y' D ???. apply (IH (i + 1) x' y'); [done|lia..|done].
  - apply wp_bind. apply (wp_fill_line _ _ x y); [done|lia|lia|]. intros s1 x' D1. pose proof D1 as (_ & _ & _ & Ey1).
    apply wp_bind, wp_gets. rewrite Ey1. apply wp_bind. unfold wp at 1, lift. rewrite step_int_ok by lia. cbn [obind].
    apply wp_modify. apply (IH (i + 1) 0 (y + 1)); [by eapply drawn_cursor|lia..|done].
  - apply (wp_cell _ _ x y); [done|lia..|]. intros s1 x' y' D ???. apply (IH (i + 1) x' y'); [done|lia..|done].
Qed.

Lemma wp_fill_rest (Q : unit -> screen_state -> Prop) fuel x y st : drawn x y st -> 0 <= x <= W -> 0 <= y <= H ->
  (H - y) * (W + 1) + (W - x) < Z.of_nat fuel ->
  (forall st' x' y', drawn x' y' st' -> Q tt st') -> wp (fill_rest fuel H) Q st.
Proof using H0.
  pose proof WH as [HW HH]. revert x y st. induction fuel as [|fuel IH]; intros x y st Hd Hx Hy Hf HQ; [nia|]. cbn [fill_rest].
  pose proof Hd as (_ & _ & _ & Ey). apply wp_bind, wp_gets. rewrite Ey, u64_small by lia. destruct (Z.ltb_spec y H); [|by eapply wp_ret, HQ].
  apply (wp_ext _ ((draw 32 ;;; advance ;;; screen_norm_cursor) ;;; fill_rest fuel H)).
  { unfold bind. destruct (draw 32 st) as [[? s1]| | |]; cbn [obind]; [|done..]. by destruct (advance s1) as [[? s2]| | |]. }
  apply wp_bind. apply (wp_cell _ _ x y); [done|lia..|]. intros s1 x' y' D ???. apply (IH x' y'); [done|lia..|done].
Qed.

Lemma wp_blank (Q : unit -> screen_state -> Prop) x y st : drawn x y st -> (forall st', drawn x y st' -> Q tt st') ->
  wp blank_screen Q st.
Proof using H0.
  intros Hd HQ. pose proof Hd as (Hs & _). unfold blank_screen. apply wp_bind, wp_gets, wp_bind, wp_gets.
  refine (wp_mono _ (fun _ => drawn x y) _ _ _ _); [|intros []; apply HQ].
  apply (wp_for_loop (fun _ => drawn x y)); [done|]. intros j s1 Hj D1.
  apply (wp_for_loop (fun _ => drawn x y)); [done|]. intros i s2 Hi D2. pose proof D2 as (Hs2 & _).
  apply wp_bind, wp_color; [done|]. intros c. apply (wp_put_pixel _ _ _ x y); [done|lia|lia|done].
Qed.

Lemma wp_draw_from (Q : unit -> screen_state -> Prop) start x y st : drawn x y st -> 0 <= start <= BUFFER_SIZE ->
  (forall st' x' y', drawn x' y' st' -> Q tt st') -> wp (draw_from start W H) Q st.
Proof using H0.
  intros Hd Hst HQ. pose proof WH as [HW HH]. unfold draw_from. apply wp_bind, wp_modify.
  apply (drawn_cursor _ _ 0 0) in Hd. apply wp_bind, wp_gets. pose proof Hd as (Hs & _).
  destruct Hs as (_ & _ & _ & _ & _ & _ & Ee). rewrite Ee. pose proof (so_end _ _ _ H0) as He.
  set (m := Z.min _ _). assert (m <= BUFFER_SIZE) by lia. clearbody m.
  apply wp_bind. apply (wp_draw_text _ _ _ 0 0); [done|lia|lia|lia| |].
  { destruct (Z.leb_spec m start); [replace (Z.to_nat (m - start)) with 0%nat by lia; lia|lia]. }
  intros s1 x1 y1 D1 Hx1 Hy1. apply (wp_fill_rest _ _ x1 y1); [done|lia|lia| |done]. nia.
Qed.

Lemma skip_lines_ok buf n i lines want : 0 <= i -> i + Z.of_nat n <= len buf ->
  exists r, skip_lines n buf i lines want = OK r /\ forall s, r = Some s -> i < s <= i + Z.of_nat n.
Proof.
  revert i lines. induction n as [|n IH]; intros i lines Hi Hn; cbn [skip_lines]; [by exists None|].
  destruct (lookup_Z_lt buf i) as [c Hc]; [fold (len buf); lia|]. rewrite (bget_lookup _ _ c) by done. cbn [obind].
  destruct (c =? 10); [destruct (want <=? lines + 1)|].
  - exists (Some (i + 1)). split; [done|]. intros s [= <-]. lia.
  - destruct (IH (i + 1) (lines + 1)) as (r & -> & Hr); [lia|lia|]. exists r. split; [done|]. intros s Hs. specialize (Hr s Hs). lia.
  - destruct (IH (i + 1) lines) as (r & -> & Hr); [lia|lia|]. exists r. split; [done|]. intros s Hs. specialize (Hr s Hs). lia.
Qed.

(** [screen_flush] terminates without undefined behaviour and only paints. *)
Lemma wp_flush (Q : unit -> screen_state -> Prop) :
  (forall st', same_text st0 st' -> screen_ok cw ch st' -> Q tt st') -> wp screen_flush Q st0.
Proof using H0.
  intros HQ. assert (drawn (cursor_x st0) (cursor_y st0) st0) as Hd by (split_and!; [apply same_text_refl|apply H0|done|done]).
  assert (forall st' x y, drawn x y st' -> Q tt st') as HQ' by (intros st' x y D; apply HQ; [apply D|by eapply drawn_ok]).
  unfold screen_flush. apply wp_bind, wp_columns; [apply same_text_refl|]. apply wp_bind, wp_rows; [apply same_text_refl|].
  apply wp_bind, wp_gets, wp_bind, wp_gets, wp_bind, wp_gets. destruct (0 <? scroll st0).
  - destruct (so_buffer _ _ _ H0) as [Hl _]. pose proof (so_end _ _ _ H0) as He.
    destruct (skip_lines_ok (buffer st0) (Z.to_nat (buffer_end st0)) 0 0 (scroll st0)) as (r & Er & Hr); [lia|lia|].
    apply wp_bind. unfold wp at 1, lift. rewrite Er. cbn [obind]. destruct r as [s|]; [|eapply wp_blank; eauto].
    specialize (Hr s eq_refl). destruct (BUFFER_SIZE <=? s); [eapply wp_blank; eauto|]. eapply wp_draw_from; [done|lia|eauto].
  - eapply wp_draw_from; [done|unfold BUFFER_SIZE; lia|eauto].
Qed.
End Draw.

(** ** The text *)

(** The characters the console shows. *)
Definition text (st : screen_state) : list Z := take (Z.to_nat (buffer_end st)) (buffer st).

(** Effect of one character on the text, [w] columns wide: a full buffer starts
    over, backspace drops the last character, carriage return goes back to the
    last multiple of the width, a tab pads with spaces to a multiple of four. *)
Definition put_text (w : Z) (t0 : list Z) (c : Z) : list Z :=
  let t := if BUFFER_SIZE <=? len t0 then [] else t0 in
  if c =? 8 then take (length t - 1) t
  else if c =? 13 then take (Z.to_nat (len t - len t mod w)) t
  else if c =? 9 then t ++ replicate (Z.to_nat (4 - len t mod 4)) 32
  else t ++ [c].

(** Buffer and end describe the text [t]. *)
Definition holds (t : list Z) (st : screen_state) : Prop :=
  len (buffer st) = BUFFER_SIZE /\ Forall (fun c => 0 <= c < 128) (buffer st) /\
  buffer_end st = len t /\ len t <= BUFFER_SIZE /\ exists r, buffer st = t ++ r.

Lemma holds_text t st : holds t st -> text st = t.
Proof. intros (_ & _ & He & _ & r & Hr). unfold text, len in *. rewrite He, Hr, Nat2Z.id. by rewrite take_app_length. Qed.

Lemma text_holds cw ch st : screen_ok cw ch st -> holds (text st) st.
Proof.
  intros H. destruct (so_buffer _ _ _ H) as [Hl Hf]. pose proof (so_end _ _ _ H) as He. unfold holds, text, len in *.
  rewrite length_take. split_and!; [done|done|lia|lia|]. eexists. by rewrite take_drop.
Qed.

(** Only buffer and end differ. *)
Definition same_screen (st st' : screen_state) : Prop := exists b e, st' = set_buffer b e st.
Lemma same_screen_refl st : same_screen st st.
Proof. exists (buffer st), (buffer_end st). by destruct st. Qed.
Lemma same_screen_trans a b c : same_screen a b -> same_screen b c -> same_screen a c.
Proof. intros (? & ? & ->) (? & ? & ->). by eexists _, _. Qed.

Lemma screen_ok_buffer cw ch st st' t : screen_ok cw ch st -> same_screen st st' -> holds t st' -> screen_ok cw ch st'.
Proof.
  intros [H1 H2 H3 H4 H5 H6] (b & e & ->) (G1 & G2 & G3 & G4 & G5). split; cbn in *; try done. unfold len in *. lia.
Qed.

(** Storing one character behind the text. *)
Lemma holds_push t c st : holds t st -> len t < BUFFER_SIZE -> 0 <= c < 128 ->
  bset (buffer st) (len t) c = OK (<[length t := c]> (buffer st)) /\ holds (t ++ [c]) (set_buffer (<[length t := c]> (buffer st)) (len t + 1) st).
Proof.
  intros (G1 & G2 & G3 & G4 & r & G5) Ht Hc. split.
  - rewrite bset_ok by (unfold len in *; lia). unfold len. by rewrite Nat2Z.id, wrap_id by (unfold in_range; lia).
  - unfold holds, len in *. cbn. rewrite length_insert, length_app. cbn. split_and!; [done| |lia|lia|].
    + by apply Forall_insert.
    + rewrite G5 in *. rewrite length_app in G1. destruct r as [|x r]; [cbn in G1; lia|]. exists r.
      by rewrite insert_app_r_alt, Nat.sub_diag, <- app_assoc by lia.
Qed.

Lemma holds_take t n st : holds t st -> (n <= length t)%nat -> holds (take n t) (set_buffer (buffer st) (Z.of_nat n) st).
Proof.
  intros (G1 & G2 & G3 & G4 & r & G5) Hn. unfold holds, len in *. cbn. rewrite length_take. split_and!; [done|done|lia|lia|].
  rewrite G5. exists (drop n t ++ r). by rewrite app_assoc, take_drop.
Qed.

(** Backspace: the cell behind the text is cleared, then the text shrinks. *)
Lemma holds_erase t st : holds t st -> 0 < len t -> len t < BUFFER_SIZE -> exists b, bset (buffer st) (len t) 0 = OK b /\
  holds (take (length t - 1) t) (set_buffer b (len t - 1) st).
Proof.
  intros Hh Ht Hl. destruct (holds_push t 0 st Hh) as [E _]; [lia|lia|]. exists (<[length t := 0]> (buffer st)). split; [done|].
  destruct Hh as (G1 & G2 & G3 & G4 & r & G5). unfold holds, len in *. cbn. rewrite length_insert, length_take.
  split_and!; [done|by apply Forall_insert|lia|lia|]. rewrite G5.
  exists (drop (length t - 1) t ++ match r with [] => [] | _ :: r' => 0 :: r' end).
  rewrite app_assoc, take_drop. destruct r; [rewrite app_nil_r; apply list_insert_ge; lia|].
  by rewrite insert_app_r_alt, Nat.sub_diag by lia.
Qed.

(** Tab: spaces up to the next multiple of four, which is within the buffer. *)
Lemma wp_tab (Q : unit -> screen_state -> Prop) t st : holds t st -> len t < BUFFER_SIZE ->
  (forall st', same_screen st st' -> holds (t ++ replicate (Z.to_nat (4 - len t mod 4)) 32) st' -> Q tt st') ->
  wp (for_loop (Z.to_nat (4 - len t mod 4)) 0 (fun _ =>
      let* e' := gets buffer_end in
      if e' <? BUFFER_SIZE then
        let* buf' := gets buffer in
        let* b := lift (bset buf' e' 32) in modify (set_buffer b (e' + 1))
      else ret tt)) Q st.
Proof.
  intros Hh Hl HQ. pose proof (Z.mod_pos_bound (len t) 4 ltac:(lia)) as Hm.
  assert (len t + (4 - len t mod 4) <= BUFFER_SIZE) as Hfit.
  { unfold BUFFER_SIZE in *. clear - Hl. set (n := len t) in *. clearbody n. divlia. }
  set (k := 4 - len t mod 4) in *. assert (0 < k) by lia. clearbody k.
  refine (wp_mono _ (fun _ s => same_screen st s /\ holds (t ++ replicate (Z.to_nat (0 + Z.of_nat (Z.to_nat k))) 32) s) _ _ _ _).
  - apply (wp_for_loop (fun j s => same_screen st s /\ holds (t ++ replicate (Z.to_nat j) 32) s)).
    { split; [apply same_screen_refl|cbn; by rewrite app_nil_r]. }
    intros j s Hj [Hss Hhs]. pose proof Hhs as (_ & _ & K3 & _). apply wp_bind, wp_gets. rewrite K3.
    assert (len (t ++ replicate (Z.to_nat j) 32) = len t + j) as El by (unfold len; rewrite length_app, length_replicate; lia).
    rewrite (proj2 (Z.ltb_lt _ _)) by lia. destruct (holds_push _ 32 s Hhs) as [E P]; [lia|lia|].
    apply wp_bind, wp_gets, wp_bind. unfold wp at 1, lift. rewrite E. cbn [obind]. apply wp_modify.
    split; [eapply same_screen_trans; [done|by eexists _, _]|].
    replace (Z.to_nat (j + 1)) with (Z.to_nat j + 1)%nat by lia. by rewrite replicate_add, app_assoc.
  - intros [] s [Hs Hhs]. apply HQ; [done|]. by replace (0 + Z.of_nat (Z.to_nat k)) with k in Hhs by lia.
Qed.

Lemma wp_print_char (Q : unit -> screen_state -> Prop) w t c st : holds t st -> 0 < c < 128 -> 0 < w ->
  (forall st', same_screen st st' -> holds (put_text w t c) st' -> Q tt st') -> wp (print_char w c) Q st.
Proof.
  intros Hh Hc Hw HQ. unfold print_char. apply wp_bind, wp_gets.
  assert (exists t1 st1, t1 = (if BUFFER_SIZE <=? len t then [] else t) /\ same_screen st st1 /\ holds t1 st1 /\ len t1 < BUFFER_SIZE /\
    (if BUFFER_SIZE <=? buffer_end st then modify (fun st => set_buffer (buffer st) 0 st) else ret tt) st = OK (tt, st1)) as
    (t1 & st1 & Et & Hs & Hh1 & Hl1 & E1).
  { pose proof Hh as (G1 & G2 & G3 & G4 & r & G5). rewrite G3. destruct (Z.leb_spec BUFFER_SIZE (len t)).
    - exists [], (set_buffer (buffer st) 0 st). split_and!; [done|by eexists _, _| |done|done].
      apply (holds_take t 0); [done|lia].
    - exists t, st. split_and!; try done. apply same_screen_refl. }
  apply wp_bind. unfold wp at 1. rewrite E1. clear E1. unfold put_text in HQ. rewrite <- Et in HQ. clear Et Hh.
  pose proof Hh1 as (G1 & G2 & G3 & G4 & r & G5). apply wp_bind, wp_gets, wp_bind, wp_gets. rewrite G3.
  destruct (Z.eqb_spec c 8) as [->|H8]; [|destruct (Z.eqb_spec c 13) as [->|H13]; [|destruct (Z.eqb_spec c 9) as [->|H9]]].
  - destruct (Z.ltb_spec 0 (len t1)).
    + destruct (holds_erase t1 st1 Hh1) as (b & E & Hb); [done|lia|]. apply wp_bind. unfold wp at 1, lift. rewrite E. cbn [obind].
      apply wp_modify, HQ; [eapply same_screen_trans; [done|by eexists _, _]|done].
    + apply wp_ret, HQ; [done|]. assert (t1 = []) as -> by (destruct t1; [done|unfold len in *; cbn in *; lia]). done.
  - apply wp_bind. unfold wp at 1, lift. rewrite (proj2 (Z.eqb_neq w 0)) by lia. cbn [obind].
    apply wp_modify, HQ; [eapply same_screen_trans; [done|by eexists _, _]|].
    pose proof (Z.mod_pos_bound (len t1) w Hw). pose proof (Z.mod_le (len t1) w ltac:(unfold len; lia) Hw).
    pose proof (holds_take t1 (Z.to_nat (len t1 - len t1 mod w)) st1 Hh1 ltac:(unfold len in *; lia)) as Hk.
    rewrite Z2Nat.id in Hk by lia. done.
  - apply (wp_tab _ t1); [done|done|]. intros s Hss. apply HQ. by eapply same_screen_trans.
  - destruct (holds_push t1 c st1 Hh1) as [E P]; [lia|lia|]. apply wp_bind. unfold wp at 1, lift. rewrite E. cbn [obind].
    apply wp_modify, HQ; [eapply same_screen_trans; [done|by eexists _, _]|done].
Qed.

Lemma wp_print_loop (Q : unit -> screen_state -> Prop) w t m r st : holds t st -> 0 < w -> Forall (fun c => 0 < c < 128) m ->
  (forall st', same_screen st st' -> holds (fold_left (put_text w) m t) st' -> Q tt st') -> wp (print_loop w (m ++ 0 :: r)) Q st.
Proof.
  revert t st. induction m as [|c m IH]; intros t st Hh Hw Hm HQ; cbn [app print_loop fold_left].
  - apply wp_ret, HQ; [apply same_screen_refl|done].
  - inversion_clear Hm. rewrite (proj2 (Z.eqb_neq c 0)) by lia. apply wp_bind. apply (wp_print_char _ w t c); [done..|].
    intros s1 Hs1 Hh1. apply (IH _ s1 Hh1); [done|done|]. intros s2 Hs2. apply HQ. by eapply same_screen_trans.
Qed.

Lemma wp_screen_print cw ch st msg m : screen_ok cw ch st -> cw <= width (fb st) ->
  cstring msg m -> Forall (fun c => 0 < c < 128) m ->
  wp (screen_print msg) (fun _ st' => screen_ok cw ch st' /\ fb st' = fb st /\ scroll st' = scroll st /\
    text st' = fold_left (put_text (width (fb st) / cw)) m (text st)) st.
Proof.
  intros Hok Hcw (_ & r & ->) Hm. unfold screen_print. apply wp_bind. apply (wp_columns cw ch st Hok); [apply same_text_refl|].
  assert (0 < width (fb st) / cw). { destruct (so_font _ _ _ Hok) as (? & _ & [[? _] _]). apply Z.div_str_pos. lia. }
  apply wp_bind. apply (wp_print_loop _ _ (text st)); [by eapply text_holds|done|done|]. intros s1 Hs1 Hh1.
  pose proof (screen_ok_buffer _ _ _ _ _ Hok Hs1 Hh1) as Hok1. apply (wp_flush cw ch s1 Hok1). intros s2 Ht Hok2.
  destruct Ht as (E1 & _ & _ & _ & E5 & E6 & E7). destruct Hs1 as (b & e & ->). cbn in E1, E6. split_and!; [done|done|done|].
  rewrite <- (holds_text _ _ Hh1). unfold text. by rewrite E5, E7.
Qed.

(** C35: printing an ASCII message on a console in good order terminates, paints
    only pixels of the frame buffer, keeps the console in good order, and
    changes the text as if its characters had been put one by one, with
    backspace, carriage return, tab and the wrap of a full buffer as
    [put_text] states them. *)
Theorem screen_print_correct cw ch st msg m : screen_ok cw ch st -> cw <= width (fb st) ->
  cstring msg m -> Forall (fun c => 0 < c < 128) m ->
  wp (screen_print msg) (fun _ st' => screen_ok cw ch st' /\ fb st' = fb st /\ scroll st' = scroll st /\
    text st' = fold_left (put_text (width (fb st) / cw)) m (text st)) st.
Proof. apply wp_screen_print. Qed.

(** *** A concrete console: 40 by 8 pixels, a two-row font *)

Definition demo_font : list Z := [0x36; 0x04; 2; 2] ++ concat (replicate 256 [0xF0; 0x0F]).
Definition demo_screen : screen_state :=
  mk_screen (mk_fb 40 8 160 16 8 0) ∅ (Some demo_font) false true 0 0 (replicate (Z.to_nat BUFFER_SIZE) 0) 0 0.

Lemma demo_font_byte i : 0 <= i < 516 -> exists b, bget demo_font i = OK b.
Proof.
  intros Hi. destruct (lookup_Z_lt demo_font i) as [b Hb]; [change (Z.of_nat (length demo_font)) with 516; lia|].
  exists b. apply bget_lookup; [lia|done].
Qed.

Lemma demo_screen_ok : screen_ok 8 2 demo_screen.
Proof.
  split; cbn -[replicate BUFFER_SIZE demo_font].
  - split; cbn; lia.
  - exists demo_font. split; [done|]. split; [lia|]. split_and!; [done|done|]. intros c row Hc Hr. apply demo_font_byte. lia.
  - intros o [v Hv]. by rewrite lookup_empty in Hv.
  - unfold len. rewrite length_replicate. split; [done|]. apply Forall_replicate. lia.
  - done.
  - done.
Qed.

Lemma screen_print_correct_witness :
  wp (screen_print (cstr "ab	c")) (fun _ st' => text st' = [97; 98; 32; 32; 99]) demo_screen.
Proof.
  refine (wp_mono _ _ _ _ (screen_print_correct 8 2 demo_screen (cstr "ab	c") (of_string "ab	c") demo_screen_ok _ _ _) _).
  - cbn. lia.
  - split; [|by exists []]. repeat (apply Forall_cons_2; [done|]). apply Forall_nil_2.
  - repeat (apply Forall_cons_2; [cbn; lia|]). apply Forall_nil_2.
  - cbv beta. intros [] st' (_ & _ & _ & ->). vm_compute. reflexivity.
Defined.
