(* ===== verification/Kernel.v ===== *)
(** * The kernel's entry point (src/kernel.c)

    [kernel_main] checks the boot loader's answers, starts the subsystems in
    order and loads the shell; then it feeds key presses to the keyboard buffer
    and scrolls the screen, for ever. *)
From S2P Require Import Prelude Mem Util Str Ata Keyboard Screen ScreenThms.

(** ** Start-up *)

(** The boot loader's answers; [None] is a null response. *)
Record limine_responses := mk_limine {
  base_revision_supported : bool;
  framebuffers : option (list framebuffer);
  memmap_response : bool;
  hhdm_response : bool
}.

(** The functions [kernel_main] calls, of the other components and of
    main_asm.S. *)
Class BootOps (St : Type) := {
  b_console :: Console St;
  b_enable_sse : M St unit;
  b_enable_nxe : M St unit;
  b_screen_init : framebuffer -> M St unit;
  b_gdt_init : M St unit;
  b_pmm_init : M St unit;
  b_vmm_init : M St (option Z);
  b_process_scheduler_init : Z -> M St unit;
  b_interrupts_init : M St unit;
  b_filesystem_init : M St unit;
  b_load_shell : M St bool
}.

Definition kernel_boot {St} `{BootOps St} (limine : limine_responses) : M St unit :=
  if negb (base_revision_supported limine) then panic "limine not supported" else
  match framebuffers limine with
  | None | Some [] => panic "invalid limine frame buffer"
  | Some (fb0 :: _) =>
  if negb (memmap_response limine) then panic "invalid limine memmap" else
  if negb (hhdm_response limine) then panic "invalid limine hhdmm" else
  b_enable_sse ;;;
  b_enable_nxe ;;;
  b_screen_init fb0 ;;;
  b_gdt_init ;;;
  b_pmm_init ;;;
  let* kernel_PML4 := b_vmm_init in
  match kernel_PML4 with
  | None => panic "vmm init crashed"
  | Some p =>
      b_process_scheduler_init p ;;;
      b_interrupts_init ;;;
      b_filesystem_init ;;;
      Prelude.screen_print "[kernel] Eitan OS Started...\n" ;;;
      Prelude.screen_print "[kernel] Hello user!\n" ;;;
      let* success := b_load_shell in
      if success : bool then Prelude.screen_print "[kernel] loaded shell\n" else Prelude.screen_print "[kernel] failed to load shell\n"
  end
  end.

(** ** The keyboard loop *)

Record kernel_state (D : Type) := mk_kernel { kdev : D; kscreen : screen_state; io_keyboard_buffer : Z }.
Arguments mk_kernel {D}. Arguments kdev {D}. Arguments kscreen {D}. Arguments io_keyboard_buffer {D}.

(** Arithmetic in [int]. *)
Definition int_add (a b : Z) : outcome Z :=
  if (- 2 ^ 31 <=? a + b) && (a + b <? 2 ^ 31) then OK (a + b) else UB.

Section Loop.
Context {D : Type} `{Ports D}.

Definition on_kdev {A} (m : M D A) : M (kernel_state D) A :=
  zoom kdev (fun d st => mk_kernel d (kscreen st) (io_keyboard_buffer st)) m.
Definition on_kscreen {A} (m : M screen_state A) : M (kernel_state D) A :=
  zoom kscreen (fun s st => mk_kernel (kdev st) s (io_keyboard_buffer st)) m.
Definition scroll_by (n : Z) : M (kernel_state D) unit :=
  let* s := on_kscreen screen_get_scroll in
  let* to := lift (int_add s n) in
  on_kscreen (screen_scroll to).

Definition ARROW_UP : Z := 0x48.
Definition ARROW_DOWN : Z := 0x50.
Definition F12 : Z := 0x58.

(** One round of the loop. *)
Definition kernel_round (fuel polls : nat) : M (kernel_state D) unit :=
  let* scancode := on_kdev (io_keyboard_read fuel polls) in
  modify (fun st => mk_kernel (kdev st) (kscreen st) scancode) ;;;
  let* is_character := lift (io_is_character scancode) in
  if is_character : bool then ret tt else
  let key := Z.land scancode 0xFF in
  if key =? ARROW_UP then scroll_by (-1)
  else if key =? ARROW_DOWN then scroll_by 1
  else if key =? F12 then on_kscreen (Screen.screen_print (cstr "TEST
"))
  else ret tt.
Fixpoint kernel_loop (rounds fuel polls : nat) : M (kernel_state D) unit :=
  match rounds with O => ret tt | S n => kernel_round fuel polls ;;; kernel_loop n fuel polls end.
End Loop.

(** ** Properties *)

(** What a key does to the screen. *)
Definition scrolled (code n : Z) : Z :=
  if Z.land code 0xFF =? ARROW_UP then Z.max (n - 1) 0 else if Z.land code 0xFF =? ARROW_DOWN then n + 1 else n.
Definition shown (code cols : Z) (t : list Z) : list Z :=
  if Z.land code 0xFF =? F12 then fold_left (put_text cols) (of_string "TEST
") t else t.
Definition is_char (code : Z) : bool := match io_is_character code with OK b => b | _ => false end.

Section Round.
Context {D : Type} `{KeyboardSpec D} (cw ch : Z).

Lemma wp_scroll_by (Q : unit -> kernel_state D -> Prop) n d s k : screen_ok cw ch s -> -1 <= n <= 1 -> scroll s < 2 ^ 31 - 1 ->
  (forall s', screen_ok cw ch s' -> fb s' = fb s -> scroll s' = Z.max (scroll s + n) 0 -> text s' = text s -> Q tt (mk_kernel d s' k)) ->
  wp (scroll_by n) Q (mk_kernel d s k).
Proof.
  intros Hok Hn Hs HQ. pose proof (so_scroll _ _ _ Hok) as H0s. unfold scroll_by. apply wp_bind, wp_zoom, wp_gets.
  assert (s32 (scroll s) = scroll s) as Es32 by (unfold swrap; rewrite Z.mod_small; lia). cbn [kscreen]. rewrite Es32.
  apply wp_bind. apply (wp_lift _ _ (scroll s + n)).
  { unfold int_add. rewrite (proj2 (Z.leb_le _ _)), (proj2 (Z.ltb_lt _ _)) by lia. done. }
  apply wp_zoom. unfold screen_scroll. apply wp_bind, wp_modify. cbn [kscreen].
  assert (screen_ok cw ch (set_scroll (Z.max (scroll s + n) 0) s)) as Hok'.
  { destruct Hok. split; cbn; try done. lia. }
  apply (wp_flush cw ch _ Hok'). intros s' (E1 & _ & _ & _ & E5 & E6 & E7) Hok2. apply HQ; [done|done|done|].
  unfold text. by rewrite E5, E7.
Qed.

Lemma wp_kernel_round fuel polls st code rest : (max_key_polls < polls)%nat -> (length (keys (kdev st)) <= fuel)%nat ->
  Forall (in_range 8) (keys (kdev st)) -> next_press (keys (kdev st)) = Some (code, rest) ->
  screen_ok cw ch (kscreen st) -> cw <= width (fb (kscreen st)) -> scroll (kscreen st) < 2 ^ 31 - 1 ->
  wp (kernel_round fuel polls) (fun _ st' => io_keyboard_buffer st' = code /\ keys (kdev st') = rest /\ screen_ok cw ch (kscreen st') /\
    fb (kscreen st') = fb (kscreen st) /\
    scroll (kscreen st') = (if is_char code then scroll (kscreen st) else scrolled code (scroll (kscreen st))) /\
    text (kscreen st') = (if is_char code then text (kscreen st) else shown code (width (fb (kscreen st)) / cw) (text (kscreen st)))) st.
Proof.
  intros Hp Hf Hb Hn Hok Hcw Hs. destruct st as [d s k]. cbn [kdev kscreen] in *. unfold kernel_round. apply wp_bind, wp_zoom.
  eapply (wp_keyboard_read polls Hp); [done..|]. intros d' Hd. apply wp_bind, wp_modify, wp_bind.
  pose proof (next_press_range _ _ _ Hn Hb) as Hr. destruct (is_character_ok code) as (b & Eb & _); [lia|].
  eapply wp_lift; [exact Eb|]. unfold is_char. rewrite Eb. destruct b; [by apply wp_ret|].
  pose proof (so_scroll _ _ _ Hok) as H0s. unfold scrolled, shown. cbn [kdev kscreen].
  destruct (Z.eqb_spec (Z.land code 0xFF) ARROW_UP) as [E|H1]; [|destruct (Z.eqb_spec (Z.land code 0xFF) ARROW_DOWN) as [E|H2];
    [|destruct (Z.eqb_spec (Z.land code 0xFF) F12) as [E|H3]]]; rewrite ?E.
  - apply wp_scroll_by; [done|lia|done|]. intros s' Hok' Ef Es Et. cbn. split_and!; try done.
  - apply wp_scroll_by; [done|lia|done|]. intros s' Hok' Ef Es Et. cbn. split_and!; try done. lia.
  - apply wp_zoom. eapply wp_mono; [apply (wp_screen_print cw ch _ _ (of_string "TEST
")); [done|done| |]|].
    + split; [by repeat constructor|by exists []].
    + repeat (apply Forall_cons_2; [cbn; lia|]). apply Forall_nil_2.
    + intros [] s' (Hok' & Ef & Es & Et). cbn. split_and!; done.
  - by apply wp_ret.
Qed.
End Round.

(** C40: one round of the kernel's loop takes the next key press of the stream,
    exactly its bytes and the releases before it, and leaves its code in the
    keyboard buffer for the system call; the screen changes only for keys that
    are not characters: the arrows scroll by one line, never above the first,
    and F12 prints a test line; the screen stays well formed. *)
Theorem kernel_round_correct {D} `{KeyboardSpec D} cw ch fuel polls st code rest :
  (max_key_polls < polls)%nat -> (length (keys (kdev st)) <= fuel)%nat ->
  Forall (in_range 8) (keys (kdev st)) -> next_press (keys (kdev st)) = Some (code, rest) ->
  screen_ok cw ch (kscreen st) -> cw <= width (fb (kscreen st)) -> scroll (kscreen st) < 2 ^ 31 - 1 ->
  wp (kernel_round fuel polls) (fun _ st' => io_keyboard_buffer st' = code /\ keys (kdev st') = rest /\ screen_ok cw ch (kscreen st') /\
    fb (kscreen st') = fb (kscreen st) /\
    scroll (kscreen st') = (if is_char code then scroll (kscreen st) else scrolled code (scroll (kscreen st))) /\
    text (kscreen st') = (if is_char code then text (kscreen st) else shown code (width (fb (kscreen st)) / cw) (text (kscreen st)))) st.
Proof. intros. by apply wp_kernel_round. Qed.

(** Arrow down, after the release of another key. *)
Lemma kernel_round_correct_witness :
  wp (kernel_round 3 2) (fun _ st' => io_keyboard_buffer st' = 0xE050 /\ keys (kdev st') = [] /\ scroll (kscreen st') = 1)
    (mk_kernel (mk_kbd [0x9E; 0xE0; 0x50] true) demo_screen 0).
Proof.
  refine (wp_mono _ _ _ _ (kernel_round_correct (D := sim_kbd) 8 2 3 2 (mk_kernel (mk_kbd [0x9E; 0xE0; 0x50] true) demo_screen 0) 0xE050 [] _ _ _ _ _ _ _) _).
  - cbn. lia.
  - cbn. lia.
  - repeat (apply Forall_cons_2; [by vm_compute|]). apply Forall_nil_2.
  - reflexivity.
  - apply demo_screen_ok.
  - cbn. lia.
  - cbn. lia.
  - cbv beta. intros [] st' (H1 & H2 & _ & _ & H3 & _). exact (conj H1 (conj H2 H3)).
Defined.
