(* ===== verification/Interrupts.v ===== *)
(** * Interrupt set-up and handlers (src/process/interrupts.c)

    The interrupt descriptor table, the programming of the PIC, the PIT and
    the APICs, and the C handlers the assembly stubs call. *)
From S2P Require Import Prelude Mem Pmm Vmm VmmThms Str Ata Allocator Gdt Scheduler.

Definition PIT_CHANNEL0 : Z := 0x40.
Definition PIT_COMMAND : Z := 0x43.
Definition PIT_FREQ : Z := 1193180.
Definition PIT_HZ : Z := 100.
Definition PIC1_COMMAND : Z := 0x20.
Definition PIC1_DATA : Z := 0x21.
Definition PIC2_COMMAND : Z := 0xA0.
Definition PIC2_DATA : Z := 0xA1.
Definition PIC_EOI : Z := 0x20.
Definition IA32_APIC_BASE_MSR : Z := 0x1B.
Definition IA32_APIC_BASE_MSR_ENABLE : Z := Z.shiftl 1 11.
Definition LAPIC_BASE : Z := 0xFEE00000.
Definition LAPIC_SIVR : Z := 0xF0.
Definition LAPIC_ENABLE_BIT : Z := Z.shiftl 1 8.
Definition LAPIC_EOI : Z := 0xB0.
Definition IOAPIC_BASE : Z := 0xFEC00000.
Definition IOAPIC_REGSEL : Z := 0x00.
Definition IOAPIC_IOWIN : Z := 0x10.
Definition IOAPIC_REDTBL_PIT_LOW : Z := 0x14.
Definition IOAPIC_REDTBL_PIT_HIGH : Z := 0x15.
Definition KERNEL_MMIO_BASE : Z := 0xFFFFFFFFC0000000.
Definition LAPIC_BASE_VIRT : Z := KERNEL_MMIO_BASE + 0x000000.
Definition IOAPIC_BASE_VIRT : Z := KERNEL_MMIO_BASE + 0x001000.

Record idt_entry_t := mk_idt {
  isr_low : Z; kernel_cs : Z; ist : Z; attributes : Z; isr_mid : Z; isr_high : Z; reserved : Z }.
Definition zero_idt : idt_entry_t := mk_idt 0 0 0 0 0 0 0.

(** The processor and device state the file touches. *)
Record intr_state (D : Type) := mk_intr {
  ports : D;
  ivmm : vmm_state;
  idt : list idt_entry_t;
  idtr : Z * Z;                  (* limit and base *)
  msrs : gmap Z Z;
  mmio : list (Z * Z);           (* 32-bit stores to device registers, in order *)
  interrupts_on : bool
}.
Arguments mk_intr {D}. Arguments ports {D}. Arguments ivmm {D}. Arguments idt {D}. Arguments idtr {D}.
Arguments msrs {D}. Arguments mmio {D}. Arguments interrupts_on {D}.

Section Code.
Context {D : Type} `{Ports D}.

Definition set_ports (d : D) (st : intr_state D) := mk_intr d (ivmm st) (idt st) (idtr st) (msrs st) (mmio st) (interrupts_on st).
Definition set_ivmm v (st : intr_state D) := mk_intr (ports st) v (idt st) (idtr st) (msrs st) (mmio st) (interrupts_on st).
Definition set_idt t (st : intr_state D) := mk_intr (ports st) (ivmm st) t (idtr st) (msrs st) (mmio st) (interrupts_on st).
Definition set_idtr r (st : intr_state D) := mk_intr (ports st) (ivmm st) (idt st) r (msrs st) (mmio st) (interrupts_on st).
Definition set_msrs m (st : intr_state D) := mk_intr (ports st) (ivmm st) (idt st) (idtr st) m (mmio st) (interrupts_on st).
Definition set_mmio m (st : intr_state D) := mk_intr (ports st) (ivmm st) (idt st) (idtr st) (msrs st) m (interrupts_on st).
Definition set_if b (st : intr_state D) := mk_intr (ports st) (ivmm st) (idt st) (idtr st) (msrs st) (mmio st) b.
#[global] Instance intr_console : Console (intr_state D) := fun msg st => set_ivmm (emit msg (ivmm st)) st.

Definition in_ports {A} (m : M D A) : M (intr_state D) A := zoom ports set_ports m.
Definition out (port val : Z) : M (intr_state D) unit := in_ports (io_outb port val).

(** ** The descriptor table *)

Definition idt_set_descriptor (vector isr flags : Z) : M (intr_state D) unit :=
  modify (fun st => set_idt (<[Z.to_nat (u8 vector) :=
    mk_idt (Z.land isr 0xFFFF) 0x08 0 flags (Z.land (Z.shiftr isr 16) 0xFFFF) (Z.land (Z.shiftr isr 32) 0xFFFFFFFF) 0]> (idt st)) st).

Definition lidt (base size : Z) : M (intr_state D) unit := modify (set_idtr (u16 size, base)).

(** ** Devices *)

Definition configure_PIC : M (intr_state D) unit :=
  out 0x20 0x11 ;;; out 0xA0 0x11 ;;;
  out 0x21 0x20 ;;; out 0xA1 0x28 ;;;
  out 0x21 0x04 ;;; out 0xA1 0x02 ;;;
  out 0x21 0x01 ;;; out 0xA1 0x01 ;;;
  let master_mask := 0xFF in
  let slave_mask := 0xFF in
  let master_mask := Z.land master_mask (Z.lnot (Z.shiftl 1 0)) in
  let master_mask := Z.land master_mask (Z.lnot (Z.shiftl 1 2)) in
  out 0x21 master_mask ;;; out 0xA1 slave_mask ;;;
  screen_print "[interrupts] remapped PIC\n".

(** [rdmsr] and [wrmsr] move the value in two halves. *)
Definition read_msr (msr : Z) : M (intr_state D) Z :=
  let* v := gets (fun st => default 0 (msrs st !! msr)) in
  let low := u32 v in
  let high := u32 (Z.shiftr v 32) in
  ret (Z.lor (Z.shiftl high 32) low).
Definition write_msr (msr value : Z) : M (intr_state D) unit :=
  let low := Z.land value 0xFFFFFFFF in
  let high := Z.shiftr value 32 in
  modify (fun st => set_msrs (<[msr := Z.lor (Z.shiftl high 32) low]> (msrs st)) st).

Definition mmio_write (addr v : Z) : M (intr_state D) unit := modify (fun st => set_mmio (mmio st ++ [(addr, u32 v)]) st).
(** A register reads back what was last stored to it. *)
Definition mmio_last (addr : Z) (l : list (Z * Z)) : Z :=
  fold_left (fun v '(a, w) => if a =? addr then w else v) l 0.
Definition mmio_read (addr : Z) : M (intr_state D) Z := gets (fun st => mmio_last addr (mmio st)).

Definition ioapic_write (reg value : Z) : M (intr_state D) unit :=
  mmio_write (IOAPIC_BASE_VIRT + IOAPIC_REGSEL) reg ;;; mmio_write (IOAPIC_BASE_VIRT + IOAPIC_IOWIN) value.

Definition configure_APIC : M (intr_state D) unit :=
  out PIC1_DATA 0xFF ;;; out PIC2_DATA 0xFF ;;;
  let* apic_base_msr := read_msr IA32_APIC_BASE_MSR in
  write_msr IA32_APIC_BASE_MSR (Z.lor apic_base_msr IA32_APIC_BASE_MSR_ENABLE) ;;;
  let sivr := LAPIC_BASE_VIRT + LAPIC_SIVR in
  let* v := mmio_read sivr in
  mmio_write sivr (Z.lor (Z.lor v LAPIC_ENABLE_BIT) 0xFF) ;;;
  ioapic_write IOAPIC_REDTBL_PIT_HIGH 0x00000000 ;;;
  let low_flags := Z.land 0x20 0xFF in
  ioapic_write IOAPIC_REDTBL_PIT_LOW low_flags.

Definition configure_PIT : M (intr_state D) unit :=
  let divisor := u16 (PIT_FREQ / PIT_HZ) in
  out PIT_COMMAND 0x36 ;;;
  out PIT_CHANNEL0 (Z.land divisor 0xFF) ;;;
  out PIT_CHANNEL0 (Z.land (Z.shiftr divisor 8) 0xFF).

(** ** Initialisation; the stubs' addresses are the linker's *)

Section Stubs.
Context (isr irq : Z -> Z) (syscall_handler_asm idt_addr : Z).

(** The consecutive calls [idt_set_descriptor(first + i, stub(i), flags)]. *)
Definition set_range (n : nat) (first : Z) (stub : Z -> Z) (flags : Z) : M (intr_state D) unit :=
  for_loop n 0 (fun i => idt_set_descriptor (first + i) (stub i) flags).

Definition interrupts_init : M (intr_state D) unit :=
  zoom ivmm set_ivmm (vmm_map_page LAPIC_BASE_VIRT LAPIC_BASE VMM_FLAGS_MMIO) ;;;
  zoom ivmm set_ivmm (vmm_map_page IOAPIC_BASE_VIRT IOAPIC_BASE VMM_FLAGS_MMIO) ;;;
  configure_APIC ;;;
  screen_print "[interrupts] configured APIC\n" ;;;
  configure_PIT ;;;
  screen_print "[interrupts] configured PIT\n" ;;;
  set_range 256 0 (fun _ => isr 0) 0x8E ;;;
  set_range 32 0 isr 0x8E ;;;
  screen_print "[interrupts] configured IDT exceptions\n" ;;;
  set_range 16 32 irq 0x8E ;;;
  screen_print "[interrupts] configured IDT IRQs\n" ;;;
  idt_set_descriptor 0x80 syscall_handler_asm 0xEE ;;;
  screen_print "[interrupts] configured IDT syscall\n" ;;;
  lidt idt_addr (256 * 16 - 1) ;;;
  screen_print "[interrupts] loaded IDT\n" ;;;
  modify (set_if true) ;;;
  screen_print "[interrupts] enabled interrupts\n" ;;;
  screen_print "[interrupts] interrupts init\n".
End Stubs.

Definition send_eoi_PIC (irq_number : Z) : M (intr_state D) unit :=
  (if 8 <=? irq_number then out PIC2_COMMAND PIC_EOI else ret tt) ;;; out PIC1_COMMAND PIC_EOI.

Definition send_eoi_APIC : M (intr_state D) unit := mmio_write (LAPIC_BASE_VIRT + LAPIC_EOI) 0.

(** [screen_print(num_to_str_no_malloc(n, buf, sizeof(buf)))]; returns the
    buffer as the call leaves it. *)
Definition print_number (n : Z) (buf : list Z) : M (intr_state D) (list Z) :=
  let* r := lift (num_to_str_no_malloc n (Some buf) (len buf)) in
  match r with
  | None => undefined
  | Some (p, b) => screen_print (show (drop (Z.to_nat p) b)) ;;; ret b
  end.

(** [buf] stands for [char* buf[16]], 128 bytes of stack with arbitrary
    contents; [regs[17]] is the error code. *)
Definition exception_handler_c (buf : list Z) (int_no : Z) (regs : cpu_state_t) : M (intr_state D) unit :=
  screen_print "CPU exception: " ;;;
  let* buf := print_number int_no buf in
  screen_print "\n" ;;;
  screen_print "Error code: " ;;;
  let* buf := print_number (error_code regs) buf in
  screen_print "\n" ;;;
  panic "exception_handler_c".
End Code.

(** ** The timer *)

(** Handlers run over the scheduler and the device state. *)
Record irq_state (K D : Type) := mk_irq { isched : sched_state K; idev : intr_state D }.
Arguments mk_irq {K D}. Arguments isched {K D}. Arguments idev {K D}.

Section Handlers.
Context {K D : Type} `{Services K} `{Ports D}.
Definition in_sched {A} (m : M (sched_state K) A) : M (irq_state K D) A := zoom isched (fun s st => mk_irq s (idev st)) m.
Definition in_dev {A} (m : M (intr_state D) A) : M (irq_state K D) A := zoom idev (fun d st => mk_irq (isched st) d) m.

Definition irq_handler_c (fuel : nat) (int_no : Z) (regs : cpu_state_t) : M (irq_state K D) cpu_state_t :=
  if (int_no <? 32) || (47 <? int_no) then ret regs else
  let irq := int_no - 32 in
  let* regs' := (if irq =? 0 then in_sched (process_scheduler_next_process fuel regs) else ret regs) in
  in_dev send_eoi_APIC ;;; ret regs'.
End Handlers.

(** ** The table [interrupts_init] builds *)

(** The processor's reading of an entry. *)
Definition gate_address (e : idt_entry_t) : Z := isr_low e + 2 ^ 16 * isr_mid e + 2 ^ 32 * isr_high e.
Definition gate_dpl (e : idt_entry_t) : Z := Z.land (Z.shiftr (attributes e) 5) 3.
Definition gate_present (e : idt_entry_t) : bool := Z.testbit (attributes e) 7.

(** An entry the code stores for the stub at [addr]. *)
Definition gate (addr flags : Z) : idt_entry_t :=
  mk_idt (Z.land addr 0xFFFF) 0x08 0 flags (Z.land (Z.shiftr addr 16) 0xFFFF) (Z.land (Z.shiftr addr 32) 0xFFFFFFFF) 0.

Lemma gate_address_eq addr flags : in_range 64 addr -> gate_address (gate addr flags) = addr.
Proof.
  intros Ha. unfold gate_address, gate. cbn [isr_low isr_mid isr_high].
  change 0xFFFF with (Z.ones 16). change 0xFFFFFFFF with (Z.ones 32). rewrite !land_ones_mod, Z.land_ones by lia.
  unfold in_range in Ha. change (2 ^ 16) with 65536. change (2 ^ 32) with 4294967296. divlia.
Qed.

Section Table.
Context {D : Type} `{Ports D} (isr irq : Z -> Z) (syscall_handler_asm idt_addr : Z).

(** The stub meant for each vector, and its gate type. *)
Definition stub_of (v : Z) : Z :=
  if v <? 32 then isr v else if v <? 48 then irq (v - 32) else if v =? 0x80 then syscall_handler_asm else isr 0.
Definition flags_of (v : Z) : Z := if v =? 0x80 then 0xEE else 0x8E.

(** The first [n] vectors of a range hold their gates, the rest are as in [t]. *)
Definition filled (t t' : list idt_entry_t) (first : Z) (stub : Z -> Z) (n : Z) : Prop :=
  length t' = length t /\ forall v, 0 <= v < 256 ->
    t' !! Z.to_nat v = if (first <=? v) && (v <? first + n) then Some (gate (stub (v - first)) 0x8E) else t !! Z.to_nat v.

(** Everything but the table is the same. *)
Definition same_but_idt (st st' : intr_state D) : Prop := exists t, st' = set_idt t st.

Lemma wp_set_range (Q : unit -> intr_state D -> Prop) (n : nat) first stub st :
  length (idt st) = 256%nat -> 0 <= first -> first + Z.of_nat n <= 256 ->
  (forall st', same_but_idt st st' -> filled (idt st) (idt st') first stub (Z.of_nat n) -> Q tt st') ->
  wp (set_range n first stub 0x8E) Q st.
Proof.
  intros Hl Hf Hn HQ.
  refine (wp_mono _ (fun _ s => same_but_idt st s /\ filled (idt st) (idt s) first stub (0 + Z.of_nat n)) _ _ _ _).
  - apply (wp_for_loop (fun j s => same_but_idt st s /\ filled (idt st) (idt s) first stub j)).
    + split; [exists (idt st); by destruct st|]. split; [done|]. intros v Hv.
      destruct (Z.leb_spec first v); [|done]. by rewrite (proj2 (Z.ltb_ge _ _)) by lia.
    + intros j s Hj [[t ->] [Hlen Hget]]. apply wp_modify. cbn in *. split; [by eexists|]. split; [by rewrite length_insert|].
      intros v Hv. rewrite wrap_id by (unfold in_range; lia). destruct (decide (v = first + j)) as [->|Hne].
      * rewrite list_lookup_insert_eq by lia. rewrite (proj2 (Z.leb_le _ _)), (proj2 (Z.ltb_lt _ _)) by lia. cbn.
        by replace (first + j - first) with j by lia.
      * rewrite list_lookup_insert_ne by lia. rewrite Hget by done.
        destruct (Z.leb_spec first v); [|done]. cbn [andb].
        destruct (Z.ltb_spec v (first + j)), (Z.ltb_spec v (first + (j + 1))); done || lia.
  - intros [] s [Hs Hfl]. apply HQ; [done|]. by rewrite Z.add_0_l in Hfl.
Qed.

Lemma configure_APIC_idt (s : intr_state D) : wp configure_APIC (fun _ s' => idt s' = idt s) s.
Proof. unfold configure_APIC, ioapic_write. by repeat (apply wp_bind || apply wp_modify). Qed.
Lemma configure_PIT_idt (s : intr_state D) : wp configure_PIT (fun _ s' => idt s' = idt s) s.
Proof. unfold configure_PIT. by repeat (apply wp_bind || apply wp_modify). Qed.

(** C36: once the two device pages are mapped, [interrupts_init] gives every one
    of the 256 vectors a present gate in the kernel code segment from which the
    processor reads back the address of the intended stub: exceptions 0-31,
    IRQs 32-47, the system call at 0x80, and the divide-error stub elsewhere;
    0x80 is the only vector user code may raise, and the table is loaded with
    interrupts enabled at the end. *)
Theorem interrupts_init_table st b1 v1 b2 v2 : length (idt st) = 256%nat ->
  (forall v, in_range 64 (isr v) /\ in_range 64 (irq v)) -> in_range 64 syscall_handler_asm ->
  vmm_map_page LAPIC_BASE_VIRT LAPIC_BASE VMM_FLAGS_MMIO (ivmm st) = OK (b1, v1) ->
  vmm_map_page IOAPIC_BASE_VIRT IOAPIC_BASE VMM_FLAGS_MMIO v1 = OK (b2, v2) ->
  wp (interrupts_init isr irq syscall_handler_asm idt_addr) (fun _ st' =>
    (forall v, 0 <= v < 256 -> exists e, idt st' !! Z.to_nat v = Some e /\ gate_address e = stub_of v /\
       kernel_cs e = gdt_create_selector 1 0 0 /\ gate_present e = true /\ (gate_dpl e = 3 <-> v = 0x80)) /\
    idtr st' = (4095, idt_addr) /\ interrupts_on st' = true) st.
Proof.
  intros Hl Hstub Hsys E1 E2. unfold interrupts_init. apply wp_bind, wp_zoom. unfold wp at 1. rewrite E1.
  apply wp_bind, wp_zoom. unfold wp at 1. cbn [ivmm set_ivmm]. rewrite E2.
  apply wp_bind. refine (wp_mono _ _ _ _ (configure_APIC_idt _) _). intros [] s1 I1.
  apply wp_bind, wp_modify. set (s2 := emit _ s1). apply wp_bind. refine (wp_mono _ _ _ _ (configure_PIT_idt _) _). intros [] s3 I3.
  apply wp_bind, wp_modify. set (s4 := emit _ s3).
  assert (length (idt s4) = 256%nat) as L4. { change (idt s4) with (idt s3). rewrite I3. change (idt s2) with (idt s1). by rewrite I1. }
  clearbody s4. apply wp_bind, wp_set_range; [done|lia|lia|]. intros s5 _ [L5 G5].
  apply wp_bind, wp_set_range; [by rewrite L5|lia|lia|]. intros s6 _ [L6 G6]. apply wp_bind, wp_modify.
  apply wp_bind, wp_set_range; [cbn; by rewrite L6, L5|lia|lia|]. intros s7 _ [L7 G7]. apply wp_bind, wp_modify.
  apply wp_bind, wp_modify. do 5 apply wp_bind, wp_modify. apply wp_modify. split_and!; [|done|done].
  change (idt (emit "[interrupts] configured IDT exceptions\n" s6)) with (idt s6) in *.
  intros v Hv. cbn [idt set_idt set_ivmm set_idtr set_if emit intr_console]. change (u8 128) with 128.
  change (mk_idt _ 8 0 238 _ _ 0) with (gate syscall_handler_asm 0xEE).
  destruct (decide (v = 128)) as [->|Hne].
  { eexists. rewrite list_lookup_insert_eq by (cbn; lia). split; [done|]. by rewrite gate_address_eq. }
  rewrite list_lookup_insert_ne by lia. specialize (G7 v Hv). specialize (G6 v Hv). specialize (G5 v Hv).
  assert (idt s7 !! Z.to_nat v = Some (gate (stub_of v) 0x8E)) as ->.
  { rewrite G7, G6, G5. unfold stub_of. rewrite (proj2 (Z.eqb_neq v 128)) by done.
    rewrite (proj2 (Z.leb_le 0 v)), (proj2 (Z.ltb_lt v (0 + Z.of_nat 256))) by lia. rewrite Z.sub_0_r.
    change (0 + Z.of_nat 32) with 32. change (32 + Z.of_nat 16) with 48. cbn [andb].
    destruct (Z.ltb_spec v 32), (Z.leb_spec 32 v), (Z.ltb_spec v 48); cbn [andb]; done || lia. }
  eexists. split; [done|]. assert (in_range 64 (stub_of v)) as Hr.
  { unfold stub_of. destruct (v <? 32); [apply Hstub|]. destruct (v <? 48); [apply Hstub|].
    destruct (v =? 128); [exact Hsys|apply Hstub]. }
  rewrite gate_address_eq by done. split_and!; [done..|]. by split; [intros Hd; vm_compute in Hd|].
Qed.
End Table.

(** *** A concrete start: the small page tables of [demo_vmm] *)

Definition map_result (m : M vmm_state bool) (v : vmm_state) : bool * vmm_state :=
  match m v with OK r => r | _ => (false, v) end.
Definition mapped1 := map_result (vmm_map_page LAPIC_BASE_VIRT LAPIC_BASE VMM_FLAGS_MMIO) demo_vmm.
Definition mapped2 := map_result (vmm_map_page IOAPIC_BASE_VIRT IOAPIC_BASE VMM_FLAGS_MMIO) (snd mapped1).
Lemma map_result_ok m v : (match m v with OK _ => true | _ => false end) = true ->
  m v = OK (fst (map_result m v), snd (map_result m v)).
Proof. unfold map_result. by destruct (m v) as [[]| | |]. Qed.
Lemma mapped1_eq : vmm_map_page LAPIC_BASE_VIRT LAPIC_BASE VMM_FLAGS_MMIO demo_vmm = OK (fst mapped1, snd mapped1).
Proof. apply map_result_ok. vm_compute. reflexivity. Qed.
Lemma mapped2_eq : vmm_map_page IOAPIC_BASE_VIRT IOAPIC_BASE VMM_FLAGS_MMIO (snd mapped1) = OK (fst mapped2, snd mapped2).
Proof. apply map_result_ok. vm_compute. reflexivity. Qed.

Lemma interrupts_init_table_witness :
  wp (interrupts_init (fun v => u64 (0x1000 + v)) (fun v => u64 (0x2000 + v)) 0x3000 0x4000) (fun _ st' =>
    exists e, idt st' !! Z.to_nat 0x80 = Some e /\ gate_address e = 0x3000)
    (mk_intr demo_disk demo_vmm (replicate 256 zero_idt) (0, 0) ∅ [] false).
Proof.
  refine (wp_mono _ _ _ _ (interrupts_init_table (fun v => u64 (0x1000 + v)) (fun v => u64 (0x2000 + v)) 0x3000 0x4000
    (mk_intr demo_disk demo_vmm (replicate 256 zero_idt) (0, 0) ∅ [] false) _ _ _ _ _ _ _ mapped1_eq mapped2_eq) _).
  - reflexivity.
  - intros v. split; apply wrap_range; lia.
  - by vm_compute.
  - cbv beta. intros [] st' (Ht & _ & _). destruct (Ht 0x80) as (e & He & Ha & _); [lia|]. exists e. split; [exact He|exact Ha].
Defined.
