(* ===== verification/Syscall.v ===== *)
(** * System calls (src/process/interrupts.c, [syscall_handler_c])

    The handler is a dispatcher: it moves arguments between user pointers and
    the kernel's functions and stores a result in the caller's frame. The
    functions it calls are an interface with one method per C function. *)
From S2P Require Import Prelude Mem Vmm Heap Allocator Gdt Scheduler SchedSpec SchedThms.

Class SysOps (St : Type) := {
  (* process_scheduler.c *)
  sys_kernel_PML4 : M St Z;
  sys_current_PML4 : M St Z;
  sys_exit : M St cpu_state_t;
  sys_send_signals : Z -> Z -> M St unit;
  (* vmm.c *)
  sys_set_PML4 : Z -> M St unit;
  sys_load_cpu : M St unit;
  (* allocator.c *)
  sys_malloc : Z -> M St Z;
  sys_free : Z -> M St unit;
  sys_malloc_kernel : Z -> M St Z;
  sys_free_kernel : Z -> M St unit;
  (* string.c, util.c on pointers *)
  sys_strlen : Z -> M St Z;
  sys_memcpy : Z -> Z -> Z -> M St unit;
  (* a store of the given number of bytes through a user pointer *)
  sys_store : nat -> Z -> Z -> M St unit;
  (* filesystem.c; metadata into a local of the handler, or to a pointer *)
  sys_read_metadata : Z -> M St (bool * Z);
  sys_read_file_metadata : Z -> Z -> M St bool;
  sys_read_file : Z -> Z -> M St bool;
  sys_file_exists : Z -> M St bool;
  sys_write_file : Z -> Z -> Z -> Z -> M St bool;
  sys_delete_file : Z -> M St bool;
  sys_create_directory : Z -> M St bool;
  sys_delete_directory : Z -> M St bool;
  sys_move_file : Z -> Z -> M St bool;
  sys_list_dir : Z -> Z -> M St Z;
  (* program_loader.c: success and the pid it stores *)
  sys_load_elf64 : Z -> M St (bool * option Z);
  (* io.c and screen.c *)
  sys_take_key : M St Z;
  sys_print : Z -> M St unit;
  sys_clear : M St unit
}.

Definition set_rax (v : Z) (r : cpu_state_t) : cpu_state_t :=
  mk_cpu (gs r) (fs r) (r15 r) (r14 r) (r13 r) (r12 r) (r11 r) (r10 r) (r9 r) (r8 r) (rbp r) (rdi r) (rsi r) (rdx r)
    (rcx r) (rbx r) v (error_code r) (rip r) (cs r) (rflags r) (rsp r) (ss r).

Section Handler.
Context {St : Type} `{SysOps St}.

Definition load_kernel_tables : M St unit :=
  let* p := sys_kernel_PML4 in sys_set_PML4 p ;;; sys_load_cpu.

(** [uint32_t pid;]: reading it before a load stored it is undefined. *)
Definition read_local (v : option Z) : M St Z := match v with Some x => ret x | None => undefined end.

(** Case 1, run program. *)
Definition syscall_run_program (arg1 arg2 : Z) : M St bool :=
  let* path_len := sys_strlen arg1 in
  let* path := sys_malloc_kernel (u64 (path_len + 1)) in
  sys_memcpy path arg1 path_len ;;;
  sys_store 1 (u64 (path + path_len)) 0 ;;;
  load_kernel_tables ;;;
  let* (success, size) := sys_read_metadata path in
  let* (success, pid) :=
    (if success : bool then
       let* data1 := sys_malloc size in
       let* ok := sys_read_file path data1 in
       if ok : bool then
         let* (success, pid) := sys_load_elf64 data1 in
         sys_free data1 ;;; ret (success, pid)
       else ret (success, None)
     else ret (success, None)) in
  sys_free_kernel path ;;;
  (let* p := sys_current_PML4 in sys_set_PML4 p ;;; sys_load_cpu) ;;;
  (if success : bool then let* v := read_local pid in sys_store 4 arg2 v else ret tt) ;;;
  ret success.

(** The switch: the frame the assembly stub returns to, and [success]. *)
Definition syscall_switch (syscall_id arg1 arg2 arg3 : Z) (current_regs : cpu_state_t) : M St (cpu_state_t * bool) :=
  let keep (m : M St bool) := (let* success := m in ret (current_regs, success)) in
  let always (m : M St unit) := (m ;;; ret (current_regs, true)) in
  match syscall_id with
  | 0 => load_kernel_tables ;;; let* r := sys_exit in ret (r, true)
  | 1 => keep (syscall_run_program arg1 arg2)
  | 2 => always (sys_send_signals (u32 arg1) SIG_KILL)
  | 10 => always (let* p := sys_malloc arg1 in sys_store 8 arg2 p)
  | 11 => always (sys_free arg1)
  | 20 => always (let* k := sys_take_key in sys_store 2 arg1 k)
  | 30 => always (sys_print arg1)
  | 31 => always sys_clear
  | 40 => keep (sys_read_file arg1 arg2)
  | 41 => keep (sys_read_file_metadata arg1 arg2)
  | 42 => always (let* b := sys_file_exists arg1 in sys_store 1 arg2 (Z.b2z b))
  | 43 => keep (sys_write_file arg1 arg2 0 arg3)
  | 44 => keep (sys_delete_file arg1)
  | 45 => keep (sys_create_directory arg1)
  | 46 => keep (sys_delete_directory arg1)
  | 47 => keep (sys_move_file arg1 arg2)
  | 48 => always (let* p := sys_list_dir arg1 arg3 in sys_store 8 arg2 p)
  | _ => ret (current_regs, true)
  end.

(** [current_regs[16] = success]: RAX of the frame, whosever it is now. *)
Definition syscall_handler_c (syscall_id arg1 arg2 arg3 : Z) (current_regs : cpu_state_t) : M St cpu_state_t :=
  let* (r, success) := syscall_switch syscall_id arg1 arg2 arg3 current_regs in
  ret (set_rax (Z.b2z success) r).

(** ** Properties *)

(** Every register but RAX. *)
Definition same_but_rax (r r' : cpu_state_t) : Prop := set_rax 0 r = set_rax 0 r'.

Lemma keep_frame (m : M St bool) (regs : cpu_state_t) s r b s' : (let* success := m in ret (regs, success)) s = OK ((r, b), s') -> r = regs.
Proof. by intros (? & ? & _ & [= <- _ _])%bind_OK. Qed.
Lemma always_frame (m : M St unit) (regs : cpu_state_t) s r b s' : (m ;;; ret (regs, true)) s = OK ((r, b), s') -> r = regs /\ b = true.
Proof. by intros (? & ? & _ & [= <- <- _])%bind_OK. Qed.

Definition known : list Z := [0; 1; 2; 10; 11; 20; 30; 31; 40; 41; 42; 43; 44; 45; 46; 47; 48].

(** A case analysis over the numbers the switch knows. *)
Ltac cases_on_number := repeat match goal with
  | |- context [match ?x with _ => _ end] =>
      is_var x; lazymatch type of x with Z => destruct x | positive => destruct x end; try done
  end.

Lemma switch_frame id arg1 arg2 arg3 regs s r b s' : id <> 0 ->
  syscall_switch id arg1 arg2 arg3 regs s = OK ((r, b), s') -> r = regs.
Proof.
  intros Hid. unfold syscall_switch.
  cases_on_number; first [by apply keep_frame | by intros [-> _]%always_frame | by intros [= <- _ _]].
Qed.

Lemma switch_unknown id arg1 arg2 arg3 regs s : id ∉ known -> syscall_switch id arg1 arg2 arg3 regs s = OK ((regs, true), s).
Proof.
  intros Hid. unfold syscall_switch. cases_on_number;
    match goal with |- _ = OK ((regs, true), s) => exfalso; apply Hid; unfold known; set_solver end.
Qed.

(** A system call other than exit resumes its caller with every register
    but RAX as it was, RAX holding 0 or 1; a number the kernel does not know
    changes nothing and answers 1, so callers cannot tell it from success. *)
Theorem syscall_frame id arg1 arg2 arg3 regs s : id <> 0 ->
  (forall r s', syscall_handler_c id arg1 arg2 arg3 regs s = OK (r, s') -> same_but_rax r regs /\ (rax r = 0 \/ rax r = 1)) /\
  (id ∉ known -> syscall_handler_c id arg1 arg2 arg3 regs s = OK (set_rax 1 regs, s)).
Proof.
  intros Hid. split.
  - intros r s' ([r0 b] & s1 & E & [= <- _])%bind_OK. apply switch_frame in E as ->; [|done].
    split; [done|]. destruct b; [by right|by left].
  - intros Hk. unfold syscall_handler_c. by rewrite (bind_step _ _ _ _ _ (switch_unknown id arg1 arg2 arg3 regs s Hk)).
Qed.

(** Exit resumes the next process with RAX overwritten by 1: the frame the
    scheduler returns belongs to that process, and the handler stores its
    success flag there. *)
Theorem syscall_exit_overwrites_rax arg1 arg2 arg3 regs s s1 r s2 :
  load_kernel_tables s = OK (tt, s1) -> sys_exit s1 = OK (r, s2) ->
  syscall_handler_c 0 arg1 arg2 arg3 regs s = OK (set_rax 1 r, s2).
Proof. intros E1 E2. unfold syscall_handler_c, syscall_switch, bind. rewrite E1. cbn. by rewrite E2. Qed.

(** Running a program whose metadata can be read but whose contents cannot
    is undefined: [success] stays true from the metadata, and the handler
    stores a pid that nothing has written. *)
Lemma syscall_run_unreadable_undefined arg1 arg2 s len_ path s1 s2 s3 s4 sz s5 d s6 s7 s8 p s9 s10 s11 :
  sys_strlen arg1 s = OK (len_, s1) -> sys_malloc_kernel (u64 (len_ + 1)) s1 = OK (path, s2) ->
  sys_memcpy path arg1 len_ s2 = OK (tt, s3) -> (sys_store 1 (u64 (path + len_)) 0 ;;; load_kernel_tables) s3 = OK (tt, s4) ->
  sys_read_metadata path s4 = OK ((true, sz), s5) -> sys_malloc sz s5 = OK (d, s6) ->
  sys_read_file path d s6 = OK (false, s7) -> sys_free_kernel path s7 = OK (tt, s8) ->
  sys_current_PML4 s8 = OK (p, s9) -> sys_set_PML4 p s9 = OK (tt, s10) -> sys_load_cpu s10 = OK (tt, s11) ->
  forall arg3 regs, syscall_handler_c 1 arg1 arg2 arg3 regs s = UB.
Proof.
  intros E1 E2 E3 E4 E5 E6 E7 E8 E9 E10 E11 arg3 regs. apply bind_OK in E4 as ([] & s3' & E3' & E4).
  unfold syscall_handler_c, syscall_switch, syscall_run_program, bind, obind. rewrite E1, E2, E3, E3', E4, E5, E6, E7. cbn.
  by rewrite E8, E9, E10, E11.
Qed.
End Handler.

(** *** A machine with the real scheduler and no files *)

#[global] Instance bare_sys : SysOps (sched_state recorder) := {|
  sys_kernel_PML4 := process_scheduler_get_kernel_PML4;
  sys_current_PML4 := process_scheduler_get_current_PML4;
  sys_exit := process_scheduler_exit 8;
  sys_send_signals := process_scheduler_send_signals 8;
  sys_set_PML4 p := in_kern (k_set_PML4 p);
  sys_load_cpu := in_kern k_load_cpu;
  sys_malloc n := in_kern (k_malloc n);
  sys_free p := in_kern (k_free p);
  sys_malloc_kernel n := in_kern (k_malloc n);
  sys_free_kernel p := in_kern (k_free p);
  sys_strlen _ := ret 0;
  sys_memcpy _ _ _ := ret tt;
  sys_store _ _ _ := ret tt;
  sys_read_metadata _ := ret (false, 0);
  sys_read_file_metadata _ _ := ret false;
  sys_read_file _ _ := ret false;
  sys_file_exists _ := ret false;
  sys_write_file _ _ _ _ := ret false;
  sys_delete_file _ := ret false;
  sys_create_directory _ := ret false;
  sys_delete_directory _ := ret false;
  sys_move_file _ _ := ret false;
  sys_list_dir _ _ := ret 0;
  sys_load_elf64 _ := ret (false, None);
  sys_take_key := ret 0;
  sys_print _ := ret tt;
  sys_clear := ret tt
|}.

(** Process 3 is running. *)
Definition running3 : sched_state recorder := run_state (process_scheduler_next_process 4 zero_cpu) booted3.

Lemma syscall_frame_witness : exists s', syscall_handler_c 44 0 0 0 zero_cpu running3 = OK (set_rax 0 zero_cpu, s') /\
  same_but_rax (set_rax 0 zero_cpu) zero_cpu.
Proof.
  exists running3. split; [reflexivity|].
  destruct (syscall_frame 44 0 0 0 zero_cpu running3) as [Hf _]; [lia|].
  apply (Hf (set_rax 0 zero_cpu) running3 eq_refl).
Defined.

Definition tables_loaded : sched_state recorder := run_state load_kernel_tables running3.
Definition exited : sched_state recorder := run_state (process_scheduler_exit 8) tables_loaded.
Lemma tables_loaded_eq : load_kernel_tables running3 = OK (tt, tables_loaded).
Proof. vm_compute. reflexivity. Qed.
Lemma exited_eq : sys_exit tables_loaded = OK (start_regs 200 false, exited).
Proof. vm_compute. reflexivity. Qed.

Lemma syscall_exit_overwrites_rax_witness :
  syscall_handler_c 0 0 0 0 zero_cpu running3 = OK (set_rax 1 (start_regs 200 false), exited) /\ rax (start_regs 200 false) = 0.
Proof.
  split; [|reflexivity].
  exact (syscall_exit_overwrites_rax 0 0 0 zero_cpu running3 tables_loaded (start_regs 200 false) exited tables_loaded_eq exited_eq).
Defined.
