(* ===== verification/Stubs.v ===== *)
(** * Interrupt entry and exit (src/main_asm.S)

    The assembly stubs as instruction lists run on a small machine: registers,
    the kernel stack as a list of 64-bit words, the C handler as a function on
    the register frame. The processor's own part, pushing and popping the
    interrupt frame, follows the architecture manual. *)
From S2P Require Import Prelude Mem Scheduler.

(** ** The machine *)

Inductive reg :=
| RAX | RBX | RCX | RDX | RSI | RDI | RBP | R8 | R9 | R10 | R11 | R12 | R13 | R14 | R15.
#[global] Instance reg_eq_dec : EqDecision reg.
Proof. solve_decision. Defined.
Inductive sreg := FS | GS | DS | ES.
#[global] Instance sreg_eq_dec : EqDecision sreg.
Proof. solve_decision. Defined.

Definition update {A B} `{EqDecision A} (a : A) (b : B) (f : A -> B) : A -> B := fun x => if decide (x = a) then b else f x.

(** What the program sees. *)
Record cpu := mk_regs {
  gpr : reg -> Z; seg : sreg -> Z; c_rip : Z; c_cs : Z; c_rflags : Z; c_rsp : Z; c_ss : Z
}.
(** The machine inside a stub: the stack pointer stands at the head of
    [stack]; [gs_bases] are the two bases [swapgs] exchanges, the active one
    first. *)
Record machine := mk_machine { core : cpu; stack : list Z; gs_bases : Z * Z }.

Definition set_gpr (r : reg) (v : Z) (m : machine) : machine :=
  let c := core m in mk_machine (mk_regs (update r v (gpr c)) (seg c) (c_rip c) (c_cs c) (c_rflags c) (c_rsp c) (c_ss c)) (stack m) (gs_bases m).
Definition set_seg (s : sreg) (v : Z) (m : machine) : machine :=
  let c := core m in mk_machine (mk_regs (gpr c) (update s (u16 v) (seg c)) (c_rip c) (c_cs c) (c_rflags c) (c_rsp c) (c_ss c)) (stack m) (gs_bases m).
(** Loading GS also sets the active base, to that of the descriptor: 0 for
    every data segment of gdt.c (Gdt.gdt_layout). *)
Definition load_seg (s : sreg) (v : Z) (m : machine) : machine :=
  let m' := set_seg s v m in
  match s with GS => mk_machine (core m') (stack m') (0, snd (gs_bases m')) | _ => m' end.
Definition set_stack (l : list Z) (m : machine) : machine := mk_machine (core m) l (gs_bases m).

(** The instructions the stubs use. [LOAD r i] is [mov r, [rsp + 8 * i]];
    [SWAPGS_IF_USER] is the test of the saved CS, the jump and [swapgs];
    [CALL h] is a call of the C function [h] with the frame at RSP. *)
Inductive instr (H : Type) :=
| PUSH (r : reg) | POP (r : reg) | PUSHS (s : sreg) | POPS (s : sreg) | PUSH_IMM (v : Z)
| MOV_IMM (r : reg) (v : Z) | MOV_AX (v : Z) | LOAD (r : reg) (i : nat) | MOVS_AX (s : sreg) | SWAPGS_IF_USER | CALL (h : H) | ADD_RSP (n : nat) | IRETQ.
Arguments PUSH {H}. Arguments POP {H}. Arguments PUSHS {H}. Arguments POPS {H}. Arguments PUSH_IMM {H}. Arguments MOV_IMM {H}. Arguments MOV_AX {H}.
Arguments LOAD {H}. Arguments MOVS_AX {H}. Arguments SWAPGS_IF_USER {H}. Arguments CALL {H}. Arguments ADD_RSP {H}. Arguments IRETQ {H}.

(** ** The stubs *)

Section Code.
Context {H : Type}.
Implicit Type h : H.

Definition PUSH_ALL : list (instr H) :=
  [PUSH RAX; PUSH RBX; PUSH RCX; PUSH RDX; PUSH RSI; PUSH RDI; PUSH RBP; PUSH R8; PUSH R9; PUSH R10; PUSH R11; PUSH R12; PUSH R13;
   PUSH R14; PUSH R15; PUSHS FS; PUSHS GS].
Definition POP_ALL : list (instr H) :=
  [POPS GS; POPS FS; POP R15; POP R14; POP R13; POP R12; POP R11; POP R10; POP R9; POP R8; POP RBP; POP RDI; POP RSI; POP RDX;
   POP RCX; POP RBX; POP RAX].
Definition LOAD_KERNEL_SEGS : list (instr H) := [MOV_AX 0x10; MOVS_AX DS; MOVS_AX ES].

(** [mov rdi, vector; mov rsi, rsp; call h]: the second argument is the frame. *)
Definition ISR_ERRCODE (vector : Z) h : list (instr H) :=
  PUSH_ALL ++ LOAD_KERNEL_SEGS ++ [MOV_IMM RDI vector; CALL h] ++ POP_ALL ++ [ADD_RSP 1; IRETQ].
Definition ISR_NOERRCODE (vector : Z) h : list (instr H) := PUSH_IMM 0 :: ISR_ERRCODE vector h.
(** Exceptions for which the processor pushes an error code. *)
Definition errcode_vectors : list Z := [8; 10; 11; 12; 13; 14; 17; 21; 29; 30].
Definition isr_stub (vector : Z) h : list (instr H) :=
  if decide (vector ∈ errcode_vectors) then ISR_ERRCODE vector h else ISR_NOERRCODE vector h.

Definition IRQ_STUB (n : Z) h : list (instr H) :=
  PUSH_IMM 0 :: PUSH_ALL ++ LOAD_KERNEL_SEGS ++ [SWAPGS_IF_USER; MOV_IMM RDI (32 + n); CALL h; SWAPGS_IF_USER] ++ POP_ALL ++ [ADD_RSP 1; IRETQ].
Definition syscall_stub h : list (instr H) :=
  PUSH_IMM 0 :: PUSH_ALL ++ LOAD_KERNEL_SEGS ++
  [SWAPGS_IF_USER; LOAD RDI 16; LOAD RSI 15; LOAD RDX 14; LOAD RCX 13; CALL h; SWAPGS_IF_USER] ++ POP_ALL ++ [ADD_RSP 1; IRETQ].
End Code.

(** ** Execution *)

(** The frame as its 23 words, in the order of [cpu_state_t]. *)
Definition frame_words (f : cpu_state_t) : list Z :=
  [gs f; fs f; r15 f; r14 f; r13 f; r12 f; r11 f; r10 f; r9 f; r8 f; rbp f; rdi f; rsi f; rdx f; rcx f; rbx f; rax f; error_code f;
   rip f; cs f; rflags f; rsp f; ss f].
Definition words_frame (l : list Z) : option (cpu_state_t * list Z) :=
  match l with
  | a1 :: a2 :: a3 :: a4 :: a5 :: a6 :: a7 :: a8 :: a9 :: a10 :: a11 :: a12 :: a13 :: a14 :: a15 :: a16 :: a17 :: a18 :: a19 :: a20 :: a21 :: a22 :: a23 :: rest =>
      Some (mk_cpu a1 a2 a3 a4 a5 a6 a7 a8 a9 a10 a11 a12 a13 a14 a15 a16 a17 a18 a19 a20 a21 a22 a23, rest)
  | _ => None
  end.

Section Exec.
(** The kernel's state, and a handler: it reads the argument registers and the
    frame, and gives the frame as it leaves it. *)
Context {St : Type}.
Definition handler : Type := (reg -> Z) -> cpu_state_t -> M St cpu_state_t.
(** The general registers after a call: any values, as the callee likes. *)
Context (clobber : (reg -> Z) -> reg -> Z).

Definition in_machine (f : machine -> outcome machine) : M (machine * St) unit := fun s =>
  obind (f (fst s)) (fun m => OK (tt, (m, snd s))).

Definition exec1 (i : instr handler) : M (machine * St) unit :=
  match i with
  | PUSH r => in_machine (fun m => OK (set_stack (gpr (core m) r :: stack m) m))
  | PUSHS s => in_machine (fun m => OK (set_stack (seg (core m) s :: stack m) m))
  | PUSH_IMM v => in_machine (fun m => OK (set_stack (v :: stack m) m))
  | POP r => in_machine (fun m => match stack m with v :: l => OK (set_gpr r v (set_stack l m)) | [] => UB end)
  | POPS s => in_machine (fun m => match stack m with v :: l => OK (load_seg s v (set_stack l m)) | [] => UB end)
  | MOV_IMM r v => in_machine (fun m => OK (set_gpr r v m))
  | MOV_AX v => in_machine (fun m => OK (set_gpr RAX (Z.lor (Z.ldiff (gpr (core m) RAX) 0xFFFF) v) m))
  | LOAD r i => in_machine (fun m => match stack m !! i with Some v => OK (set_gpr r v m) | None => UB end)
  | MOVS_AX s => in_machine (fun m => OK (load_seg s (gpr (core m) RAX) m))
  | SWAPGS_IF_USER => in_machine (fun m =>
      match stack m !! 19%nat with
      | Some c => OK (if Z.land c 3 =? 0 then m else mk_machine (core m) (stack m) (snd (gs_bases m), fst (gs_bases m)))
      | None => UB
      end)
  | CALL h =>
      let* s := get in
      match words_frame (stack (fst s)) with
      | None => undefined
      | Some (f, rest) =>
          let* f' := zoom snd (fun k s => (fst s, k)) (h (gpr (core (fst s))) f) in
          in_machine (fun m => let c := core m in
            OK (mk_machine (mk_regs (clobber (gpr c)) (seg c) (c_rip c) (c_cs c) (c_rflags c) (c_rsp c) (c_ss c)) (frame_words f' ++ rest) (gs_bases m)))
      end
  | ADD_RSP n => in_machine (fun m => if decide (n <= length (stack m))%nat then OK (set_stack (drop n (stack m)) m) else UB)
  | IRETQ => in_machine (fun m =>
      match stack m with
      | ip :: c :: fl :: sp :: s :: l => OK (mk_machine (mk_regs (gpr (core m)) (seg (core m)) ip c fl sp s) l (gs_bases m))
      | _ => UB
      end)
  end.

Fixpoint exec (l : list (instr handler)) : M (machine * St) unit :=
  match l with [] => ret tt | i :: l' => exec1 i ;;; exec l' end.

(** The processor enters a gate: it pushes SS, RSP, RFLAGS, CS, RIP and, for
    some exceptions, an error code on the kernel stack, and continues in the
    kernel's code segment at the stub with interrupts off. *)
Definition deliver (entry : Z) (err : option Z) (m : machine) : machine :=
  let c := core m in
  mk_machine (mk_regs (gpr c) (seg c) entry 0x08 (Z.ldiff (c_rflags c) 0x200) (c_rsp c) (c_ss c))
    (match err with Some e => [e] | None => [] end ++ c_rip c :: c_cs c :: c_rflags c :: c_rsp c :: c_ss c :: stack m) (gs_bases m).

(** An interrupt, from the interrupted program's point of view. *)
Definition interrupt (entry : Z) (err : option Z) (stub : list (instr handler)) : M (machine * St) unit :=
  modify (fun s => (deliver entry err (fst s), snd s)) ;;; exec stub.
End Exec.

(** ** What the stubs do *)

(** The registers a frame holds, and the frame of a processor state. *)
Definition frame_gpr (f : cpu_state_t) (r : reg) : Z :=
  match r with
  | RAX => rax f | RBX => rbx f | RCX => rcx f | RDX => rdx f | RSI => rsi f | RDI => rdi f | RBP => rbp f | R8 => r8 f | R9 => r9 f
  | R10 => r10 f | R11 => r11 f | R12 => r12 f | R13 => r13 f | R14 => r14 f | R15 => r15 f
  end.
Definition frame_of (c : cpu) (err : Z) : cpu_state_t :=
  let g := gpr c in
  mk_cpu (seg c GS) (seg c FS) (g R15) (g R14) (g R13) (g R12) (g R11) (g R10) (g R9) (g R8) (g RBP) (g RDI) (g RSI) (g RDX) (g RCX)
    (g RBX) (g RAX) err (c_rip c) (c_cs c) (c_rflags c) (c_rsp c) (c_ss c).

(** The processor runs from the frame [f]. *)
Definition runs (f : cpu_state_t) (c : cpu) : Prop :=
  (forall r, gpr c r = frame_gpr f r) /\ seg c FS = u16 (fs f) /\ seg c GS = u16 (gs f) /\
  c_rip c = rip f /\ c_cs c = cs f /\ c_rflags c = rflags f /\ c_rsp c = rsp f /\ c_ss c = ss f.

(** The swaps on entry and on exit. *)
Definition swapped (user_in user_out : bool) (b : Z * Z) : Z * Z := if xorb user_in user_out then (snd b, fst b) else b.
Definition from_user (c : Z) : bool := negb (Z.land c 3 =? 0).

Section Stubs.
Context {St : Type} (clobber : (reg -> Z) -> reg -> Z).
Implicit Types (m : machine) (s : St) (h : handler (St := St)).
#[local] Abbreviation run := (exec (St := St) clobber).

Lemma exec_app l1 l2 x : run (l1 ++ l2) x = obind (run l1 x) (fun r => run l2 (snd r)).
Proof.
  revert x. induction l1 as [|i l1 IH]; intros x; [by destruct x|]. cbn [app exec]. unfold bind.
  destruct (exec1 clobber i x) as [[[] y]| | |]; cbn [obind]; [apply IH|done..].
Qed.
Lemma exec_cons i l x : run (i :: l) x = obind (exec1 clobber i x) (fun r => run l (snd r)).
Proof. cbn [exec]. unfold bind. by destruct (exec1 clobber i x) as [[[] y]| | |]. Qed.

(** Saving: the words of the frame below the error code. *)
Lemma exec_push_all m s : let c := core m in let g := gpr c in run PUSH_ALL (m, s) =
  OK (tt, (set_stack ([seg c GS; seg c FS; g R15; g R14; g R13; g R12; g R11; g R10; g R9; g R8; g RBP; g RDI; g RSI; g RDX; g RCX; g RBX; g RAX] ++ stack m) m, s)).
Proof. destruct m as [c st b]. by cbv -[gpr seg]. Qed.
Lemma exec_kernel_segs m s : exists m', run LOAD_KERNEL_SEGS (m, s) = OK (tt, (m', s)) /\ stack m' = stack m /\ gs_bases m' = gs_bases m.
Proof. destruct m as [c st b]. eexists. split; [by cbv -[update wrap Z.lor Z.ldiff gpr seg c_rip c_cs c_rflags c_rsp c_ss]|done]. Qed.
(** Restoring: the registers of the frame, then the processor's part. *)
Lemma exec_resume m s f rest : stack m = frame_words f ++ rest ->
  exists m', run (POP_ALL ++ [ADD_RSP 1; IRETQ]) (m, s) = OK (tt, (m', s)) /\ runs f (core m') /\ stack m' = rest /\ gs_bases m' = (0, snd (gs_bases m)).
Proof.
  intros E. destruct m as [c st b]. cbn in E. subst st. destruct c as [g sg x1 x2 x3 x4 x5], f.
  eexists. split; [cbv -[update wrap]; reflexivity|]. split; [|done]. split; [by intros []|done].
Qed.

(** The C call sees the frame and leaves its own. *)
Lemma exec_call h m s f rest : stack m = frame_words f ++ rest ->
  exec1 clobber (CALL h) (m, s) = obind (h (gpr (core m)) f s) (fun r =>
    let c := core m in
    OK (tt, (mk_machine (mk_regs (clobber (gpr c)) (seg c) (c_rip c) (c_cs c) (c_rflags c) (c_rsp c) (c_ss c)) (frame_words (fst r) ++ rest) (gs_bases m), snd r))).
Proof.
  intros E. unfold exec1, bind, get. cbn [obind]. cbn [fst]. rewrite E.
  change (words_frame (frame_words f ++ rest)) with (Some (mk_cpu (gs f) (fs f) (r15 f) (r14 f) (r13 f) (r12 f) (r11 f) (r10 f) (r9 f) (r8 f)
    (rbp f) (rdi f) (rsi f) (rdx f) (rcx f) (rbx f) (rax f) (error_code f) (rip f) (cs f) (rflags f) (rsp f) (ss f), rest)).
  replace (mk_cpu _ _ _ _ _ _ _ _ _ _ _ _ _ _ _ _ _ _ _ _ _ _ _) with f by by destruct f.
  cbv iota. unfold zoom. cbn [fst snd]. by destruct (h (gpr (core m)) f s) as [[f' s']| | |].
Qed.

(** The stub adds nothing to the handler's outcome [o]: the processor resumes
    from the frame the handler left and the stack below is as it was. The other
    GS base is as before the interrupt, or the one that was active when entry
    and exit cross privilege levels unequally; the active one is 0. *)
Definition passes (swaps : bool) (m : machine) (o : outcome (cpu_state_t * St)) (r : outcome (unit * (machine * St))) : Prop :=
  match o with
  | OK (f, s') => exists m', r = OK (tt, (m', s')) /\ runs f (core m') /\ stack m' = stack m /\
      gs_bases m' = (0, snd (if swaps then swapped (from_user (c_cs (core m))) (from_user (cs f)) (gs_bases m) else gs_bases m))
  | Panic msg => r = Panic msg
  | UB => r = UB
  | NoFuel => r = NoFuel
  end.

(** The state in which a stub has saved everything. *)
Lemma exec_saved m s c err rest : gpr (core m) = gpr c -> seg (core m) = seg c ->
  stack m = err :: c_rip c :: c_cs c :: c_rflags c :: c_rsp c :: c_ss c :: rest ->
  exists m', run (PUSH_ALL ++ LOAD_KERNEL_SEGS) (m, s) = OK (tt, (m', s)) /\ stack m' = frame_words (frame_of c err) ++ rest /\ gs_bases m' = gs_bases m.
Proof.
  intros Eg Es E. rewrite exec_app, exec_push_all. cbn [obind snd]. edestruct exec_kernel_segs as (m' & -> & Hs & Hb).
  exists m'. split; [done|]. split; [|by rewrite Hb]. rewrite Hs. cbn [stack set_stack]. by rewrite E, Eg, Es.
Qed.

Lemma exec_swapgs m s f rest : stack m = frame_words f ++ rest ->
  exec1 (St := St) clobber SWAPGS_IF_USER (m, s) =
  OK (tt, (mk_machine (core m) (stack m) (swapped (from_user (cs f)) false (gs_bases m)), s)).
Proof.
  intros E. assert (stack m !! 19%nat = Some (cs f)) as El by by rewrite E. unfold exec1, in_machine. cbn [fst snd]. rewrite El. cbn [obind].
  unfold swapped, from_user. destruct (Z.land (cs f) 3 =? 0); [|done]. by destruct m.
Qed.
Lemma swapped_twice u v b : swapped v false (swapped u false b) = swapped u v b.
Proof. destruct u, v, b; done. Qed.

(** From the saved frame to the end, with the swaps and without. *)
Lemma stub_end h m0 m s f rest pre : stack m = frame_words f ++ rest ->
  (forall m1 s1, stack m1 = frame_words f ++ rest -> exists m2, run pre (m1, s1) = OK (tt, (m2, s1)) /\ stack m2 = stack m1 /\ gs_bases m2 = gs_bases m1) ->
  stack m0 = rest -> gs_bases m0 = gs_bases m -> c_cs (core m0) = cs f ->
  exists g, (exists m2, run pre (mk_machine (core m) (stack m) (swapped (from_user (cs f)) false (gs_bases m)), s) = OK (tt, (m2, s)) /\ g = gpr (core m2)) /\
    passes true m0 (h g f s) (run (SWAPGS_IF_USER :: pre ++ CALL h :: SWAPGS_IF_USER :: POP_ALL ++ [ADD_RSP 1; IRETQ]) (m, s)).
Proof.
  intros E Hpre E0 Eb Ecs. set (m1 := mk_machine (core m) (stack m) _).
  destruct (Hpre m1 s E) as (m2 & R2 & S2 & B2). exists (gpr (core m2)). split; [by exists m2|].
  rewrite exec_cons, (exec_swapgs m s f rest E). cbn [obind snd]. fold m1. rewrite exec_app, R2. cbn [obind snd]. rewrite exec_cons, (exec_call h m2 s f rest) by by rewrite S2.
  destruct (h (gpr (core m2)) f s) as [[f' s']| | |]; cbn [obind passes]; [|done..]. cbn [fst snd].
  rewrite exec_cons. set (m3 := mk_machine _ (frame_words f' ++ rest) _). rewrite (exec_swapgs m3 s' f' rest eq_refl). cbn [obind snd].
  edestruct exec_resume as (m4 & -> & Hr & Hs & Hb); [reflexivity|]. exists m4. split_and!; [done|done|by rewrite Hs|].
  rewrite Hb, Ecs, Eb. unfold m3. cbn [gs_bases]. rewrite B2. by rewrite <- (swapped_twice _ (from_user (cs f'))).
Qed.

(** The processor's frame, the error code and the saved registers. *)
Lemma enter entry e err pre l m s : pre = [PUSH_IMM e] /\ err = None \/ pre = [] /\ err = Some e ->
  exists m', interrupt clobber entry err (pre ++ (PUSH_ALL ++ LOAD_KERNEL_SEGS) ++ l) (m, s) = run l (m', s) /\
    stack m' = frame_words (frame_of (core m) e) ++ stack m /\ gs_bases m' = gs_bases m.
Proof.
  intros Hp. unfold interrupt, bind, modify. cbn [obind fst snd].
  assert (exists m1, run pre (deliver entry err m, s) = OK (tt, (m1, s)) /\ gpr (core m1) = gpr (core m) /\ seg (core m1) = seg (core m) /\
    gs_bases m1 = gs_bases m /\
    stack m1 = e :: c_rip (core m) :: c_cs (core m) :: c_rflags (core m) :: c_rsp (core m) :: c_ss (core m) :: stack m) as (m1 & R1 & G1 & S1 & B1 & K1).
  { destruct Hp as [[-> ->]|[-> ->]]; eexists; by split_and!. }
  rewrite exec_app, R1. cbn [obind snd]. destruct (exec_saved m1 s (core m) e (stack m) G1 S1 K1) as (m2 & R2 & K2 & B2).
  rewrite exec_app, R2. cbn [obind snd]. exists m2. split_and!; [done|done|congruence].
Qed.

Lemma exec_mov r v m s : run [MOV_IMM r v] (m, s) = OK (tt, (set_gpr r v m, s)).
Proof. reflexivity. Qed.

Lemma irq_stub_shape n h : IRQ_STUB n h =
  [PUSH_IMM 0] ++ (PUSH_ALL ++ LOAD_KERNEL_SEGS) ++ SWAPGS_IF_USER :: [MOV_IMM RDI (32 + n)] ++ CALL h :: SWAPGS_IF_USER :: POP_ALL ++ [ADD_RSP 1; IRETQ].
Proof. reflexivity. Qed.
Lemma exec_mov_quiet r v m s : exists m', run [MOV_IMM r v] (m, s) = OK (tt, (m', s)) /\ stack m' = stack m /\ gs_bases m' = gs_bases m.
Proof. by eexists. Qed.

Lemma irq_stub_passes entry n h m s : exists g, g RDI = 32 + n /\
  passes true m (h g (frame_of (core m) 0) s) (interrupt clobber entry None (IRQ_STUB n h) (m, s)).
Proof.
  destruct (enter entry 0 None [PUSH_IMM 0] (SWAPGS_IF_USER :: [MOV_IMM RDI (32 + n)] ++ CALL h :: SWAPGS_IF_USER :: POP_ALL ++ [ADD_RSP 1; IRETQ]) m s)
    as (m1 & E & Hs & Hb); [by left|].
  destruct (stub_end h m m1 s (frame_of (core m) 0) (stack m) [MOV_IMM RDI (32 + n)]) as (g & (m2 & R & ->) & Hg);
    [exact Hs|intros m3 s3 _; exact (exec_mov_quiet _ _ m3 s3)|reflexivity|symmetry; exact Hb|reflexivity|]. rewrite exec_mov in R. injection R as <-.
  exists (gpr (core (set_gpr RDI (32 + n) (mk_machine (core m1) (stack m1) (swapped (from_user (cs (frame_of (core m) 0))) false (gs_bases m1)))))).
  split; [reflexivity|]. rewrite irq_stub_shape, E. exact Hg.
Qed.

Definition arguments : list (instr (handler (St := St))) := [LOAD RDI 16; LOAD RSI 15; LOAD RDX 14; LOAD RCX 13].
Lemma syscall_stub_shape h : syscall_stub h =
  [PUSH_IMM 0] ++ (PUSH_ALL ++ LOAD_KERNEL_SEGS) ++ SWAPGS_IF_USER :: arguments ++ CALL h :: SWAPGS_IF_USER :: POP_ALL ++ [ADD_RSP 1; IRETQ].
Proof. reflexivity. Qed.
Lemma arguments_load m s c rest : stack m = frame_words (frame_of c 0) ++ rest -> exists m2, run arguments (m, s) = OK (tt, (m2, s)) /\
  stack m2 = stack m /\ gs_bases m2 = gs_bases m /\
  (gpr (core m2) RDI = gpr c RAX /\ gpr (core m2) RSI = gpr c RBX /\ gpr (core m2) RDX = gpr c RCX /\ gpr (core m2) RCX = gpr c RDX).
Proof.
  destruct m as [c1 st b]. cbn. intros ->. eexists. split; [cbv -[update gpr seg c_rip c_cs c_rflags c_rsp c_ss]; reflexivity|].
  split; [reflexivity|]. split; [reflexivity|]. split; [reflexivity|]. split; [reflexivity|]. split; reflexivity.
Qed.

Lemma syscall_stub_passes entry h m s : let c := core m in
  exists g, (g RDI = gpr c RAX /\ g RSI = gpr c RBX /\ g RDX = gpr c RCX /\ g RCX = gpr c RDX) /\
  passes true m (h g (frame_of c 0) s) (interrupt clobber entry None (syscall_stub h) (m, s)).
Proof.
  intros c. destruct (enter entry 0 None [PUSH_IMM 0] (SWAPGS_IF_USER :: arguments ++ CALL h :: SWAPGS_IF_USER :: POP_ALL ++ [ADD_RSP 1; IRETQ]) m s)
    as (m1 & E & Hs & Hb); [by left|].
  destruct (stub_end h m m1 s (frame_of c 0) (stack m) arguments) as (g & (m2 & R & ->) & Hg);
    [exact Hs|intros m3 s3 K3; destruct (arguments_load m3 s3 c (stack m) K3) as (m4 & ? & ? & ? & _); exists m4; exact (conj H (conj H0 H1))|reflexivity|symmetry; exact Hb|reflexivity|].
  exists (gpr (core m2)). split.
  - destruct (arguments_load (mk_machine (core m1) (stack m1) (swapped (from_user (cs (frame_of c 0))) false (gs_bases m1))) s c (stack m) Hs)
      as (m4 & R4 & _ & _ & H4). rewrite R in R4. injection R4 as <-. exact H4.
  - rewrite syscall_stub_shape, E. exact Hg.
Qed.

Lemma isr_stub_shape v h : isr_stub v h = (if bool_decide (v ∈ errcode_vectors) then [] else [PUSH_IMM 0]) ++
  (PUSH_ALL ++ LOAD_KERNEL_SEGS) ++ [MOV_IMM RDI v] ++ CALL h :: POP_ALL ++ [ADD_RSP 1; IRETQ].
Proof. unfold isr_stub. case_bool_decide as Hd; [rewrite decide_True by exact Hd|rewrite decide_False by exact Hd]; reflexivity. Qed.
Lemma isr_stub_passes entry v e h m s : let has := bool_decide (v ∈ errcode_vectors) in
  exists g, g RDI = v /\ passes false m (h g (frame_of (core m) (if has then e else 0)) s)
    (interrupt clobber entry (if has then Some e else None) (isr_stub v h) (m, s)).
Proof.
  intros has. set (err := if has then e else 0).
  destruct (enter entry err (if has then Some e else None) (if has then [] else [PUSH_IMM 0]) ([MOV_IMM RDI v] ++ CALL h :: POP_ALL ++ [ADD_RSP 1; IRETQ]) m s)
    as (m1 & E & Hs & Hb); [subst err; destruct has; [by right|by left]|].
  rewrite isr_stub_shape. fold has.
  rewrite E, exec_app, exec_mov. cbn [obind snd]. set (m2 := set_gpr RDI v m1). clear E.
  exists (gpr (core m2)). split; [done|]. rewrite exec_cons, (exec_call h m2 s (frame_of (core m) err) (stack m)) by done.
  destruct (h (gpr (core m2)) _ s) as [[f' s']| | |]; cbn [obind passes]; [|done..]. cbn [fst snd].
  edestruct exec_resume as (m4 & -> & Hr & Hk & Hb4); [reflexivity|]. exists m4. split_and!; [done..|]. rewrite Hb4, <- Hb. reflexivity.
Qed.
End Stubs.

(** C14: every entry stub of main_asm.S is transparent. Whatever the interrupted
    program's registers, the C handler receives them all, in the fields of
    [cpu_state_t], with the vector number or the four system call registers as
    its arguments and the processor's error code or 0; the processor then
    resumes from exactly the frame the handler leaves, whatever the handler did
    to the other registers, with the stack below untouched. A panic or an
    undefined step of the handler is the outcome of the interrupt. *)
Theorem stubs_transparent {St} (clobber : (reg -> Z) -> reg -> Z) entry (h : handler) m (s : St) : let c := core m in
  (forall n, exists g, g RDI = 32 + n /\ passes true m (h g (frame_of c 0) s) (interrupt clobber entry None (IRQ_STUB n h) (m, s))) /\
  (exists g, (g RDI = gpr c RAX /\ g RSI = gpr c RBX /\ g RDX = gpr c RCX /\ g RCX = gpr c RDX) /\
     passes true m (h g (frame_of c 0) s) (interrupt clobber entry None (syscall_stub h) (m, s))) /\
  forall v e, let has := bool_decide (v ∈ errcode_vectors) in
    exists g, g RDI = v /\ passes false m (h g (frame_of c (if has then e else 0)) s)
      (interrupt clobber entry (if has then Some e else None) (isr_stub v h) (m, s)).
Proof. split_and!; intros; [apply irq_stub_passes|apply syscall_stub_passes|apply isr_stub_passes]. Qed.

(** ** Processor features *)

Record control := mk_control { cr0 : Z; cr4 : Z; efer : Z }.

(** [and ax, v] and [or ax, v] on a 64-bit register. *)
Definition and_ax (v x : Z) : Z := Z.lor (Z.ldiff x 0xFFFF) (Z.land (u16 x) v).
Definition or_ax (v x : Z) : Z := Z.lor (Z.ldiff x 0xFFFF) (Z.lor (u16 x) v).

Definition enable_sse : M control unit :=
  modify (fun c => mk_control (or_ax 0x2 (and_ax 0xFFFB (cr0 c))) (cr4 c) (efer c)) ;;;
  modify (fun c => mk_control (cr0 c) (or_ax (Z.shiftl 3 9) (cr4 c)) (efer c)).
(** EAX and EDX are the two halves of the register. *)
Definition enable_nxe : M control unit :=
  modify (fun c => let eax := u32 (efer c) in let edx := Z.shiftr (efer c) 32 in
    mk_control (cr0 c) (cr4 c) (Z.lor (Z.shiftl edx 32) (Z.lor eax (Z.shiftl 1 11)))).

Lemma testbit_and_ax v x i : 0 <= i -> 0 <= v < 2 ^ 16 ->
  Z.testbit (and_ax v x) i = Z.testbit x i && (Z.testbit v i || (16 <=? i)).
Proof.
  intros Hi Hv. unfold and_ax, wrap. rewrite Z.lor_spec, Z.ldiff_spec, Z.land_spec. change 0xFFFF with (Z.ones 16).
  rewrite Z.testbit_ones_nonneg by lia. destruct (Z.leb_spec 16 i).
  - rewrite (proj2 (Z.ltb_ge i 16)), Z.mod_pow2_bits_high by lia. by destruct (Z.testbit x i), (Z.testbit v i).
  - rewrite (proj2 (Z.ltb_lt i 16)), Z.mod_pow2_bits_low by lia. by destruct (Z.testbit x i), (Z.testbit v i).
Qed.
Lemma testbit_or_ax v x i : 0 <= i -> 0 <= v < 2 ^ 16 -> Z.testbit (or_ax v x) i = Z.testbit x i || Z.testbit v i.
Proof.
  intros Hi Hv. unfold or_ax, wrap. rewrite Z.lor_spec, Z.ldiff_spec, Z.lor_spec. change 0xFFFF with (Z.ones 16).
  rewrite Z.testbit_ones_nonneg by lia. destruct (Z.leb_spec 16 i).
  - rewrite (proj2 (Z.ltb_ge i 16)), Z.mod_pow2_bits_high by lia. by destruct (Z.testbit x i).
  - rewrite (proj2 (Z.ltb_lt i 16)), Z.mod_pow2_bits_low by lia. by destruct (Z.testbit x i).
Qed.

(** SSE and no-execute pages are switched on and no other bit changes. *)
Theorem features_enabled c : exists c', (enable_sse ;;; enable_nxe) c = OK (tt, c') /\
  forall i, 0 <= i ->
    Z.testbit (cr0 c') i = (if i =? 2 then false else if i =? 1 then true else Z.testbit (cr0 c) i) /\
    Z.testbit (cr4 c') i = (if (i =? 9) || (i =? 10) then true else Z.testbit (cr4 c) i) /\
    Z.testbit (efer c') i = (if i =? 11 then true else Z.testbit (efer c) i).
Proof.
  eexists. split; [reflexivity|]. intros i Hi. cbn [cr0 cr4 efer]. split_and!.
  - rewrite testbit_or_ax, testbit_and_ax by lia.
    assert (Z.testbit 2 i = (i =? 1)) as -> by (rewrite Z.eqb_sym; apply (Z.pow2_bits_eqb 1); lia).
    assert (Z.testbit 0xFFFB i = (i <? 16) && negb (i =? 2)) as ->.
    { change 0xFFFB with (Z.ldiff (Z.ones 16) (2 ^ 2)). by rewrite Z.ldiff_spec, Z.testbit_ones_nonneg, Z.pow2_bits_eqb, (Z.eqb_sym 2 i) by lia. }
    destruct (Z.eqb_spec i 2) as [->|]; [by rewrite andb_false_r|]. destruct (Z.eqb_spec i 1) as [->|]; [by rewrite orb_true_r|].
    cbn [negb]. rewrite andb_true_r, orb_false_r. destruct (Z.ltb_spec i 16), (Z.leb_spec 16 i); try lia; by rewrite andb_true_r.
  - rewrite testbit_or_ax by (done || (vm_compute; split; congruence)). change (Z.shiftl 3 9) with (Z.lor (2 ^ 9) (2 ^ 10)).
    rewrite Z.lor_spec, !Z.pow2_bits_eqb by lia. rewrite (Z.eqb_sym 9 i), (Z.eqb_sym 10 i).
    destruct (i =? 9), (i =? 10); by rewrite ?orb_true_r, ?orb_false_r.
  - rewrite Z.lor_spec, Z.lor_spec. change (Z.shiftl 1 11) with (2 ^ 11). rewrite Z.pow2_bits_eqb, (Z.eqb_sym 11 i), Z.shiftl_spec by lia.
    unfold wrap. destruct (Z.ltb_spec i 32).
    + rewrite (Z.testbit_neg_r _ (i - 32)), Z.mod_pow2_bits_low by lia. destruct (i =? 11); by rewrite ?orb_true_r, ?orb_false_r.
    + rewrite Z.shiftr_spec, Z.mod_pow2_bits_high by lia. rewrite (proj2 (Z.eqb_neq i 11)) by lia. replace (i - 32 + 32) with i by lia.
      by rewrite !orb_false_r.
Qed.
