(* ===== verification/Entry.v ===== *)
(** * The kernel seen from a running program

    Timer interrupts and system calls end to end: the processor's entry, the
    stub (main_asm.S), the C handler (process/interrupts.c) and the return to
    some program; and the shell's side of a system call (programs/shell/c.c). *)
From S2P Require Import Prelude Mem Pmm Vmm VmmThms Ata Gdt Scheduler SchedSpec SchedThms Interrupts Syscall Stubs.

(** A program finds the processor as another state left it. *)
Definition same_cpu (c c' : cpu) : Prop :=
  (forall r, gpr c r = gpr c' r) /\ seg c FS = seg c' FS /\ seg c GS = seg c' GS /\
  c_rip c = c_rip c' /\ c_cs c = c_cs c' /\ c_rflags c = c_rflags c' /\ c_rsp c = c_rsp c' /\ c_ss c = c_ss c'.
(** Selectors are 16 bits wide. *)
Definition selectors_ok (c : cpu) : Prop := in_range 16 (seg c FS) /\ in_range 16 (seg c GS).

Lemma runs_same c e c' : selectors_ok c -> runs (frame_of c e) c' -> same_cpu c' c.
Proof.
  intros [Hf Hg] (H1 & H2 & H3 & H4). cbn in *. rewrite wrap_id in H2, H3 by done. split; [|done]. intros r. rewrite H1. by destruct r.
Qed.

(** ** System calls *)

Section Syscalls.
Context {St : Type} `{SysOps St} (clobber : (reg -> Z) -> reg -> Z) (entry : Z).

Definition set_args (num arg1 arg2 arg3 : Z) (m : machine) : machine :=
  set_gpr RDX arg3 (set_gpr RCX arg2 (set_gpr RBX arg1 (set_gpr RAX num m))).

(** The call the stub makes. *)
Definition syscall_entry : handler (St := St) := fun g f => syscall_handler_c (g RDI) (g RSI) (g RDX) (g RCX) f.

(** The shell's [syscall]: [int $0x80] with its operands in RAX, RBX, RCX and
    RDX, and RAX as the result. *)
Definition syscall (num arg1 arg2 arg3 : Z) : M (machine * St) Z :=
  modify (fun s => (set_args num arg1 arg2 arg3 (fst s), snd s)) ;;;
  interrupt clobber entry None (syscall_stub syscall_entry) ;;;
  gets (fun s => gpr (core (fst s)) RAX).

Definition exit : M (machine * St) unit := syscall 0 0 0 0 ;;; ret tt.
Definition run_program (filename pid_out : Z) : M (machine * St) Z := let* r := syscall 1 filename pid_out 0 in ret (u8 r).
Definition kill_process (pid : Z) : M (machine * St) unit := syscall 2 (u32 pid) 0 0 ;;; ret tt.

(** What the program can rely on: the kernel did [o], answered its flag in RAX
    and left every other register alone. *)
Definition answers (m : machine) (o : outcome ((cpu_state_t * bool) * St)) (r : outcome (Z * (machine * St))) : Prop :=
  match o with
  | OK ((_, b), s') => exists m', r = OK (Z.b2z b, (m', s')) /\ stack m' = stack m /\ gs_bases m' = (0, snd (gs_bases m)) /\
      (forall r, r <> RAX -> gpr (core m') r = gpr (core m) r) /\ seg (core m') FS = seg (core m) FS /\ seg (core m') GS = seg (core m) GS /\
      c_rip (core m') = c_rip (core m) /\ c_cs (core m') = c_cs (core m) /\ c_rflags (core m') = c_rflags (core m) /\
      c_rsp (core m') = c_rsp (core m) /\ c_ss (core m') = c_ss (core m)
  | Panic msg => r = Panic msg
  | UB => r = UB
  | NoFuel => r = NoFuel
  end.

Lemma syscall_answers num a1 a2 a3 m s : num <> 0 -> selectors_ok (core m) ->
  let m1 := set_args num a1 a2 a3 m in
  answers m1 (syscall_switch num a1 a2 a3 (frame_of (core m1) 0) s) (syscall num a1 a2 a3 (m, s)).
Proof.
  intros Hnum [Hfs Hgs] m1. assert (gpr (core m1) RAX = num /\ gpr (core m1) RBX = a1 /\ gpr (core m1) RCX = a2 /\ gpr (core m1) RDX = a3 /\
    seg (core m1) = seg (core m)) as (A0 & A1 & A2 & A3 & As) by (split_and!; reflexivity).
  unfold syscall. unfold bind at 1, modify at 1. cbn [obind fst snd]. fold m1. clearbody m1. rewrite <- As in Hfs, Hgs.
  unfold bind, gets.
  destruct (syscall_stub_passes clobber entry syscall_entry m1 s) as (g & (E1 & E2 & E3 & E4) & Hp).
  assert (syscall_entry g (frame_of (core m1) 0) s = syscall_handler_c num a1 a2 a3 (frame_of (core m1) 0) s) as Eh by (unfold syscall_entry; congruence).
  rewrite Eh in Hp. clear Eh E1 E2 E3 E4. set (o := interrupt clobber entry None (syscall_stub syscall_entry) (m1, s)) in *. clearbody o.
  pose proof (switch_frame num a1 a2 a3 (frame_of (core m1) 0) s) as Hsw. unfold syscall_handler_c, bind in Hp.
  set (w := syscall_switch num a1 a2 a3 (frame_of (core m1) 0) s) in *. clearbody w.
  destruct w as [[[f b] s']|msg| |]; cbn [obind passes answers] in *; [|rewrite Hp; reflexivity..].
  specialize (Hsw f b s' Hnum eq_refl) as ->. destruct Hp as (m' & -> & (Hr & Hf & Hg & Hrest) & Hs & Hb). exists m'. cbn [obind fst snd].
  rewrite (Hr RAX). cbn in Hf, Hg, Hrest, Hb. rewrite wrap_id in Hf, Hg by done. destruct Hrest as (? & ? & ? & ? & ?).
  split_and!; try done.
  - rewrite Hb. unfold swapped. by rewrite xorb_nilpotent.
  - intros r Hne. rewrite Hr. by destruct r.
Qed.
End Syscalls.


(** ** The timer *)

Section Timer.
Context {K D : Type} `{Services K} `{Ports D} (clobber : (reg -> Z) -> reg -> Z) (entry : Z) (fuel : nat).

Definition irq_entry : handler (St := irq_state K D) := fun g f => irq_handler_c fuel (g RDI) f.
Definition tick : M (machine * irq_state K D) unit := interrupt clobber entry None (IRQ_STUB 0 irq_entry).

(** A program runs until the next tick: its registers become [w] of them. *)
Definition work (w : cpu -> cpu) : M (machine * irq_state K D) unit :=
  modify (fun s => (mk_machine (w (core (fst s))) (stack (fst s)) (gs_bases (fst s)), snd s)).
Fixpoint slices (ws : list (cpu -> cpu)) : M (machine * irq_state K D) unit :=
  match ws with [] => ret tt | w :: ws' => work w ;;; tick ;;; slices ws' end.

Hypothesis set_returns : forall p k, exists k', k_set_PML4 p k = OK (tt, k').
Hypothesis load_returns : forall k, exists k', k_load_cpu k = OK (tt, k').
Hypothesis copy_returns : forall to from k, exists k', k_copy_kernel_PML4 to from k = OK (tt, k').

Lemma tick_quiet m k rs p l h t : represents (isched k) rs -> fits fuel rs -> rl rs = p :: l ->
  rotate (with_regs (frame_of (core m) 0) p :: l) = h :: t -> fatal h = false ->
  exists m' k' kk, tick (m, k) = OK (tt, (m', k')) /\ runs (a_regs h) (core m') /\
    represents (isched k') (mk_ring kk (with_sigs 0 h :: t) (rhigh rs)).
Proof using set_returns load_returns copy_returns.
  intros Hr Hf El Er Hq.
  destruct (next_quiet set_returns load_returns copy_returns fuel (isched k) rs (frame_of (core m) 0) p l h t Hr Hf El Er Hq) as (st' & kk & E & Hr').
  destruct (irq_stub_passes clobber entry 0 irq_entry m k) as (g & Eg & Hp).
  assert (irq_entry g (frame_of (core m) 0) k = OK (a_regs h, mk_irq st' (set_mmio (mmio (idev k) ++ [(LAPIC_BASE_VIRT + LAPIC_EOI, 0)]) (idev k)))) as Eh.
  { unfold irq_entry, irq_handler_c. rewrite Eg. clear Hp. change ((32 + 0 <? 32) || (47 <? 32 + 0)) with false. change (32 + 0 - 32 =? 0) with true.
    cbv iota. rewrite (bind_step _ _ _ (a_regs h) (mk_irq st' (idev k))); [reflexivity|]. unfold in_sched, zoom. by rewrite E. }
  rewrite Eh in Hp. destruct Hp as (m' & E' & Hruns & _).
  eexists m', _, kk. split; [exact E'|]. exact (conj Hruns Hr').
Qed.

#[local] Opaque tick.
Lemma slices_quiet B : forall ws m k rs h D, represents (isched k) rs -> fits fuel rs -> rl rs = h :: B ++ D ->
  Forall (fun p => fatal p = false) (h :: B ++ D) -> length ws = length B ->
  wp (tick ;;; slices ws) (fun _ x => runs (a_regs (first_of D (with_regs (frame_of (core m) 0) h))) (core (fst x)) /\
    exists rs', represents (isched (snd x)) rs' /\ identity <$> rl rs' = identity <$> (D ++ h :: B)) (m, k).
Proof using set_returns load_returns copy_returns.
  induction B as [|b B IH]; intros ws m k rs h D1 Hr Hf El Hq Hws; apply wp_bind.
  - destruct ws; [|discriminate Hws]. inversion_clear Hq as [|? ? Hh HD]. cbn [app] in El, HD. set (h' := first_of D1 (with_regs (frame_of (core m) 0) h)).
    assert (exists t, D1 ++ [with_regs (frame_of (core m) 0) h] = h' :: t) as [t Et] by (destruct D1; eauto).
    destruct (tick_quiet m k rs h D1 h' t Hr Hf El Et) as (m' & k' & kk & E & Hruns & Hr').
    { subst h'. destruct D1; [done|]. by inversion HD. }
    eapply wp_step; [exact E|]. apply wp_ret. cbn [fst snd]. split; [done|]. exists (mk_ring kk (with_sigs 0 h' :: t) (rhigh rs)). split; [done|].
    cbn [rl]. change (identity <$> with_sigs 0 h' :: t) with (identity <$> h' :: t). by rewrite <- Et, !fmap_app.
  - destruct ws as [|w ws]; [discriminate Hws|]. injection Hws as Hws. inversion_clear Hq as [|? ? Hh Hq']. inversion_clear Hq' as [|? ? Hb HBD].
    destruct (tick_quiet m k rs h ((b :: B) ++ D1) b (B ++ D1 ++ [with_regs (frame_of (core m) 0) h]) Hr Hf El) as (m' & k' & kk & E & _ & Hr');
      [cbn; by rewrite <- app_assoc|done|].
    eapply wp_step; [exact E|]. cbn [slices]. apply wp_bind, wp_modify. cbn [fst snd].
    eapply wp_mono; [apply (IH ws _ k' _ (with_sigs 0 b) (D1 ++ [with_regs (frame_of (core m) 0) h]) Hr')|].
    + unfold fits in *. cbn [rl]. rewrite El in Hf. cbn in *. rewrite !length_app in *. cbn. lia.
    + done.
    + constructor; [apply fatal_cleared|]. rewrite !Forall_app in *. split_and!; try apply HBD. by constructor.
    + done.
    + intros _ x [Hruns (rs' & Hrs & Hid)]. split; [by destruct D1|]. exists rs'. split; [done|].
      rewrite Hid, !fmap_app. cbn. by rewrite <- app_assoc.
Qed.
End Timer.


(** *** Examples *)

(** A program in user mode with 7 in every register. *)
Definition user_cpu : cpu := mk_regs (fun _ => 7) (fun _ => 35) 4000 27 514 9000 35.
Definition user_machine : machine := mk_machine user_cpu [] (1, 2).


