(* ===== verification/Loader.v ===== *)
(** * Program loader (src/process/program_loader.c)

    ELF images are read from the bytes of the file; segments are mapped and
    copied with the VMM into a fresh address space, and the program becomes a
    process. *)
From S2P Require Import Prelude Mem Pmm Vmm VmmSpec Heap Allocator Str Gdt Scheduler.

Definition PROCESS_MEMORY_START : Z := 0x2000000.

(** The fields of the headers that the code reads. *)
Record elf32_header := mk_elf32 {
  h32_magic_number : Z; h32_class : Z; h32_endianness : Z; h32_os_abi : Z; h32_type : Z; h32_machine : Z; h32_elf_version : Z }.
Record elf64_header := mk_elf64 {
  magic_number : Z; class : Z; endianness : Z; os_abi : Z; type : Z; machine : Z; elf_version : Z;
  entry : Z; program_header_offset : Z; program_header_entry_size : Z; program_header_entries : Z }.
Record elf64_program_header_entry := mk_ph {
  segment_type : Z; ph_flags : Z; data_offset : Z; virtual_address : Z; file_size : Z; memory_size : Z }.

(** [*(elf64_header* )file_data], naturally aligned, 64 bytes. *)
Definition read_elf64_header (f : list Z) : outcome elf64_header :=
  if len f <? 64 then UB else
  obind (field 4 f 0) (fun magic => obind (field 1 f 4) (fun cls => obind (field 1 f 5) (fun en =>
  obind (field 1 f 7) (fun abi => obind (field 2 f 16) (fun ty => obind (field 2 f 18) (fun mach =>
  obind (field 4 f 20) (fun ver => obind (field 8 f 24) (fun ent => obind (field 8 f 32) (fun phoff =>
  obind (field 2 f 54) (fun phsz => obind (field 2 f 56) (fun phn =>
  OK (mk_elf64 magic cls en abi ty mach ver ent phoff phsz phn)))))))))))).

(** [*(elf64_program_header_entry* )(file_data + off)], 56 bytes. *)
Definition read_program_header (f : list Z) (off : Z) : outcome elf64_program_header_entry :=
  if len f <? off + 56 then UB else
  obind (field 4 f off) (fun ty => obind (field 4 f (off + 4)) (fun fl => obind (field 8 f (off + 8)) (fun doff =>
  obind (field 8 f (off + 16)) (fun va => obind (field 8 f (off + 32)) (fun fs => obind (field 8 f (off + 40)) (fun ms =>
  OK (mk_ph ty fl doff va fs ms))))))).

(** ** What the loader uses of the memory subsystem *)

Class LoaderServices (K : Type) := {
  l_services :: Services K;
  l_create_PML4 : M K (option Z);
  l_alloc : Z -> Z -> Z -> M K bool;
  l_edit_pages : Z -> Z -> Z -> M K bool;
  l_memcpy : Z -> list Z -> M K unit;        (* to a virtual address *)
  l_memset : Z -> Z -> Z -> M K unit
}.

(** Byte stores through the MMU; an unmapped page is undefined. *)
Definition vstore8 (a v : Z) : M vmm_state unit := fun st =>
  match mmu_phys st a with Some p => OK (tt, upd_ram (fun m => wr8 m p v) st) | None => UB end.
Fixpoint vstore_list (a : Z) (bs : list Z) : M vmm_state unit :=
  match bs with [] => ret tt | b :: bs' => vstore8 a b ;;; vstore_list (u64 (a + 1)) bs' end.

#[local] Instance real_services (fuel : nat) : LoaderServices alloc_state := {|
  l_services := kernel_services fuel;
  l_create_PML4 := in_vmm vmm_create_PML4;
  l_alloc a b f := in_vmm (vmm_alloc a b f);
  l_edit_pages a b f := in_vmm (vmm_edit_pages a b f);
  l_memcpy a bs := in_vmm (vstore_list a bs);
  l_memset a v n := in_vmm (for_loop (Z.to_nat n) 0 (fun i => vstore8 (u64 (a + i)) v))
|}.

(** String buffers live in the heap of [Str]. *)
Record loader_state (K : Type) := mk_loader { lsched : sched_state K; lstr : bheap }.
Arguments mk_loader {K}. Arguments lsched {K}. Arguments lstr {K}.

Section Code.
Context {K : Type} `{LoaderServices K}.

Definition in_lsched {A} (m : M (sched_state K) A) : M (loader_state K) A := zoom lsched (fun s st => mk_loader s (lstr st)) m.
Definition in_lkern {A} (m : M K A) : M (loader_state K) A := in_lsched (in_kern m).
Definition in_lstr {A} (m : M bheap A) : M (loader_state K) A := zoom lstr (fun h st => mk_loader (lsched st) h) m.
#[global] Instance loader_console : Console (loader_state K) := fun msg st => mk_loader (emit msg (lsched st)) (lstr st).

Definition log_error (msg : string) : M (loader_state K) unit :=
  let* final_msg := in_lstr (str_concats [cstr "[program_loader] failed to load elf program: "; cstr msg; cstr "
"]) in
  let* m := deref final_msg in
  screen_print (show m) ;;;
  in_lstr (bfree final_msg).

(** The guard [if (bad) { log_error(msg); return false; }]. *)
Definition reject_if (bad : bool) (msg : string) (k : M (loader_state K) bool) : M (loader_state K) bool :=
  if bad then log_error msg ;;; ret false else k.

Definition check_file_elf32 (header : elf32_header) : M (loader_state K) bool :=
  reject_if (negb (h32_magic_number header =? 0x464C457F)) "Invalid magic number" (
  reject_if (negb (h32_class header =? 1)) "Invalid class" (
  reject_if (negb (h32_endianness header =? 1)) "Invalid endianness" (
  reject_if (negb (h32_os_abi header =? 0)) "Invalid abi" (
  reject_if (negb (h32_type header =? 2)) "Invalid type" (
  reject_if (negb (h32_machine header =? 3)) "Invalid instruction set" (
  reject_if (negb (h32_elf_version header =? 1)) "Invalid elf version" (ret true))))))).

Definition program_loader_load_elf32 : M (loader_state K) bool :=
  log_error "32 bit program loading is deprecated" ;;; ret false.

Definition check_file_elf64 (header : elf64_header) : M (loader_state K) bool :=
  reject_if (negb (magic_number header =? 0x464C457F)) "Invalid magic number" (
  reject_if (negb (class header =? 2)) "Invalid class (Not 64-bit)" (
  reject_if (negb (endianness header =? 1)) "Invalid endianness" (
  reject_if (negb (os_abi header =? 0)) "Invalid abi" (
  reject_if (negb (type header =? 2)) "Invalid type" (
  reject_if (negb (machine header =? 62)) "Invalid instruction set (Not x86-64)" (
  reject_if (negb (elf_version header =? 1)) "Invalid elf version" (ret true))))))).

Definition use_kernel_tables : M (loader_state K) unit :=
  let* p := in_lsched process_scheduler_get_kernel_PML4 in
  in_lkern (k_set_PML4 p) ;;; in_lkern k_load_cpu.

(** One iteration of the segment loop; false is its early return. *)
Definition load_segment (f : list Z) (new_PML4 : Z) (e : elf64_program_header_entry) : M (loader_state K) bool :=
  screen_print "[program_loader] reading header entry\n" ;;;
  if negb (segment_type e =? 1) then
    screen_print "[program_loader] entry type is not PT_LOAD. skipping...\n" ;;; ret true else
  if virtual_address e <? PROCESS_MEMORY_START then
    log_error "Program wants to load out of bounds" ;;;
    use_kernel_tables ;;;
    in_lkern (k_unmap_PML4 new_PML4) ;;;
    ret false
  else
  let last := u64 (virtual_address e + memory_size e - 1) in
  in_lkern (l_alloc (virtual_address e) last VMM_FLAGS_KERNEL_ALL) ;;;
  (if len f <? data_offset e + file_size e then undefined else ret tt) ;;;
  in_lkern (l_memcpy (virtual_address e) (take (Z.to_nat (file_size e)) (drop (Z.to_nat (data_offset e)) f))) ;;;
  in_lkern (l_memset (u64 (virtual_address e + file_size e)) 0 (u64 (memory_size e - file_size e))) ;;;
  let is_code := negb (Z.land (ph_flags e) 1 =? 0) in
  let alloc_flags := if is_code then VMM_FLAGS_USER_CODE else VMM_FLAGS_USER_RW in
  in_lkern (l_edit_pages (virtual_address e) last alloc_flags) ;;;
  screen_print "[program_loader] copied entry to memory\n" ;;;
  ret true.

Fixpoint segment_loop (n : nat) (i : Z) (f : list Z) (header : elf64_header) (new_PML4 : Z) : M (loader_state K) bool :=
  match n with
  | O => ret true
  | S n' =>
      let* e := lift (read_program_header f (program_header_offset header + i * program_header_entry_size header)) in
      let* ok := load_segment f new_PML4 e in
      if ok then segment_loop n' (i + 1) f header new_PML4 else ret false
  end.

(** Success, and the pid stored through the pointer argument. *)
Definition program_loader_load_elf64 (f : list Z) : M (loader_state K) (bool * option Z) :=
  screen_print "[program_loader] checking elf64 header\n" ;;;
  let* header := lift (read_elf64_header f) in
  let* ok := check_file_elf64 header in
  if negb ok then ret (false, None) else
  screen_print "[program_loader] elf64 header OK\n" ;;;
  screen_print "[program_loader] creating PML4 for process\n" ;;;
  let* new := in_lkern l_create_PML4 in
  match new with
  | None => log_error "Failed to create PML4" ;;; ret (false, None)
  | Some new_PML4 =>
      let* kp := in_lsched process_scheduler_get_kernel_PML4 in
      in_lkern (k_copy_kernel_PML4 new_PML4 kp) ;;;
      in_lkern (k_set_PML4 new_PML4) ;;;
      in_lkern k_load_cpu ;;;
      screen_print "[program_loader] created PML4\n" ;;;
      let* ok := segment_loop (Z.to_nat (program_header_entries header)) 0 f header new_PML4 in
      if negb ok then ret (false, None) else
      in_lkern (l_alloc (STACK_START - STACK_SIZE + 1) STACK_START VMM_FLAGS_USER_RW) ;;;
      screen_print "[program_loader] mapped stack for process\n" ;;;
      screen_print "[program_loader] initiating heap for process:\n" ;;;
      in_lkern (k_heap_init HEAP_SIZE false) ;;;
      use_kernel_tables ;;;
      let* pid := in_lsched (process_scheduler_add_process (entry header) new_PML4 false) in
      screen_print "[program_loader] added process to scheduler\n" ;;;
      ret (true, Some pid)
  end.
End Code.
