(* ===== verification/LoaderThms.v ===== *)
(** * Properties of the program loader

    Proved against what the loader needs of the memory subsystem: services
    that return ([Reliable]). A file is rejected without a trace in the
    scheduler, or becomes a process placed right after the current one. *)
From S2P Require Import Prelude Mem Pmm Vmm VmmSpec Heap Allocator Str StrLib Gdt Scheduler SchedSpec SchedThms Loader.

(** ** Headers *)

(** The first check a header fails, and its message. *)
Definition elf64_error (h : elf64_header) : option string :=
  if negb (magic_number h =? 0x464C457F) then Some "Invalid magic number"
  else if negb (class h =? 2) then Some "Invalid class (Not 64-bit)"
  else if negb (endianness h =? 1) then Some "Invalid endianness"
  else if negb (os_abi h =? 0) then Some "Invalid abi"
  else if negb (type h =? 2) then Some "Invalid type"
  else if negb (machine h =? 62) then Some "Invalid instruction set (Not x86-64)"
  else if negb (elf_version h =? 1) then Some "Invalid elf version"
  else None.

(** A program header that does not ask for memory below the user area. *)
Definition in_bounds (e : elf64_program_header_entry) : bool :=
  negb (segment_type e =? 1) || (PROCESS_MEMORY_START <=? virtual_address e).

(** The program headers from entry [i] on, all within the file, as is the data
    of the segments to load. *)
Fixpoint headers_from (n : nat) (i : Z) (f : list Z) (h : elf64_header) (es : list elf64_program_header_entry) : Prop :=
  match n, es with
  | O, [] => True
  | S n', e :: es' =>
      read_program_header f (program_header_offset h + i * program_header_entry_size h) = OK e /\
      data_offset e + file_size e <= len f /\ headers_from n' (i + 1) f h es'
  | _, _ => False
  end.

(** A complete image: the header and the program headers it announces. *)
Definition image (f : list Z) (h : elf64_header) (es : list elf64_program_header_entry) : Prop :=
  read_elf64_header f = OK h /\ headers_from (Z.to_nat (program_header_entries h)) 0 f h es.

Section Loader.
Context {K : Type} `{LoaderServices K}.

(** [m] returns from the states of [I], in such a state. *)
Definition returns {A} (I : K -> Prop) (m : M K A) : Prop := forall k, I k -> exists a k', m k = OK (a, k') /\ I k'.

(** In the states of [I] services return, and never hand out a null or a live
    process block. *)
Record Reliable (I : K -> Prop) (l : list aproc) : Prop := {
  re_emit : forall msg (k : K), I k -> I (emit msg k);
  re_create : returns I l_create_PML4;
  re_alloc : forall a b f, returns I (l_alloc a b f);
  re_edit : forall a b f, returns I (l_edit_pages a b f);
  re_memcpy : forall a bs, returns I (l_memcpy a bs);
  re_memset : forall a v n, returns I (l_memset a v n);
  re_heap : forall n b, returns I (k_heap_init n b);
  re_set : forall p, returns I (k_set_PML4 p);
  re_load : returns I k_load_cpu;
  re_copy : forall p q, returns I (k_copy_kernel_PML4 p q);
  re_unmap : forall p, returns I (k_unmap_PML4 p);
  re_malloc : forall k : K, I k -> exists p k', k_malloc PROCESS_SIZE k = OK (p, k') /\ p <> 0 /\ p ∉ a_addr <$> l
}.

(** ** Steps that leave the scheduler alone *)

Context (I : K -> Prop).
Definition same_procs (st st' : loader_state K) : Prop :=
  exists k h, I k /\ ample h /\ st' = mk_loader (set_kern k (lsched st)) h.
Lemma same_procs_refl st : I (kern (lsched st)) -> ample (lstr st) -> same_procs st st.
Proof. intros HI Ha. exists (kern (lsched st)), (lstr st). split_and!; [done|done|]. by destruct st as [[] ?]. Qed.
Lemma same_procs_trans st1 st2 st3 : same_procs st1 st2 -> same_procs st2 st3 -> same_procs st1 st3.
Proof. intros (k & h & _ & _ & ->) (k' & h' & ? & ? & ->). by exists k', h'. Qed.

Context (l : list aproc) (high : Z).
(** The processes are those of [l], strings can be allocated. *)
Definition loader_inv (st : loader_state K) : Prop :=
  I (kern (lsched st)) /\ ample (lstr st) /\ represents (lsched st) (mk_ring (kern (lsched st)) l high).
Lemma same_procs_inv st st' : same_procs st st' -> loader_inv st -> loader_inv st'.
Proof. intros (k & h & ? & ? & ->) (_ & _ & Hr). split_and!; [done|done|]. by apply (set_kern_represents _ _ k) in Hr. Qed.

(** Such a step, whatever it answers. *)
Definition quiet {A} (m : M (loader_state K) A) (P : A -> Prop) : Prop :=
  forall st, loader_inv st -> wp m (fun a st' => same_procs st st' /\ P a) st.

Lemma quiet_bind {A B} (m : M (loader_state K) A) (k : A -> M (loader_state K) B) P R :
  quiet m P -> (forall a, P a -> quiet (k a) R) -> quiet (bind m k) R.
Proof.
  intros Hm Hk st Ha. apply wp_bind. eapply wp_mono; [by apply Hm|]. intros a st1 [H1 HP].
  eapply wp_mono; [by apply (Hk a HP), (same_procs_inv st)|]. intros b st2 [H2 HR]. split; [by eapply same_procs_trans|done].
Qed.
Lemma quiet_seq {A B} (m : M (loader_state K) A) (k : M (loader_state K) B) R :
  quiet m (fun _ => True) -> quiet k R -> quiet (m ;;; k) R.
Proof. intros Hm Hk. eapply quiet_bind; [exact Hm|]. by intros _ _. Qed.
Lemma quiet_ret {A} (a : A) (P : A -> Prop) : P a -> quiet (ret a) P.
Proof. intros HP st (HI & Ha & _). apply wp_ret. split; [by apply same_procs_refl|done]. Qed.
Lemma quiet_kern {A} (m : M K A) (P : A -> Prop) : returns I m -> (forall a, P a) -> quiet (in_lkern m) P.
Proof.
  intros Hm HP st (HI & Ha & _). destruct (Hm (kern (lsched st)) HI) as (a & k & E & HI'). eapply wp_step; [unfold in_lkern, in_lsched, in_kern, zoom; by rewrite E|].
  split; [by exists k, (lstr st)|done].
Qed.
Lemma quiet_print msg : Reliable I l -> quiet (screen_print msg) (fun _ => True).
Proof. intros Hr st (HI & Ha & _). pose proof (re_emit _ _ Hr msg _ HI). apply wp_modify. split; [|done]. by exists (emit msg (kern (lsched st))), (lstr st). Qed.

Definition log_text (msg : string) : string :=
  show (of_string "[program_loader] failed to load elf program: " ++ of_string msg ++ [10] ++ [0]).
Definition loggable (msg : string) : Prop := nonzero (of_string msg) /\ len (of_string msg) <= 100.

Lemma wp_log_error (Q : unit -> loader_state K -> Prop) msg st : ample (lstr st) -> loggable msg ->
  (forall h, ample h -> Q tt (mk_loader (emit (log_text msg) (lsched st)) h)) -> wp (log_error msg) Q st.
Proof.
  intros Ha [Hn Hl] HQ. unfold log_error. apply wp_bind, wp_zoom.
  eapply (wp_str_concats _ _ _ [of_string "[program_loader] failed to load elf program: "; of_string msg; [10]]); [done|done| | |].
  - repeat (apply Forall2_cons_2 || apply Forall2_nil_2); (split; [|apply cstr_bytes]); (split; [|by exists []]); [by repeat constructor|done|by repeat constructor].
  - change (mjoin [?a; ?b; ?c]) with (a ++ b ++ c ++ []). unfold len, MAX_STR in *. rewrite !length_app. cbn [length].
    assert (length (of_string "[program_loader] failed to load elf program: ") <= 50)%nat by (vm_compute; lia). lia.
  - intros h Hh _. apply wp_bind, wp_ret, wp_bind, wp_modify, wp_zoom, wp_bfree. intros h2 Hm _.
    specialize (HQ h2 ltac:(intros n k; rewrite Hm; apply Hh)). unfold log_text in HQ.
    change (mjoin [?a; ?b; ?c]) with (a ++ b ++ c ++ []). rewrite app_nil_r, <- !app_assoc. exact HQ.
Qed.
Lemma quiet_log msg : Reliable I l -> loggable msg -> quiet (log_error msg) (fun _ => True).
Proof.
  intros Hr Hm st (HI & Ha & _). apply wp_log_error; [done|done|]. intros h Hh. split; [|done].
  eexists _, h. split_and!; [by apply (re_emit _ _ Hr (log_text msg))|done|done].
Qed.

Lemma quiet_tables : Reliable I l -> quiet use_kernel_tables (fun _ => True).
Proof.
  intros Hr. eapply (quiet_bind _ _ (fun _ => True)).
  - intros st (HI & Ha & Hst). apply wp_zoom. eapply wp_step; [by apply (kernel_PML4_eq _ _ Hst)|]. split; [|done].
    exists (kern (lsched st)), (lstr st). split_and!; [done|done|]. by destruct st as [[] ?].
  - intros p _. apply quiet_seq; apply quiet_kern; try done; [apply (re_set _ _ Hr)|apply (re_load _ _ Hr)].
Qed.

(** One segment, of a file that holds its data. *)
Lemma quiet_segment f pml4 e : Reliable I l -> data_offset e + file_size e <= len f ->
  quiet (load_segment f pml4 e) (fun ok => ok = in_bounds e).
Proof.
  intros Hr Hf. unfold load_segment, in_bounds. apply quiet_seq; [by apply quiet_print|].
  destruct (segment_type e =? 1); cbn [negb orb]; [|by apply quiet_seq; [by apply quiet_print|apply quiet_ret]].
  rewrite Z.ltb_antisym. destruct (PROCESS_MEMORY_START <=? virtual_address e); cbn [negb].
  - apply quiet_seq; [apply quiet_kern; [apply (re_alloc _ _ Hr)|done]|]. rewrite (proj2 (Z.ltb_ge _ _)) by lia.
    apply quiet_seq; [by apply quiet_ret|]. apply quiet_seq; [apply quiet_kern; [apply (re_memcpy _ _ Hr)|done]|].
    apply quiet_seq; [apply quiet_kern; [apply (re_memset _ _ Hr)|done]|]. apply quiet_seq; [apply quiet_kern; [apply (re_edit _ _ Hr)|done]|].
    apply quiet_seq; [by apply quiet_print|by apply quiet_ret].
  - apply quiet_seq; [apply quiet_log; [done|]; split; [by repeat constructor|done]|]. apply quiet_seq; [by apply quiet_tables|].
    apply quiet_seq; [apply quiet_kern; [apply (re_unmap _ _ Hr)|done]|by apply quiet_ret].
Qed.
Lemma quiet_segments n i f h pml4 es : Reliable I l -> headers_from n i f h es ->
  quiet (segment_loop n i f h pml4) (fun ok => ok = forallb in_bounds es).
Proof.
  intros Hr. revert i es. induction n as [|n IH]; intros i [|e es]; try done; cbn [headers_from segment_loop].
  - intros _. by apply quiet_ret.
  - intros (E & Hf & Hes). eapply (quiet_bind _ _ (fun x => x = e)).
    { intros st (HI & Ha & _). eapply wp_lift; [exact E|]. split; [by apply same_procs_refl|done]. }
    intros x ->. eapply quiet_bind; [by apply quiet_segment|]. intros ok ->. cbn [forallb].
    destruct (in_bounds e); cbn [andb]; [by apply IH|by apply quiet_ret].
Qed.
Lemma quiet_check h : Reliable I l -> quiet (check_file_elf64 h) (fun ok => ok = true <-> elf64_error h = None).
Proof.
  intros Hr. assert (forall bad msg k rest, loggable msg -> quiet k (fun ok => ok = true <-> rest = None) ->
    quiet (reject_if bad msg k) (fun ok => ok = true <-> (if bad then Some msg else rest) = None)) as Hrej.
  { intros [] msg k rest Hm Hk; [|done]. apply quiet_seq; [by apply quiet_log|]. by apply quiet_ret. }
  unfold check_file_elf64, elf64_error.
  repeat (apply Hrej; [split; [by repeat constructor|done]|]). by apply quiet_ret.
Qed.
(** The check of a bad header logs the first thing wrong and does nothing else. *)
Lemma wp_check_bad (Q : bool -> loader_state K -> Prop) hd msg st : ample (lstr st) -> elf64_error hd = Some msg ->
  (forall h, ample h -> Q false (mk_loader (emit (log_text msg) (lsched st)) h)) -> wp (check_file_elf64 hd) Q st.
Proof.
  intros Ha He HQ. unfold check_file_elf64, elf64_error, reject_if in *.
  repeat (destruct (negb _); [injection He as <-; apply wp_bind, wp_log_error; [done|split; [by repeat constructor|done]|]; intros h Hh; by apply wp_ret, HQ|]).
  done.
Qed.

(** What a load did. *)
Definition loaded_program (hd : elf64_header) (es : list elf64_program_header_entry) (r : bool * option Z) (st' : loader_state K) : Prop :=
  match r with
  | (true, o) =>
      o = Some (high + 1) /\ elf64_error hd = None /\ forallb in_bounds es = true /\
      exists c rest p pml4, l = c :: rest /\
        represents (lsched st')
          (mk_ring (kern (lsched st')) (c :: mk_aproc p (high + 1) (start_regs (entry hd) false) 0 pml4 :: rest) (high + 1))
  | (false, o) =>
      o = None /\ loader_inv st' /\
      (is_Some (elf64_error hd) \/ forallb in_bounds es = false \/ exists k k' : K, I k /\ l_create_PML4 k = OK (None, k'))
  end.

(** Prefixing a program with quiet steps. *)
Lemma wp_quiet {A B} (m : M (loader_state K) A) (k : A -> M (loader_state K) B) P Q st : quiet m P -> loader_inv st ->
  (forall a st1, loader_inv st1 -> P a -> wp (k a) Q st1) -> wp (bind m k) Q st.
Proof. intros Hm Hst Hk. apply wp_bind. eapply wp_mono; [by apply Hm|]. intros a st1 [H1 HP]. apply Hk; [by eapply same_procs_inv|done]. Qed.

Lemma wp_add_process code pml4 st : Reliable I l -> loader_inv st -> high < 2 ^ 32 - 1 ->
  wp (in_lsched (process_scheduler_add_process code pml4 false)) (fun pid st' => pid = high + 1 /\ exists c rest p, l = c :: rest /\
    represents (lsched st') (mk_ring (kern (lsched st')) (c :: mk_aproc p (high + 1) (start_regs code false) 0 pml4 :: rest) (high + 1))) st.
Proof.
  intros Hre (HI & Ha & Hr) Hh. destruct (re_malloc _ _ Hre (kern (lsched st)) HI) as (p & k & Em & Hp & Hfresh).
  assert (0 <= high) as H0 by (destruct (rp_ok _ _ Hr) as [_ _ _ _ ?]; cbn in *; lia).
  assert (can_add (mk_ring (kern (lsched st)) l high)) as Hcan by (split; [done|intros p' k' E; cbn in E; rewrite Em in E; by injection E as <- _]).
  pose proof (add_sim code pml4 false (lsched st) _ Hr Hcan) as Hsim. unfold ring_add, on_rk, bind, zoom in Hsim. cbn [rk] in Hsim. rewrite Em in Hsim. cbn [obind] in Hsim.
  rewrite (proj2 (Z.eqb_neq p 0)) in Hsim by done. cbn [rl rhigh rk] in Hsim.
  assert (exists c rest, l = c :: rest) as (c & rest & El).
  { destruct l as [|c rest]; [|by exists c, rest]. destruct (rp_ok _ _ Hr) as [_ _ Hz _ _]. by apply elem_of_nil in Hz. }
  rewrite El, (wrap_id 32) in Hsim by (unfold in_range; lia). destruct Hsim as (s' & Es & Hr').
  apply wp_zoom. eapply wp_step; [exact Es|]. split; [done|]. exists c, rest, p. split; [done|]. cbn. by rewrite (rp_kern _ _ Hr').
Qed.

Lemma wp_load_elf64 f hd es st : Reliable I l -> loader_inv st -> high < 2 ^ 32 - 1 -> image f hd es ->
  wp (program_loader_load_elf64 f) (loaded_program hd es) st.
Proof.
  intros Hre Hst Hh [Ehd Hes]. unfold program_loader_load_elf64.
  eapply wp_quiet; [by apply quiet_print|done|]. intros _ st1 Hst1 _. apply wp_bind. eapply wp_lift; [exact Ehd|].
  eapply wp_quiet; [by apply quiet_check|done|]. intros ok st2 Hst2 Hok. destruct ok; cbn [negb].
  2: { apply wp_ret. split_and!; [done|done|left]. destruct (elf64_error hd); [done|]. by destruct Hok as [_ Hok]; specialize (Hok eq_refl). }
  assert (elf64_error hd = None) as Herr by by apply Hok.
  eapply wp_quiet; [by apply quiet_print|done|]. intros _ st3 Hst3 _. eapply wp_quiet; [by apply quiet_print|done|]. intros _ st4 Hst4 _.
  destruct (re_create _ _ Hre (kern (lsched st4)) (proj1 Hst4)) as (o & k & Ec & HIk).
  assert (loader_inv (mk_loader (set_kern k (lsched st4)) (lstr st4))) as Hst5.
  { eapply same_procs_inv; [|exact Hst4]. exists k, (lstr st4). split_and!; [done|apply Hst4|done]. }
  apply wp_bind. eapply (wp_step _ _ _ o (mk_loader (set_kern k (lsched st4)) (lstr st4))).
  { unfold in_lkern, in_lsched, in_kern, zoom. by rewrite Ec. }
  destruct o as [pml4|].
  2: { eapply wp_quiet; [apply quiet_log; [done|]; split; [by repeat constructor|done]|done|]. intros _ st6 Hst6 _. apply wp_ret.
       split_and!; [done|done|right; right]. exists (kern (lsched st4)), k. split; [apply Hst4|done]. }
  apply wp_bind, wp_zoom. eapply wp_step; [apply (kernel_PML4_eq _ _ (proj2 (proj2 Hst5)))|].
  eapply wp_quiet; [apply quiet_kern; [apply (re_copy _ _ Hre)|by instantiate (1 := fun _ => True)]|exact Hst5|]. intros _ st6 Hst6 _.
  eapply wp_quiet; [apply quiet_kern; [apply (re_set _ _ Hre)|by instantiate (1 := fun _ => True)]|done|]. intros _ st7 Hst7 _.
  eapply wp_quiet; [apply quiet_kern; [apply (re_load _ _ Hre)|by instantiate (1 := fun _ => True)]|done|]. intros _ st8 Hst8 _.
  eapply wp_quiet; [by apply quiet_print|done|]. intros _ st9 Hst9 _.
  eapply wp_quiet; [by apply quiet_segments|done|]. intros ok st10 Hst10 ->. destruct (forallb in_bounds es) eqn:Eb; cbn [negb].
  2: { apply wp_ret. split_and!; [done|done|right; by left]. }
  eapply wp_quiet; [apply quiet_kern; [apply (re_alloc _ _ Hre)|by instantiate (1 := fun _ => True)]|done|]. intros _ st11 Hst11 _.
  eapply wp_quiet; [by apply quiet_print|done|]. intros _ st12 Hst12 _. eapply wp_quiet; [by apply quiet_print|done|]. intros _ st13 Hst13 _.
  eapply wp_quiet; [apply quiet_kern; [apply (re_heap _ _ Hre)|by instantiate (1 := fun _ => True)]|done|]. intros _ st14 Hst14 _.
  eapply wp_quiet; [by apply quiet_tables|done|]. intros _ st15 Hst15 _.
  apply wp_bind. eapply wp_mono; [by apply wp_add_process|]. intros pid st16 (-> & c & rest & p & El & Hr).
  apply wp_bind, wp_modify, wp_ret. split_and!; [done..|]. exists c, rest, p, pml4. split; [done|]. cbn.
  exact (set_kern_represents _ _ _ Hr).
Qed.
End Loader.

(** ** The recording kernel, with the loader's services *)

#[global] Instance recorder_loader : LoaderServices recorder := {|
  l_services := recorder_services;
  l_create_PML4 := fun r => OK (Some (r_next r), mk_rec (r_next r + 4096) (r_calls r));
  l_alloc a _ _ := record "alloc" a ;;; ret true;
  l_edit_pages a _ _ := record "edit_pages" a ;;; ret true;
  l_memcpy a _ := record "memcpy" a;
  l_memset a _ _ := record "memset" a
|}.
Definition unused_above (l : list aproc) (r : recorder) : Prop := 0 < r_next r /\ Forall (fun p => a_addr p < r_next r) l.
Lemma recorder_reliable l : Reliable (unused_above l) l.
Proof.
  split; try (intros; intros k Hk; by eexists _, _); [done| |].
  - intros k [H0 Hk]. eexists _, _. split; [done|]. split; [cbn; lia|]. eapply Forall_impl; [exact Hk|]. cbn. lia.
  - intros k [H0 Hk]. exists (r_next k), (mk_rec (r_next k + PROCESS_SIZE) (r_calls k)). split_and!; [done|lia|].
    intros (p & E & Hp)%list_elem_of_fmap. rewrite Forall_forall in Hk. specialize (Hk p Hp). lia.
Qed.

(** A program of one segment, two bytes at 0x2000000. *)
Definition tiny_elf : list Z :=
  [0x7F; 0x45; 0x4C; 0x46; 2; 1; 1; 0] ++ replicate 8 0 ++ [2; 0; 62; 0; 1; 0; 0; 0] ++ [0; 0; 0; 2; 0; 0; 0; 0] ++
  [64; 0; 0; 0; 0; 0; 0; 0] ++ replicate 8 0 ++ [0; 0; 0; 0; 64; 0; 56; 0; 1; 0; 0; 0; 0; 0; 0; 0] ++
  [1; 0; 0; 0; 5; 0; 0; 0; 120; 0; 0; 0; 0; 0; 0; 0; 0; 0; 0; 2; 0; 0; 0; 0] ++ replicate 8 0 ++
  [2; 0; 0; 0; 0; 0; 0; 0; 16; 0; 0; 0; 0; 0; 0; 0] ++ replicate 8 0 ++ [0xEB; 0xFE].
Definition tiny_header : elf64_header := mk_elf64 0x464C457F 2 1 0 2 62 1 0x2000000 64 56 1.
Definition tiny_segment : elf64_program_header_entry := mk_ph 1 5 120 0x2000000 2 16.
Lemma tiny_image : image tiny_elf tiny_header [tiny_segment].
Proof. split; [by vm_compute|]. split_and!; [by vm_compute|by vm_compute|done]. Qed.


Definition tiny_state : loader_state recorder := mk_loader booted (mk_bheap (fun _ _ => Some []) 0 0).
Definition kernel_aproc : aproc := mk_aproc 4096 0 zero_cpu 0 7.
Lemma tiny_inv : loader_inv (unused_above [kernel_aproc]) [kernel_aproc] 0 tiny_state.
Proof.
  split_and!; [split; [by vm_compute|apply Forall_singleton; by vm_compute]|intros n k; by eexists|].
  destruct (init_represents 7 blank booted eq_refl eq_refl booted_eq) as (p & Hr).
  assert (p = 4096) as -> by (pose proof (rp_chain _ _ Hr) as [E _]; by vm_compute in E). exact Hr.
Qed.

(** A kernel without free pages. *)
Definition starved : LoaderServices recorder := {|
  l_services := recorder_services;
  l_create_PML4 := l_create_PML4;
  l_alloc _ _ _ := ret false;
  l_edit_pages _ _ _ := ret false;
  l_memcpy a _ := record "memcpy" a;
  l_memset a _ _ := record "memset" a
|}.
(** The loader ignores what mapping memory answers: with a kernel that
    never has a page to give, a program is still reported as started, with a
    pid and a process, although none of its segments nor its stack is mapped. *)
Theorem loader_ignores_allocation_failure :
  match program_loader_load_elf64 (H := starved) tiny_elf tiny_state with
  | OK ((ok, o), st') => ok = true /\ o = Some 1 /\ size (procs (lsched st')) = 2%nat
  | _ => False
  end.
Proof. by vm_compute. Qed.
