(* ===== verification/UserMem.v ===== *)
(** * A program's memory

    Bytes, strings and buffers at virtual addresses, as the kernel's functions
    reach them through the page tables of the running process. *)
From S2P Require Import Prelude Mem Util Str Pmm Vmm VmmTree VmmSpec VmmThms Heap Allocator AllocInit Loader.

(** ** Accesses *)

Definition vload8 (a : Z) : M vmm_state Z := fun st =>
  match mmu_phys st a with Some p => OK (rd8 (ram (pmm st)) p, st) | None => UB end.
(** A string, with its terminator. *)
Fixpoint vstring (fuel : nat) (a : Z) : M vmm_state (list Z) :=
  match fuel with
  | O => out_of_fuel
  | S n => let* c := vload8 a in
      if c =? 0 then ret [0] else let* l := vstring n (a + 1) in ret (c :: l)
  end.
(** The memory from [a] on as far as it is mapped, at most [n] bytes: what an
    access beyond faults on. *)
Fixpoint vbuffer (n : nat) (a : Z) : M vmm_state (list Z) := fun st =>
  match n, mmu_phys st a with
  | S n', Some p => obind (vbuffer n' (a + 1) st) (fun r => OK (rd8 (ram (pmm st)) p :: fst r, st))
  | _, _ => OK ([], st)
  end.

(** ** What a program sees *)

Definition ubyte (st : vmm_state) (a : Z) : option Z := p ← mmu_phys st a; Some (rd8 (ram (pmm st)) p).
(** The bytes [bs] stand at [a]. *)
Definition holds (st : vmm_state) (a : Z) (bs : list Z) : Prop :=
  0 <= a /\ a + len bs <= 2 ^ 64 /\ forall i v, bs !! i = Some v -> ubyte st (a + Z.of_nat i) = Some v.

Lemma holds_cons st a v bs : holds st a (v :: bs) -> ubyte st a = Some v /\ holds st (a + 1) bs.
Proof.
  intros (Ha & Hl & Hb). unfold len in *. cbn in Hl. split; [specialize (Hb 0%nat v eq_refl); by rewrite Z.add_0_r in Hb|].
  split_and!; [lia|unfold len; lia|]. intros i w Hi. specialize (Hb (S i) w Hi). by replace (a + 1 + Z.of_nat i) with (a + Z.of_nat (S i)) by lia.
Qed.
Lemma ubyte_phys st a v : ubyte st a = Some v -> exists p, mmu_phys st a = Some p /\ rd8 (ram (pmm st)) p = v.
Proof. unfold ubyte. destruct (mmu_phys st a) as [p|]; [|done]. intros [= <-]. eauto. Qed.
Lemma mmu_canonical st a p : mmu_phys st a = Some p -> canonical a = true.
Proof. unfold mmu_phys. by destruct (canonical a). Qed.
Lemma canonical_range a : canonical a = true -> 0 <= a < 2 ^ 64.
Proof. unfold canonical. intros [[?%Z.leb_le ?%Z.ltb_lt]%andb_true_iff|[?%Z.leb_le ?%Z.ltb_lt]%andb_true_iff]%orb_true_iff; lia. Qed.

Lemma vstring_ok st t fuel a : holds st a (t ++ [0]) -> nonzero t -> (length t < fuel)%nat -> vstring fuel a st = OK (t ++ [0], st).
Proof.
  revert fuel a. induction t as [|c t IH]; intros [|fuel] a Hh Hn Hf; cbn [length app] in *; try lia;
    apply holds_cons in Hh as [(p & Hp & Ec)%ubyte_phys Hh]; cbn [vstring]; unfold bind, vload8; rewrite Hp; cbn [obind]; rewrite Ec.
  - done.
  - inversion_clear Hn as [|?? Hc Hn']. rewrite (proj2 (Z.eqb_neq c 0)) by done.
    by rewrite (IH fuel (a + 1)) by (done || lia).
Qed.

(** The buffer at [a] starts with whatever is known to stand there. *)
Lemma vbuffer_ok st n a : 0 <= a <= 2 ^ 64 -> exists bs, vbuffer n a st = OK (bs, st) /\ (length bs <= n)%nat /\ bytes bs /\ holds st a bs /\
  forall known, holds st a known -> (length known <= n)%nat -> known `prefix_of` bs.
Proof.
  revert a. induction n as [|n IH]; intros a Ha; cbn [vbuffer].
  { exists []. split_and!; [done|cbn; lia|apply Forall_nil_2|split_and!; [lia|unfold len; cbn [length]; lia|done]|]. intros [|] _ Hl; [done|cbn in Hl; lia]. }
  destruct (mmu_phys st a) as [p|] eqn:Hp.
  2: { exists []. split_and!; [done|cbn; lia|apply Forall_nil_2|split_and!; [lia|unfold len; cbn [length]; lia|done]|].
       intros [|v known] Hh _; [apply prefix_nil|]. apply holds_cons in Hh as [(p & Hp' & _)%ubyte_phys _]. congruence. }
  pose proof (canonical_range a (mmu_canonical _ _ _ Hp)) as Hr. destruct (IH (a + 1) ltac:(lia)) as (bs & -> & Hlb & Hb & Hh & Hk). cbn [obind fst].
  eexists. split; [reflexivity|]. split_and!.
  - cbn [length]. lia.
  - apply Forall_cons_2; [apply rd8_range|done].
  - destruct Hh as (_ & Hl & Hbs). unfold len in *. split_and!; [lia|unfold len; cbn [length]; lia|]. intros [|i] v Hi; cbn in Hi.
    + injection Hi as <-. rewrite Z.add_0_r. unfold ubyte. by rewrite Hp.
    + replace (a + Z.of_nat (S i)) with (a + 1 + Z.of_nat i) by lia. by apply Hbs.
  - intros [|v known] Hkn Hl; [apply prefix_nil|]. cbn in Hl. apply holds_cons in Hkn as [(p' & Hp' & <-)%ubyte_phys Hkn].
    rewrite Hp in Hp'. injection Hp' as <-. apply prefix_cons. apply Hk; [done|lia].
Qed.

Lemma vbuffer_exact st a bs : holds st a bs -> vbuffer (length bs) a st = OK (bs, st).
Proof.
  intros Hh. pose proof Hh as (Ha & Hl & _). destruct (vbuffer_ok st (length bs) a) as (bs' & -> & Hlen & _ & _ & Hk); [unfold len in Hl; lia|].
  destruct (Hk bs Hh (le_n _)) as [rest ->]. rewrite length_app in Hlen. destruct rest; [by rewrite app_nil_r|cbn in Hlen; lia].
Qed.

(** ** Storing *)

(** The tables in use are those of the invariant. *)
Definition user_ok (own : Z -> bool) (st : vmm_state) : Prop := vmm_ok own st /\ cr3 st = root st.

Lemma ubyte_node own st a v : user_ok own st -> ubyte st a = Some v ->
  canonical a = true /\ exists t, nd st (vpath a) = Some t /\ mmu_phys st a = Some (t + a mod 4096).
Proof.
  intros [_ Hc] (p & Hp & _)%ubyte_phys. split; [by eapply mmu_canonical|]. unfold mmu_phys, nd in *. rewrite Hc in *.
  destruct (canonical a); [|done]. destruct (node _ _ _) as [t|]; [|done]. exists t. by split.
Qed.

Lemma vstore8_ok own st a v w : user_ok own st -> own (PML4_INDEX a) = true -> ubyte st a = Some w ->
  exists m', vstore8 a v st = OK (tt, upd_ram (fun _ => m') st) /\ user_ok own (upd_ram (fun _ => m') st) /\
    forall b, own (PML4_INDEX b) = true -> ubyte (upd_ram (fun _ => m') st) b = if decide (b = a) then Some (u8 v) else ubyte st b.
Proof.
  intros Hst Hown Hw. pose proof Hst as [Hok Hc]. destruct (ubyte_node own st a w Hst Hw) as (Hca & t & Ht & Hp).
  pose proof (page_frame own st Hok a t Hown Ht) as Ht4. set (m' := wr8 (ram (pmm st)) (t + a mod 4096) v).
  assert (forall x, x < t \/ t + 4096 <= x -> rd8 m' x = rd8 (ram (pmm st)) x) as Hout by (intros x Hx; apply rd8_wr8_ne; divlia).
  exists m'. split; [unfold vstore8; by rewrite Hp|]. split; [split; [by apply (page_vmm_ok own st Hok a t Hown Ht)|done]|].
  intros b Hob. pose proof (page_nodes own st Hok a t Hown Ht m' Hout (vpath b) (page_path own b Hob)) as Hn.
  unfold ubyte, mmu_phys. unfold nd in Hn. change (root (upd_ram _ st)) with (root st) in Hn. change (cr3 (upd_ram _ st)) with (cr3 st).
  change (ram (pmm (upd_ram (fun _ => m') st))) with m' in *. rewrite Hc, Hn. case_decide as Hba.
  - subst b. rewrite Hca. unfold nd in Ht. rewrite Ht. cbn. unfold m'. by rewrite rd8_wr8_eq.
  - destruct (canonical b) eqn:Hcb; [|done]. destruct (node (ram (pmm st)) (root st) (vpath b)) as [u|] eqn:Hu; [|done]. cbn. f_equal.
    apply rd8_wr8_ne. intros E. destruct (vok_nodes _ _ Hok _ _ (page_path own b Hob) Hu) as (Hu4 & _).
    assert (u = t) as -> by divlia. apply (page_offset own st Hok a t Hown Ht b t Hca Hcb Hob Hu Hba eq_refl). lia.
Qed.

Lemma upd_ram_twice m1 m2 st : upd_ram (fun _ => m2) (upd_ram (fun _ => m1) st) = upd_ram (fun _ => m2) st.
Proof. done. Qed.

Lemma vstore_list_ok own bs : forall st a old, user_ok own st -> (forall i, (i < length bs)%nat -> own (PML4_INDEX (a + Z.of_nat i)) = true) ->
  holds st a old -> length old = length bs -> a + len bs < 2 ^ 64 -> bytes bs ->
  exists m', vstore_list a bs st = OK (tt, upd_ram (fun _ => m') st) /\ user_ok own (upd_ram (fun _ => m') st) /\
    holds (upd_ram (fun _ => m') st) a bs /\
    forall b, own (PML4_INDEX b) = true -> ~ (a <= b < a + len bs) -> ubyte (upd_ram (fun _ => m') st) b = ubyte st b.
Proof.
  induction bs as [|v bs IH]; intros st a [|w old] Hst Hown Hh Hl Hlim Hb; try discriminate Hl.
  { exists (ram (pmm st)). destruct st as [[] ? ? ? ? ?]. split_and!; try done; apply Hh. }
  injection Hl as Hl. pose proof Hh as (Ha & _ & _). apply holds_cons in Hh as [Hw Hh]. inversion_clear Hb as [|?? Hv Hb'].
  pose proof (Hown 0%nat ltac:(cbn; lia)) as Ho. rewrite Z.add_0_r in Ho.
  destruct (vstore8_ok own st a v w Hst Ho Hw) as (m1 & E1 & Hst1 & Hby1). set (st1 := upd_ram (fun _ => m1) st) in *.
  assert (forall i, (i < length bs)%nat -> own (PML4_INDEX (a + 1 + Z.of_nat i)) = true) as Hown1.
  { intros i Hi. replace (a + 1 + Z.of_nat i) with (a + Z.of_nat (S i)) by lia. apply Hown. cbn. lia. }
  assert (holds st1 (a + 1) old) as Hh1.
  { destruct Hh as (? & ? & Hbytes). split_and!; [done..|]. intros i x Hi. assert (i < length bs)%nat as Hlt by (apply lookup_lt_Some in Hi; lia).
    rewrite Hby1 by by apply Hown1. rewrite decide_False by lia. by apply Hbytes. }
  unfold len in Hlim. cbn [length] in Hlim.
  destruct (IH st1 (a + 1) old Hst1 Hown1 Hh1 Hl ltac:(unfold len; lia) Hb') as (m2 & E2 & Hst2 & Hh2 & Hrest). unfold st1 in *. rewrite upd_ram_twice in *.
  exists m2. cbn [vstore_list]. rewrite (bind_step _ _ _ _ _ E1), (wrap_id 64 (a + 1)) by (unfold in_range; lia).
  split; [done|]. split; [done|]. split.
  - destruct Hh2 as (_ & _ & Hbytes). split_and!; [done|unfold len; cbn [length]; lia|]. intros [|i] x Hi; cbn in Hi.
    + injection Hi as ->. rewrite Z.add_0_r, Hrest by (done || lia). rewrite Hby1, decide_True by done. f_equal. by apply wrap_id.
    + replace (a + Z.of_nat (S i)) with (a + 1 + Z.of_nat i) by lia. by apply Hbytes.
  - intros b Hob Hnb. unfold len in *. cbn [length] in Hnb. rewrite Hrest by (done || lia). rewrite Hby1 by done. by rewrite decide_False by lia.
Qed.
