(* ===== verification/System.v ===== *)
(** * The whole kernel behind the system call

    [Syscall] dispatches over the class [SysOps]; here the class is implemented
    by the components themselves, with the pointers of the calling program
    followed through its page tables.  The temporary buffers of the filesystem
    and of the loader come from the allocation oracle of [Str]; everything a
    program can reach is in its own memory. *)
From S2P Require Import Prelude Mem Util Str StrLib Pmm Vmm VmmTree VmmSpec VmmThms Heap Allocator AllocInit.
From S2P Require Import Ata Fs FsThms FsEdit FsPath FsWrite FsDelete FsOps FsRmdir Gdt Scheduler Screen ScreenThms Loader UserMem Syscall Stubs Entry.

Record os_state := mk_os { o_prog : loader_state alloc_state; o_files : fs_state; o_screen : screen_state; o_key : Z }.
Definition set_prog (p : loader_state alloc_state) (s : os_state) : os_state := mk_os p (o_files s) (o_screen s) (o_key s).
Definition set_files (f : fs_state) (s : os_state) : os_state := mk_os (o_prog s) f (o_screen s) (o_key s).

(** The memory of the running process. *)
Definition o_mem (s : os_state) : vmm_state := avmm (kern (lsched (o_prog s))).
Definition set_mem (v : vmm_state) (s : os_state) : os_state :=
  let p := o_prog s in let c := lsched p in set_prog (mk_loader (set_kern (set_avmm v (kern c)) c) (lstr p)) s.

Definition in_prog {A} (m : M (loader_state alloc_state) A) : M os_state A := zoom o_prog set_prog m.
Definition in_osched {A} (m : M (sched_state alloc_state) A) : M os_state A := in_prog (in_lsched m).
Definition in_oalloc {A} (m : M alloc_state A) : M os_state A := in_osched (in_kern m).
Definition in_omem {A} (m : M vmm_state A) : M os_state A := zoom o_mem set_mem m.
Definition in_files {A} (m : M fs_state A) : M os_state A := zoom o_files set_files m.
Definition in_oscreen {A} (m : M screen_state A) : M os_state A := zoom o_screen (fun c s => mk_os (o_prog s) (o_files s) c (o_key s)) m.

(** [file_metadata_t] in memory: 8, 4 and 60 bytes. *)
Definition META_SIZE : Z := 72.
Definition decode_meta (bs : list Z) : file_metadata_t := mk_meta (le (take 8 bs)) (le (take 4 (drop 8 bs))) (take 60 (drop 12 bs)).
Definition encode_meta (md : file_metadata_t) : list Z := unle 8 (md_size md) ++ unle 4 (md_type md) ++ md_name md.

Section Os.
(** [fuel] bounds the walks over lists, strings and directories; [stack] is
    what an uninitialised local holds. *)
Context (fuel : nat) (stack : file_metadata_t).
#[local] Instance os_loader : LoaderServices alloc_state := real_services fuel.

(** No file is longer than a transfer can be. *)
Definition BUFFER_LIMIT : nat := Z.to_nat (256 * 512).
Definition string_at (a : Z) : M os_state (list Z) := in_omem (vstring fuel a).

#[local] Instance os_sys : SysOps os_state := {|
  sys_kernel_PML4 := in_osched process_scheduler_get_kernel_PML4;
  sys_current_PML4 := in_osched process_scheduler_get_current_PML4;
  sys_exit := in_osched (process_scheduler_exit fuel);
  sys_send_signals p s := in_osched (process_scheduler_send_signals fuel p s);
  sys_set_PML4 p := in_omem (vmm_set_PML4 p);
  sys_load_cpu := in_omem vmm_load_cpu;
  sys_malloc n := in_oalloc (malloc fuel n);
  sys_free p := in_oalloc (free fuel p);
  sys_malloc_kernel n := in_oalloc (malloc_kernel fuel n);
  sys_free_kernel p := in_oalloc (free_kernel fuel p);
  sys_strlen p := let* s := string_at p in lift (strlen s);
  sys_memcpy dst src n := in_omem (for_loop (Z.to_nat n) 0 (fun i => let* b := vload8 (u64 (src + i)) in vstore8 (u64 (dst + i)) b));
  sys_store n p v := in_omem (vstore_list p (unle n v));
  sys_read_metadata path :=
    let* p := string_at path in
    let* (ok, md) := in_files (filesystem_read_file_metadata p stack) in ret (ok, md_size md);
  sys_read_file_metadata path out :=
    let* p := string_at path in
    let* old := in_omem (vbuffer (Z.to_nat META_SIZE) out) in
    let* (ok, md) := in_files (filesystem_read_file_metadata p (decode_meta old)) in
    (if ok : bool then in_omem (vstore_list out (encode_meta md)) else ret tt) ;;; ret ok;
  sys_read_file path out :=
    let* p := string_at path in
    let* buf := in_omem (vbuffer BUFFER_LIMIT out) in
    let* (ok, d) := in_files (filesystem_read_file p (Some buf)) in
    in_omem (vstore_list out (default [] d)) ;;; ret ok;
  sys_file_exists path := let* p := string_at path in in_files (filesystem_file_exists p);
  sys_write_file path data ty size :=
    let* p := string_at path in
    let* buf := in_omem (vbuffer (Z.to_nat size) data) in
    in_files (filesystem_write_file p (Some buf) ty size);
  sys_delete_file path := let* p := string_at path in in_files (filesystem_delete_file p);
  sys_create_directory path := let* p := string_at path in in_files (filesystem_create_directory p);
  sys_delete_directory path := let* p := string_at path in in_files (filesystem_delete_directory fuel p);
  sys_move_file path new_path :=
    let* p := string_at path in let* q := string_at new_path in in_files (filesystem_move_file p q);
  sys_list_dir path count :=
    let* p := string_at path in
    let* l := in_files (filesystem_list_dir stack p) in
    match l with
    | None => ret 0
    | Some l =>
        let n := Z.of_nat (length l) in
        let* a := in_oalloc (malloc fuel (n * META_SIZE)) in
        in_omem (vstore_list a (l ≫= encode_meta)) ;;;
        in_omem (vstore_list count (unle 8 n)) ;;; ret a
    end;
  sys_load_elf64 data :=
    let* f := in_omem (vbuffer BUFFER_LIMIT data) in in_prog (program_loader_load_elf64 f);
  sys_take_key := let* k := gets o_key in modify (fun s => mk_os (o_prog s) (o_files s) (o_screen s) 0) ;;; ret k;
  sys_print p := let* s := string_at p in in_oscreen (Screen.screen_print s);
  sys_clear := in_oscreen screen_clear
|}.

(** ** Calls on files *)

Lemma set_mem_id s : set_mem (o_mem s) s = s.
Proof using. by destruct s as [[[[] ? ? ? ?] ?] ? ? ?]. Qed.
Lemma omem_step {A} (m : M vmm_state A) s a : m (o_mem s) = OK (a, o_mem s) -> in_omem m s = OK (a, s).
Proof using. intros E. unfold in_omem, zoom. rewrite E. cbn. by rewrite set_mem_id. Qed.

(** A text that a program passes by address. *)
Definition text_at (st : vmm_state) (a : Z) (p : list Z) : Prop := holds st a (p ++ [0]) /\ nonzero p /\ (length p < fuel)%nat.
Lemma string_at_ok s a p : text_at (o_mem s) a p -> string_at a s = OK (p ++ [0], s).
Proof using. intros (Hh & Hn & Hf). apply omem_step. by apply vstring_ok. Qed.

Inductive file_call :=
| FWrite (path data : list Z) | FDelete (path : list Z) | FCreate (path : list Z) | FRmdir (path : list Z) | FMove (path new_path : list Z).
Definition call_number (c : file_call) : Z :=
  match c with FWrite _ _ => 43 | FDelete _ => 44 | FCreate _ => 45 | FRmdir _ => 46 | FMove _ _ => 47 end.
(** The filesystem operation a call stands for. *)
Definition call_op (c : file_call) : M fs_state bool :=
  match c with
  | FWrite p d => filesystem_write_file (p ++ [0]) (Some d) FILE (len d)
  | FDelete p => filesystem_delete_file (p ++ [0])
  | FCreate p => filesystem_create_directory (p ++ [0])
  | FRmdir p => filesystem_delete_directory fuel (p ++ [0])
  | FMove p q => filesystem_move_file (p ++ [0]) (q ++ [0])
  end.
(** Its operands as the program passes them. *)
Definition passed (st : vmm_state) (c : file_call) (a1 a2 a3 : Z) : Prop :=
  match c with
  | FWrite p d => text_at st a1 p /\ holds st a2 d /\ a3 = len d
  | FDelete p | FCreate p | FRmdir p => text_at st a1 p
  | FMove p q => text_at st a1 p /\ text_at st a2 q
  end.

Lemma switch_file_call s c a1 a2 a3 f : passed (o_mem s) c a1 a2 a3 ->
  syscall_switch (call_number c) a1 a2 a3 f s = obind (call_op c (o_files s)) (fun r => OK ((f, fst r), set_files (snd r) s)).
Proof using.
  intros Hp. assert (forall (m : M os_state bool) (o : M fs_state bool), m s = in_files o s ->
    (let* success := m in ret (f, success)) s = obind (o (o_files s)) (fun r => OK ((f, fst r), set_files (snd r) s))) as Hkeep.
  { intros m o E. unfold bind. rewrite E. unfold in_files, zoom. by destruct (o (o_files s)) as [[]| | |]. }
  destruct c as [p d|p|p|p|p q]; cbn [passed call_number call_op] in *; apply Hkeep.
  - destruct Hp as (Ht & Hd & ->). cbn [sys_write_file os_sys]. rewrite (bind_step _ _ _ _ _ (string_at_ok _ _ _ Ht)).
    rewrite (bind_step _ _ _ d s); [done|]. apply omem_step. unfold len. rewrite Nat2Z.id. by apply vbuffer_exact.
  - cbn [sys_delete_file os_sys]. by rewrite (bind_step _ _ _ _ _ (string_at_ok _ _ _ Hp)).
  - cbn [sys_create_directory os_sys]. by rewrite (bind_step _ _ _ _ _ (string_at_ok _ _ _ Hp)).
  - cbn [sys_delete_directory os_sys]. by rewrite (bind_step _ _ _ _ _ (string_at_ok _ _ _ Hp)).
  - destruct Hp as [Hp Hq]. cbn [sys_move_file os_sys]. rewrite (bind_step _ _ _ _ _ (string_at_ok _ _ _ Hp)).
    by rewrite (bind_step _ _ _ _ _ (string_at_ok _ _ _ Hq)).
Qed.

(** A call through the gate, by what the dispatch does. *)
Lemma wp_syscall clobber entry (Q : Z -> machine * os_state -> Prop) num a1 a2 a3 m s : num <> 0 -> selectors_ok (core m) ->
  wp (syscall_switch num a1 a2 a3 (frame_of (core (set_args num a1 a2 a3 m)) 0))
    (fun r s' => forall m', selectors_ok (core m') -> Q (Z.b2z (snd r)) (m', s')) s ->
  wp (syscall clobber entry num a1 a2 a3) Q (m, s).
Proof using.
  intros Hn Hsel Hw. pose proof (syscall_answers clobber entry num a1 a2 a3 m s Hn Hsel) as Ha. cbv zeta in Ha.
  apply wp_OK in Hw as ([f b] & s' & E & HQ). rewrite E in Ha. cbn [answers] in Ha.
  destruct Ha as (m' & E' & _ & _ & _ & Hfs & Hgs & _). eapply wp_step; [exact E'|]. apply HQ. destruct Hsel as [H1 H2].
  unfold selectors_ok. rewrite Hfs, Hgs. by split.
Qed.

(** ** Reading a file into a program's buffer *)

Lemma user_index a : 0 <= a < 2 ^ 47 -> 0 <= PML4_INDEX a < 256.
Proof using.
  intros Ha. unfold PML4_INDEX. change 511 with (Z.ones 9). rewrite Z.land_ones, Z.shiftr_div_pow2 by lia. split; [apply Z.mod_pos_bound; lia|].
  assert (0 <= a / 2 ^ 39 < 256) by divlia. rewrite Z.mod_small; lia.
Qed.

Lemma disk_read_shape m lba sz b : 0 <= sz -> sz + sz mod 2 <= len b ->
  length (disk_read m lba sz b) = length b /\ forall i, sz + sz mod 2 <= Z.of_nat i -> disk_read m lba sz b !! i = b !! i.
Proof using.
  intros Hs Hl. unfold disk_read, len in *.
  assert (length (rd_bytes (Z.to_nat sz) m (512 * lba) ++ (if sz mod 2 =? 1 then [0] else [])) = Z.to_nat (sz + sz mod 2)) as E.
  { rewrite length_app, length_rd_bytes. destruct (Z.eqb_spec (sz mod 2) 1) as [->|]; cbn [length]; [lia|]. assert (sz mod 2 = 0) as -> by divlia. lia. }
  rewrite app_assoc. split.
  - rewrite length_app, E, length_drop. divlia.
  - intros i Hi. rewrite lookup_app_r by lia. rewrite E, lookup_drop. f_equal. divlia.
Qed.
Lemma disk_read_bytes m lba sz b : bytes b -> bytes (disk_read m lba sz b).
Proof using.
  intros Hb. unfold disk_read. apply Forall_app. split; [apply bytes_rd_bytes|]. apply Forall_app. split; [|by apply Forall_drop].
  destruct (sz mod 2 =? 1); [by apply Forall_singleton|apply Forall_nil_2].
Qed.

Lemma buffer_limit : Z.of_nat BUFFER_LIMIT = 2 ^ 17.
Proof using. unfold BUFFER_LIMIT. rewrite Z2Nat.id; lia. Qed.
#[local] Opaque BUFFER_LIMIT.

(** The program's buffer after a file of [sz] bytes was read to [out]. *)
Definition delivered (own : Z -> bool) (s : os_state) (out : Z) (data : list Z) (s' : os_state) : Prop :=
  user_ok own (o_mem s') /\ holds (o_mem s') out data /\
  forall b, own (PML4_INDEX b) = true -> ~ (out <= b < out + len data + len data mod 2) -> ubyte (o_mem s') b = ubyte (o_mem s) b.

Lemma wp_sys_read own (Q : bool -> os_state -> Prop) sc m t dirs root s path out p cs i e old :
  (forall k, 0 <= k < 256 -> own k = true) -> user_ok own (o_mem s) -> fs_wf sc m t dirs root -> ready sc m (o_files s) ->
  text_at (o_mem s) path p -> is_path (p ++ [0]) cs -> presolve t dirs cs root = Some i -> live t i e ->
  holds (o_mem s) out old -> len old = size e + size e mod 2 -> out + 2 ^ 17 <= 2 ^ 47 ->
  (forall s', delivered own s out (file_bytes m e) s' -> Q true s') ->
  wp (sys_read_file path out) Q s.
Proof using.
  intros Hown Hmem Hwf Hrd Ht Hp Hr He Hold Hlo Hout HQ. pose proof buffer_limit as Hlimit. pose proof Hold as (Ho0 & _). cbn [sys_read_file os_sys].
  pose proof (wf_size _ _ _ _ _ (proj2 Hwf) i e He) as Hmax. destruct (lay_in _ _ (wf_layout _ _ _ _ _ (proj2 Hwf)) i e He) as [Hs _].
  apply wp_bind. eapply wp_step; [by apply string_at_ok|].
  destruct (vbuffer_ok (o_mem s) BUFFER_LIMIT out) as (bs & Ebs & Hlen & Hbs & Hhold & Hknown); [lia|].
  apply wp_bind. eapply wp_step; [by apply omem_step|].
  assert (old `prefix_of` bs) as [rest Erest].
  { apply Hknown; [done|]. unfold len, MAX_FILE in *. divlia. }
  assert (size e + size e mod 2 <= len bs) as Hfit by (rewrite Erest, <- Hlo; unfold len; rewrite length_app; lia).
  assert (forall j f, presolve t dirs cs root = Some j -> live t j f -> f = e) as Hsame.
  { intros j f Hj Hf. rewrite Hr in Hj. injection Hj as <-. by apply (live_fun t i). }
  apply wp_bind, wp_zoom. eapply (wp_read_file t dirs root sc m Hwf); [done|done| |].
  2: { intros j f Hj Hf. by rewrite (Hsame j f Hj Hf). }
  intros fs' _. rewrite Hr. intros f Hf _. rewrite (Hsame i f Hr Hf). set (d := disk_read m (start_sector e) (size e) bs). cbn [default].
  destruct (disk_read_shape m (start_sector e) (size e) bs) as [Hdl Hdr]; [lia|done|]. fold d in Hdl, Hdr.
  assert (forall k, (k < length d)%nat -> own (PML4_INDEX (out + Z.of_nat k)) = true) as Hod.
  { intros k Hk. apply Hown, user_index. lia. }
  destruct (vstore_list_ok own d (o_mem s) out bs) as (m' & Est & Hok' & Hh' & Hrest);
    [exact Hmem|exact Hod|exact Hhold|symmetry; exact Hdl|unfold len in *; lia|by apply disk_read_bytes|].
  assert (in_omem (vstore_list out d) (set_files fs' s) = OK (tt, set_mem (upd_ram (fun _ => m') (o_mem s)) (set_files fs' s))) as Estore.
  { unfold in_omem, zoom. change (o_mem (set_files fs' s)) with (o_mem s). by rewrite Est. }
  apply wp_bind. eapply wp_step; [exact Estore|].
  apply wp_ret, HQ. set (s' := set_mem _ _). assert (o_mem s' = upd_ram (fun _ => m') (o_mem s)) as Em by reflexivity.
  assert (len (file_bytes m e) = size e) as Hfl by (apply length_file_bytes; lia).
  unfold delivered. rewrite Em, Hfl. split; [done|]. split.
  - destruct Hh' as (_ & Hend & Hb). split_and!; [done|unfold len in *; lia|]. intros k v Hk. apply Hb.
    rewrite <- (take_disk_read m e bs) in Hk by lia. fold d in Hk. by apply lookup_take_Some in Hk as [? _].
  - intros b Hob Hnb. destruct (decide (out <= b < out + len d)) as [Hin|Hni]; [|by apply Hrest].
    destruct (lookup_lt_is_Some_2 bs (Z.to_nat (b - out))) as [v Hv]; [unfold len in *; lia|].
    destruct Hh' as (_ & _ & Hb'), Hhold as (_ & _ & Hb). replace b with (out + Z.of_nat (Z.to_nat (b - out))) by lia.
    rewrite (Hb _ v Hv). apply Hb'. rewrite Hdr by lia. done.
Qed.
End Os.

(** ** A concrete program *)

(** One page at [0x2000000] with the path ["/b"], three bytes of data at its
    offset 16 and a buffer at its offset 32. *)
Definition PAGE : Z := 0x2000000.
Definition prog_bytes : list Z := cstr "/b" ++ replicate 13 0 ++ [5; 6; 7] ++ replicate 45 0.
Definition prog_map : M vmm_state bool := vmm_map_page PAGE (3 * 4096) VMM_FLAGS_USER_RW.
Definition prog_mem : vmm_state :=
  match (prog_map ;;; vstore_list PAGE prog_bytes) demo_vmm with OK (_, st) => st | _ => demo_vmm end.
Definition prog_os : os_state := mk_os (mk_loader (mk_sched (mk_alloc prog_mem true) ∅ 0 0 0) demo_bheap) demo_st demo_screen 0.

(** A closed check of [holds]. *)
Definition holdsb (st : vmm_state) (a : Z) (bs : list Z) : bool :=
  (0 <=? a) && (a + len bs <=? 2 ^ 64) &&
  forallb (fun '(i, v) => bool_decide (ubyte st (a + Z.of_nat i) = Some v)) (imap pair bs).
Lemma holdsb_ok st a bs : holdsb st a bs = true -> holds st a bs.
Proof.
  unfold holdsb. intros [[?%Z.leb_le ?%Z.leb_le]%andb_true_iff Hb]%andb_true_iff. split_and!; [done..|].
  intros i v Hi. rewrite forallb_forall in Hb. specialize (Hb (i, v)). apply bool_decide_eq_true_1 in Hb; [done|].
  apply list_elem_of_In, elem_of_lookup_imap. eauto.
Qed.

Lemma prog_mem_user : user_ok all_own prog_mem.
Proof.
  destruct (map_page_new all_own demo_vmm demo_vmm_ok PAGE 3 VMM_FLAGS_USER_RW eq_refl demo_mappable
    ltac:(vm_compute; done) eq_refl 0 demo_free (demo_tr _)) as (st & R & Hok & _).
  assert (match prog_map demo_vmm with OK (_, v) => (cr3 v =? root v) && holdsb v PAGE (replicate 64 0) | _ => false end = true) as E
    by (vm_compute; reflexivity).
  change (prog_map demo_vmm = OK (true, st)) in R. rewrite R in E. apply andb_true_iff in E as [Ec%Z.eqb_eq Eh%holdsb_ok].
  destruct (vstore_list_ok all_own prog_bytes st PAGE (replicate 64 0)) as (m' & Es & Hu & _);
    [exact (conj Hok Ec)|intros; reflexivity|exact Eh|reflexivity|vm_compute; reflexivity| |].
  { assert (forallb (fun b => (0 <=? b) && (b <? 256)) prog_bytes = true) as Eb by (vm_compute; reflexivity).
    apply Forall_forall. intros b Hb. rewrite forallb_forall in Eb. apply list_elem_of_In, Eb, andb_true_iff in Hb as [?%Z.leb_le ?%Z.ltb_lt]. by split. }
  pose proof (bind_step _ (fun _ => vstore_list PAGE prog_bytes) _ _ _ R) as Eb. cbv beta in Eb. rewrite Es in Eb.
  unfold prog_mem. rewrite Eb. exact Hu.
Qed.
Lemma prog_path : text_at 8 (o_mem prog_os) PAGE [47; 98].
Proof. split; [by apply holdsb_ok; vm_compute|]. split; [by each|cbn; lia]. Qed.




