(* ===== verification/SystemHeap.v ===== *)
(** * A program's heap through the system call

    The shell's [malloc] and [free] (programs/shell/c.c): the request passes the
    gate and the dispatch to the heap of the running process, and the pointer
    comes back through a variable in the program's memory. *)
From S2P Require Import Prelude Mem Util Str StrLib Pmm Vmm VmmTree VmmSpec VmmThms Heap Allocator AllocInit.
From S2P Require Import Ata Fs FsThms Gdt Scheduler Screen ScreenThms Loader UserMem Syscall Stubs Entry System.

(** ** A store of several bytes is a store of the word *)

Lemma next_in_page a : canonical a = true -> a mod 4096 + 1 < 4096 ->
  canonical (a + 1) = true /\ vpath (a + 1) = vpath a /\ u64 (a + 1) = a + 1 /\ (a + 1) mod 4096 = a mod 4096 + 1.
Proof.
  unfold canonical. rewrite !orb_true_iff, !andb_true_iff, !Z.leb_le, !Z.ltb_lt. intros Ha Hm. split_and!.
  - divlia.
  - apply vpath_inj. f_equal. divlia.
  - apply wrap_id. unfold in_range. divlia.
  - divlia.
Qed.

Lemma vstore_bytes own k : forall st a t v, user_ok own st -> canonical a = true -> own (PML4_INDEX a) = true ->
  nd st (vpath a) = Some t -> a mod 4096 + Z.of_nat k <= 4096 ->
  vstore_list a (unle k v) st = OK (tt, upd_ram (fun m => wrn k m (t + a mod 4096) v) st).
Proof.
  induction k as [|k IH]; intros st a t v [Hok Hc] Hca Hown Ht Hk; cbn [unle vstore_list wrn].
  { by destruct st as [[] ? ? ? ? ?]. }
  set (m' := wr8 (ram (pmm st)) (t + a mod 4096) v). set (st1 := upd_ram (fun _ => m') st).
  assert (vstore8 a (u8 v) st = OK (tt, st1)) as E.
  { unfold vstore8. rewrite (mmu_phys_eq own st a t) by done. unfold st1, m', wr8. cbn. by rewrite wrap_wrap. }
  rewrite (bind_step _ _ _ _ _ E). destruct k as [|k]; [by destruct st as [[] ? ? ? ? ?]|].
  destruct (next_in_page a Hca ltac:(lia)) as (Hca1 & Hv1 & -> & Hm1).
  pose proof (page_frame own st Hok a t Hown Ht) as Ht4.
  assert (forall x, x < t \/ t + 4096 <= x -> rd8 m' x = rd8 (ram (pmm st)) x) as Hout by (intros x Hx; apply rd8_wr8_ne; divlia).
  assert (own (PML4_INDEX (a + 1)) = true) as Hown1 by (injection Hv1 as -> _ _ _; done).
  rewrite (IH st1 (a + 1) t (v / 256)); [|split; [by apply (page_vmm_ok own st Hok a t Hown Ht)|done]|done|done| |lia].
  2: { rewrite Hv1. unfold st1. rewrite (page_nodes own st Hok a t Hown Ht m' Hout) by (by apply (page_path own a)). done. }
  rewrite Hm1, Z.add_assoc. by destruct st as [[] ? ? ? ? ?].
Qed.

Lemma vstore_word own st h a v : mrepr own st h -> is_Some (h !! a) -> in_range 64 v ->
  exists st', vstore_list a (unle 8 v) st = OK (tt, st') /\ mrepr own st' (<[a := v]> h).
Proof.
  intros Hr Ha Hv. pose proof (st64_spec (WordMem := mmu_mem own) st h a v Hr Ha Hv) as (st' & E & Hr'). exists st'. split; [|exact Hr'].
  rewrite <- E. destruct Ha as [w Ha], Hr as (Hok & Hc & Hh). destruct (Hh a w Ha) as (Hca & H8 & Ho & t & Ht & _).
  change (st64 a v st) with (vstore64 a v st). unfold vstore64. rewrite (mmu_phys_eq own st a t), H8 by done.
  change (0 =? 0) with true. cbv iota. apply (vstore_bytes own 8); try done. divlia.
Qed.

(** ** The heap *)

(** A cell that is neither in the heap nor its list's first pointer. *)
Definition outside (flp lo : Z) (l : list tile) (x : Z) : Prop := x <> flp /\ (x < lo \/ lo + total l <= x).

Lemma outside_foreign flp lo l x : outside flp lo l x -> foreign flp lo l x.
Proof. by right. Qed.
Lemma heap_ok_outside h flp lo l x v : heap_ok h flp lo l -> outside flp lo l x -> heap_ok (<[x := v]> h) flp lo l.
Proof.
  intros [[Hlo Hhi Ht Hflp Hd Hh Hl] Hco] [Hx Hox]. split; [|done]. constructor; try done.
  - intros a Ha Ha8. rewrite lookup_insert_ne by lia. by apply Hd.
  - apply (headers_ext h); [done..|]. intros a Ha. left. rewrite lookup_insert_ne by lia. done.
  - apply (linked_move h _ flp); [done|by rewrite lookup_insert_ne|]. intros a Ha. apply (frees_bounds _ _ _ Ht) in Ha.
    rewrite lookup_insert_ne by lia. done.
Qed.

(** What a request leaves: null and the heap as it was when nothing fits,
    otherwise a used block of at least [size] bytes in place of the first free
    block that fits, with the rest of that block after it. *)
Definition serves (lo : Z) (l : list tile) (size p : Z) (l' : list tile) : Prop :=
  let req := ALIGN_UP (size + HDR) in
  match first_fit req lo l with
  | None => p = 0 /\ l' = l
  | Some (l1, b, sz, l2) =>
      p = b + HDR /\ b = lo + total l1 /\ exists bs rest, carve req sz = Used bs :: rest /\ HDR + size <= bs /\ l' = l1 ++ Used bs :: rest ++ l2
  end.

Lemma serves_spec lo l size p l' : serves lo l size p l' -> l = l' /\ p = 0 \/
  exists l1 sz bs rest l2, l = l1 ++ Free sz :: l2 /\ l' = l1 ++ Used bs :: rest ++ l2 /\ p = lo + total l1 + HDR /\
    carve (ALIGN_UP (size + HDR)) sz = Used bs :: rest /\ total (Used bs :: rest) = sz.
Proof.
  unfold serves. destruct (first_fit _ lo l) as [[[[l1 b] sz] l2]|] eqn:E; [|by intros [-> ->]; left].
  intros (-> & -> & bs & rest & Ec & _ & ->). apply first_fit_spec in E as (-> & _ & _). right. exists l1, sz, bs, rest, l2.
  split_and!; try done. rewrite <- Ec. apply carve_total.
Qed.
Lemma serves_total lo l size p l' : serves lo l size p l' -> total l' = total l.
Proof.
  intros [[-> _]|(l1 & sz & bs & rest & l2 & -> & -> & _ & _ & Ht)]%serves_spec; [done|].
  rewrite total_app, app_comm_cons, total_app, Ht, total_app. done.
Qed.

(** ** The calls *)

(** The heap of the running process: which list [data->is_kernel] selects and
    the tiling it describes. *)
Record program_heap (own : Z -> bool) (s : os_state) (h : gmap Z Z) (d lo : Z) (l : list tile) : Prop := {
  ph_init : kernel_heap_initialized (kern (lsched (o_prog s))) = true;
  ph_mem : mrepr own (o_mem s) h;
  ph_heap : heap_ok h d lo l;
  ph_flag : exists w, h !! ad_is_kernel data = Some w /\ d = (if Z.land w 255 =? 0 then data else kernel_data);
  ph_out : outside d lo l (ad_is_kernel data)
}.

Lemma wp_on_heap {A} (Q : A -> os_state -> Prop) msg (m : M vmm_state A) s : kernel_heap_initialized (kern (lsched (o_prog s))) = true ->
  wp m (fun a v => Q a (set_mem v s)) (o_mem s) -> wp (in_oalloc (require_init msg (in_vmm m))) Q s.
Proof.
  intros Hi (a & v & E & HQ)%wp_OK. apply wp_OK. exists a, (set_mem v s). split; [|exact HQ].
  unfold in_oalloc, in_osched, in_prog, in_lsched, in_kern, zoom, require_init, bind, gets. cbn [obind]. rewrite Hi. cbn [negb].
  unfold in_vmm, zoom. change (avmm (kern (lsched (o_prog s)))) with (o_mem s). by rewrite E.
Qed.

Section Calls.
Context (fuel : nat) (stack : file_metadata_t) (own : Z -> bool).
#[local] Instance sys : SysOps os_state := os_sys fuel stack.

Lemma wp_sys_malloc (Q : Z -> os_state -> Prop) s h d lo l size : program_heap own s h d lo l -> 0 < size <= 2 ^ 64 - 24 -> (length (frees lo l) < fuel)%nat ->
  (forall p v h' l', serves lo l size p l' -> in_range 64 p -> program_heap own (set_mem v s) h' d lo l' ->
     (forall x, foreign d lo l x -> h' !! x = h !! x) -> Q p (set_mem v s)) ->
  wp (sys_malloc size) Q s.
Proof.
  intros [Hi Hr Hok (w & Hw & ->) Hout] Hsz Hf HQ. set (d := if Z.land w 255 =? 0 then data else kernel_data) in *. apply wp_on_heap; [done|].
  apply wp_bind, (wp_current_data own _ _ _ _ Hr Hw). fold d.
  refine (wp_mono _ _ _ _ (malloc_internal_ok (H0 := mmu_mem own) _ h d lo l size fuel Hr Hok Hsz Hf) _).
  intros p v Hp. cbv zeta in Hp.
  assert (exists h' l', serves lo l size p l' /\ mrepr own v h' /\ heap_ok h' d lo l' /\ forall x, foreign d lo l x -> h' !! x = h !! x)
    as (h' & l' & Hs & Hr' & Hok' & Hfr).
  { unfold serves. destruct (first_fit _ lo l) as [[[[l1 b] sz] l2]|].
    - destruct Hp as (-> & _ & -> & h' & bs & rest & Hr' & Ec & Hbs & Hok' & Hfr). rewrite Ec in Hok'. exists h', (l1 ++ Used bs :: rest ++ l2). eauto 10.
    - destruct Hp as [-> ->]. by exists h, l. }
  apply (HQ p v h' l'); [done| |constructor; try done|done].
  - pose proof Hs as [[_ ->]|(l1 & sz & bs & rest & l2 & -> & _ & -> & _)]%serves_spec; [done|]. destruct Hok as [[[? _] ? Ht _ _ _ _] _].
    rewrite total_app, total_cons in *. apply Forall_app in Ht as [Ht1 [[? _] Ht2]%Forall_cons]. cbn [t_size] in *.
    pose proof (total_nonneg _ Ht1). pose proof (total_nonneg _ Ht2). unfold in_range, HDR, ALIGN in *. lia.
  - exists w. split; [|done]. rewrite Hfr; [done|]. by apply outside_foreign.
  - unfold outside. by rewrite (serves_total _ _ _ _ _ Hs).
Qed.

Lemma wp_sys_store (Q : unit -> os_state -> Prop) s h d lo l slot v : program_heap own s h d lo l -> is_Some (h !! slot) ->
  outside d lo l slot -> slot <> ad_is_kernel data -> in_range 64 v ->
  (forall m, program_heap own (set_mem m s) (<[slot := v]> h) d lo l -> Q tt (set_mem m s)) -> wp (sys_store 8 slot v) Q s.
Proof.
  intros [Hi Hr Hok (w & Hw & Hd) Hout] Hs Hos Hne Hv HQ. destruct (vstore_word own _ _ _ _ Hr Hs Hv) as (m & E & Hr').
  apply wp_zoom. eapply wp_step; [exact E|]. apply HQ. constructor; try done; [by apply heap_ok_outside|].
  exists w. by rewrite lookup_insert_ne.
Qed.

Lemma wp_sys_free (Q : unit -> os_state -> Prop) s h d lo l1 sz l2 : program_heap own s h d lo (l1 ++ Used sz :: l2) -> (length (frees lo l1) < fuel)%nat ->
  (forall v h', mrepr own (o_mem (set_mem v s)) h' -> heap_ok h' d lo (release l1 sz l2) ->
     (forall x, others d lo l1 sz l2 x -> h' !! x = h !! x) -> Q tt (set_mem v s)) ->
  wp (sys_free (lo + total l1 + HDR)) Q s.
Proof.
  intros [Hi Hr Hok (w & Hw & ->) Hout] Hf HQ. set (d := if Z.land w 255 =? 0 then data else kernel_data) in *. apply wp_on_heap; [done|].
  apply wp_bind, (wp_current_data own _ _ _ _ Hr Hw). fold d.
  refine (wp_mono _ _ _ _ (free_internal_ok (H0 := mmu_mem own) _ h d lo l1 sz l2 fuel Hr Hok Hf) _).
  intros [] v (h' & Hr' & Hok' & Hfr). by apply (HQ v h').
Qed.
End Calls.

(** [malloc] and [free] of the shell; [slot] is the address of its variable [ptr]. *)
Definition program_malloc (fuel : nat) (stack : file_metadata_t) clobber entry (slot size : Z) : M (machine * os_state) Z :=
  syscall (H := os_sys fuel stack) clobber entry 10 size slot 0 ;;;
  zoom snd (fun s x => (fst x, s)) (in_omem (vload64 slot)).
Definition program_free (fuel : nat) (stack : file_metadata_t) clobber entry (ptr : Z) : M (machine * os_state) unit :=
  syscall (H := os_sys fuel stack) clobber entry 11 ptr 0 0 ;;; ret tt.

Lemma length_frees lo l : (length (frees lo l) <= length l)%nat.
Proof. revert lo. induction l as [|t l IH]; intros lo; cbn; [lia|]. specialize (IH (lo + t_size t)). destruct (t_used t); cbn; lia. Qed.

(** Freeing the block a request was given restores the tiling. *)
Lemma wp_program_free fuel stack clobber entry own m s h d lo l size p l' : program_heap own s h d lo l' -> coalesced l -> serves lo l size p l' ->
  p <> 0 -> (length l < fuel)%nat -> selectors_ok (core m) ->
  wp (program_free fuel stack clobber entry p) (fun _ y => exists v h', snd y = set_mem v s /\ mrepr own v h' /\ heap_ok h' d lo l /\
    forall x, foreign d lo l x -> h' !! x = h !! x) (m, s).
Proof.
  intros Hph Hco Hs Hp Hf Hsel. apply serves_spec in Hs as [[_ Hp0]|(l1 & sz & bs & rest & l2 & -> & -> & -> & Ec & Ht)]; [destruct (Hp Hp0)|].
  apply wp_bind, (wp_syscall fuel stack); [done|done|]. cbn [syscall_switch]. apply wp_bind.
  apply (wp_sys_free fuel stack own _ s h d lo l1 bs (rest ++ l2) Hph).
  { pose proof (length_frees lo l1). rewrite length_app in Hf. lia. }
  intros v h' Hr' Hok' Hfr. rewrite (release_carve _ _ _ _ _ _ Hco Ec) in Hok'. apply wp_ret. intros m' _. apply wp_ret.
  exists v, h'. split; [done|]. split; [exact Hr'|]. split; [exact Hok'|].
  intros x Hx. apply Hfr. unfold foreign in Hx. unfold others.
  rewrite owned_app, total_app, total_cons in Hx. cbn in Hx, Ht. rewrite owned_app, total_app.
  replace (lo + total l1 + bs + total rest) with (lo + total l1 + sz) by lia.
  destruct Hx as [[?|[[? _]|?]]|?]; [by left|done|by right; left; right|]. right; right. lia.
Qed.

(** C12: the heap a program sees. Its [malloc] passes the request through the
    gate and returns the pointer the kernel stored in its variable: null with
    the heap as it was when nothing fits, otherwise a block of at least [size]
    bytes at the first place that fits; only memory changes, and in it no used
    block and nothing outside the heap but that variable. Its [free] of the
    pointer then restores the heap it started from. *)
Theorem program_malloc_free fuel stack clobber entry own m s h d lo l slot size :
  program_heap own s h d lo l -> is_Some (h !! slot) -> outside d lo l slot -> slot <> ad_is_kernel data ->
  0 < size <= 2 ^ 64 - 24 -> (length l < fuel)%nat -> selectors_ok (core m) ->
  wp (program_malloc fuel stack clobber entry slot size)
     (fun p x => (exists v h' l', snd x = set_mem v s /\ serves lo l size p l' /\ program_heap own (snd x) h' d lo l' /\
          h' !! slot = Some p /\ forall a, foreign d lo l a -> a <> slot -> h' !! a = h !! a) /\
        (p <> 0 -> wp (program_free fuel stack clobber entry p)
           (fun _ y => exists v h', snd y = set_mem v s /\ mrepr own v h' /\ heap_ok h' d lo l /\
              forall a, foreign d lo l a -> a <> slot -> h' !! a = h !! a) x)) (m, s).
Proof.
  intros Hph Hslot Hout Hne Hsz Hf Hsel. apply wp_bind, (wp_syscall fuel stack); [done|done|]. cbn [syscall_switch]. apply wp_bind, wp_bind.
  apply (wp_sys_malloc fuel stack own _ s h d lo l size Hph Hsz); [pose proof (length_frees lo l); lia|].
  intros p v h1 l' Hs Hp Hph1 Hfr. pose proof (serves_total _ _ _ _ _ Hs) as Et.
  apply (wp_sys_store fuel stack own _ _ h1 d lo l' slot p Hph1); [|by unfold outside; rewrite Et|done|done|].
  { rewrite Hfr; [done|]. by apply outside_foreign. }
  intros v2 Hph2. apply wp_ret. intros m' Hsel'.
  assert (forall a, foreign d lo l a -> a <> slot -> <[slot := p]> h1 !! a = h !! a) as Hfr2.
  { intros a Ha Has. rewrite lookup_insert_ne by done. by apply Hfr. }
  apply wp_zoom. eapply wp_step.
  { apply omem_step, (ld64_spec (WordMem := mmu_mem own) _ (<[slot := p]> h1)); [apply Hph2|apply lookup_insert_eq]. }
  cbn [fst snd]. split.
  { exists v2, (<[slot := p]> h1), l'. split_and!; try done. apply lookup_insert_eq. }
  intros Hp0. eapply wp_mono; [eapply (wp_program_free _ _ _ _ own _ _ _ d lo l size p l'); [exact Hph2|apply Hph|done..]|].
  intros [] y (v3 & h3 & Ey & Hr3 & Hok3 & Hfr3). exists v3, h3. split; [exact Ey|]. split_and!; [done|done|].
  intros a Ha Has. rewrite Hfr3 by done. by apply Hfr2.
Qed.

(** Every aligned word of a mapped page can be looked at. *)
Lemma mrepr_same_page own st h a w b : mrepr own st h -> h !! a = Some w -> vpath b = vpath a -> canonical b = true -> b mod 8 = 0 ->
  exists v, mrepr own st (<[b := v]> h).
Proof.
  intros (Hok & Hc & Hh) Ha Hv Hcb H8. destruct (Hh a w Ha) as (_ & _ & Ho & t & Ht & _).
  assert (own (PML4_INDEX b) = true) as Hob by (injection Hv as -> _ _ _; done).
  exists (rd64 (ram (pmm st)) (t + b mod 4096)). split; [done|]. split; [done|].
  intros x u [[<- <-]|[_ Hx]]%lookup_insert_Some; [|by apply Hh]. rewrite Hv. eauto 10.
Qed.

Definition heap_os (k : alloc_state) : os_state := mk_os (mk_loader (mk_sched k ∅ 0 0 0) demo_bheap) (mk_fs ∅ 2000 true None demo_bheap []) demo_screen 0.
Lemma demo_program_heap : exists k h, program_heap all_own (heap_os k) h kernel_data HEAP_START_KERNEL [Free 4096] /\ is_Some (h !! (data + 64)).
Proof.
  destruct demo_heap_ready as (k & h & w & Hi & Hr & Hok & Hw & Ew). exists k.
  destruct (mrepr_same_page all_own _ h _ w (data + 64) Hr Hw) as [v Hr']; [by vm_compute..|]. exists (<[data + 64 := v]> h).
  assert (forall x, x = data + 64 \/ x = ad_is_kernel data -> outside kernel_data HEAP_START_KERNEL [Free 4096] x) as Hout.
  { intros x Hx. unfold ad_is_kernel, data, kernel_data, HEAP_START, HEAP_START_KERNEL, PAGE_SIZE in *. split; [lia|left; lia]. }
  split; [|by rewrite lookup_insert_eq]. constructor; [done|done| | |].
  - apply heap_ok_outside; [done|]. apply Hout. by left.
  - exists w. rewrite Ew. split; [|done]. by rewrite lookup_insert_ne by (unfold ad_is_kernel; lia).
  - apply Hout. by right.
Qed.

(** A program asks for 100 bytes of a fresh heap. *)
Lemma program_malloc_free_witness : exists k x h',
  program_malloc 4 (mk_meta 0 0 []) (fun g _ => 0) 0x3000 (data + 64) 100 (user_machine, heap_os k) = OK (HEAP_START_KERNEL + 16, x) /\
  h' !! (data + 64) = Some (HEAP_START_KERNEL + 16) /\ program_heap all_own (snd x) h' kernel_data HEAP_START_KERNEL [Used 120; Free 3976].
Proof.
  destruct demo_program_heap as (k & h & Hph & Hs). exists k.
  assert (outside kernel_data HEAP_START_KERNEL [Free 4096] (data + 64)) as Hout.
  { split; [discriminate|left; vm_compute; reflexivity]. }
  pose proof (program_malloc_free 4 (mk_meta 0 0 []) (fun g _ => 0) 0x3000 all_own user_machine (heap_os k) h kernel_data HEAP_START_KERNEL
    [Free 4096] (data + 64) 100 Hph Hs Hout ltac:(discriminate) ltac:(lia) ltac:(cbn; lia) ltac:(by split)) as Hm.
  destruct (proj1 (wp_OK _ _ _) Hm) as (p & x & R & (v & h' & l' & _ & Hse & Hph' & Hsl & _) & _).
  unfold serves in Hse. change (first_fit _ _ _) with (Some ([] : list tile, HEAP_START_KERNEL, 4096, [] : list tile)) in Hse.
  destruct Hse as (-> & _ & bs & rest & Ec & _ & ->). change (carve _ _) with [Used 120; Free 3976] in Ec. injection Ec as <- <-.
  exists x, h'. exact (conj R (conj Hsl Hph')).
Defined.
